(** * Tegra DVFS rail resolver and ramp engine: a shallow embedding

    The definitions below follow [drivers/soc/tegra/tegra-dvfs.c] function by
    function.  Rails, clocks ([struct dvfs]) and relationships live in arenas
    (lists) of one [world]; a C pointer to one of them is its index.  The
    regulator is an external device: each [regulator_set_voltage] call is
    appended to a log and its return code is read from an oracle carried by
    the world.  [int] arithmetic wraps at 32 bits, a division by zero, an
    out-of-bounds array read or a dangling pointer is a [Fault], and the
    mutual recursion between [dvfs_rail_update] and [dvfs_rail_set_voltage] is
    bounded by fuel. *)

From Stdlib Require Import ZArith Bool List Lia String.
From stdpp Require Import base list.
Import ListNotations.

Local Open Scope Z_scope.

(** ** Results of running driver code *)

Inductive result (A : Type) : Type :=
| Ok (a : A)
| Fault
| OutOfFuel.

Arguments Ok {A} a.
Arguments Fault {A}.
Arguments OutOfFuel {A}.

Definition rbind {A B : Type} (m : result A) (k : A -> result B) : result B :=
  match m with
  | Ok a => k a
  | Fault => Fault
  | OutOfFuel => OutOfFuel
  end.

Notation "'let*' x ':=' m 'in' k" := (rbind m (fun x => k))
  (at level 10, x name, m at level 100, k at level 200, only parsing).
Notation "'let*' ' pat ':=' m 'in' k" := (rbind m (fun x => match x with pat => k end))
  (at level 10, pat pattern, m at level 100, k at level 200, only parsing).

Definition of_option {A : Type} (o : option A) : result A :=
  match o with
  | Some a => Ok a
  | None => Fault
  end.

(** ** C [int] arithmetic (32 bits, two's complement, wrapping) *)

Definition INT_MIN : Z := -2147483648.
Definition INT_MAX : Z := 2147483647.

Definition wrap_int (x : Z) : Z := (x + 2147483648) mod 4294967296 - 2147483648.

Definition int_add (a b : Z) : Z := wrap_int (a + b).
Definition int_sub (a b : Z) : Z := wrap_int (a - b).
Definition int_mul (a b : Z) : Z := wrap_int (a * b).
Definition int_neg (a : Z) : Z := wrap_int (- a).

(** The kernel's [abs()] on an [int]: [x < 0 ? -x : x]. *)
Definition int_abs (a : Z) : Z := if a <? 0 then int_neg a else a.

(** [a / b] truncates toward zero; [b == 0] and [INT_MIN / -1] trap. *)
Definition int_div (a b : Z) : result Z :=
  if b =? 0 then Fault
  else if (a =? INT_MIN) && (b =? -1) then Fault
  else Ok (Z.quot a b).

(** [DIV_ROUND_UP(n, d)] is [((n) + (d) - 1) / (d)]. *)
Definition DIV_ROUND_UP (n d : Z) : result Z :=
  int_div (int_sub (int_add n d) 1) d.

(** [clamp_val(val, lo, hi)] is [min(max(val, lo), hi)]. *)
Definition clamp_val (val lo hi : Z) : Z := Z.min (Z.max val lo) hi.

(** [ktime_t] is a signed 64-bit count. *)
Definition wrap_s64 (x : Z) : Z :=
  (x + 9223372036854775808) mod 18446744073709551616 - 9223372036854775808.
Definition ktime_add (a b : Z) : Z := wrap_s64 (a + b).
Definition ktime_sub (a b : Z) : Z := wrap_s64 (a - b).

(** Linux errno values. *)
Definition EPERM : Z := 1.
Definition ENOENT : Z := 2.
Definition ENODEV : Z := 19.
Definition EINVAL : Z := 22.

(** Reading [a[i]] for an [int] index. *)
Definition array_get {A : Type} (a : list A) (i : Z) : result A :=
  if i <? 0 then Fault else of_option (a !! Z.to_nat i).

(** ** Data model *)

Record dvfs_therm_limits : Type := {
  temperature : Z;
  mv : Z
}.

Record rail_stats : Type := {
  time_at_mv : list Z;
  last_update : Z;
  last_index : Z;
  off : bool;
  bin_uv : Z
}.

(** [struct dvfs_rail].  [reg] is the regulator handle ([None] is NULL);
    [dvfs_list] (the list head [dvfs] of the C struct), [relationships_from]
    and [relationships_to] are the three lists, in list order. *)
Record dvfs_rail : Type := {
  reg_id : string;
  reg : option nat;
  millivolts : Z;
  new_millivolts : Z;
  min_millivolts : Z;
  max_millivolts : Z;
  nominal_millivolts : Z;
  disable_millivolts : Z;
  suspend_millivolts : Z;
  override_millivolts : Z;
  step : Z;
  step_up : Z;
  disabled : bool;
  suspended : bool;
  dfll_mode : bool;
  resolving_to : bool;
  jmp_to_zero : bool;
  in_band_pm : bool;
  is_ready : bool;
  therm_floors : option (list dvfs_therm_limits);
  therm_floors_size : Z;
  therm_floor_idx : Z;
  therm_caps : option (list dvfs_therm_limits);
  therm_caps_size : Z;
  therm_cap_idx : Z;
  dvfs_list : list nat;
  relationships_from : list nat;
  relationships_to : list nat;
  stats : rail_stats
}.

(** [struct dvfs]: one clock's frequency/voltage requirement.  The fields
    [dvfs_rail], [millivolts] and [max_millivolts] of the C struct are
    [d_dvfs_rail], [d_millivolts] and [d_max_millivolts] here. *)
Record dvfs : Type := {
  clk : option nat;
  clk_name : string;
  d_dvfs_rail : nat;
  freqs : list Z;
  alt_freqs : option (list Z);
  d_millivolts : option (list Z);
  dfll_millivolts : option (list Z);
  num_freqs : Z;
  cur_rate : Z;
  cur_millivolts : Z;
  d_max_millivolts : Z;
  use_alt_freqs : bool;
  use_dfll_rate_min : Z;
  range : Z
}.

(** [struct dvfs_relationship]; [solve] reads the two rails it is handed. *)
Record dvfs_relationship : Type := {
  from : nat;
  to : nat;
  solved_at_nominal : bool;
  solve : dvfs_rail -> dvfs_rail -> Z
}.

(** One [regulator_set_voltage(reg, min_uV, max_uV)] call and what it
    returned; [rw_rail] is the rail on whose behalf it was made. *)
Record reg_write : Type := {
  rw_rail : nat;
  rw_reg : nat;
  rw_min_uV : Z;
  rw_max_uV : Z;
  rw_ret : Z
}.

(** What [<soc/tegra/tegra-dvfs.h>] supplies to the functions below.  The
    header is not among the sources, so its constant and its two inline
    predicates are parameters; the predicates read the clock and, through
    [d->dvfs_rail], the rails. *)
Record header : Type := {
  DVFS_RAIL_STATS_TOP_BIN : Z;
  tegra_dvfs_is_dfll_scale : list dvfs_rail -> dvfs -> Z -> bool;
  tegra_dvfs_is_dfll_range_entry : list dvfs_rail -> dvfs -> Z -> bool
}.

Record world : Type := {
  hdr : header;
  rails : list dvfs_rail;
  clocks : list dvfs;
  rels : list dvfs_relationship;
  tegra_core_rail : option nat;
  core_dvfs_started : bool;
  ktime : Z;
  reg_log : list reg_write;
  regulator_set_voltage : list reg_write -> nat -> Z -> Z -> Z
}.

(** ** Field assignments

    [set_f v x] is [x] after the store [x.f = v]. *)

Definition set_millivolts (v : Z) (rail : dvfs_rail) : dvfs_rail :=
  {| reg_id := reg_id rail; reg := reg rail; millivolts := v;
     new_millivolts := new_millivolts rail; min_millivolts := min_millivolts rail;
     max_millivolts := max_millivolts rail;
     nominal_millivolts := nominal_millivolts rail;
     disable_millivolts := disable_millivolts rail;
     suspend_millivolts := suspend_millivolts rail;
     override_millivolts := override_millivolts rail; step := step rail;
     step_up := step_up rail; disabled := disabled rail; suspended := suspended rail;
     dfll_mode := dfll_mode rail; resolving_to := resolving_to rail;
     jmp_to_zero := jmp_to_zero rail; in_band_pm := in_band_pm rail;
     is_ready := is_ready rail; therm_floors := therm_floors rail;
     therm_floors_size := therm_floors_size rail;
     therm_floor_idx := therm_floor_idx rail; therm_caps := therm_caps rail;
     therm_caps_size := therm_caps_size rail; therm_cap_idx := therm_cap_idx rail;
     dvfs_list := dvfs_list rail; relationships_from := relationships_from rail;
     relationships_to := relationships_to rail; stats := stats rail |}.

Definition set_new_millivolts (v : Z) (rail : dvfs_rail) : dvfs_rail :=
  {| reg_id := reg_id rail; reg := reg rail; millivolts := millivolts rail;
     new_millivolts := v; min_millivolts := min_millivolts rail;
     max_millivolts := max_millivolts rail;
     nominal_millivolts := nominal_millivolts rail;
     disable_millivolts := disable_millivolts rail;
     suspend_millivolts := suspend_millivolts rail;
     override_millivolts := override_millivolts rail; step := step rail;
     step_up := step_up rail; disabled := disabled rail; suspended := suspended rail;
     dfll_mode := dfll_mode rail; resolving_to := resolving_to rail;
     jmp_to_zero := jmp_to_zero rail; in_band_pm := in_band_pm rail;
     is_ready := is_ready rail; therm_floors := therm_floors rail;
     therm_floors_size := therm_floors_size rail;
     therm_floor_idx := therm_floor_idx rail; therm_caps := therm_caps rail;
     therm_caps_size := therm_caps_size rail; therm_cap_idx := therm_cap_idx rail;
     dvfs_list := dvfs_list rail; relationships_from := relationships_from rail;
     relationships_to := relationships_to rail; stats := stats rail |}.

Definition set_resolving_to (v : bool) (rail : dvfs_rail) : dvfs_rail :=
  {| reg_id := reg_id rail; reg := reg rail; millivolts := millivolts rail;
     new_millivolts := new_millivolts rail; min_millivolts := min_millivolts rail;
     max_millivolts := max_millivolts rail;
     nominal_millivolts := nominal_millivolts rail;
     disable_millivolts := disable_millivolts rail;
     suspend_millivolts := suspend_millivolts rail;
     override_millivolts := override_millivolts rail; step := step rail;
     step_up := step_up rail; disabled := disabled rail; suspended := suspended rail;
     dfll_mode := dfll_mode rail; resolving_to := v; jmp_to_zero := jmp_to_zero rail;
     in_band_pm := in_band_pm rail; is_ready := is_ready rail;
     therm_floors := therm_floors rail; therm_floors_size := therm_floors_size rail;
     therm_floor_idx := therm_floor_idx rail; therm_caps := therm_caps rail;
     therm_caps_size := therm_caps_size rail; therm_cap_idx := therm_cap_idx rail;
     dvfs_list := dvfs_list rail; relationships_from := relationships_from rail;
     relationships_to := relationships_to rail; stats := stats rail |}.

Definition set_stats (v : rail_stats) (rail : dvfs_rail) : dvfs_rail :=
  {| reg_id := reg_id rail; reg := reg rail; millivolts := millivolts rail;
     new_millivolts := new_millivolts rail; min_millivolts := min_millivolts rail;
     max_millivolts := max_millivolts rail;
     nominal_millivolts := nominal_millivolts rail;
     disable_millivolts := disable_millivolts rail;
     suspend_millivolts := suspend_millivolts rail;
     override_millivolts := override_millivolts rail; step := step rail;
     step_up := step_up rail; disabled := disabled rail; suspended := suspended rail;
     dfll_mode := dfll_mode rail; resolving_to := resolving_to rail;
     jmp_to_zero := jmp_to_zero rail; in_band_pm := in_band_pm rail;
     is_ready := is_ready rail; therm_floors := therm_floors rail;
     therm_floors_size := therm_floors_size rail;
     therm_floor_idx := therm_floor_idx rail; therm_caps := therm_caps rail;
     therm_caps_size := therm_caps_size rail; therm_cap_idx := therm_cap_idx rail;
     dvfs_list := dvfs_list rail; relationships_from := relationships_from rail;
     relationships_to := relationships_to rail; stats := v |}.

Definition set_suspended (v : bool) (rail : dvfs_rail) : dvfs_rail :=
  {| reg_id := reg_id rail; reg := reg rail; millivolts := millivolts rail;
     new_millivolts := new_millivolts rail; min_millivolts := min_millivolts rail;
     max_millivolts := max_millivolts rail;
     nominal_millivolts := nominal_millivolts rail;
     disable_millivolts := disable_millivolts rail;
     suspend_millivolts := suspend_millivolts rail;
     override_millivolts := override_millivolts rail; step := step rail;
     step_up := step_up rail; disabled := disabled rail; suspended := v;
     dfll_mode := dfll_mode rail; resolving_to := resolving_to rail;
     jmp_to_zero := jmp_to_zero rail; in_band_pm := in_band_pm rail;
     is_ready := is_ready rail; therm_floors := therm_floors rail;
     therm_floors_size := therm_floors_size rail;
     therm_floor_idx := therm_floor_idx rail; therm_caps := therm_caps rail;
     therm_caps_size := therm_caps_size rail; therm_cap_idx := therm_cap_idx rail;
     dvfs_list := dvfs_list rail; relationships_from := relationships_from rail;
     relationships_to := relationships_to rail; stats := stats rail |}.

Definition set_therm_floor_idx (v : Z) (rail : dvfs_rail) : dvfs_rail :=
  {| reg_id := reg_id rail; reg := reg rail; millivolts := millivolts rail;
     new_millivolts := new_millivolts rail; min_millivolts := min_millivolts rail;
     max_millivolts := max_millivolts rail;
     nominal_millivolts := nominal_millivolts rail;
     disable_millivolts := disable_millivolts rail;
     suspend_millivolts := suspend_millivolts rail;
     override_millivolts := override_millivolts rail; step := step rail;
     step_up := step_up rail; disabled := disabled rail; suspended := suspended rail;
     dfll_mode := dfll_mode rail; resolving_to := resolving_to rail;
     jmp_to_zero := jmp_to_zero rail; in_band_pm := in_band_pm rail;
     is_ready := is_ready rail; therm_floors := therm_floors rail;
     therm_floors_size := therm_floors_size rail; therm_floor_idx := v;
     therm_caps := therm_caps rail; therm_caps_size := therm_caps_size rail;
     therm_cap_idx := therm_cap_idx rail; dvfs_list := dvfs_list rail;
     relationships_from := relationships_from rail;
     relationships_to := relationships_to rail; stats := stats rail |}.

Definition set_therm_cap_idx (v : Z) (rail : dvfs_rail) : dvfs_rail :=
  {| reg_id := reg_id rail; reg := reg rail; millivolts := millivolts rail;
     new_millivolts := new_millivolts rail; min_millivolts := min_millivolts rail;
     max_millivolts := max_millivolts rail;
     nominal_millivolts := nominal_millivolts rail;
     disable_millivolts := disable_millivolts rail;
     suspend_millivolts := suspend_millivolts rail;
     override_millivolts := override_millivolts rail; step := step rail;
     step_up := step_up rail; disabled := disabled rail; suspended := suspended rail;
     dfll_mode := dfll_mode rail; resolving_to := resolving_to rail;
     jmp_to_zero := jmp_to_zero rail; in_band_pm := in_band_pm rail;
     is_ready := is_ready rail; therm_floors := therm_floors rail;
     therm_floors_size := therm_floors_size rail;
     therm_floor_idx := therm_floor_idx rail; therm_caps := therm_caps rail;
     therm_caps_size := therm_caps_size rail; therm_cap_idx := v;
     dvfs_list := dvfs_list rail; relationships_from := relationships_from rail;
     relationships_to := relationships_to rail; stats := stats rail |}.

Definition set_use_alt_freqs (v : bool) (d : dvfs) : dvfs :=
  {| clk := clk d; clk_name := clk_name d; d_dvfs_rail := d_dvfs_rail d;
     freqs := freqs d; alt_freqs := alt_freqs d; d_millivolts := d_millivolts d;
     dfll_millivolts := dfll_millivolts d; num_freqs := num_freqs d;
     cur_rate := cur_rate d; cur_millivolts := cur_millivolts d;
     d_max_millivolts := d_max_millivolts d; use_alt_freqs := v;
     use_dfll_rate_min := use_dfll_rate_min d; range := range d |}.

Definition set_cur_rate (v : Z) (d : dvfs) : dvfs :=
  {| clk := clk d; clk_name := clk_name d; d_dvfs_rail := d_dvfs_rail d;
     freqs := freqs d; alt_freqs := alt_freqs d; d_millivolts := d_millivolts d;
     dfll_millivolts := dfll_millivolts d; num_freqs := num_freqs d; cur_rate := v;
     cur_millivolts := cur_millivolts d; d_max_millivolts := d_max_millivolts d;
     use_alt_freqs := use_alt_freqs d; use_dfll_rate_min := use_dfll_rate_min d;
     range := range d |}.

Definition set_cur_millivolts (v : Z) (d : dvfs) : dvfs :=
  {| clk := clk d; clk_name := clk_name d; d_dvfs_rail := d_dvfs_rail d;
     freqs := freqs d; alt_freqs := alt_freqs d; d_millivolts := d_millivolts d;
     dfll_millivolts := dfll_millivolts d; num_freqs := num_freqs d;
     cur_rate := cur_rate d; cur_millivolts := v; d_max_millivolts := d_max_millivolts d;
     use_alt_freqs := use_alt_freqs d; use_dfll_rate_min := use_dfll_rate_min d;
     range := range d |}.

Definition set_rails (v : list dvfs_rail) (w : world) : world :=
  {| hdr := hdr w; rails := v; clocks := clocks w; rels := rels w;
     tegra_core_rail := tegra_core_rail w; core_dvfs_started := core_dvfs_started w;
     ktime := ktime w; reg_log := reg_log w;
     regulator_set_voltage := regulator_set_voltage w |}.

Definition set_clocks (v : list dvfs) (w : world) : world :=
  {| hdr := hdr w; rails := rails w; clocks := v; rels := rels w;
     tegra_core_rail := tegra_core_rail w; core_dvfs_started := core_dvfs_started w;
     ktime := ktime w; reg_log := reg_log w;
     regulator_set_voltage := regulator_set_voltage w |}.

Definition set_reg_log (v : list reg_write) (w : world) : world :=
  {| hdr := hdr w; rails := rails w; clocks := clocks w; rels := rels w;
     tegra_core_rail := tegra_core_rail w; core_dvfs_started := core_dvfs_started w;
     ktime := ktime w; reg_log := v; regulator_set_voltage := regulator_set_voltage w |}.

Definition set_regulator_set_voltage (v : list reg_write -> nat -> Z -> Z -> Z)
    (w : world) : world :=
  {| hdr := hdr w; rails := rails w; clocks := clocks w; rels := rels w;
     tegra_core_rail := tegra_core_rail w; core_dvfs_started := core_dvfs_started w;
     ktime := ktime w; reg_log := reg_log w; regulator_set_voltage := v |}.

(** ** Pointers into the arenas *)

Definition get_rail (w : world) (r : nat) : result dvfs_rail :=
  of_option (rails w !! r).

Definition get_dvfs (w : world) (d : nat) : result dvfs :=
  of_option (clocks w !! d).

Definition get_rel (w : world) (k : nat) : result dvfs_relationship :=
  of_option (rels w !! k).

(** [upd_rail r f w] is the store [*r = f( *r )]. *)
Definition upd_rail (r : nat) (f : dvfs_rail -> dvfs_rail) (w : world) : world :=
  set_rails (alter f r (rails w)) w.

Definition upd_dvfs (d : nat) (f : dvfs -> dvfs) (w : world) : world :=
  set_clocks (alter f d (clocks w)) w.

(** [rail->reg != NULL]. *)
Definition has_reg (rail : dvfs_rail) : bool :=
  match reg rail with
  | Some _ => true
  | None => false
  end.

(** ** Rail statistics *)

(** The bin of a voltage at or above the rail minimum:
    [1 + (2 * (millivolts - min) * 1000 + bin_uv) / (2 * bin_uv)], capped at
    [DVFS_RAIL_STATS_TOP_BIN]. *)
Definition stats_bin (top : Z) (rail : dvfs_rail) (mvolts : Z) : result Z :=
  let* q :=
    int_div
      (int_add (int_mul (int_mul 2 (int_sub mvolts (min_millivolts rail))) 1000)
               (bin_uv (stats rail)))
      (int_mul 2 (bin_uv (stats rail))) in
  Ok (Z.min (int_add 1 q) top).

Definition dvfs_rail_stats_update (top : Z) (rail : dvfs_rail) (mvolts now : Z)
  : result rail_stats :=
  let st := stats rail in
  let* t := array_get (time_at_mv st) (last_index st) in
  let time' := <[Z.to_nat (last_index st) :=
                   ktime_add t (ktime_sub now (last_update st))]> (time_at_mv st) in
  if off st then
    Ok {| time_at_mv := time'; last_update := now;
          last_index := last_index st; off := off st; bin_uv := bin_uv st |}
  else if mvolts >=? min_millivolts rail then
    let* i := stats_bin top rail mvolts in
    Ok {| time_at_mv := time'; last_update := now;
          last_index := i; off := off st; bin_uv := bin_uv st |}
  else if mvolts =? 0 then
    Ok {| time_at_mv := time'; last_update := now;
          last_index := 0; off := off st; bin_uv := bin_uv st |}
  else
    Ok {| time_at_mv := time'; last_update := now;
          last_index := last_index st; off := off st; bin_uv := bin_uv st |}.

(** [dvfs_rail_stats_update(rail, millivolts, ktime_get())] on rail [r]. *)
Definition rail_stats_update (r : nat) (mvolts : Z) (w : world) : result world :=
  let* rail := get_rail w r in
  let* st :=
    dvfs_rail_stats_update (DVFS_RAIL_STATS_TOP_BIN (hdr w)) rail mvolts (ktime w) in
  Ok (upd_rail r (set_stats st) w).

(** ** The ramp engine *)

Definition dvfs_rail_set_voltage_reg (r : nat) (mvolts : Z) (w : world)
  : result (world * Z) :=
  let* rail := get_rail w r in
  let* h := of_option (reg rail) in
  let min_uV := int_mul mvolts 1000 in
  let max_uV := int_mul (max_millivolts rail) 1000 in
  let ret := regulator_set_voltage w (reg_log w) h min_uV max_uV in
  Ok (set_reg_log (reg_log w ++ [ {| rw_rail := r; rw_reg := h; rw_min_uV := min_uV;
                                     rw_max_uV := max_uV; rw_ret := ret |} ]) w,
      ret).

(** [list_for_each_entry(rel, &rail->relationships_to, to_node)] calling
    [dvfs_rail_update(rel->to)] and leaving at the first nonzero return. *)
Fixpoint update_dependents (update : nat -> world -> result (world * Z))
    (ks : list nat) (w : world) : result (world * Z) :=
  match ks with
  | [] => Ok (w, 0)
  | k :: ks' =>
      let* rel := get_rel w k in
      let* '(w1, ret) := update (to rel) w in
      if ret =? 0 then update_dependents update ks' w1 else Ok (w1, ret)
  end.

(** One pass of the [for (i = 0; i < steps; i++)] body, then the rest of the
    loop.  A nonzero return code is the [goto out]. *)
Fixpoint set_voltage_steps (update : nat -> world -> result (world * Z))
    (r : nat) (mvolts stp offset : Z) (jmp : bool) (n : nat) (w : world)
  : result (world * Z) :=
  match n with
  | O => Ok (w, 0)
  | S n' =>
      let* rail := get_rail w r in
      let new_mv :=
        if negb jmp && (int_abs (int_sub mvolts (millivolts rail)) >? stp)
        then int_add (millivolts rail) offset
        else mvolts in
      let w1 := upd_rail r (set_new_millivolts new_mv) w in
      let* '(w2, ret) := update_dependents update (relationships_to rail) w1 in
      if negb (ret =? 0) then Ok (w2, ret) else
      let* rail2 := get_rail w2 r in
      let* '(w3, ret) := dvfs_rail_set_voltage_reg r (new_millivolts rail2) w2 in
      if negb (ret =? 0) then Ok (w3, ret) else
      let w4 := upd_rail r (fun x => set_millivolts (new_millivolts x) x) w3 in
      let* rail4 := get_rail w4 r in
      let* w5 := rail_stats_update r (millivolts rail4) w4 in
      let* '(w6, ret) := update_dependents update (relationships_to rail4) w5 in
      if negb (ret =? 0) then Ok (w6, ret) else
      set_voltage_steps update r mvolts stp offset jmp n' w6
  end.

(** [dvfs_rail_set_voltage(rail, millivolts)], with the [dvfs_rail_update] it
    calls on dependent rails as a parameter. *)
Definition dvfs_rail_set_voltage_body (update : nat -> world -> result (world * Z))
    (r : nat) (mvolts : Z) (w : world) : result (world * Z) :=
  let* rail := get_rail w r in
  match reg rail with
  | None =>
      if mvolts =? millivolts rail then Ok (w, 0) else Ok (w, - EINVAL)
  | Some _ =>
      let stp := if mvolts >? millivolts rail then step_up rail else step rail in
      let offset := if mvolts >? millivolts rail then stp else int_neg stp in
      if dfll_mode rail then
        let w1 :=
          upd_rail r (fun x => set_new_millivolts mvolts (set_millivolts mvolts x)) w in
        let* w2 := rail_stats_update r mvolts w1 in
        Ok (w2, 0)
      else if disabled rail then Ok (w, 0)
      else
        let w1 := upd_rail r (set_resolving_to true) w in
        let jmp := jmp_to_zero rail && ((mvolts =? 0) || (millivolts rail =? 0)) in
        let* steps :=
          if jmp || (in_band_pm rail && off (stats rail)) then Ok 1
          else DIV_ROUND_UP (int_abs (int_sub mvolts (millivolts rail))) stp in
        let* '(w2, ret) :=
          set_voltage_steps update r mvolts stp offset jmp (Z.to_nat steps) w1 in
        let* rail2 := get_rail w2 r in
        let ret' :=
          if negb (ret =? 0) then ret
          else if negb (millivolts rail2 =? mvolts) then - EINVAL
          else ret in
        Ok (upd_rail r (set_resolving_to false) w2, ret')
  end.

(** ** Limits *)

(** [dvfs_rail_apply_limits].  The limits are computed and handed to
    [clamp_val], whose value the statement [clamp_val(millivolts, min_mv,
    max_mv);] drops: what is returned is [millivolts], or the override. *)
Definition dvfs_rail_apply_limits (rail : dvfs_rail) (mvolts : Z) : result Z :=
  let* min_mv :=
    match therm_floors rail with
    | Some floors =>
        if therm_floor_idx rail <? therm_floors_size rail
        then let* l := array_get floors (therm_floor_idx rail) in Ok (mv l)
        else Ok (min_millivolts rail)
    | None => Ok (min_millivolts rail)
    end in
  let* max_mv :=
    match therm_caps rail with
    | Some caps =>
        if therm_cap_idx rail >? 0
        then let* l := array_get caps (therm_cap_idx rail - 1) in Ok (mv l)
        else Ok (max_millivolts rail)
    | None => Ok (max_millivolts rail)
    end in
  let mvolts := if negb (override_millivolts rail =? 0)
                then override_millivolts rail else mvolts in
  let _ := clamp_val mvolts min_mv max_mv in
  Ok mvolts.

(** ** The resolver *)

Definition dvfs_solve_relationship (w : world) (rel : dvfs_relationship) : result Z :=
  let* fr := get_rail w (from rel) in
  let* tr := get_rail w (to rel) in
  Ok (solve rel fr tr).

(** [list_for_each_entry(d, &rail->dvfs, reg_node)
       millivolts = max(d->cur_millivolts, millivolts);] *)
Fixpoint max_cur_millivolts (w : world) (ds : list nat) (mvolts : Z) : result Z :=
  match ds with
  | [] => Ok mvolts
  | d :: ds' =>
      let* c := get_dvfs w d in
      max_cur_millivolts w ds' (Z.max (cur_millivolts c) mvolts)
  end.

(** [list_for_each_entry(rel, &rail->relationships_from, from_node)
       rail->new_millivolts = dvfs_solve_relationship(rel);] *)
Fixpoint solve_relationships_from (r : nat) (ks : list nat) (w : world) : result world :=
  match ks with
  | [] => Ok w
  | k :: ks' =>
      let* rel := get_rel w k in
      let* v := dvfs_solve_relationship w rel in
      solve_relationships_from r ks' (upd_rail r (set_new_millivolts v) w)
  end.

(** The voltage [dvfs_rail_update] settles on before its retry loop:
    [None] when it returns early, keeping the current voltage. *)
Definition dvfs_rail_demand (w : world) (rail : dvfs_rail) : result (option Z) :=
  let* mvolts := max_cur_millivolts w (dvfs_list rail) 0 in
  if negb (mvolts =? 0) then
    let* m := dvfs_rail_apply_limits rail mvolts in Ok (Some m)
  else if in_band_pm rail then Ok None
  else if negb (jmp_to_zero rail) then Ok None
  else Ok (Some mvolts).

(** The retry loop [for (; steps >= 0; steps--)] with [n] passes left.  Next
    to the return code the result counts the passes made. *)
Fixpoint dvfs_rail_update_retry (set_voltage : nat -> Z -> world -> result (world * Z))
    (r : nat) (mvolts : Z) (n : nat) (ret : Z) (w : world)
  : result (world * (Z * nat)) :=
  match n with
  | O => Ok (w, (ret, O))
  | S n' =>
      let w1 := upd_rail r (set_new_millivolts mvolts) w in
      let* rail1 := get_rail w1 r in
      let* w2 := solve_relationships_from r (relationships_from rail1) w1 in
      let* rail2 := get_rail w2 r in
      if new_millivolts rail2 =? millivolts rail2 then Ok (w2, (ret, 1%nat))
      else
        let* '(w3, ret') := set_voltage r (new_millivolts rail2) w2 in
        let* '(w4, (ret'', passes)) :=
          dvfs_rail_update_retry set_voltage r mvolts n' ret' w3 in
        Ok (w4, (ret'', S passes))
  end.

(** [dvfs_rail_update(rail)], with the [dvfs_rail_set_voltage] it calls as a
    parameter. *)
Definition dvfs_rail_update_body (set_voltage : nat -> Z -> world -> result (world * Z))
    (r : nat) (w : world) : result (world * (Z * nat)) :=
  let* rail := get_rail w r in
  if disabled rail then Ok (w, (0, O))
  else if suspended rail then Ok (w, (0, O))
  else if negb (has_reg rail) then Ok (w, (0, O))
  else if resolving_to rail then Ok (w, (0, O))
  else
    let* demand := dvfs_rail_demand w rail in
    match demand with
    | None => Ok (w, (0, O))
    | Some mvolts =>
        let* steps :=
          DIV_ROUND_UP (int_abs (int_sub mvolts (millivolts rail))) (step rail) in
        dvfs_rail_update_retry set_voltage r mvolts (Z.to_nat (steps + 1)) 0 w
    end.

(** The two functions call each other; [fuel] bounds the depth of
    [dvfs_rail_update] calls. *)
Fixpoint dvfs_rail_update (fuel : nat) (r : nat) (w : world) : result (world * Z) :=
  match fuel with
  | O => OutOfFuel
  | S fuel' =>
      let* '(w', (ret, _)) :=
        dvfs_rail_update_body (dvfs_rail_set_voltage_body (dvfs_rail_update fuel')) r w in
      Ok (w', ret)
  end.

Definition dvfs_rail_set_voltage (fuel : nat) (r : nat) (mvolts : Z) (w : world)
  : result (world * Z) :=
  dvfs_rail_set_voltage_body (dvfs_rail_update fuel) r mvolts w.

(** ** Clock tables *)

(** [clk_is_match(p, q)]: the same clock, or both NULL. *)
Definition clk_is_match (p q : option nat) : bool := bool_decide (p = q).

Fixpoint find_dvfs (w : world) (c : option nat) (ds : list nat) : result (option nat) :=
  match ds with
  | [] => Ok None
  | d :: ds' =>
      let* x := get_dvfs w d in
      if clk_is_match c (clk x) then Ok (Some d) else find_dvfs w c ds'
  end.

Fixpoint find_dvfs_in_rails (w : world) (c : option nat) (rs : list dvfs_rail)
  : result (option nat) :=
  match rs with
  | [] => Ok None
  | rail :: rs' =>
      let* o := find_dvfs w c (dvfs_list rail) in
      match o with
      | Some d => Ok (Some d)
      | None => find_dvfs_in_rails w c rs'
      end
  end.

Definition tegra_clk_to_dvfs (w : world) (c : option nat) : result (option nat) :=
  find_dvfs_in_rails w c (rails w).

Definition dvfs_get_millivolts (w : world) (d : dvfs) (rate : Z) : option (list Z) :=
  if tegra_dvfs_is_dfll_scale (hdr w) (rails w) d rate
  then dfll_millivolts d
  else d_millivolts d.

Definition dvfs_get_freqs (d : dvfs) : option (list Z) :=
  if use_alt_freqs d then alt_freqs d else Some (freqs d).

(** [while (i < d->num_freqs && rate > freqs[i]) i++;] with [n] passes left. *)
Fixpoint freq_scan (fr : list Z) (num rate : Z) (n : nat) (i : Z) : result Z :=
  match n with
  | O => Ok i
  | S n' =>
      if i <? num then
        let* f := array_get fr i in
        if rate >? f then freq_scan fr num rate n' (int_add i 1) else Ok i
      else Ok i
  end.

Definition __tegra_dvfs_set_rate (fuel : nat) (d : nat) (rate : Z) (w : world)
  : result (world * Z) :=
  let* x := get_dvfs w d in
  match dvfs_get_freqs x, dvfs_get_millivolts w x rate with
  | Some fr, Some mvs =>
      let rate := if tegra_dvfs_is_dfll_range_entry (hdr w) (rails w) x rate
                  then use_dfll_rate_min x else rate in
      let* top := array_get fr (int_sub (num_freqs x) 1) in
      if rate >? top then Ok (w, - EINVAL)
      else
        let* volt :=
          if rate =? 0 then Ok (Some 0)
          else
            let* i := freq_scan fr (num_freqs x) rate (Z.to_nat (num_freqs x)) 0 in
            let* m := array_get mvs i in
            if negb (d_max_millivolts x =? 0) && (m >? d_max_millivolts x)
            then Ok None
            else Ok (Some m) in
        match volt with
        | None => Ok (w, - EINVAL)
        | Some m =>
            let w1 := upd_dvfs d (fun y => set_cur_rate rate (set_cur_millivolts m y)) w in
            dvfs_rail_update fuel (d_dvfs_rail x) w1
        end
  | _, _ => Ok (w, - ENODEV)
  end.

Definition tegra_dvfs_set_rate (fuel : nat) (c : option nat) (rate : Z) (w : world)
  : result (world * Z) :=
  if negb (core_dvfs_started w) then Ok (w, 0)
  else
    let* o := tegra_clk_to_dvfs w c in
    match o with
    | Some d => __tegra_dvfs_set_rate fuel d rate w
    | None => Ok (w, 0)
    end.

(** The block guarded by the test in [tegra_dvfs_use_alt_freqs_on_clk]. *)
Definition use_alt_freqs_block (fuel : nat) (d : nat) (use_alt_freq : bool) (w : world)
  : result (world * Z) :=
  let* x := get_dvfs w d in
  if eqb (use_alt_freqs x) use_alt_freq then Ok (w, 0)
  else
    let w1 := upd_dvfs d (set_use_alt_freqs use_alt_freq) w in
    let* '(w2, ret) := __tegra_dvfs_set_rate fuel d (cur_rate x) w1 in
    if ret <? 0 then
      let w3 := upd_dvfs d (set_use_alt_freqs (negb use_alt_freq)) w2 in
      let* x3 := get_dvfs w3 d in
      let* '(w4, _) := __tegra_dvfs_set_rate fuel d (cur_rate x3) w3 in
      Ok (w4, - EINVAL)
    else Ok (w2, 0).

(** [tegra_dvfs_use_alt_freqs_on_clk].  The test is [!d && d->alt_freqs]:
    with [d] found, [!d] is false and the block is skipped; with [d] NULL the
    second operand reads through the NULL pointer. *)
Definition tegra_dvfs_use_alt_freqs_on_clk (fuel : nat) (c : option nat)
    (use_alt_freq : bool) (w : world) : result (world * Z) :=
  let* o := tegra_clk_to_dvfs w c in
  match o with
  | None => Fault
  | Some d =>
      let* x := get_dvfs w d in
      let d_is_null := false in
      if d_is_null && bool_decide (is_Some (alt_freqs x))
      then use_alt_freqs_block fuel d use_alt_freq w
      else Ok (w, - ENOENT)
  end.

(** ** Thermal index updates *)

Inductive tegra_dvfs_core_thermal_type : Type :=
| TEGRA_DVFS_CORE_THERMAL_FLOOR
| TEGRA_DVFS_CORE_THERMAL_CAP
| TEGRA_DVFS_CORE_THERMAL_OTHER.

(** An [int] seen as an [unsigned long], as in [rail->therm_floor_idx != new_idx]. *)
Definition to_ulong (x : Z) : Z := x mod 18446744073709551616.

Definition tegra_dvfs_core_update_thermal_index (fuel : nat)
    (type : tegra_dvfs_core_thermal_type) (new_idx : Z) (w : world)
  : result (world * Z) :=
  match tegra_core_rail w with
  | None => Ok (w, - EINVAL)
  | Some r =>
      let* rail := get_rail w r in
      if negb (is_ready rail) then Ok (w, - EINVAL)
      else
        match type with
        | TEGRA_DVFS_CORE_THERMAL_FLOOR =>
            if to_ulong (therm_floor_idx rail) =? new_idx then Ok (w, 0)
            else
              let w1 := upd_rail r (set_therm_floor_idx (wrap_int new_idx)) w in
              let* '(w2, _) := dvfs_rail_update fuel r w1 in
              Ok (w2, 0)
        | TEGRA_DVFS_CORE_THERMAL_CAP =>
            if to_ulong (therm_cap_idx rail) =? new_idx then Ok (w, 0)
            else
              let w1 := upd_rail r (set_therm_cap_idx (wrap_int new_idx)) w in
              let* '(w2, _) := dvfs_rail_update fuel r w1 in
              Ok (w2, 0)
        | TEGRA_DVFS_CORE_THERMAL_OTHER => Ok (w, - EINVAL)
        end
  end.

(** ** Suspend and resume *)

Definition tegra_dvfs_rail_get_suspend_level (rail : dvfs_rail) : Z :=
  if negb (suspend_millivolts rail =? 0)
  then suspend_millivolts rail
  else nominal_millivolts rail.

Definition tegra_dvfs_all_rails_suspended (w : world) : bool :=
  forallb (fun rail => suspended rail || disabled rail) (rails w).

Fixpoint from_rails_suspended_or_solved (w : world) (ks : list nat) : result bool :=
  match ks with
  | [] => Ok true
  | k :: ks' =>
      let* rel := get_rel w k in
      let* fr := get_rail w (from rel) in
      if negb (suspended fr) && negb (disabled fr) && negb (solved_at_nominal rel)
      then Ok false
      else from_rails_suspended_or_solved w ks'
  end.

Definition tegra_dvfs_from_rails_suspended_or_solved (w : world) (to_rail : dvfs_rail)
  : result bool :=
  from_rails_suspended_or_solved w (relationships_from to_rail).

(** The rail [tegra_dvfs_suspend_one] picks is suspended as follows. *)
Definition suspend_rail (fuel : nat) (r : nat) (rail : dvfs_rail) (w : world)
  : result (world * Z) :=
  let* lvl := dvfs_rail_apply_limits rail (tegra_dvfs_rail_get_suspend_level rail) in
  let* '(w1, ret) :=
    if lvl >=? millivolts rail then dvfs_rail_set_voltage fuel r lvl w else Ok (w, 0) in
  if negb (ret =? 0) then Ok (w1, ret)
  else Ok (upd_rail r (set_suspended true) w1, 0).

(** [list_for_each_entry(rail, &dvfs_rail_list, node)] of
    [tegra_dvfs_suspend_one], over the rails [rs] still to visit. *)
Fixpoint suspend_one_from (fuel : nat) (rs : list nat) (w : world) : result (world * Z) :=
  match rs with
  | [] => Ok (w, - EINVAL)
  | r :: rs' =>
      let* rail := get_rail w r in
      if suspended rail then suspend_one_from fuel rs' w
      else if disabled rail then suspend_one_from fuel rs' w
      else
        let* ok := tegra_dvfs_from_rails_suspended_or_solved w rail in
        if negb ok then suspend_one_from fuel rs' w
        else suspend_rail fuel r rail w
  end.

Definition tegra_dvfs_suspend_one (fuel : nat) (w : world) : result (world * Z) :=
  suspend_one_from fuel (seq 0 (length (rails w))) w.

Fixpoint resume_update (fuel : nat) (rs : list nat) (w : world) : result world :=
  match rs with
  | [] => Ok w
  | r :: rs' =>
      let* '(w1, _) := dvfs_rail_update fuel r w in
      resume_update fuel rs' w1
  end.

Definition tegra_dvfs_resume (fuel : nat) (w : world) : result world :=
  let w1 := set_rails (map (set_suspended false) (rails w)) w in
  resume_update fuel (seq 0 (length (rails w1))) w1.

(** [while (!tegra_dvfs_all_rails_suspended())] with [n] passes allowed. *)
Fixpoint suspend_loop (fuel : nat) (n : nat) (w : world) : result (world * Z) :=
  if tegra_dvfs_all_rails_suspended w then Ok (w, 0)
  else
    match n with
    | O => OutOfFuel
    | S n' =>
        let* '(w1, ret) := tegra_dvfs_suspend_one fuel w in
        if negb (ret =? 0) then Ok (w1, ret) else suspend_loop fuel n' w1
    end.

Definition tegra_dvfs_suspend (fuel : nat) (w : world) : result (world * Z) :=
  let* '(w1, ret) := suspend_loop fuel fuel w in
  if negb (ret =? 0) then
    let* w2 := tegra_dvfs_resume fuel w1 in
    Ok (w2, ret)
  else Ok (w1, ret).

(** * Registration, tables and rail switches

    The rest of [tegra-dvfs.c] that runs without the clock framework or the
    regulator core: board registration, the table look-ups, the thermal
    tables, the rail statistics set-up and the enable/disable switches.  A
    struct handed to a registration function gets the next free slot of its
    arena.  Constants and predicates of the absent header that only these
    functions read are arguments of the functions that read them. *)

(** ** More field assignments *)

Definition set_disabled (v : bool) (rail : dvfs_rail) : dvfs_rail :=
  {| reg_id := reg_id rail; reg := reg rail; millivolts := millivolts rail;
     new_millivolts := new_millivolts rail; min_millivolts := min_millivolts rail;
     max_millivolts := max_millivolts rail; nominal_millivolts := nominal_millivolts rail;
     disable_millivolts := disable_millivolts rail;
     suspend_millivolts := suspend_millivolts rail;
     override_millivolts := override_millivolts rail; step := step rail;
     step_up := step_up rail; disabled := v; suspended := suspended rail;
     dfll_mode := dfll_mode rail; resolving_to := resolving_to rail;
     jmp_to_zero := jmp_to_zero rail; in_band_pm := in_band_pm rail;
     is_ready := is_ready rail; therm_floors := therm_floors rail;
     therm_floors_size := therm_floors_size rail; therm_floor_idx := therm_floor_idx rail;
     therm_caps := therm_caps rail; therm_caps_size := therm_caps_size rail;
     therm_cap_idx := therm_cap_idx rail; dvfs_list := dvfs_list rail;
     relationships_from := relationships_from rail;
     relationships_to := relationships_to rail; stats := stats rail |}.

Definition set_dfll_mode (v : bool) (rail : dvfs_rail) : dvfs_rail :=
  {| reg_id := reg_id rail; reg := reg rail; millivolts := millivolts rail;
     new_millivolts := new_millivolts rail; min_millivolts := min_millivolts rail;
     max_millivolts := max_millivolts rail; nominal_millivolts := nominal_millivolts rail;
     disable_millivolts := disable_millivolts rail;
     suspend_millivolts := suspend_millivolts rail;
     override_millivolts := override_millivolts rail; step := step rail;
     step_up := step_up rail; disabled := disabled rail; suspended := suspended rail;
     dfll_mode := v; resolving_to := resolving_to rail; jmp_to_zero := jmp_to_zero rail;
     in_band_pm := in_band_pm rail; is_ready := is_ready rail;
     therm_floors := therm_floors rail; therm_floors_size := therm_floors_size rail;
     therm_floor_idx := therm_floor_idx rail; therm_caps := therm_caps rail;
     therm_caps_size := therm_caps_size rail; therm_cap_idx := therm_cap_idx rail;
     dvfs_list := dvfs_list rail; relationships_from := relationships_from rail;
     relationships_to := relationships_to rail; stats := stats rail |}.

Definition set_therm_floors (v : option (list dvfs_therm_limits)) (rail : dvfs_rail) : dvfs_rail :=
  {| reg_id := reg_id rail; reg := reg rail; millivolts := millivolts rail;
     new_millivolts := new_millivolts rail; min_millivolts := min_millivolts rail;
     max_millivolts := max_millivolts rail; nominal_millivolts := nominal_millivolts rail;
     disable_millivolts := disable_millivolts rail;
     suspend_millivolts := suspend_millivolts rail;
     override_millivolts := override_millivolts rail; step := step rail;
     step_up := step_up rail; disabled := disabled rail; suspended := suspended rail;
     dfll_mode := dfll_mode rail; resolving_to := resolving_to rail;
     jmp_to_zero := jmp_to_zero rail; in_band_pm := in_band_pm rail;
     is_ready := is_ready rail; therm_floors := v;
     therm_floors_size := therm_floors_size rail; therm_floor_idx := therm_floor_idx rail;
     therm_caps := therm_caps rail; therm_caps_size := therm_caps_size rail;
     therm_cap_idx := therm_cap_idx rail; dvfs_list := dvfs_list rail;
     relationships_from := relationships_from rail;
     relationships_to := relationships_to rail; stats := stats rail |}.

Definition set_therm_floors_size (v : Z) (rail : dvfs_rail) : dvfs_rail :=
  {| reg_id := reg_id rail; reg := reg rail; millivolts := millivolts rail;
     new_millivolts := new_millivolts rail; min_millivolts := min_millivolts rail;
     max_millivolts := max_millivolts rail; nominal_millivolts := nominal_millivolts rail;
     disable_millivolts := disable_millivolts rail;
     suspend_millivolts := suspend_millivolts rail;
     override_millivolts := override_millivolts rail; step := step rail;
     step_up := step_up rail; disabled := disabled rail; suspended := suspended rail;
     dfll_mode := dfll_mode rail; resolving_to := resolving_to rail;
     jmp_to_zero := jmp_to_zero rail; in_band_pm := in_band_pm rail;
     is_ready := is_ready rail; therm_floors := therm_floors rail; therm_floors_size := v;
     therm_floor_idx := therm_floor_idx rail; therm_caps := therm_caps rail;
     therm_caps_size := therm_caps_size rail; therm_cap_idx := therm_cap_idx rail;
     dvfs_list := dvfs_list rail; relationships_from := relationships_from rail;
     relationships_to := relationships_to rail; stats := stats rail |}.

Definition set_therm_caps (v : option (list dvfs_therm_limits)) (rail : dvfs_rail) : dvfs_rail :=
  {| reg_id := reg_id rail; reg := reg rail; millivolts := millivolts rail;
     new_millivolts := new_millivolts rail; min_millivolts := min_millivolts rail;
     max_millivolts := max_millivolts rail; nominal_millivolts := nominal_millivolts rail;
     disable_millivolts := disable_millivolts rail;
     suspend_millivolts := suspend_millivolts rail;
     override_millivolts := override_millivolts rail; step := step rail;
     step_up := step_up rail; disabled := disabled rail; suspended := suspended rail;
     dfll_mode := dfll_mode rail; resolving_to := resolving_to rail;
     jmp_to_zero := jmp_to_zero rail; in_band_pm := in_band_pm rail;
     is_ready := is_ready rail; therm_floors := therm_floors rail;
     therm_floors_size := therm_floors_size rail; therm_floor_idx := therm_floor_idx rail;
     therm_caps := v; therm_caps_size := therm_caps_size rail;
     therm_cap_idx := therm_cap_idx rail; dvfs_list := dvfs_list rail;
     relationships_from := relationships_from rail;
     relationships_to := relationships_to rail; stats := stats rail |}.

Definition set_therm_caps_size (v : Z) (rail : dvfs_rail) : dvfs_rail :=
  {| reg_id := reg_id rail; reg := reg rail; millivolts := millivolts rail;
     new_millivolts := new_millivolts rail; min_millivolts := min_millivolts rail;
     max_millivolts := max_millivolts rail; nominal_millivolts := nominal_millivolts rail;
     disable_millivolts := disable_millivolts rail;
     suspend_millivolts := suspend_millivolts rail;
     override_millivolts := override_millivolts rail; step := step rail;
     step_up := step_up rail; disabled := disabled rail; suspended := suspended rail;
     dfll_mode := dfll_mode rail; resolving_to := resolving_to rail;
     jmp_to_zero := jmp_to_zero rail; in_band_pm := in_band_pm rail;
     is_ready := is_ready rail; therm_floors := therm_floors rail;
     therm_floors_size := therm_floors_size rail; therm_floor_idx := therm_floor_idx rail;
     therm_caps := therm_caps rail; therm_caps_size := v;
     therm_cap_idx := therm_cap_idx rail; dvfs_list := dvfs_list rail;
     relationships_from := relationships_from rail;
     relationships_to := relationships_to rail; stats := stats rail |}.

Definition set_dvfs_list (v : list nat) (rail : dvfs_rail) : dvfs_rail :=
  {| reg_id := reg_id rail; reg := reg rail; millivolts := millivolts rail;
     new_millivolts := new_millivolts rail; min_millivolts := min_millivolts rail;
     max_millivolts := max_millivolts rail; nominal_millivolts := nominal_millivolts rail;
     disable_millivolts := disable_millivolts rail;
     suspend_millivolts := suspend_millivolts rail;
     override_millivolts := override_millivolts rail; step := step rail;
     step_up := step_up rail; disabled := disabled rail; suspended := suspended rail;
     dfll_mode := dfll_mode rail; resolving_to := resolving_to rail;
     jmp_to_zero := jmp_to_zero rail; in_band_pm := in_band_pm rail;
     is_ready := is_ready rail; therm_floors := therm_floors rail;
     therm_floors_size := therm_floors_size rail; therm_floor_idx := therm_floor_idx rail;
     therm_caps := therm_caps rail; therm_caps_size := therm_caps_size rail;
     therm_cap_idx := therm_cap_idx rail; dvfs_list := v;
     relationships_from := relationships_from rail;
     relationships_to := relationships_to rail; stats := stats rail |}.

Definition set_relationships_from (v : list nat) (rail : dvfs_rail) : dvfs_rail :=
  {| reg_id := reg_id rail; reg := reg rail; millivolts := millivolts rail;
     new_millivolts := new_millivolts rail; min_millivolts := min_millivolts rail;
     max_millivolts := max_millivolts rail; nominal_millivolts := nominal_millivolts rail;
     disable_millivolts := disable_millivolts rail;
     suspend_millivolts := suspend_millivolts rail;
     override_millivolts := override_millivolts rail; step := step rail;
     step_up := step_up rail; disabled := disabled rail; suspended := suspended rail;
     dfll_mode := dfll_mode rail; resolving_to := resolving_to rail;
     jmp_to_zero := jmp_to_zero rail; in_band_pm := in_band_pm rail;
     is_ready := is_ready rail; therm_floors := therm_floors rail;
     therm_floors_size := therm_floors_size rail; therm_floor_idx := therm_floor_idx rail;
     therm_caps := therm_caps rail; therm_caps_size := therm_caps_size rail;
     therm_cap_idx := therm_cap_idx rail; dvfs_list := dvfs_list rail;
     relationships_from := v; relationships_to := relationships_to rail; stats := stats rail
     |}.

Definition set_relationships_to (v : list nat) (rail : dvfs_rail) : dvfs_rail :=
  {| reg_id := reg_id rail; reg := reg rail; millivolts := millivolts rail;
     new_millivolts := new_millivolts rail; min_millivolts := min_millivolts rail;
     max_millivolts := max_millivolts rail; nominal_millivolts := nominal_millivolts rail;
     disable_millivolts := disable_millivolts rail;
     suspend_millivolts := suspend_millivolts rail;
     override_millivolts := override_millivolts rail; step := step rail;
     step_up := step_up rail; disabled := disabled rail; suspended := suspended rail;
     dfll_mode := dfll_mode rail; resolving_to := resolving_to rail;
     jmp_to_zero := jmp_to_zero rail; in_band_pm := in_band_pm rail;
     is_ready := is_ready rail; therm_floors := therm_floors rail;
     therm_floors_size := therm_floors_size rail; therm_floor_idx := therm_floor_idx rail;
     therm_caps := therm_caps rail; therm_caps_size := therm_caps_size rail;
     therm_cap_idx := therm_cap_idx rail; dvfs_list := dvfs_list rail;
     relationships_from := relationships_from rail; relationships_to := v;
     stats := stats rail |}.

Definition set_clk (v : option nat) (d : dvfs) : dvfs :=
  {| clk := v; clk_name := clk_name d; d_dvfs_rail := d_dvfs_rail d; freqs := freqs d;
     alt_freqs := alt_freqs d; d_millivolts := d_millivolts d;
     dfll_millivolts := dfll_millivolts d; num_freqs := num_freqs d; cur_rate := cur_rate d;
     cur_millivolts := cur_millivolts d; d_max_millivolts := d_max_millivolts d;
     use_alt_freqs := use_alt_freqs d; use_dfll_rate_min := use_dfll_rate_min d;
     range := range d |}.

Definition set_freqs (v : list Z) (d : dvfs) : dvfs :=
  {| clk := clk d; clk_name := clk_name d; d_dvfs_rail := d_dvfs_rail d; freqs := v;
     alt_freqs := alt_freqs d; d_millivolts := d_millivolts d;
     dfll_millivolts := dfll_millivolts d; num_freqs := num_freqs d; cur_rate := cur_rate d;
     cur_millivolts := cur_millivolts d; d_max_millivolts := d_max_millivolts d;
     use_alt_freqs := use_alt_freqs d; use_dfll_rate_min := use_dfll_rate_min d;
     range := range d |}.

Definition set_num_freqs (v : Z) (d : dvfs) : dvfs :=
  {| clk := clk d; clk_name := clk_name d; d_dvfs_rail := d_dvfs_rail d; freqs := freqs d;
     alt_freqs := alt_freqs d; d_millivolts := d_millivolts d;
     dfll_millivolts := dfll_millivolts d; num_freqs := v; cur_rate := cur_rate d;
     cur_millivolts := cur_millivolts d; d_max_millivolts := d_max_millivolts d;
     use_alt_freqs := use_alt_freqs d; use_dfll_rate_min := use_dfll_rate_min d;
     range := range d |}.

Definition set_rels (v : list dvfs_relationship) (w : world) : world :=
  {| hdr := hdr w; rails := rails w; clocks := clocks w; rels := v;
     tegra_core_rail := tegra_core_rail w; core_dvfs_started := core_dvfs_started w;
     ktime := ktime w; reg_log := reg_log w; regulator_set_voltage := regulator_set_voltage w
     |}.

Definition set_tegra_core_rail (v : option nat) (w : world) : world :=
  {| hdr := hdr w; rails := rails w; clocks := clocks w; rels := rels w;
     tegra_core_rail := v; core_dvfs_started := core_dvfs_started w; ktime := ktime w;
     reg_log := reg_log w; regulator_set_voltage := regulator_set_voltage w |}.


Definition ENOSYS : Z := 38.

(** ** Registration *)

Definition tegra_dvfs_rail_get_disable_level (rail : dvfs_rail) : Z :=
  if negb (disable_millivolts rail =? 0)
  then disable_millivolts rail
  else nominal_millivolts rail.

(** The body of the loop of [tegra_dvfs_init_rails] up to the
    [list_add_tail]: the three list heads are emptied, the disable and
    suspend levels capped at nominal, the voltage set to nominal and the
    steps defaulted. *)
Definition init_rail (rail : dvfs_rail) : dvfs_rail :=
  let mv := nominal_millivolts rail in
  let stp := if step rail =? 0 then max_millivolts rail else step rail in
  {| reg_id := reg_id rail; reg := reg rail; millivolts := mv; new_millivolts := mv;
     min_millivolts := min_millivolts rail; max_millivolts := max_millivolts rail;
     nominal_millivolts := nominal_millivolts rail;
     disable_millivolts :=
       if disable_millivolts rail >? mv then mv else disable_millivolts rail;
     suspend_millivolts :=
       if suspend_millivolts rail >? mv then mv else suspend_millivolts rail;
     override_millivolts := override_millivolts rail; step := stp;
     step_up := if step_up rail =? 0 then stp else step_up rail;
     disabled := disabled rail; suspended := suspended rail;
     dfll_mode := dfll_mode rail; resolving_to := resolving_to rail;
     jmp_to_zero := jmp_to_zero rail; in_band_pm := in_band_pm rail;
     is_ready := is_ready rail; therm_floors := therm_floors rail;
     therm_floors_size := therm_floors_size rail;
     therm_floor_idx := therm_floor_idx rail; therm_caps := therm_caps rail;
     therm_caps_size := therm_caps_size rail; therm_cap_idx := therm_cap_idx rail;
     dvfs_list := []; relationships_from := []; relationships_to := [];
     stats := stats rail |}.

(** [tegra_dvfs_init_rails(rails, n)] over the rails [rs].  The global
    [tegra_cpu_rail], which nothing else in the file reads, is threaded next
    to the world. *)
Fixpoint tegra_dvfs_init_rails (rs : list dvfs_rail) (tegra_cpu_rail : option nat)
    (w : world) : world * option nat * Z :=
  match rs with
  | [] => (w, tegra_cpu_rail, 0)
  | rail :: rs' =>
      let r := length (rails w) in
      let w1 := set_rails (rails w ++ [init_rail rail]) w in
      if String.eqb "vdd-cpu" (reg_id rail)
      then tegra_dvfs_init_rails rs' (Some r) w1
      else if String.eqb "vdd-core" (reg_id rail)
      then tegra_dvfs_init_rails rs' tegra_cpu_rail (set_tegra_core_rail (Some r) w1)
      else tegra_dvfs_init_rails rs' tegra_cpu_rail w1
  end.

(** [tegra_dvfs_add_relationships(rels, n)] over the relationships [es]; each
    is appended to the list [relationships_from] of its [to] rail and to the
    list [relationships_to] of its [from] rail. *)
Fixpoint tegra_dvfs_add_relationships (es : list dvfs_relationship) (w : world)
  : result world :=
  match es with
  | [] => Ok w
  | rel :: es' =>
      let k := length (rels w) in
      let w1 := set_rels (rels w ++ [rel]) w in
      let* _ := get_rail w1 (to rel) in
      let w2 :=
        upd_rail (to rel)
          (fun x => set_relationships_from (relationships_from x ++ [k]) x) w1 in
      let* _ := get_rail w2 (from rel) in
      let w3 :=
        upd_rail (from rel)
          (fun x => set_relationships_to (relationships_to x ++ [k]) x) w2 in
      tegra_dvfs_add_relationships es' w3
  end.

(** [list_for_each_entry(rail, &dvfs_rail_list, node)] of
    [tegra_dvfs_get_rail_by_name], [i] being the index of the head of [rs]. *)
Fixpoint rail_by_name (name : string) (rs : list dvfs_rail) (i : nat) : option nat :=
  match rs with
  | [] => None
  | rail :: rs' =>
      if String.eqb (reg_id rail) name then Some i else rail_by_name name rs' (S i)
  end.

Definition tegra_dvfs_get_rail_by_name (w : world) (name : string) : option nat :=
  rail_by_name name (rails w) 0.

(** ** Clock tables *)

(** The loop of [cleanup_dvfs_table] at index [i], with [n] passes left; the
    result is the table and the [i] the loop is left with. *)
Fixpoint cleanup_loop (mvs : option (list Z)) (freqs_mult : Z) (n : nat) (i : Z)
    (fr : list Z) : result (list Z * Z) :=
  match n with
  | O => Ok (fr, i)
  | S n' =>
      let* tbl := of_option mvs in
      let* m := array_get tbl i in
      if m =? 0 then Ok (fr, i)
      else
        let* fr1 :=
          if negb (freqs_mult =? 0) then
            let* f := array_get fr i in
            Ok (<[Z.to_nat i := to_ulong (f * freqs_mult)]> fr)
          else Ok fr in
        let* f1 := array_get fr1 i in
        let* fr2 :=
          if (f1 =? 0) && (i >? 1) then
            let* p := array_get fr1 (int_sub i 1) in
            Ok (<[Z.to_nat i := p]> fr1)
          else Ok fr1 in
        cleanup_loop mvs freqs_mult n' (int_add i 1) fr2
  end.

(** [cleanup_dvfs_table(d)].  [MAX_DVFS_FREQS] comes from the absent header;
    [freqs_mult] is the field of that name of [struct dvfs], which only this
    function reads. *)
Definition cleanup_dvfs_table (MAX_DVFS_FREQS freqs_mult : Z) (d : dvfs) : result dvfs :=
  let* '(fr, i) :=
    cleanup_loop (d_millivolts d) freqs_mult (Z.to_nat MAX_DVFS_FREQS) 0 (freqs d) in
  Ok (set_num_freqs i (set_freqs fr d)).

(** [tegra_setup_dvfs(c, d)] for a struct [x] not yet registered. *)
Definition tegra_setup_dvfs (MAX_DVFS_FREQS freqs_mult : Z) (c : option nat) (x : dvfs)
    (w : world) : result (world * Z) :=
  let* x1 := cleanup_dvfs_table MAX_DVFS_FREQS freqs_mult x in
  let d := length (clocks w) in
  let w1 := set_clocks (clocks w ++ [set_clk c x1]) w in
  let* _ := get_rail w1 (d_dvfs_rail x1) in
  Ok (upd_rail (d_dvfs_rail x1) (fun rail => set_dvfs_list (dvfs_list rail ++ [d]) rail) w1,
      0).

(** [for (i = 0; i < d->num_freqs; i++) if (rate <= freqs[i]) break;] with
    [n] passes left. *)
Fixpoint predict_scan (fr : list Z) (num rate : Z) (n : nat) (i : Z) : result Z :=
  match n with
  | O => Ok i
  | S n' =>
      if i <? num then
        let* f := array_get fr i in
        if rate <=? f then Ok i else predict_scan fr num rate n' (int_add i 1)
      else Ok i
  end.

(** [predict_millivolts(d, millivolts, rate)].  A NULL [freqs] is read as
    soon as the loop runs: it is the empty table here. *)
Definition predict_millivolts (d : dvfs) (mvs : option (list Z)) (rate : Z) : result Z :=
  match mvs with
  | None => Ok (- ENODEV)
  | Some tbl =>
      let fr := match dvfs_get_freqs d with Some fr => fr | None => [] end in
      let* i := predict_scan fr (num_freqs d) rate (Z.to_nat (num_freqs d)) 0 in
      if i =? num_freqs d then Ok (- EINVAL) else array_get tbl i
  end.

(** [tegra_dvfs_predict_millivolts(c, rate)]; [dvfs_is_dfll_range] is an
    inline predicate of the absent header. *)
Definition tegra_dvfs_predict_millivolts
    (dvfs_is_dfll_range : list dvfs_rail -> dvfs -> Z -> bool)
    (w : world) (c : option nat) (rate : Z) : result Z :=
  let* o := tegra_clk_to_dvfs w c in
  match o with
  | None => Ok (- EINVAL)
  | Some d =>
      if rate =? 0 then Ok 0
      else
        let* x := get_dvfs w d in
        predict_millivolts x
          (if dvfs_is_dfll_range (rails w) x rate then dfll_millivolts x
           else d_millivolts x)
          rate
  end.

Definition tegra_dvfs_get_rate (w : world) (c : option nat) : result Z :=
  if negb (core_dvfs_started w) then Ok 0
  else
    let* o := tegra_clk_to_dvfs w c in
    match o with
    | Some d => let* x := get_dvfs w d in Ok (cur_rate x)
    | None => Ok 0
    end.

(** [tegra_dvfs_get_freqs(c, &freqs, &num_freqs)]: the return code and, when
    they are written, [*freqs] and [*num_freqs]. *)
Definition tegra_dvfs_get_freqs (w : world) (c : option nat)
  : result (Z * option (option (list Z) * Z)) :=
  if negb (core_dvfs_started w) then Ok (- EINVAL, None)
  else
    let* o := tegra_clk_to_dvfs w c in
    match o with
    | None => Ok (- ENOSYS, None)
    | Some d =>
        let* x := get_dvfs w d in
        Ok (0, Some (dvfs_get_freqs x, num_freqs x))
    end.

Definition tegra_dvfs_get_maxrate (w : world) (c : option nat) : result Z :=
  if negb (core_dvfs_started w) then Ok 0
  else
    let* '(err, out) := tegra_dvfs_get_freqs w c in
    if err <? 0 then Ok 0
    else
      let* '(fr, num) := of_option out in
      let* tbl := of_option fr in
      array_get tbl (int_sub num 1).

(** [for (i = 0; i < num_freqs; i++) if (freqs[i] >= rate) return freqs[i];
     return freqs[i - 1];] with [n] passes left. *)
Fixpoint round_scan (fr : list Z) (num rate : Z) (n : nat) (i : Z) : result Z :=
  match n with
  | O => array_get fr (int_sub i 1)
  | S n' =>
      if i <? num then
        let* f := array_get fr i in
        if f >=? rate then Ok f else round_scan fr num rate n' (int_add i 1)
      else array_get fr (int_sub i 1)
  end.

Definition tegra_dvfs_round_rate (w : world) (c : option nat) (rate : Z) : result Z :=
  if negb (core_dvfs_started w) then Ok rate
  else
    let* '(err, out) := tegra_dvfs_get_freqs w c in
    if err <? 0 then Ok rate
    else
      let* '(fr, num) := of_option out in
      let* tbl := of_option fr in
      round_scan tbl num rate (Z.to_nat num) 0.

(** ** Thermal tables *)

(** The loop of [get_thermal_limits_size] at index [i], with [n] passes left:
    [None] is the [return -EINVAL] inside the loop, [Some i] the index the
    loop is left with. *)
Fixpoint thermal_limits_scan (limits : list dvfs_therm_limits) (n : nat) (i : Z)
  : result (option Z) :=
  match n with
  | O => Ok (Some i)
  | S n' =>
      let* nxt := array_get limits (int_add i 1) in
      if mv nxt =? 0 then Ok (Some i)
      else
        let* cur := array_get limits i in
        if (temperature cur >=? temperature nxt) || (mv cur <? mv nxt) then Ok None
        else thermal_limits_scan limits n' (int_add i 1)
  end.

(** [get_thermal_limits_size(rail, type)]; [MAX_THERMAL_LIMITS] comes from
    the absent header. *)
Definition get_thermal_limits_size (MAX_THERMAL_LIMITS : Z) (rail : dvfs_rail)
    (type : tegra_dvfs_core_thermal_type) : result Z :=
  let check (table : option (list dvfs_therm_limits)) : result Z :=
    let* limits := of_option table in
    let* first := array_get limits 0 in
    if mv first =? 0 then Ok (- EINVAL)
    else
      let* o := thermal_limits_scan limits (Z.to_nat (MAX_THERMAL_LIMITS - 1)) 0 in
      match o with
      | None => Ok (- EINVAL)
      | Some i =>
          let* last := array_get limits i in
          if mv last <? min_millivolts rail then Ok (- EINVAL) else Ok (int_add i 1)
      end in
  match type with
  | TEGRA_DVFS_CORE_THERMAL_FLOOR => check (therm_floors rail)
  | TEGRA_DVFS_CORE_THERMAL_CAP => check (therm_caps rail)
  | TEGRA_DVFS_CORE_THERMAL_OTHER => Ok (- EINVAL)
  end.

Definition tegra_dvfs_init_therm_limits (MAX_THERMAL_LIMITS : Z) (rail : dvfs_rail)
  : result dvfs_rail :=
  let* size :=
    get_thermal_limits_size MAX_THERMAL_LIMITS rail TEGRA_DVFS_CORE_THERMAL_FLOOR in
  let* invalid :=
    if size <=? 0 then Ok true
    else
      let* floors := of_option (therm_floors rail) in
      let* first := array_get floors 0 in
      Ok (mv first >? nominal_millivolts rail) in
  let rail1 :=
    if invalid then set_therm_floors_size 0 (set_therm_floors None rail)
    else set_therm_floor_idx 0 (set_therm_floors_size size rail) in
  let* size :=
    get_thermal_limits_size MAX_THERMAL_LIMITS rail1 TEGRA_DVFS_CORE_THERMAL_CAP in
  Ok (if size <=? 0 then set_therm_caps_size 0 (set_therm_caps None rail1)
      else set_therm_cap_idx size (set_therm_caps_size size rail1)).

Definition tegra_dvfs_core_count_thermal_states (w : world)
    (type : tegra_dvfs_core_thermal_type) : result Z :=
  match tegra_core_rail w with
  | None => Ok (- EINVAL)
  | Some r =>
      let* rail := get_rail w r in
      if negb (is_ready rail) then Ok (- EINVAL)
      else
        match type with
        | TEGRA_DVFS_CORE_THERMAL_FLOOR => Ok (therm_floors_size rail)
        | TEGRA_DVFS_CORE_THERMAL_CAP => Ok (therm_caps_size rail)
        | TEGRA_DVFS_CORE_THERMAL_OTHER => Ok (- EINVAL)
        end
  end.

Definition tegra_dvfs_core_get_thermal_index (w : world)
    (type : tegra_dvfs_core_thermal_type) : result Z :=
  match tegra_core_rail w with
  | None => Ok (- EINVAL)
  | Some r =>
      let* rail := get_rail w r in
      if negb (is_ready rail) then Ok (- EINVAL)
      else
        match type with
        | TEGRA_DVFS_CORE_THERMAL_FLOOR => Ok (therm_floor_idx rail)
        | TEGRA_DVFS_CORE_THERMAL_CAP => Ok (therm_cap_idx rail)
        | TEGRA_DVFS_CORE_THERMAL_OTHER => Ok (- EINVAL)
        end
  end.

(** ** Statistics set-up *)

(** [dvfs_rail_stats_init(rail, millivolts)] at time [now];
    [DVFS_RAIL_STATS_BIN] comes from the absent header.  The range computed
    for the warning has no effect and is left out. *)
Definition dvfs_rail_stats_init (top DVFS_RAIL_STATS_BIN : Z) (rail : dvfs_rail)
    (mvolts now : Z) : result rail_stats :=
  let st := stats rail in
  let bin := if bin_uv st =? 0 then DVFS_RAIL_STATS_BIN else bin_uv st in
  let st1 := {| time_at_mv := time_at_mv st; last_update := now;
                last_index := last_index st; off := off st; bin_uv := bin |} in
  if mvolts >=? min_millivolts rail then
    let* i := stats_bin top (set_stats st1 rail) mvolts in
    Ok {| time_at_mv := time_at_mv st; last_update := now;
          last_index := i; off := off st; bin_uv := bin |}
  else Ok st1.

(** ** Rail switches *)

Definition __tegra_dvfs_rail_disable (fuel : nat) (r : nat) (w : world) : result world :=
  let* rail := get_rail w r in
  if dfll_mode rail then Ok (upd_rail r (set_disabled true) w)
  else
    let* lvl := dvfs_rail_apply_limits rail (tegra_dvfs_rail_get_disable_level rail) in
    let* '(w1, ret) :=
      if lvl >=? millivolts rail then dvfs_rail_set_voltage fuel r lvl w
      else Ok (w, - EPERM) in
    if negb (ret =? 0) then Ok w1
    else Ok (upd_rail r (set_disabled true) w1).

Definition __tegra_dvfs_rail_enable (fuel : nat) (r : nat) (w : world) : result world :=
  let w1 := upd_rail r (set_disabled false) w in
  let* '(w2, _) := dvfs_rail_update fuel r w1 in
  Ok w2.

Definition tegra_dvfs_rail_enable (fuel : nat) (rail : option nat) (w : world)
  : result world :=
  match rail with
  | None => Ok w
  | Some r =>
      let* x := get_rail w r in
      if disabled x then __tegra_dvfs_rail_enable fuel r w else Ok w
  end.

Definition tegra_dvfs_rail_disable (fuel : nat) (rail : option nat) (w : world)
  : result world :=
  match rail with
  | None => Ok w
  | Some r =>
      let* x := get_rail w r in
      if disabled x then Ok w else __tegra_dvfs_rail_disable fuel r w
  end.

Definition tegra_dvfs_dfll_mode_set (fuel : nat) (c : option nat) (rate : Z) (w : world)
  : result (world * Z) :=
  let* o := tegra_clk_to_dvfs w c in
  match o with
  | None => Ok (w, - EINVAL)
  | Some d =>
      let* x := get_dvfs w d in
      let* rail := get_rail w (d_dvfs_rail x) in
      if dfll_mode rail then Ok (w, 0)
      else
        let w1 := upd_rail (d_dvfs_rail x) (set_dfll_mode true) w in
        let* '(w2, _) := __tegra_dvfs_set_rate fuel d rate w1 in
        Ok (w2, 0)
  end.

(** ** Predicates used in the statements *)

(** [put_rail r x w] is the store [*r = x]. *)
Definition put_rail (r : nat) (x : dvfs_rail) (w : world) : world :=
  set_rails (<[r := x]> (rails w)) w.

(** The mathematical [ceil(a / b)] for [b > 0]. *)
Definition ceil_div (a b : Z) : Z := (a + b - 1) / b.

(** What no call of the resolver or of the ramp engine changes in a rail,
    once the call has returned. *)
Definition keeps (x x' : dvfs_rail) : Prop :=
  suspended x' = suspended x /\ disabled x' = disabled x /\
  resolving_to x' = resolving_to x.

(** [frame extra w w']: [w'] is [w] after some resolver activity.  Rails whose
    recursion guard is set in [w] are untouched and issue no regulator writes,
    except the rail [extra], if any, whose own ramp is running. *)
Record frame (extra : option nat) (w w' : world) : Prop := {
  frame_hdr : hdr w' = hdr w;
  frame_clocks : clocks w' = clocks w;
  frame_rels : rels w' = rels w;
  frame_core : tegra_core_rail w' = tegra_core_rail w;
  frame_started : core_dvfs_started w' = core_dvfs_started w;
  frame_ktime : ktime w' = ktime w;
  frame_oracle : regulator_set_voltage w' = regulator_set_voltage w;
  frame_length : length (rails w') = length (rails w);
  frame_rails : forall i x, rails w !! i = Some x ->
      exists x', rails w' !! i = Some x' /\ keeps x x' /\
                 (resolving_to x = true -> Some i <> extra -> x' = x);
  frame_log : exists suffix, reg_log w' = reg_log w ++ suffix /\
      Forall (fun e => Some (rw_rail e) = extra \/
                       exists x, rails w !! rw_rail e = Some x /\ resolving_to x = false)
             suffix
}.

(** The number of clear flags in a list. *)
Fixpoint count_clear (flags : list bool) : nat :=
  match flags with
  | [] => O
  | b :: flags' => if b then count_clear flags' else S (count_clear flags')
  end.

(** The number of rails whose recursion guard is clear. *)
Definition free (w : world) : nat := count_clear (resolving_to <$> rails w).

(** What a run may return: a world and a value satisfying [Q], a fault, and
    running out of fuel only when [partial] allows it. *)
Definition res_post {A : Type} (partial : bool) (Q : world -> A -> Prop)
    (res : result (world * A)) : Prop :=
  match res with
  | Ok (w', a) => Q w' a
  | Fault => True
  | OutOfFuel => partial = true
  end.

(** A run that started in [w] ends in a world framed by [w]. *)
Definition res_spec {A : Type} (partial : bool) (extra : option nat) (w : world)
    (res : result (world * A)) : Prop :=
  res_post partial (fun w' _ => frame extra w w') res.

(** The contract of a [dvfs_rail_update] on worlds with at most [n] clear
    guards, and of a [dvfs_rail_set_voltage] on a rail whose guard is clear. *)
Definition upd_spec (partial : bool) (n : nat)
    (update : nat -> world -> result (world * Z)) : Prop :=
  forall x w, (free w <= n)%nat -> res_spec partial None w (update x w).

Definition sv_spec (partial : bool) (n : nat)
    (set_voltage : nat -> Z -> world -> result (world * Z)) (r : nat) : Prop :=
  forall mvolts w x, rails w !! r = Some x -> resolving_to x = false ->
    (free w <= n)%nat -> res_spec partial None w (set_voltage r mvolts w).

(** ** The regulator log of one ramp *)

(** In the log [suf] of a ramp of rail [r] that returned [ret], a failed write
    of [r] is the last entry and [ret] is its return code. *)
Fixpoint own_ok (r : nat) (suf : list reg_write) (ret : Z) : Prop :=
  match suf with
  | [] => True
  | e :: rest =>
      (rw_rail e = r -> rw_ret e <> 0 -> rest = [] /\ ret = rw_ret e) /\
      own_ok r rest ret
  end.

(** The microvolts of the last successful write of rail [r] in [suf], or
    [acc] when there is none. *)
Fixpoint track (r : nat) (suf : list reg_write) (acc : option Z) : option Z :=
  match suf with
  | [] => acc
  | e :: rest =>
      track r rest (if Nat.eqb (rw_rail e) r && (rw_ret e =? 0)
                    then Some (rw_min_uV e) else acc)
  end.

(** The voltage [mvolts] of a rail is the last value written successfully,
    or the voltage [init] it started with when nothing was written. *)
Definition agrees (acc : option Z) (init mvolts : Z) : Prop :=
  match acc with
  | Some uV => int_mul mvolts 1000 = uV
  | None => mvolts = init
  end.

(** What holds between a world [w] in which rail [r] is ramping and the world
    [w2] some steps later, the steps having returned [ret]. *)
Definition ramp_post (r : nat) (w w2 : world) (ret : Z) : Prop :=
  frame (Some r) w w2 /\
  exists suf, reg_log w2 = reg_log w ++ suf /\ own_ok r suf ret /\
    forall x x2 acc init, rails w !! r = Some x -> rails w2 !! r = Some x2 ->
      agrees acc init (millivolts x) -> agrees (track r suf acc) init (millivolts x2).

(** No ramp is in progress: every recursion guard is clear. *)
Definition guards_clear (w : world) : Prop :=
  Forall (fun x => resolving_to x = false) (rails w).

Definition quiescent (w : world) : Prop :=
  forallb (fun x => negb (resolving_to x)) (rails w) = true.

(** [at_rail r x l w] is [w] with rail [r] replaced by [x] and the regulator
    log by [l]. *)
Definition at_rail (r : nat) (x : dvfs_rail) (l : list reg_write) (w : world) : world :=
  set_reg_log l (put_rail r x w).

(** The log entry of a write of [mvolts] on behalf of rail [r]. *)
Definition write_of (w : world) (l : list reg_write) (r h : nat) (x : dvfs_rail)
    (mvolts : Z) : reg_write :=
  {| rw_rail := r; rw_reg := h; rw_min_uV := int_mul mvolts 1000;
     rw_max_uV := int_mul (max_millivolts x) 1000;
     rw_ret := regulator_set_voltage w l h (int_mul mvolts 1000)
                 (int_mul (max_millivolts x) 1000) |}.

(** Statistics on which [dvfs_rail_stats_update] does not fault. *)
Definition stats_ready (top : Z) (st : rail_stats) : Prop :=
  0 <= top < Z.of_nat (length (time_at_mv st)) /\
  0 <= last_index st < Z.of_nat (length (time_at_mv st)) /\
  0 < bin_uv st <= 100000000.

(** The voltage one pass of the step loop of [dvfs_rail_set_voltage] asks
    for, on a rail in state [x]. *)
Definition next_millivolts (x : dvfs_rail) (mvolts stp offset : Z) (jmp : bool) : Z :=
  if negb jmp && (int_abs (int_sub mvolts (millivolts x)) >? stp)
  then int_add (millivolts x) offset
  else mvolts.

(** ** Suspend order *)






(** [u'] agrees with [u] wherever [u] does not run out of fuel. *)
Definition extends (u u' : nat -> world -> result (world * Z)) : Prop :=
  forall x w, u x w <> OutOfFuel -> u' x w = u x w.

(** ** Rollback *)





(** ** Settings and parked rails *)

(** A rail [dvfs_rail_update] returns from at once: disabled, suspended or
    without a regulator. *)
Definition parked (x : dvfs_rail) : bool :=
  disabled x || suspended x || negb (has_reg x).

(** A rail with its run-time state blanked: the voltage, the requested
    voltage, the recursion guard and the counters of the statistics.  Two
    rails with the same [settings] differ in those only. *)
Definition settings (x : dvfs_rail) : dvfs_rail :=
  set_millivolts 0
    (set_new_millivolts 0
       (set_resolving_to false
          (set_stats {| time_at_mv := []; last_update := 0; last_index := 0;
                        off := off (stats x); bin_uv := bin_uv (stats x) |} x))).

(** [steady w w']: from [w] to [w'] no rail changed its settings, no parked
    rail changed at all, and every regulator write was made for a rail that
    is not parked, on that rail's own regulator and with its maximum as the
    upper bound. *)
Record steady (w w' : world) : Prop := {
  steady_length : length (rails w') = length (rails w);
  steady_rails : forall i x, rails w !! i = Some x ->
      exists x', rails w' !! i = Some x' /\ settings x' = settings x /\
                 (parked x = true -> x' = x);
  steady_log : exists suffix, reg_log w' = reg_log w ++ suffix /\
      Forall (fun e => exists x, rails w !! rw_rail e = Some x /\ parked x = false /\
                         reg x = Some (rw_reg e) /\
                         rw_max_uV e = int_mul (max_millivolts x) 1000)
             suffix
}.

(** The contract of a [dvfs_rail_update] for [steady]. *)
Definition upd_steady (update : nat -> world -> result (world * Z)) : Prop :=
  forall x w w' ret, update x w = Ok (w', ret) -> steady w w'.

(** [quiet r w w']: from [w] to [w'] nothing was written to a regulator and
    nothing changed outside rail [r], which kept its mode and its regulator. *)
Definition quiet (r : nat) (w w' : world) : Prop :=
  reg_log w' = reg_log w /\ clocks w' = clocks w /\
  (forall i, i <> r -> rails w' !! i = rails w !! i) /\
  forall x, rails w !! r = Some x ->
    exists x', rails w' !! r = Some x' /\ dfll_mode x' = dfll_mode x /\ reg x' = reg x.

(** The first [n] entries of a table do not decrease. *)
Fixpoint ascending (fr : list Z) (n : nat) : bool :=
  match fr, n with
  | a :: tl, S m =>
      match tl, m with
      | b :: _, S _ => (a <=? b) && ascending tl m
      | _, _ => true
      end
  | _, _ => true
  end.

(** ** Thermal tables *)

(** The first [size] entries of a thermal table are in order for a rail whose
    minimum is [lo]: no voltage is 0, temperatures rise strictly, voltages do
    not rise, and the last voltage is not below [lo]. *)
Definition limits_valid (limits : list dvfs_therm_limits) (size : nat) (lo : Z) : Prop :=
  (0 < size <= length limits)%nat /\
  (forall k a, (k < size)%nat -> limits !! k = Some a -> mv a <> 0) /\
  (forall k a b, (S k < size)%nat -> limits !! k = Some a -> limits !! S k = Some b ->
                 temperature a < temperature b /\ mv b <= mv a) /\
  (forall a, limits !! (size - 1)%nat = Some a -> lo <= mv a).

(** ** Statistics *)

(** The time a rail's histogram accounts for. *)
Definition total_time (st : rail_stats) : Z := foldr Z.add 0 (time_at_mv st).

(** ** Registration *)

(** The arena indices, counted from [base], of the relationships of [es]
    whose end [sel] is rail [i], in the order of [es]. *)
Fixpoint edge_ids (sel : dvfs_relationship -> nat) (i base : nat)
    (es : list dvfs_relationship) : list nat :=
  match es with
  | [] => []
  | e :: es' =>
      (if Nat.eqb (sel e) i then [base] else []) ++ edge_ids sel i (S base) es'
  end.

(** ** Paced ramps *)

(** The microvolts rail [r] stands at after the log [suf], having started at
    [cur]: those of its last write that was accepted. *)
Fixpoint settle (r : nat) (suf : list reg_write) (cur : Z) : Z :=
  match suf with
  | [] => cur
  | e :: rest =>
      settle r rest (if Nat.eqb (rw_rail e) r && (rw_ret e =? 0) then rw_min_uV e else cur)
  end.

(** Every write of rail [r] in the log [suf] asks for a voltage between [lo]
    and [hi] that is at most [stp] away from where the rail stands then, all
    in microvolts. *)
Fixpoint paced (r : nat) (stp lo hi cur : Z) (suf : list reg_write) : Prop :=
  match suf with
  | [] => True
  | e :: rest =>
      (rw_rail e = r -> Z.abs (rw_min_uV e - cur) <= stp /\ lo <= rw_min_uV e <= hi) /\
      paced r stp lo hi (settle r [e] cur) rest
  end.

(** ** Suspend levels *)

(** The voltage [tegra_dvfs_suspend_one] asks [dvfs_rail_apply_limits] for and
    gets back: the suspend level, or the override when one is set. *)
Definition suspend_target (x : dvfs_rail) : Z :=
  if negb (override_millivolts x =? 0) then override_millivolts x
  else tegra_dvfs_rail_get_suspend_level x.

(** [suspending w0 w]: [w] is [w0] some passes of the suspend loop later.
    Rails differ from what they were in their run-time state and their
    [suspended] flag only, a rail that was suspended or disabled is as it
    was, and a rail suspended since stands at or above its target. *)
Definition suspending (w0 w : world) : Prop :=
  forall i x, rails w0 !! i = Some x ->
    exists y, rails w !! i = Some y /\
      settings (set_suspended false y) = settings (set_suspended false x) /\
      (suspended x = true \/ disabled x = true -> y = x) /\
      (suspended x = false -> suspended y = true -> suspend_target x <= millivolts y).

(** ** Sample platforms *)

(** A header whose DFLL predicates never hold. *)
Definition ex_hdr : header :=
  {| DVFS_RAIL_STATS_TOP_BIN := 100;
     tegra_dvfs_is_dfll_scale := fun _ _ _ => false;
     tegra_dvfs_is_dfll_range_entry := fun _ _ _ => false |}.

Definition ex_stats : rail_stats :=
  {| time_at_mv := repeat 0 101; last_update := 0; last_index := 1; off := false;
     bin_uv := 12500 |}.

(** A rail with 50 mV steps both ways, limits 800..1200 mV, nominal 1000 mV. *)
Definition ex_rail (name : string) (handle : option nat) (cur : Z) (dfll jmp : bool)
    (floors : option (list dvfs_therm_limits)) (floors_size floor_idx : Z)
    (ds from_ks to_ks : list nat) : dvfs_rail :=
  {| reg_id := name; reg := handle; millivolts := cur; new_millivolts := cur;
     min_millivolts := 800; max_millivolts := 1200; nominal_millivolts := 1000;
     disable_millivolts := 0; suspend_millivolts := 0; override_millivolts := 0;
     step := 50; step_up := 50; disabled := false; suspended := false;
     dfll_mode := dfll; resolving_to := false; jmp_to_zero := jmp;
     in_band_pm := false; is_ready := true; therm_floors := floors;
     therm_floors_size := floors_size; therm_floor_idx := floor_idx;
     therm_caps := None; therm_caps_size := 0; therm_cap_idx := 0; dvfs_list := ds;
     relationships_from := from_ks; relationships_to := to_ks; stats := ex_stats |}.

(** A clock on rail [r], running at [rate] Hz and asking for [volt] mV, with a
    three-entry frequency table and the voltage table [volts]. *)
Definition ex_dvfs (c r : nat) (rate volt : Z) (volts : list Z) (alt : option (list Z))
    (dfll_rate_min rng : Z) : dvfs :=
  {| clk := Some c; clk_name := "clk"; d_dvfs_rail := r;
     freqs := [100; 200; 300]; alt_freqs := alt;
     d_millivolts := Some volts; dfll_millivolts := None;
     num_freqs := 3; cur_rate := rate; cur_millivolts := volt;
     d_max_millivolts := 0; use_alt_freqs := false;
     use_dfll_rate_min := dfll_rate_min; range := rng |}.

(** A regulator that accepts every request. *)
Definition ex_world (h : header) (rs : list dvfs_rail) (cs : list dvfs)
    (es : list dvfs_relationship) : world :=
  {| hdr := h; rails := rs; clocks := cs; rels := es; tegra_core_rail := Some 0%nat;
     core_dvfs_started := true; ktime := 5; reg_log := [];
     regulator_set_voltage := fun _ _ _ _ => 0 |}.

(** One rail under DFLL control, at 800 mV. *)
Definition w_dfll : world :=
  ex_world ex_hdr [ex_rail "vdd-cpu" (Some 0%nat) 800 true false None 0 0 [] [] []] [] [].

(** One rail at 800 mV with no relationships. *)
Definition w_ramp : world :=
  ex_world ex_hdr [ex_rail "vdd-core" (Some 7%nat) 800 false false None 0 0 [] [] []] [] [].

(** A rail at 1000 mV that may jump to zero, with a 950 mV thermal floor in
    force above its 800 mV minimum, and one idle clock. *)
Definition w_idle : world :=
  ex_world ex_hdr
    [ex_rail "vdd-gpu" (Some 3%nat) 1000 false true
       (Some [ {| temperature := 20; mv := 950 |} ]) 1 0 [0%nat] [] []]
    [ex_dvfs 0 0 0 0 [800; 900; 1000] None 0 0] [].

(** What a caller can observe of a run on rail [r]: the return code, the
    rail's voltage and the microvolts requested from the regulator, in order. *)
Definition observe (r : nat) (res : result (world * Z))
  : option (Z * option Z * list Z) :=
  match res with
  | Ok (w, ret) => Some (ret, millivolts <$> rails w !! r, map rw_min_uV (reg_log w))
  | _ => None
  end.

(** A rail limited to 800..1200 mV, now at 1000 mV, whose only clock asks for
    700 mV. *)
Definition w_low_demand : world :=
  ex_world ex_hdr
    [ex_rail "vdd-core" (Some 0%nat) 1000 false false None 0 0 [0%nat] [] []]
    [ex_dvfs 0 0 100 700 [700; 900; 1300] None 0 0] [].

(** The core rail at 850 mV with a clock asking for 850 mV and the thermal
    floors 950 mV (cold) and 900 mV (warm); the warm floor is selected. *)
Definition w_floor : world :=
  ex_world ex_hdr
    [ex_rail "vdd-core" (Some 0%nat) 850 false false
       (Some [ {| temperature := 20; mv := 950 |}; {| temperature := 70; mv := 900 |} ])
       2 1 [0%nat] [] []]
    [ex_dvfs 0 0 100 850 [850; 900; 1000] None 0 0] [].

(** A clock with an alternate frequency table, not in use. *)
Definition w_alt : world :=
  ex_world ex_hdr
    [ex_rail "vdd-core" (Some 0%nat) 900 false false None 0 0 [0%nat] [] []]
    [ex_dvfs 0 0 200 900 [800; 900; 1000] (Some [150; 250; 350]) 0 0] [].

(** The DFLL predicates of a platform with DFLL ranges.  A rate is in the
    DFLL range of a clock whose range covers all rates (1), or the high rates
    (2) when the rate is at or above [use_dfll_rate_min]. *)
Definition ex_dfll_range (d : dvfs) (rate : Z) : bool :=
  (range d =? 1) || ((range d =? 2) && (rate >=? use_dfll_rate_min d)).

(** The DFLL voltage table is used on a rail in DFLL mode and for a rate in
    the DFLL range.  A request enters the range when a clock that runs below
    its DFLL threshold, on a rail not in DFLL mode, is asked for a rate at or
    above the threshold. *)
Definition ex_hdr_dfll : header :=
  {| DVFS_RAIL_STATS_TOP_BIN := 100;
     tegra_dvfs_is_dfll_scale := fun rs d rate =>
       match rs !! d_dvfs_rail d with
       | Some x => dfll_mode x
       | None => false
       end || ex_dfll_range d rate;
     tegra_dvfs_is_dfll_range_entry := fun rs d rate =>
       negb (cur_rate d =? 0) &&
       match rs !! d_dvfs_rail d with
       | Some x => negb (dfll_mode x)
       | None => false
       end &&
       (range d =? 2) && (rate >=? use_dfll_rate_min d) &&
       (cur_rate d <? use_dfll_rate_min d) |}.

(** A clock at 100 Hz with a DFLL voltage table, whose DFLL range is the
    high rates from 200 Hz. *)
Definition ex_range_dvfs : dvfs :=
  {| clk := Some 0%nat; clk_name := "cpu"; d_dvfs_rail := 0;
     freqs := [100; 200; 300]; alt_freqs := None;
     d_millivolts := Some [800; 900; 1000];
     dfll_millivolts := Some [810; 910; 1010];
     num_freqs := 3; cur_rate := 100; cur_millivolts := 800;
     d_max_millivolts := 0; use_alt_freqs := false;
     use_dfll_rate_min := 200; range := 2 |}.

Definition w_range_entry : world :=
  ex_world ex_hdr_dfll
    [ex_rail "vdd-cpu" (Some 0%nat) 800 false false None 0 0 [0%nat] [] []]
    [ex_range_dvfs] [].

(** A clock at 100 Hz without DFLL table or DFLL range, on a platform
    without DFLL. *)
Definition w_plain_clock : world :=
  ex_world ex_hdr
    [ex_rail "vdd-cpu" (Some 0%nat) 800 false false None 0 0 [0%nat] [] []]
    [ex_dvfs 0 0 100 800 [800; 900; 1000] None 0 0] [].

(** Two rails that constrain each other: each must stay within 100 mV below
    the other.  Rail 0 stands at 800 mV and its clock asks for 1000 mV. *)
Definition ex_follow : dvfs_rail -> dvfs_rail -> Z :=
  fun fr tr => Z.max (new_millivolts tr) (new_millivolts fr - 100).

Definition w_cycle : world :=
  ex_world ex_hdr
    [ex_rail "vdd-cpu" (Some 0%nat) 800 false false None 0 0 [0%nat] [1%nat] [0%nat];
     ex_rail "vdd-gpu" (Some 1%nat) 800 false false None 0 0 [1%nat] [0%nat] [1%nat]]
    [ex_dvfs 0 0 300 1000 [800; 900; 1000] None 0 0;
     ex_dvfs 1 1 100 800 [800; 900; 1000] None 0 0]
    [ {| from := 0; to := 1; solved_at_nominal := false; solve := ex_follow |};
      {| from := 1; to := 0; solved_at_nominal := false; solve := ex_follow |} ].

(** The rail of [w_ramp] on a regulator that refuses 950000 uV with [-EIO]. *)
Definition w_refuse : world :=
  set_regulator_set_voltage (fun _ _ uV _ => if uV =? 950000 then -5 else 0) w_ramp.

(** The world a run ends in ([w] itself if it does not end). *)
Definition world_after (w : world) (res : result (world * Z)) : world :=
  match res with
  | Ok (w', _) => w'
  | _ => w
  end.

(** Rail 0 needs rail 1: the relationship runs from rail 1 to rail 0. *)
Definition w_chain : world :=
  ex_world ex_hdr
    [ex_rail "vdd-gpu" (Some 0%nat) 900 false false None 0 0 [0%nat] [0%nat] [];
     ex_rail "vdd-core" (Some 1%nat) 900 false false None 0 0 [1%nat] [] [0%nat]]
    [ex_dvfs 0 0 200 900 [800; 900; 1000] None 0 0;
     ex_dvfs 1 1 200 900 [800; 900; 1000] None 0 0]
    [ {| from := 1; to := 0; solved_at_nominal := false; solve := ex_follow |} ].

(** Rail 0 has no active clock and may not jump to zero; it stands at the
    800 mV its regulator had at boot.  Rails 1 and 2 wait for each other. *)
Definition w_stuck : world :=
  ex_world ex_hdr
    [ex_rail "vdd-aux" (Some 0%nat) 800 false false None 0 0 [] [] [];
     ex_rail "vdd-cpu" (Some 1%nat) 1000 false false None 0 0 [] [1%nat] [0%nat];
     ex_rail "vdd-gpu" (Some 2%nat) 1000 false false None 0 0 [] [0%nat] [1%nat]]
    []
    [ {| from := 1; to := 2; solved_at_nominal := false; solve := ex_follow |};
      {| from := 2; to := 1; solved_at_nominal := false; solve := ex_follow |} ].

(** ** More example worlds *)

(** [w_cycle] with its second rail suspended. *)
Definition w_parked : world := upd_rail 1 (set_suspended true) w_cycle.

(** A rail under DFLL control at 800 mV whose clock asks for 1000 mV, and a
    second rail that follows it. *)
Definition w_dfll_clock : world :=
  ex_world ex_hdr
    [ex_rail "vdd-cpu" (Some 0%nat) 800 true false None 0 0 [0%nat] [] [0%nat];
     ex_rail "vdd-gpu" (Some 1%nat) 800 false false None 0 0 [] [0%nat] []]
    [ex_dvfs 0 0 300 1000 [800; 900; 1000] None 0 0]
    [ {| from := 0; to := 1; solved_at_nominal := false; solve := ex_follow |} ].

(** The same world before the rail is handed to the DFLL. *)
Definition w_pll_clock : world := upd_rail 0 (set_dfll_mode false) w_dfll_clock.

(** A clock as a board file declares it: five table slots, three voltages,
    frequencies in kHz to be scaled by 1000, the last one left at 0. *)
Definition ex_board_dvfs : dvfs :=
  {| clk := None; clk_name := "emc"; d_dvfs_rail := 0;
     freqs := [100; 200; 0; 0; 0]; alt_freqs := None;
     d_millivolts := Some [800; 900; 1000; 0; 0]; dfll_millivolts := None;
     num_freqs := 0; cur_rate := 0; cur_millivolts := 0;
     d_max_millivolts := 0; use_alt_freqs := false;
     use_dfll_rate_min := 0; range := 0 |}.

(** A rail as a board file declares it, with three thermal floors and two
    thermal caps in zero-terminated tables of four entries. *)
Definition ex_thermal_rail : dvfs_rail :=
  set_therm_caps
    (Some [ {| temperature := 70; mv := 1150 |}; {| temperature := 90; mv := 1100 |};
            {| temperature := 0; mv := 0 |}; {| temperature := 0; mv := 0 |} ])
    (ex_rail "vdd-core" (Some 0%nat) 1000 false false
       (Some [ {| temperature := -10; mv := 950 |}; {| temperature := 20; mv := 900 |};
               {| temperature := 50; mv := 850 |}; {| temperature := 0; mv := 0 |} ])
       0 0 [] [] []).

(** A rail whose statistics are still zeroed, as at boot. *)
Definition ex_boot_rail : dvfs_rail :=
  set_stats {| time_at_mv := repeat 0 101; last_update := 0; last_index := 0;
               off := false; bin_uv := 0 |}
    (ex_rail "vdd-core" (Some 0%nat) 1000 false false None 0 0 [] [] []).

(** Two rails as a board file declares them: the disable level of the first
    is above nominal, the second has no [step_up]. *)
Definition ex_board_rails : list dvfs_rail :=
  [ {| reg_id := "vdd-cpu"; reg := None; millivolts := 0; new_millivolts := 0;
       min_millivolts := 800; max_millivolts := 1300; nominal_millivolts := 1100;
       disable_millivolts := 1200; suspend_millivolts := 0; override_millivolts := 0;
       step := 0; step_up := 0; disabled := false; suspended := false;
       dfll_mode := false; resolving_to := false; jmp_to_zero := false;
       in_band_pm := false; is_ready := false; therm_floors := None;
       therm_floors_size := 0; therm_floor_idx := 0; therm_caps := None;
       therm_caps_size := 0; therm_cap_idx := 0; dvfs_list := [7%nat];
       relationships_from := []; relationships_to := []; stats := ex_stats |};
    {| reg_id := "vdd-core"; reg := None; millivolts := 0; new_millivolts := 0;
       min_millivolts := 900; max_millivolts := 1200; nominal_millivolts := 1000;
       disable_millivolts := 0; suspend_millivolts := 950; override_millivolts := 0;
       step := 100; step_up := 0; disabled := false; suspended := false;
       dfll_mode := false; resolving_to := false; jmp_to_zero := false;
       in_band_pm := false; is_ready := false; therm_floors := None;
       therm_floors_size := 0; therm_floor_idx := 0; therm_caps := None;
       therm_caps_size := 0; therm_cap_idx := 0; dvfs_list := [];
       relationships_from := []; relationships_to := []; stats := ex_stats |} ].

(** A world with no rail registered yet. *)
Definition w_empty : world := ex_world ex_hdr [] [] [].

(** The rail of [w_ramp] with its disable level at 900 mV. *)
Definition ex_disable_rail : dvfs_rail :=
  {| reg_id := "vdd-core"; reg := Some 7%nat; millivolts := 800; new_millivolts := 800;
     min_millivolts := 800; max_millivolts := 1200; nominal_millivolts := 1000;
     disable_millivolts := 900; suspend_millivolts := 0; override_millivolts := 0;
     step := 50; step_up := 50; disabled := false; suspended := false;
     dfll_mode := false; resolving_to := false; jmp_to_zero := false;
     in_band_pm := false; is_ready := true; therm_floors := None;
     therm_floors_size := 0; therm_floor_idx := 0; therm_caps := None;
     therm_caps_size := 0; therm_cap_idx := 0; dvfs_list := [];
     relationships_from := []; relationships_to := []; stats := ex_stats |}.

Definition w_disable : world := ex_world ex_hdr [ex_disable_rail] [] [].

(** [w_chain] with its first rail suspended and its second disabled. *)
Definition w_asleep : world :=
  upd_rail 1 (set_disabled true) (upd_rail 0 (set_suspended true) w_chain).

(** * Basic facts *)

Lemma rbind_Ok {A B : Type} (m : result A) (k : A -> result B) (b : B) :
  rbind m k = Ok b -> exists a, m = Ok a /\ k a = Ok b.
Proof. destruct m; simpl; intros H; try discriminate. eauto. Qed.

Lemma of_option_Ok {A : Type} (o : option A) (a : A) :
  of_option o = Ok a <-> o = Some a.
Proof. destruct o; simpl; split; intros H; congruence. Qed.

Lemma get_rail_Ok (w : world) (r : nat) (x : dvfs_rail) :
  get_rail w r = Ok x <-> rails w !! r = Some x.
Proof. apply of_option_Ok. Qed.

Lemma get_rail_lookup (w : world) (r : nat) (x : dvfs_rail) :
  rails w !! r = Some x -> get_rail w r = Ok x.
Proof. apply get_rail_Ok. Qed.

Lemma rails_upd_rail (r : nat) (f : dvfs_rail -> dvfs_rail) (w : world) :
  rails (upd_rail r f w) = alter f r (rails w).
Proof. reflexivity. Qed.

Lemma lookup_upd_rail_eq (r : nat) f (w : world) (x : dvfs_rail) :
  rails w !! r = Some x -> rails (upd_rail r f w) !! r = Some (f x).
Proof. intros H. rewrite rails_upd_rail, list_lookup_alter_eq, H. reflexivity. Qed.

Lemma lookup_upd_rail_ne (r i : nat) f (w : world) :
  r <> i -> rails (upd_rail r f w) !! i = rails w !! i.
Proof. intros H. rewrite rails_upd_rail. apply list_lookup_alter_ne, H. Qed.

Lemma upd_rail_put (r : nat) f (w : world) (x : dvfs_rail) :
  rails w !! r = Some x -> upd_rail r f w = put_rail r (f x) w.
Proof.
  intros H. unfold upd_rail, put_rail. f_equal.
  rewrite list_insert_alter. apply list_alter_ext; [|reflexivity].
  intros y Hy. congruence.
Qed.

Lemma put_rail_put_rail (r : nat) (x y : dvfs_rail) (w : world) :
  put_rail r y (put_rail r x w) = put_rail r y w.
Proof.
  unfold put_rail, set_rails. simpl. f_equal. apply list_insert_insert_eq.
Qed.

Lemma lookup_put_rail_eq (r : nat) (x y : dvfs_rail) (w : world) :
  rails w !! r = Some x -> rails (put_rail r y w) !! r = Some y.
Proof.
  intros H. unfold put_rail. simpl. apply list_lookup_insert_eq.
  eapply lookup_lt_Some, H.
Qed.

Lemma put_rail_id (r : nat) (x : dvfs_rail) (w : world) :
  rails w !! r = Some x -> put_rail r x w = w.
Proof.
  intros H. unfold put_rail. rewrite (list_insert_id _ _ _ H).
  destruct w; reflexivity.
Qed.

Lemma at_rail_id (r : nat) (x : dvfs_rail) (w : world) :
  rails w !! r = Some x -> w = at_rail r x (reg_log w) w.
Proof.
  intros H. unfold at_rail. rewrite (put_rail_id _ _ _ H). destruct w; reflexivity.
Qed.

Lemma upd_rail_to_at_rail (r : nat) f (x : dvfs_rail) (w : world) :
  rails w !! r = Some x -> upd_rail r f w = at_rail r (f x) (reg_log w) w.
Proof.
  intros H. rewrite (upd_rail_put _ _ _ _ H). unfold at_rail. destruct w; reflexivity.
Qed.

Section at_rail.
Context (r : nat) (w : world) (Hr : (r < length (rails w))%nat).

Lemma lookup_at_rail x l : rails (at_rail r x l w) !! r = Some x.
Proof using Hr. simpl. apply list_lookup_insert_eq, Hr. Qed.

Lemma get_rail_at_rail x l : get_rail (at_rail r x l w) r = Ok x.
Proof using Hr. apply get_rail_lookup, lookup_at_rail. Qed.

Lemma upd_rail_at_rail f x l : upd_rail r f (at_rail r x l w) = at_rail r (f x) l w.
Proof using Hr.
  rewrite (upd_rail_put _ _ _ _ (lookup_at_rail x l)).
  unfold at_rail, put_rail, set_reg_log, set_rails. simpl. f_equal.
  apply list_insert_insert_eq.
Qed.

Lemma put_rail_at_rail y x l : put_rail r y (at_rail r x l w) = at_rail r y l w.
Proof using Type.
  unfold at_rail, put_rail, set_reg_log, set_rails. simpl. f_equal.
  apply list_insert_insert_eq.
Qed.

Lemma set_reg_log_at_rail l' x l : set_reg_log l' (at_rail r x l w) = at_rail r x l' w.
Proof using Type. reflexivity. Qed.
End at_rail.

Lemma wrap_int_small (x : Z) : INT_MIN <= x <= INT_MAX -> wrap_int x = x.
Proof.
  unfold INT_MIN, INT_MAX, wrap_int. intros H.
  rewrite Z.mod_small; lia.
Qed.

Lemma stats_update_ready (top : Z) (x : dvfs_rail) (mvolts now : Z) :
  stats_ready top (stats x) ->
  mvolts - min_millivolts x <= 1000000 ->
  exists st, dvfs_rail_stats_update top x mvolts now = Ok st /\ stats_ready top st.
Proof.
  intros (Htop & Hidx & Hbin) Hmv. unfold dvfs_rail_stats_update, array_get.
  destruct (Z.ltb_spec (last_index (stats x)) 0) as [?|_]; [lia|].
  destruct (lookup_lt_is_Some_2 (time_at_mv (stats x)) (Z.to_nat (last_index (stats x))))
    as [t Ht]; [lia|].
  rewrite Ht. cbn [of_option rbind].
  assert (Hlen : forall v, length (<[Z.to_nat (last_index (stats x)) := v]>
                                     (time_at_mv (stats x)))
                           = length (time_at_mv (stats x)))
    by (intros v; apply length_insert).
  destruct (off (stats x)).
  { eexists; split; [reflexivity|]. unfold stats_ready. cbn. rewrite Hlen. lia. }
  destruct (Z.geb_spec mvolts (min_millivolts x)) as [Hge|Hlt].
  - unfold stats_bin, int_div.
    assert (H2b : int_mul 2 (bin_uv (stats x)) = 2 * bin_uv (stats x))
      by (apply wrap_int_small; unfold INT_MIN, INT_MAX; lia).
    rewrite H2b.
    destruct (Z.eqb_spec (2 * bin_uv (stats x)) 0) as [?|_]; [lia|].
    destruct (Z.eqb_spec (2 * bin_uv (stats x)) (-1)) as [?|_]; [lia|].
    rewrite andb_false_r. cbn [rbind].
    eexists; split; [reflexivity|]. unfold stats_ready. cbn. rewrite Hlen.
    repeat split; try lia.
    apply Z.min_glb; [|lia].
    { unfold int_sub, int_mul, int_add.
      rewrite (wrap_int_small (mvolts - _)) by (unfold INT_MIN, INT_MAX; lia).
      rewrite (wrap_int_small (2 * _)) by (unfold INT_MIN, INT_MAX; lia).
      rewrite (wrap_int_small (_ * 1000)) by (unfold INT_MIN, INT_MAX; lia).
      rewrite (wrap_int_small (_ + bin_uv _)) by (unfold INT_MIN, INT_MAX; lia).
      assert (Hq : 0 <= (2 * (mvolts - min_millivolts x) * 1000 + bin_uv (stats x))
                        ÷ (2 * bin_uv (stats x))
                   <= 2 * (mvolts - min_millivolts x) * 1000 + bin_uv (stats x)).
      { split; [apply Z.quot_pos; lia|].
        rewrite Z.quot_div_nonneg by lia.
        apply Z.div_le_upper_bound; [lia|]. nia. }
      rewrite wrap_int_small by (unfold INT_MIN, INT_MAX; lia). lia. }
  - destruct (mvolts =? 0);
      (eexists; split; [reflexivity|]; unfold stats_ready; cbn; rewrite Hlen; lia).
Qed.

(** ** Code that makes no recursive call does not run out of fuel *)

Lemma rbind_fuel {A B : Type} (m : result A) (k : A -> result B) :
  m <> OutOfFuel -> (forall a, k a <> OutOfFuel) -> rbind m k <> OutOfFuel.
Proof. destruct m; cbn; auto. Qed.

Lemma of_option_fuel {A : Type} (o : option A) : of_option o <> OutOfFuel.
Proof. destruct o; discriminate. Qed.

Lemma array_get_fuel {A : Type} (a : list A) (i : Z) : array_get a i <> OutOfFuel.
Proof. unfold array_get. destruct (i <? 0); [discriminate | apply of_option_fuel]. Qed.

Lemma int_div_fuel (a b : Z) : int_div a b <> OutOfFuel.
Proof. unfold int_div. destruct (b =? 0), ((a =? INT_MIN) && (b =? -1)); discriminate. Qed.

Lemma DIV_ROUND_UP_fuel (n d : Z) : DIV_ROUND_UP n d <> OutOfFuel.
Proof. apply int_div_fuel. Qed.

Lemma stats_update_fuel (top : Z) (x : dvfs_rail) (mvolts now : Z) :
  dvfs_rail_stats_update top x mvolts now <> OutOfFuel.
Proof.
  unfold dvfs_rail_stats_update. apply rbind_fuel; [apply array_get_fuel|]. intros t.
  destruct (off (stats x)); [discriminate|].
  destruct (mvolts >=? min_millivolts x).
  - apply rbind_fuel; [|discriminate]. unfold stats_bin.
    apply rbind_fuel; [apply int_div_fuel | discriminate].
  - destruct (mvolts =? 0); discriminate.
Qed.

Lemma rail_stats_update_fuel (r : nat) (mvolts : Z) (w : world) :
  rail_stats_update r mvolts w <> OutOfFuel.
Proof.
  unfold rail_stats_update. apply rbind_fuel; [apply of_option_fuel|]. intros x.
  apply rbind_fuel; [apply stats_update_fuel | discriminate].
Qed.

Lemma rail_stats_update_inv (r : nat) (mvolts : Z) (w w' : world) :
  rail_stats_update r mvolts w = Ok w' -> exists st, w' = upd_rail r (set_stats st) w.
Proof.
  unfold rail_stats_update. intros H.
  apply rbind_Ok in H as (x & _ & H). apply rbind_Ok in H as (st & _ & H).
  injection H as <-. eauto.
Qed.

Lemma set_voltage_reg_fuel (r : nat) (v : Z) (w : world) :
  dvfs_rail_set_voltage_reg r v w <> OutOfFuel.
Proof.
  unfold dvfs_rail_set_voltage_reg. apply rbind_fuel; [apply of_option_fuel|]. intros x.
  apply rbind_fuel; [apply of_option_fuel | discriminate].
Qed.

Lemma apply_limits_fuel (x : dvfs_rail) (mvolts : Z) :
  dvfs_rail_apply_limits x mvolts <> OutOfFuel.
Proof.
  unfold dvfs_rail_apply_limits. apply rbind_fuel.
  { destruct (therm_floors x); [|discriminate].
    destruct (_ <? _); [|discriminate].
    apply rbind_fuel; [apply array_get_fuel | discriminate]. }
  intros lo. apply rbind_fuel; [|discriminate].
  destruct (therm_caps x); [|discriminate].
  destruct (_ >? _); [|discriminate].
  apply rbind_fuel; [apply array_get_fuel | discriminate].
Qed.

Lemma max_cur_millivolts_fuel (w : world) (ds : list nat) (mvolts : Z) :
  max_cur_millivolts w ds mvolts <> OutOfFuel.
Proof.
  revert mvolts. induction ds as [|d ds IH]; intros mvolts; cbn; [discriminate|].
  apply rbind_fuel; [apply of_option_fuel|]. intros c. apply IH.
Qed.

Lemma demand_fuel (w : world) (x : dvfs_rail) : dvfs_rail_demand w x <> OutOfFuel.
Proof.
  unfold dvfs_rail_demand. apply rbind_fuel; [apply max_cur_millivolts_fuel|]. intros m.
  destruct (negb (m =? 0)).
  - apply rbind_fuel; [apply apply_limits_fuel | discriminate].
  - destruct (in_band_pm x), (negb (jmp_to_zero x)); discriminate.
Qed.

Lemma solve_relationship_fuel (w : world) (rel : dvfs_relationship) :
  dvfs_solve_relationship w rel <> OutOfFuel.
Proof.
  unfold dvfs_solve_relationship. apply rbind_fuel; [apply of_option_fuel|]. intros fr.
  apply rbind_fuel; [apply of_option_fuel | discriminate].
Qed.

Lemma solve_relationships_from_fuel (r : nat) (ks : list nat) (w : world) :
  solve_relationships_from r ks w <> OutOfFuel.
Proof.
  revert w. induction ks as [|k ks IH]; intros w; cbn; [discriminate|].
  apply rbind_fuel; [apply of_option_fuel|]. intros rel.
  apply rbind_fuel; [apply solve_relationship_fuel|]. intros v. apply IH.
Qed.

(** ** Wrapping arithmetic *)

Lemma wrap_int_range (x : Z) : INT_MIN <= wrap_int x <= INT_MAX.
Proof.
  unfold wrap_int, INT_MIN, INT_MAX.
  pose proof (Z.mod_pos_bound (x + 2147483648) 4294967296 ltac:(lia)). lia.
Qed.

Lemma wrap_int_le (x : Z) : INT_MIN <= x -> wrap_int x <= x.
Proof.
  unfold wrap_int, INT_MIN. intros H.
  pose proof (Z.mod_le (x + 2147483648) 4294967296 ltac:(lia) ltac:(lia)). lia.
Qed.

Lemma wrap_int_sub_1 (y : Z) : wrap_int (wrap_int y - 1) = wrap_int (y - 1).
Proof.
  unfold wrap_int. f_equal.
  replace ((y + 2147483648) mod 4294967296 - 2147483648 - 1 + 2147483648)
    with ((y + 2147483648) mod 4294967296 - 1) by lia.
  rewrite Zminus_mod_idemp_l. f_equal. lia.
Qed.

Lemma int_abs_le (d : Z) : INT_MIN <= d <= INT_MAX -> INT_MIN <= int_abs d <= Z.abs d.
Proof.
  unfold int_abs, int_neg. intros Hd. destruct (Z.ltb_spec d 0).
  - split; [apply wrap_int_range|].
    etransitivity; [apply wrap_int_le; unfold INT_MIN, INT_MAX in *; lia | lia].
  - unfold INT_MIN in *. lia.
Qed.

Lemma wrap_int_abs_le (x : Z) : Z.abs (wrap_int x) <= Z.abs x.
Proof.
  destruct (Z_le_dec INT_MIN x) as [Hlo|Hlo]; [destruct (Z_le_dec x INT_MAX) as [Hhi|Hhi]|].
  - rewrite wrap_int_small by lia. lia.
  - pose proof (wrap_int_range x). unfold INT_MIN, INT_MAX in *. lia.
  - pose proof (wrap_int_range x). unfold INT_MIN, INT_MAX in *. lia.
Qed.

(** The pass count [DIV_ROUND_UP(abs(a - b), s)] of the driver is at most the
    mathematical [ceil(|a - b| / s)]. *)
Lemma DIV_ROUND_UP_abs_le (a b s k : Z) :
  0 < s ->
  DIV_ROUND_UP (int_abs (int_sub a b)) s = Ok k ->
  k <= ceil_div (Z.abs (a - b)) s.
Proof.
  intros Hs. unfold DIV_ROUND_UP, ceil_div.
  assert (Hn : INT_MIN <= int_abs (int_sub a b) <= Z.abs (a - b)).
  { pose proof (int_abs_le (int_sub a b) (wrap_int_range _)) as Hd.
    pose proof (wrap_int_abs_le (a - b)). unfold int_sub in *. lia. }
  revert Hn. generalize (int_abs (int_sub a b)). intros n Hn.
  unfold int_div, int_sub, int_add.
  destruct (s =? 0); [discriminate|]. destruct (_ && _); [discriminate|].
  intros H. injection H as <-. rewrite wrap_int_sub_1.
  assert (HX : wrap_int (n + s - 1) <= Z.abs (a - b) + s - 1).
  { etransitivity; [apply wrap_int_le; lia | lia]. }
  assert (Hceil : 0 <= (Z.abs (a - b) + s - 1) / s) by (apply Z.div_pos; lia).
  destruct (Z_le_dec 0 (wrap_int (n + s - 1))) as [Hpos|Hneg].
  - rewrite Z.quot_div_nonneg by lia. apply Z.div_le_mono; lia.
  - replace (wrap_int (n + s - 1)) with (- (- wrap_int (n + s - 1))) by lia.
    rewrite Z.quot_opp_l by lia.
    pose proof (Z.quot_pos (- wrap_int (n + s - 1)) s ltac:(lia) ltac:(lia)). lia.
Qed.

(** * Frames: what resolver activity leaves alone *)

Lemma keeps_refl (x : dvfs_rail) : keeps x x.
Proof. repeat split. Qed.

Lemma keeps_trans (x y z : dvfs_rail) : keeps x y -> keeps y z -> keeps x z.
Proof. unfold keeps. intros (? & ? & ?) (? & ? & ?). repeat split; congruence. Qed.

Lemma frame_refl (e : option nat) (w : world) : frame e w w.
Proof.
  constructor; try reflexivity.
  - intros i x Hx. exists x. split; [exact Hx|]. split; [apply keeps_refl|]. reflexivity.
  - exists []. split; [symmetry; apply app_nil_r | constructor].
Qed.

Lemma frame_lookup_back (e : option nat) (w w' : world) (i : nat) (x' : dvfs_rail) :
  frame e w w' -> rails w' !! i = Some x' ->
  exists x, rails w !! i = Some x /\ keeps x x' /\
            (resolving_to x = true -> Some i <> e -> x' = x).
Proof.
  intros F Hx'.
  destruct (lookup_lt_is_Some_2 (rails w) i) as [x Hx].
  { rewrite <- (frame_length _ _ _ F). eapply lookup_lt_Some, Hx'. }
  destruct (frame_rails _ _ _ F i x Hx) as (y & Hy & K & L).
  assert (y = x') by congruence. subst y. eauto.
Qed.

Lemma frame_trans (e : option nat) (w1 w2 w3 : world) :
  frame e w1 w2 -> frame e w2 w3 -> frame e w1 w3.
Proof.
  intros F12 F23. constructor.
  - rewrite (frame_hdr _ _ _ F23). apply (frame_hdr _ _ _ F12).
  - rewrite (frame_clocks _ _ _ F23). apply (frame_clocks _ _ _ F12).
  - rewrite (frame_rels _ _ _ F23). apply (frame_rels _ _ _ F12).
  - rewrite (frame_core _ _ _ F23). apply (frame_core _ _ _ F12).
  - rewrite (frame_started _ _ _ F23). apply (frame_started _ _ _ F12).
  - rewrite (frame_ktime _ _ _ F23). apply (frame_ktime _ _ _ F12).
  - rewrite (frame_oracle _ _ _ F23). apply (frame_oracle _ _ _ F12).
  - rewrite (frame_length _ _ _ F23). apply (frame_length _ _ _ F12).
  - intros i x Hx.
    destruct (frame_rails _ _ _ F12 i x Hx) as (x2 & Hx2 & K12 & L12).
    destruct (frame_rails _ _ _ F23 i x2 Hx2) as (x3 & Hx3 & K23 & L23).
    exists x3. split; [exact Hx3|]. split; [eapply keeps_trans; eassumption|].
    intros Hflag Hne. specialize (L12 Hflag Hne). subst x2. apply L23; assumption.
  - destruct (frame_log _ _ _ F12) as (s1 & Hs1 & A1).
    destruct (frame_log _ _ _ F23) as (s2 & Hs2 & A2).
    exists (s1 ++ s2). split; [rewrite Hs2, Hs1; symmetry; apply app_assoc|].
    apply Forall_app. split; [exact A1|].
    eapply Forall_impl; [exact A2|]. cbn. intros en [He|(x2 & Hx2 & Hflag)]; [left; exact He|].
    right. destruct (frame_lookup_back _ _ _ _ _ F12 Hx2) as (x & Hx & (_ & _ & K) & _).
    exists x. split; [exact Hx | congruence].
Qed.

Lemma frame_weaken (r : nat) (w w' : world) : frame None w w' -> frame (Some r) w w'.
Proof.
  intros F. constructor; try apply F.
  - intros i x Hx. destruct (frame_rails _ _ _ F i x Hx) as (x' & Hx' & K & L).
    exists x'. split; [exact Hx'|]. split; [exact K|]. intros Hflag _. apply L; [exact Hflag|].
    discriminate.
  - destruct (frame_log _ _ _ F) as (s & Hs & A). exists s. split; [exact Hs|].
    eapply Forall_impl; [exact A|]. cbn. intros en [He|He]; [discriminate He | right; exact He].
Qed.

(** A store into rail [r] that keeps its flags is framed when the guard of [r]
    is clear, or when [r] is the rail that is ramping. *)
Lemma frame_upd_rail (e : option nat) (r : nat) (f : dvfs_rail -> dvfs_rail) (w : world) :
  (forall y, keeps y (f y)) ->
  (forall x, rails w !! r = Some x -> resolving_to x = false \/ e = Some r) ->
  frame e w (upd_rail r f w).
Proof.
  intros Hf Hr. constructor; try reflexivity.
  - apply length_alter.
  - intros i x Hx. destruct (decide (r = i)) as [->|Hne].
    + exists (f x). split; [apply lookup_upd_rail_eq, Hx|]. split; [apply Hf|].
      intros Hflag Hi. destruct (Hr x Hx) as [Hc|Hc]; congruence.
    + exists x. split; [rewrite lookup_upd_rail_ne by exact Hne; exact Hx|].
      split; [apply keeps_refl | reflexivity].
  - exists []. split; [symmetry; apply app_nil_r | constructor].
Qed.

Lemma frame_set_reg_log (e : option nat) (w : world) (en : reg_write) (x : dvfs_rail) :
  rails w !! rw_rail en = Some x ->
  resolving_to x = false \/ e = Some (rw_rail en) ->
  frame e w (set_reg_log (reg_log w ++ [en]) w).
Proof.
  intros Hx Hr. constructor; try reflexivity.
  - intros i y Hy. exists y. split; [exact Hy|]. split; [apply keeps_refl | reflexivity].
  - exists [en]. split; [reflexivity|]. constructor; [|constructor].
    destruct Hr as [Hr|Hr]; [right; eauto | left; congruence].
Qed.

(** ** Clear guards are counted by [free] *)

Lemma frame_flags (e : option nat) (w w' : world) :
  frame e w w' -> resolving_to <$> rails w' = resolving_to <$> rails w.
Proof.
  intros F. apply list_eq. intros i. rewrite !list_lookup_fmap.
  destruct (rails w !! i) as [x|] eqn:Hx.
  - destruct (frame_rails _ _ _ F i x Hx) as (x' & -> & (_ & _ & K) & _).
    cbn. congruence.
  - rewrite (lookup_ge_None_2 (rails w') i); [reflexivity|].
    rewrite (frame_length _ _ _ F). apply lookup_ge_None_1, Hx.
Qed.

Lemma frame_free (e : option nat) (w w' : world) : frame e w w' -> free w' = free w.
Proof. intros F. unfold free. rewrite (frame_flags _ _ _ F). reflexivity. Qed.

Lemma count_clear_set (l : list bool) (r : nat) :
  l !! r = Some false -> S (count_clear (<[r := true]> l)) = count_clear l.
Proof.
  revert r. induction l as [|b l IH]; intros [|r] H; try discriminate.
  - cbn in H. injection H as ->. reflexivity.
  - cbn in H. cbn. destruct b; rewrite <- (IH r H); reflexivity.
Qed.

Lemma count_clear_le (l : list bool) : (count_clear l <= length l)%nat.
Proof. induction l as [|[] l IH]; cbn; lia. Qed.

Lemma free_le_length (w : world) : (free w <= length (rails w))%nat.
Proof.
  unfold free. etransitivity; [apply count_clear_le|]. rewrite length_fmap. reflexivity.
Qed.

Lemma flags_upd_rail (r : nat) (b : bool) (w : world) :
  resolving_to <$> rails (upd_rail r (set_resolving_to b) w)
  = <[r := b]> (resolving_to <$> rails w).
Proof.
  rewrite rails_upd_rail, list_insert_alter.
  apply list_fmap_alter. apply Forall_forall. reflexivity.
Qed.

Lemma free_set_guard (r : nat) (w : world) (x : dvfs_rail) :
  rails w !! r = Some x -> resolving_to x = false ->
  S (free (upd_rail r (set_resolving_to true) w)) = free w.
Proof.
  intros Hx Hflag. unfold free. rewrite flags_upd_rail. apply count_clear_set.
  rewrite list_lookup_fmap, Hx. cbn. congruence.
Qed.

Lemma free_pos (r : nat) (w : world) (x : dvfs_rail) :
  rails w !! r = Some x -> resolving_to x = false -> (1 <= free w)%nat.
Proof. intros Hx Hflag. rewrite <- (free_set_guard r w x Hx Hflag). lia. Qed.

(** ** Composing runs *)

Lemma res_post_mono {A : Type} (b : bool) (Q Q' : world -> A -> Prop)
    (res : result (world * A)) :
  (forall w a, Q w a -> Q' w a) -> res_post b Q res -> res_post b Q' res.
Proof. intros H. destruct res as [[w a]| |]; cbn; auto. Qed.

Lemma res_spec_frame_l {A : Type} (b : bool) (e : option nat) (w w1 : world)
    (res : result (world * A)) :
  frame e w w1 -> res_spec b e w1 res -> res_spec b e w res.
Proof.
  intros F. apply res_post_mono. intros w2 _ F2. eapply frame_trans; eassumption.
Qed.

(** * The log and the voltage of a rail while it ramps *)

Lemma own_ok_app (r : nat) (s1 s2 : list reg_write) (ret : Z) :
  own_ok r s1 0 -> own_ok r s2 ret -> own_ok r (s1 ++ s2) ret.
Proof.
  induction s1 as [|e s1 IH]; cbn; [auto|].
  intros (He & H1) H2. split; [|apply IH; assumption].
  intros Hr Hret. destruct (He Hr Hret) as (_ & Hz). congruence.
Qed.

Lemma own_ok_others (r : nat) (suf : list reg_write) (ret : Z) :
  Forall (fun e => rw_rail e <> r) suf -> own_ok r suf ret.
Proof. induction 1 as [|e suf He _ IH]; cbn; [exact I|]. split; [tauto | exact IH]. Qed.

Lemma own_ok_any_ret (r : nat) (suf : list reg_write) (ret : Z) :
  own_ok r suf 0 -> own_ok r suf ret.
Proof.
  induction suf as [|e suf IH]; cbn; [auto|]. intros (He & H). split; [|apply IH, H].
  intros Hr Hret. destruct (He Hr Hret) as (_ & Hz). congruence.
Qed.

Lemma own_ok_split (r : nat) (pre post : list reg_write) (e : reg_write) (ret : Z) :
  own_ok r (pre ++ e :: post) ret -> rw_rail e = r -> rw_ret e <> 0 ->
  post = [] /\ ret = rw_ret e.
Proof.
  induction pre as [|e' pre IH]; cbn; intros (He & H) Hr Hret; [auto|].
  apply IH; assumption.
Qed.

Lemma track_app (r : nat) (s1 s2 : list reg_write) (acc : option Z) :
  track r (s1 ++ s2) acc = track r s2 (track r s1 acc).
Proof. revert acc. induction s1 as [|e s1 IH]; intros acc; cbn; [reflexivity | apply IH]. Qed.

Lemma track_others (r : nat) (suf : list reg_write) (acc : option Z) :
  Forall (fun e => rw_rail e <> r) suf -> track r suf acc = acc.
Proof.
  induction 1 as [|e suf He _ IH]; cbn; [reflexivity|].
  destruct (Nat.eqb_spec (rw_rail e) r); [contradiction|]. exact IH.
Qed.

Lemma ramp_post_refl (r : nat) (w : world) (ret : Z) : ramp_post r w w ret.
Proof.
  split; [apply frame_refl|]. exists []. split; [symmetry; apply app_nil_r|].
  split; [exact I|]. intros x x2 acc init Hx Hx2 H. cbn. congruence.
Qed.

Lemma ramp_post_trans (r : nat) (w w1 w2 : world) (ret : Z) :
  ramp_post r w w1 0 -> ramp_post r w1 w2 ret -> ramp_post r w w2 ret.
Proof.
  intros (F1 & s1 & L1 & O1 & T1) (F2 & s2 & L2 & O2 & T2).
  split; [eapply frame_trans; eassumption|].
  exists (s1 ++ s2). split; [rewrite L2, L1; symmetry; apply app_assoc|].
  split; [apply own_ok_app; assumption|].
  intros x x2 acc init Hx Hx2 H. rewrite track_app.
  destruct (frame_rails _ _ _ F1 _ _ Hx) as (x1 & Hx1 & _).
  eapply T2; [exact Hx1 | exact Hx2 |]. eapply T1; eassumption.
Qed.

(** Activity of other rails while [r] is ramping. *)
Lemma ramp_post_others (r : nat) (w w1 : world) (ret : Z) (x : dvfs_rail) :
  rails w !! r = Some x -> resolving_to x = true ->
  frame None w w1 -> ramp_post r w w1 ret.
Proof.
  intros Hx Hflag F. split; [apply frame_weaken, F|].
  destruct (frame_log _ _ _ F) as (suf & Hs & A). exists suf. split; [exact Hs|].
  assert (Hoth : Forall (fun e => rw_rail e <> r) suf).
  { eapply Forall_impl; [exact A|]. cbn. intros e [He|(y & Hy & Hf)] Heq; [discriminate|].
    subst r. congruence. }
  split; [apply own_ok_others, Hoth|].
  intros y y2 acc init Hy Hy2 H. rewrite (track_others _ _ _ Hoth).
  destruct (frame_rails _ _ _ F _ _ Hx) as (x' & Hx' & _ & L).
  assert (x' = x) by (apply L; [exact Hflag | discriminate]).
  assert (y2 = y) by congruence. subst. exact H.
Qed.

(** A store into the ramping rail that leaves its voltage alone. *)
Lemma ramp_post_upd (r : nat) (w : world) (f : dvfs_rail -> dvfs_rail) (ret : Z) :
  (forall y, keeps y (f y)) -> (forall y, millivolts (f y) = millivolts y) ->
  ramp_post r w (upd_rail r f w) ret.
Proof.
  intros Hk Hm. split; [apply frame_upd_rail; [exact Hk | auto]|].
  exists []. split; [symmetry; apply app_nil_r|]. split; [exact I|].
  intros x x2 acc init Hx Hx2 H. cbn.
  rewrite (lookup_upd_rail_eq _ _ _ _ Hx) in Hx2. injection Hx2 as <-.
  rewrite Hm. exact H.
Qed.

Lemma set_voltage_reg_inv (r : nat) (v : Z) (w w3 : world) (ret : Z) :
  dvfs_rail_set_voltage_reg r v w = Ok (w3, ret) ->
  exists x en, rails w !! r = Some x /\
    w3 = set_reg_log (reg_log w ++ [en]) w /\
    rw_rail en = r /\ rw_ret en = ret /\ rw_min_uV en = int_mul v 1000.
Proof.
  unfold dvfs_rail_set_voltage_reg, get_rail. intros H.
  destruct (rails w !! r) as [x|] eqn:Hx; [|discriminate]. cbn in H.
  destruct (reg x) as [h|]; [|discriminate]. cbn in H. injection H as <- <-.
  exists x. eexists. split; [reflexivity|]. split; [reflexivity|]. repeat split.
Qed.

(** A refused write: the rail keeps its voltage and the ramp returns. *)
Lemma ramp_post_write_failed (r : nat) (v : Z) (w w3 : world) (ret : Z) :
  dvfs_rail_set_voltage_reg r v w = Ok (w3, ret) -> ret <> 0 ->
  ramp_post r w w3 ret.
Proof.
  intros H Hret. destruct (set_voltage_reg_inv _ _ _ _ _ H) as (x & en & Hx & -> & Hr & He & Hv).
  split; [eapply frame_set_reg_log; [rewrite Hr; exact Hx | right; congruence]|].
  exists [en]. split; [reflexivity|]. split; [cbn; auto|].
  intros y y2 acc init Hy Hy2 Hacc. cbn. rewrite He.
  destruct (Z.eqb_spec ret 0); [contradiction|]. rewrite andb_false_r.
  cbn in Hy2. congruence.
Qed.

(** An accepted write followed by [rail->millivolts = rail->new_millivolts]. *)
Lemma ramp_post_write_done (r : nat) (w w3 : world) (x : dvfs_rail) :
  rails w !! r = Some x ->
  dvfs_rail_set_voltage_reg r (new_millivolts x) w = Ok (w3, 0) ->
  ramp_post r w (upd_rail r (fun y => set_millivolts (new_millivolts y) y) w3) 0.
Proof.
  intros Hx H.
  destruct (set_voltage_reg_inv _ _ _ _ _ H) as (x' & en & Hx' & -> & Hr & He & Hv).
  split.
  - eapply frame_trans.
    + eapply frame_set_reg_log; [rewrite Hr; exact Hx | right; congruence].
    + apply frame_upd_rail; [intros y; repeat split | auto].
  - exists [en]. split; [reflexivity|]. split; [cbn; split; [intros _ Hc; congruence | exact I]|].
    intros y y2 acc init Hy Hy2 Hacc. cbn. rewrite Hr, Nat.eqb_refl, He. cbn.
    rewrite rails_upd_rail in Hy2. cbn in Hy2.
    rewrite list_lookup_alter_eq, Hy in Hy2. cbn in Hy2. injection Hy2 as <-.
    cbn. rewrite Hv. congruence.
Qed.

(** * The contracts of the two mutually recursive functions *)

Lemma update_dependents_spec (b : bool) (n : nat)
    (update : nat -> world -> result (world * Z)) (ks : list nat) (w : world) :
  upd_spec b n update -> (free w <= n)%nat ->
  res_spec b None w (update_dependents update ks w).
Proof.
  intros Hu. revert w. induction ks as [|k ks IH]; intros w Hfree; cbn [update_dependents].
  - apply frame_refl.
  - unfold get_rel. destruct (rels w !! k) as [rel|]; cbn [of_option rbind]; [|exact I].
    pose proof (Hu (to rel) w Hfree) as Hrun.
    destruct (update (to rel) w) as [[w1 ret]| |]; cbn [rbind]; [|exact I|exact Hrun].
    cbn in Hrun. destruct (ret =? 0); [|exact Hrun].
    eapply res_spec_frame_l; [exact Hrun|]. apply IH.
    rewrite (frame_free _ _ _ Hrun). exact Hfree.
Qed.

Lemma ramp_post_rail (r : nat) (w w1 : world) (ret : Z) (x : dvfs_rail) :
  ramp_post r w w1 ret -> rails w !! r = Some x ->
  exists x1, rails w1 !! r = Some x1 /\ resolving_to x1 = resolving_to x /\
             free w1 = free w.
Proof.
  intros (F & _) Hx. destruct (frame_rails _ _ _ F _ _ Hx) as (x1 & Hx1 & (_ & _ & K) & _).
  exists x1. split; [exact Hx1|]. split; [exact K|]. apply (frame_free _ _ _ F).
Qed.

(** The step loop of a ramp of [r], whose guard is set. *)
Lemma set_voltage_steps_post (b : bool) (n : nat)
    (update : nat -> world -> result (world * Z)) (r : nat) (mvolts stp offset : Z)
    (jmp : bool) (k : nat) :
  upd_spec b n update ->
  forall (w : world) (x : dvfs_rail),
    rails w !! r = Some x -> resolving_to x = true -> (free w <= n)%nat ->
    res_post b (ramp_post r w) (set_voltage_steps update r mvolts stp offset jmp k w).
Proof.
  intros Hu. induction k as [|k IH]; intros w x Hx Hflag Hfree; cbn [set_voltage_steps].
  { apply ramp_post_refl. }
  rewrite (get_rail_lookup _ _ _ Hx). cbn [rbind].
  set (new := if negb jmp && _ then _ else _).
  set (w1 := upd_rail r (set_new_millivolts new) w).
  assert (P1 : ramp_post r w w1 0)
    by (apply ramp_post_upd; [intros y; repeat split | reflexivity]).
  destruct (ramp_post_rail _ _ _ _ _ P1 Hx) as (x1 & Hx1 & Hf1 & Hfree1).
  (* the dependents are told that the voltage will change *)
  pose proof (update_dependents_spec b n update (relationships_to x) w1 Hu
                ltac:(rewrite Hfree1; exact Hfree)) as Hd1.
  destruct (update_dependents update (relationships_to x) w1) as [[w2 ret2]| |];
    cbn [rbind]; [|exact I|exact Hd1].
  cbn in Hd1.
  assert (P2 : forall ret, ramp_post r w w2 ret).
  { intros ret. eapply ramp_post_trans; [exact P1|].
    eapply ramp_post_others; [exact Hx1 | congruence | exact Hd1]. }
  destruct (ret2 =? 0); cbn [negb]; [|apply P2].
  destruct (ramp_post_rail _ _ _ _ _ (P2 0) Hx) as (x2 & Hx2 & Hf2 & Hfree2).
  rewrite (get_rail_lookup _ _ _ Hx2). cbn [rbind].
  (* the regulator is written *)
  destruct (dvfs_rail_set_voltage_reg r (new_millivolts x2) w2) as [[w3 ret3]| |] eqn:Hreg;
    cbn [rbind]; [|exact I|destruct (set_voltage_reg_fuel _ _ _ Hreg)].
  destruct (Z.eqb_spec ret3 0) as [->|Hret3]; cbn [negb].
  2:{ eapply ramp_post_trans; [apply (P2 0)|].
      eapply ramp_post_write_failed; eassumption. }
  set (w4 := upd_rail r (fun y => set_millivolts (new_millivolts y) y) w3).
  assert (P4 : ramp_post r w w4 0).
  { eapply ramp_post_trans; [apply (P2 0)|]. eapply ramp_post_write_done; eassumption. }
  destruct (ramp_post_rail _ _ _ _ _ P4 Hx) as (x4 & Hx4 & Hf4 & Hfree4).
  rewrite (get_rail_lookup _ _ _ Hx4). cbn [rbind].
  destruct (rail_stats_update r (millivolts x4) w4) as [w5| |] eqn:Hst;
    cbn [rbind]; [|exact I|destruct (rail_stats_update_fuel _ _ _ Hst)].
  destruct (rail_stats_update_inv _ _ _ _ Hst) as (st & ->).
  assert (P5 : ramp_post r w (upd_rail r (set_stats st) w4) 0).
  { eapply ramp_post_trans; [exact P4|].
    apply ramp_post_upd; [intros y; repeat split | reflexivity]. }
  destruct (ramp_post_rail _ _ _ _ _ P5 Hx) as (x5 & Hx5 & Hf5 & Hfree5).
  (* the dependents are told that the voltage has changed *)
  pose proof (update_dependents_spec b n update (relationships_to x4) _ Hu
                ltac:(rewrite Hfree5; exact Hfree)) as Hd2.
  destruct (update_dependents update (relationships_to x4) _) as [[w6 ret6]| |];
    cbn [rbind]; [|exact I|exact Hd2].
  cbn in Hd2.
  assert (P6 : forall ret, ramp_post r w w6 ret).
  { intros ret. eapply ramp_post_trans; [exact P5|].
    eapply ramp_post_others; [exact Hx5 | congruence | exact Hd2]. }
  destruct (ret6 =? 0); cbn [negb]; [|apply P6].
  destruct (ramp_post_rail _ _ _ _ _ (P6 0) Hx) as (x6 & Hx6 & Hf6 & Hfree6).
  specialize (IH w6 x6 Hx6 ltac:(congruence) ltac:(rewrite Hfree6; exact Hfree)).
  eapply res_post_mono; [|exact IH].
  intros w7 ret7 P7. eapply ramp_post_trans; [apply (P6 0) | exact P7].
Qed.

(** Leaving a ramp: the guard that was set on entry is cleared. *)
Lemma frame_bracket (r : nat) (w w2 : world) (x : dvfs_rail) :
  rails w !! r = Some x -> resolving_to x = false ->
  frame (Some r) (upd_rail r (set_resolving_to true) w) w2 ->
  frame None w (upd_rail r (set_resolving_to false) w2).
Proof.
  intros Hx Hflag F. constructor; try apply F.
  - rewrite rails_upd_rail, length_alter, (frame_length _ _ _ F).
    rewrite rails_upd_rail. apply length_alter.
  - intros i y Hy. destruct (decide (r = i)) as [<-|Hne].
    + assert (y = x) by congruence. subst y.
      destruct (frame_rails _ _ _ F r _ (lookup_upd_rail_eq _ _ _ _ Hx))
        as (x2 & Hx2 & (Ks & Kd & _) & _).
      exists (set_resolving_to false x2).
      split; [apply lookup_upd_rail_eq, Hx2|]. split; [|congruence].
      repeat split; cbn; [exact Ks | exact Kd | congruence].
    + assert (Hy1 : rails (upd_rail r (set_resolving_to true) w) !! i = Some y)
        by (rewrite lookup_upd_rail_ne by exact Hne; exact Hy).
      destruct (frame_rails _ _ _ F i _ Hy1) as (y2 & Hy2 & K & L).
      exists y2. split; [rewrite lookup_upd_rail_ne by exact Hne; exact Hy2|].
      split; [exact K|]. intros Hf _. apply L; [exact Hf | congruence].
  - destruct (frame_log _ _ _ F) as (suf & Hs & A). exists suf. split; [exact Hs|].
    eapply Forall_impl; [exact A|]. cbv beta. intros e [He|(y & Hy & Hf)]; right.
    + injection He as ->. eauto.
    + destruct (decide (r = rw_rail e)) as [Heq|Hne].
      * rewrite <- Heq in Hy. rewrite (lookup_upd_rail_eq _ _ _ _ Hx) in Hy.
        injection Hy as <-. discriminate Hf.
      * rewrite lookup_upd_rail_ne in Hy by exact Hne. eauto.
Qed.

(** The stepping path of [dvfs_rail_set_voltage]: the guard is set, the step
    loop runs, the guard is cleared. *)
Lemma set_voltage_body_stepping (b : bool) (n : nat)
    (update : nat -> world -> result (world * Z)) (r : nat) (mvolts : Z) (w : world)
    (x : dvfs_rail) (h : nat) :
  upd_spec b n update ->
  rails w !! r = Some x -> reg x = Some h -> dfll_mode x = false -> disabled x = false ->
  (free (upd_rail r (set_resolving_to true) w) <= n)%nat ->
  res_post b
    (fun w' ret' => exists w2 ret x2,
       ramp_post r (upd_rail r (set_resolving_to true) w) w2 ret /\
       rails w2 !! r = Some x2 /\
       w' = upd_rail r (set_resolving_to false) w2 /\
       ret' = if negb (ret =? 0) then ret
              else if negb (millivolts x2 =? mvolts) then - EINVAL else ret)
    (dvfs_rail_set_voltage_body update r mvolts w).
Proof.
  intros Hu Hx Hreg Hdfll Hdis Hfree. unfold dvfs_rail_set_voltage_body.
  rewrite (get_rail_lookup _ _ _ Hx). cbn [rbind]. rewrite Hreg, Hdfll, Hdis.
  match goal with
  | |- res_post _ _ (rbind ?m _) =>
      destruct m as [steps| |] eqn:Hsteps; cbn [rbind]; [|exact I|]
  end.
  2:{ exfalso. destruct (_ || _); [discriminate|].
      exact (DIV_ROUND_UP_fuel _ _ Hsteps). }
  set (w1 := upd_rail r (set_resolving_to true) w) in *.
  assert (Hx1 : rails w1 !! r = Some (set_resolving_to true x))
    by (apply lookup_upd_rail_eq, Hx).
  match goal with
  | |- res_post _ _ (rbind ?m _) =>
      pose proof (set_voltage_steps_post b n update r mvolts
                    (if mvolts >? millivolts x then step_up x else step x)
                    (if mvolts >? millivolts x
                     then (if mvolts >? millivolts x then step_up x else step x)
                     else int_neg (if mvolts >? millivolts x then step_up x else step x))
                    (jmp_to_zero x && ((mvolts =? 0) || (millivolts x =? 0)))
                    (Z.to_nat steps) Hu w1 _ Hx1 eq_refl Hfree) as Hrun;
      destruct m as [[w2 ret]| |]; cbn [rbind]; [|exact I|exact Hrun]
  end.
  cbn in Hrun.
  destruct (ramp_post_rail _ _ _ _ _ Hrun Hx1) as (x2 & Hx2 & _ & _).
  rewrite (get_rail_lookup _ _ _ Hx2). cbn.
  exists w2, ret, x2. split; [exact Hrun|]. split; [exact Hx2|]. split; reflexivity.
Qed.

(** [dvfs_rail_set_voltage] on a rail whose guard is clear. *)
Lemma set_voltage_body_spec (b : bool) (n : nat)
    (update : nat -> world -> result (world * Z)) (r : nat) :
  upd_spec b n update -> sv_spec b (S n) (dvfs_rail_set_voltage_body update) r.
Proof.
  intros Hu mvolts w x Hx Hflag Hfree.
  destruct (reg x) as [h|] eqn:Hreg.
  2:{ unfold dvfs_rail_set_voltage_body. rewrite (get_rail_lookup _ _ _ Hx).
      cbn [rbind]. rewrite Hreg. destruct (_ =? _); apply frame_refl. }
  destruct (dfll_mode x) eqn:Hdfll.
  { unfold dvfs_rail_set_voltage_body. rewrite (get_rail_lookup _ _ _ Hx).
    cbn [rbind]. rewrite Hreg, Hdfll.
    match goal with
    | |- res_spec _ _ _ (rbind ?m _) =>
        destruct m as [w2| |] eqn:Hst; cbn [rbind];
          [|exact I|destruct (rail_stats_update_fuel _ _ _ Hst)]
    end.
    destruct (rail_stats_update_inv _ _ _ _ Hst) as (st & ->). cbn.
    apply frame_trans
      with (w2 := upd_rail r (fun y => set_new_millivolts mvolts (set_millivolts mvolts y)) w).
    - apply frame_upd_rail; [intros y; repeat split|].
      intros y Hy. left. congruence.
    - apply frame_upd_rail; [intros y; repeat split|].
      intros y Hy. left. rewrite (lookup_upd_rail_eq _ _ _ _ Hx) in Hy.
      injection Hy as <-. exact Hflag. }
  destruct (disabled x) eqn:Hdis.
  { unfold dvfs_rail_set_voltage_body. rewrite (get_rail_lookup _ _ _ Hx).
    cbn [rbind]. rewrite Hreg, Hdfll, Hdis. apply frame_refl. }
  pose proof (free_set_guard r w x Hx Hflag) as Hguard.
  eapply res_post_mono;
    [|eapply (set_voltage_body_stepping b n); try eassumption; lia].
  intros w' ret' (w2 & ret & x2 & (F & _) & _ & -> & _).
  eapply frame_bracket; eassumption.
Qed.

Lemma solve_relationships_from_frame (r : nat) (ks : list nat) (w w2 : world) :
  (forall x, rails w !! r = Some x -> resolving_to x = false) ->
  solve_relationships_from r ks w = Ok w2 -> frame None w w2.
Proof.
  revert w. induction ks as [|k ks IH]; intros w Hflag H; cbn in H.
  - injection H as <-. apply frame_refl.
  - apply rbind_Ok in H as (rel & _ & H). apply rbind_Ok in H as (v & _ & H).
    eapply frame_trans; [|apply IH; [|exact H]].
    + apply frame_upd_rail; [intros y; repeat split|]. intros y Hy. left. auto.
    + intros y Hy. rewrite rails_upd_rail, list_lookup_alter_eq in Hy.
      destruct (rails w !! r) as [x|] eqn:Hx; [|discriminate].
      cbn in Hy. injection Hy as <-. cbn. auto.
Qed.

Lemma frame_rail_clear (e : option nat) (w w' : world) (r : nat) (x : dvfs_rail) :
  frame e w w' -> rails w !! r = Some x -> resolving_to x = false ->
  exists x', rails w' !! r = Some x' /\ resolving_to x' = false /\ free w' = free w.
Proof.
  intros F Hx Hflag. destruct (frame_rails _ _ _ F _ _ Hx) as (x' & Hx' & (_ & _ & K) & _).
  exists x'. split; [exact Hx'|]. split; [congruence|]. apply (frame_free _ _ _ F).
Qed.

(** The retry loop of [dvfs_rail_update] on a rail whose guard is clear. *)
Lemma update_retry_spec (b : bool) (m : nat)
    (sv : nat -> Z -> world -> result (world * Z)) (r : nat) (mvolts : Z) :
  sv_spec b m sv r ->
  forall (k : nat) (ret : Z) (w : world) (x : dvfs_rail),
    rails w !! r = Some x -> resolving_to x = false -> (free w <= m)%nat ->
    res_spec b None w (dvfs_rail_update_retry sv r mvolts k ret w).
Proof.
  intros Hsv. induction k as [|k IH]; intros ret w x Hx Hflag Hfree;
    cbn [dvfs_rail_update_retry].
  { apply frame_refl. }
  set (w1 := upd_rail r (set_new_millivolts mvolts) w).
  assert (F1 : frame None w w1).
  { apply frame_upd_rail; [intros y; repeat split|]. intros y Hy. left. congruence. }
  destruct (frame_rail_clear _ _ _ _ _ F1 Hx Hflag) as (x1 & Hx1 & Hf1 & Hfree1).
  rewrite (get_rail_lookup _ _ _ Hx1). cbn [rbind].
  destruct (solve_relationships_from r (relationships_from x1) w1) as [w2| |] eqn:Hsolve;
    cbn [rbind]; [|exact I|destruct (solve_relationships_from_fuel _ _ _ Hsolve)].
  assert (F2 : frame None w w2).
  { eapply frame_trans; [exact F1|].
    eapply solve_relationships_from_frame; [|exact Hsolve].
    intros y Hy. congruence. }
  destruct (frame_rail_clear _ _ _ _ _ F2 Hx Hflag) as (x2 & Hx2 & Hf2 & Hfree2).
  rewrite (get_rail_lookup _ _ _ Hx2). cbn [rbind].
  destruct (new_millivolts x2 =? millivolts x2); [exact F2|].
  pose proof (Hsv (new_millivolts x2) w2 x2 Hx2 Hf2 ltac:(rewrite Hfree2; exact Hfree))
    as Hrun.
  destruct (sv r (new_millivolts x2) w2) as [[w3 ret3]| |]; cbn [rbind];
    [|exact I|exact Hrun].
  cbn in Hrun.
  assert (F3 : frame None w w3) by (eapply frame_trans; eassumption).
  destruct (frame_rail_clear _ _ _ _ _ F3 Hx Hflag) as (x3 & Hx3 & Hf3 & Hfree3).
  specialize (IH ret3 w3 x3 Hx3 Hf3 ltac:(rewrite Hfree3; exact Hfree)).
  destruct (dvfs_rail_update_retry sv r mvolts k ret3 w3) as [[w4 [ret4 passes]]| |];
    cbn [rbind]; [|exact I|exact IH].
  cbn in IH. cbn. eapply frame_trans; eassumption.
Qed.

Lemma update_body_spec (b : bool) (m : nat)
    (sv : nat -> Z -> world -> result (world * Z)) (r : nat) (w : world) :
  sv_spec b m sv r -> (free w <= m)%nat ->
  res_spec b None w (dvfs_rail_update_body sv r w).
Proof.
  intros Hsv Hfree. unfold dvfs_rail_update_body, get_rail.
  destruct (rails w !! r) as [x|] eqn:Hx; cbn [of_option rbind]; [|exact I].
  destruct (disabled x); [apply frame_refl|].
  destruct (suspended x); [apply frame_refl|].
  destruct (negb (has_reg x)); [apply frame_refl|].
  destruct (resolving_to x) eqn:Hflag; [apply frame_refl|].
  destruct (dvfs_rail_demand w x) as [[mvolts|]| |] eqn:Hd; cbn [rbind];
    [|apply frame_refl|exact I|destruct (demand_fuel _ _ Hd)].
  destruct (DIV_ROUND_UP _ _) as [steps| |] eqn:Hs; cbn [rbind];
    [|exact I|destruct (DIV_ROUND_UP_fuel _ _ Hs)].
  eapply update_retry_spec; eassumption.
Qed.

Lemma sv_spec_zero (b : bool) (sv : nat -> Z -> world -> result (world * Z)) (r : nat) :
  sv_spec b 0 sv r.
Proof.
  intros mvolts w x Hx Hflag Hfree. pose proof (free_pos _ _ _ Hx Hflag). lia.
Qed.

Lemma update_unfold (fuel r : nat) (w : world) :
  dvfs_rail_update (S fuel) r w
  = rbind (dvfs_rail_update_body (dvfs_rail_set_voltage fuel) r w)
      (fun '(w', (ret, _)) => Ok (w', ret)).
Proof. reflexivity. Qed.

Lemma update_step_spec (b : bool) (m fuel : nat) :
  (forall r, sv_spec b m (dvfs_rail_set_voltage fuel) r) ->
  upd_spec b m (dvfs_rail_update (S fuel)).
Proof.
  intros Hsv r w Hfree. rewrite update_unfold.
  pose proof (update_body_spec b m _ r w (Hsv r) Hfree) as Hrun.
  destruct (dvfs_rail_update_body _ r w) as [[w' [ret passes]]| |]; exact Hrun.
Qed.

(** With more fuel than clear guards, [dvfs_rail_update] does not run out. *)
Lemma update_total (fuel : nat) : upd_spec false fuel (dvfs_rail_update (S fuel)).
Proof.
  induction fuel as [|fuel IH]; apply update_step_spec; intros r.
  - apply sv_spec_zero.
  - apply set_voltage_body_spec, IH.
Qed.

(** Whatever the fuel, what [dvfs_rail_update] returns is framed. *)
Lemma update_partial (fuel n : nat) : upd_spec true n (dvfs_rail_update fuel).
Proof.
  revert n. induction fuel as [|fuel IH]; intros n.
  - intros r w _. reflexivity.
  - apply update_step_spec. intros r. destruct n as [|n].
    + apply sv_spec_zero.
    + apply set_voltage_body_spec, IH.
Qed.

Lemma upd_spec_le (b : bool) (n m : nat) (update : nat -> world -> result (world * Z)) :
  (n <= m)%nat -> upd_spec b m update -> upd_spec b n update.
Proof. intros Hle Hu x w Hfree. apply Hu. lia. Qed.

(** * More fuel does not change a result *)

Lemma rbind_extends {A B : Type} (m m' : result A) (k k' : A -> result B) :
  (m <> OutOfFuel -> m' = m) ->
  (forall a, m = Ok a -> k a <> OutOfFuel -> k' a = k a) ->
  rbind m k <> OutOfFuel -> rbind m' k' = rbind m k.
Proof.
  intros Hm Hk H. destruct m as [a| |]; cbn in *.
  - rewrite Hm by discriminate. cbn. apply Hk; [reflexivity | exact H].
  - rewrite Hm by discriminate. reflexivity.
  - contradiction.
Qed.

Lemma update_dependents_extends (u u' : nat -> world -> result (world * Z))
    (ks : list nat) (w : world) :
  extends u u' ->
  update_dependents u ks w <> OutOfFuel ->
  update_dependents u' ks w = update_dependents u ks w.
Proof.
  intros Hu. revert w. induction ks as [|k ks IH]; intros w; cbn [update_dependents];
    [reflexivity|].
  apply rbind_extends; [reflexivity|]. intros rel _.
  apply rbind_extends; [apply Hu|]. intros [w1 ret] _.
  destruct (ret =? 0); [apply IH | reflexivity].
Qed.

Lemma set_voltage_steps_extends (u u' : nat -> world -> result (world * Z))
    (r : nat) (mvolts stp offset : Z) (jmp : bool) (n : nat) (w : world) :
  extends u u' ->
  set_voltage_steps u r mvolts stp offset jmp n w <> OutOfFuel ->
  set_voltage_steps u' r mvolts stp offset jmp n w
  = set_voltage_steps u r mvolts stp offset jmp n w.
Proof.
  intros Hu. revert w. induction n as [|n IH]; intros w; cbn [set_voltage_steps];
    [reflexivity|].
  apply rbind_extends; [reflexivity|]. intros rail _. cbv zeta.
  apply rbind_extends; [apply update_dependents_extends, Hu|]. intros [w2 ret2] _.
  destruct (negb (ret2 =? 0)); [reflexivity|].
  apply rbind_extends; [reflexivity|]. intros rail2 _.
  apply rbind_extends; [reflexivity|]. intros [w3 ret3] _.
  destruct (negb (ret3 =? 0)); [reflexivity|].
  apply rbind_extends; [reflexivity|]. intros rail4 _.
  apply rbind_extends; [reflexivity|]. intros w5 _.
  apply rbind_extends; [apply update_dependents_extends, Hu|]. intros [w6 ret6] _.
  destruct (negb (ret6 =? 0)); [reflexivity | apply IH].
Qed.

Lemma set_voltage_body_extends (u u' : nat -> world -> result (world * Z))
    (r : nat) (mvolts : Z) (w : world) :
  extends u u' ->
  dvfs_rail_set_voltage_body u r mvolts w <> OutOfFuel ->
  dvfs_rail_set_voltage_body u' r mvolts w = dvfs_rail_set_voltage_body u r mvolts w.
Proof.
  intros Hu. unfold dvfs_rail_set_voltage_body.
  apply rbind_extends; [reflexivity|]. intros rail _.
  destruct (reg rail); [|reflexivity]. cbv zeta.
  destruct (dfll_mode rail); [reflexivity|]. destruct (disabled rail); [reflexivity|].
  apply rbind_extends; [reflexivity|]. intros steps _.
  apply rbind_extends; [apply set_voltage_steps_extends, Hu|]. intros [w2 ret] _.
  reflexivity.
Qed.

Lemma update_retry_extends (sv sv' : nat -> Z -> world -> result (world * Z))
    (r : nat) (mvolts : Z) (n : nat) (ret : Z) (w : world) :
  (forall v w1, sv r v w1 <> OutOfFuel -> sv' r v w1 = sv r v w1) ->
  dvfs_rail_update_retry sv r mvolts n ret w <> OutOfFuel ->
  dvfs_rail_update_retry sv' r mvolts n ret w = dvfs_rail_update_retry sv r mvolts n ret w.
Proof.
  intros Hsv. revert ret w. induction n as [|n IH]; intros ret w;
    cbn [dvfs_rail_update_retry]; [reflexivity|]. cbv zeta.
  apply rbind_extends; [reflexivity|]. intros rail1 _.
  apply rbind_extends; [reflexivity|]. intros w2 _.
  apply rbind_extends; [reflexivity|]. intros rail2 _.
  destruct (_ =? _); [reflexivity|].
  apply rbind_extends; [apply Hsv|]. intros [w3 ret3] _.
  apply rbind_extends; [apply IH|]. intros [w4 [ret4 passes]] _. reflexivity.
Qed.

Lemma update_extends (fuel : nat) :
  extends (dvfs_rail_update fuel) (dvfs_rail_update (S fuel)).
Proof.
  induction fuel as [|fuel IH]; intros r w H; [contradiction|].
  rewrite (update_unfold (S fuel)), (update_unfold fuel) in *.
  revert H. apply rbind_extends; [|reflexivity].
  unfold dvfs_rail_update_body.
  apply rbind_extends; [reflexivity|]. intros rail _.
  destruct (disabled rail); [reflexivity|]. destruct (suspended rail); [reflexivity|].
  destruct (negb (has_reg rail)); [reflexivity|].
  destruct (resolving_to rail); [reflexivity|].
  apply rbind_extends; [reflexivity|]. intros [mvolts|] _; [|reflexivity].
  apply rbind_extends; [reflexivity|]. intros steps _.
  apply update_retry_extends. intros v w1.
  apply set_voltage_body_extends, IH.
Qed.

(** A run of [dvfs_rail_update] that ends is the same with any larger fuel. *)
Lemma update_fuel_irrelevant (fuel fuel' r : nat) (w : world) :
  (fuel <= fuel')%nat ->
  dvfs_rail_update fuel r w <> OutOfFuel ->
  dvfs_rail_update fuel' r w = dvfs_rail_update fuel r w.
Proof.
  induction 1 as [|fuel' _ IH]; intros H; [reflexivity|].
  rewrite <- (IH H). apply update_extends. rewrite (IH H). exact H.
Qed.

Lemma set_voltage_fuel_irrelevant (fuel fuel' r : nat) (mvolts : Z) (w : world) :
  (fuel <= fuel')%nat ->
  dvfs_rail_set_voltage fuel r mvolts w <> OutOfFuel ->
  dvfs_rail_set_voltage fuel' r mvolts w = dvfs_rail_set_voltage fuel r mvolts w.
Proof.
  intros Hle. apply set_voltage_body_extends. intros x w1.
  apply update_fuel_irrelevant, Hle.
Qed.

(** * The ramp engine *)

Lemma stats_update_set_millivolts top rail v v' mvolts now :
  dvfs_rail_stats_update top (set_new_millivolts v' (set_millivolts v rail)) mvolts now
  = dvfs_rail_stats_update top rail mvolts now.
Proof. reflexivity. Qed.

Lemma rail_stats_update_put (r : nat) (mvolts : Z) (w : world) (x : dvfs_rail)
    (st' : rail_stats) :
  rails w !! r = Some x ->
  dvfs_rail_stats_update (DVFS_RAIL_STATS_TOP_BIN (hdr w)) x mvolts (ktime w) = Ok st' ->
  rail_stats_update r mvolts w = Ok (put_rail r (set_stats st' x) w).
Proof.
  intros Hx Hst. unfold rail_stats_update.
  rewrite (get_rail_lookup _ _ _ Hx). simpl. rewrite Hst. simpl.
  rewrite (upd_rail_put _ _ _ _ Hx). reflexivity.
Qed.

(** C7: a rail in DFLL mode takes any target in one direct assignment,
    however far the target is from the current voltage: [millivolts] and
    [new_millivolts] become the target, the statistics are updated, 0 is
    returned; no regulator write is logged and the dependents'
    [dvfs_rail_update] (any [update], any fuel) is never called.  The rail's
    regulator is bound, as it is on every rail that reaches the DFLL branch:
    the branch comes after the [!rail->reg] test of the function. *)
Theorem dfll_mode_ramp_is_direct
    (update : nat -> world -> result (world * Z)) (fuel : nat)
    (r : nat) (mvolts : Z) (w : world) (rail : dvfs_rail) (h : nat) (st' : rail_stats) :
  rails w !! r = Some rail ->
  reg rail = Some h ->
  dfll_mode rail = true ->
  dvfs_rail_stats_update (DVFS_RAIL_STATS_TOP_BIN (hdr w)) rail mvolts (ktime w) = Ok st' ->
  let rail' := set_stats st' (set_new_millivolts mvolts (set_millivolts mvolts rail)) in
  let w' := put_rail r rail' w in
  dvfs_rail_set_voltage_body update r mvolts w = Ok (w', 0) /\
  dvfs_rail_set_voltage fuel r mvolts w = Ok (w', 0) /\
  millivolts rail' = mvolts /\
  reg_log w' = reg_log w.
Proof.
  intros Hr Hreg Hdfll Hst rail' w'.
  assert (Hbody : forall u, dvfs_rail_set_voltage_body u r mvolts w = Ok (w', 0)).
  { intros u. unfold dvfs_rail_set_voltage_body.
    rewrite (get_rail_lookup _ _ _ Hr). simpl. rewrite Hreg, Hdfll.
    rewrite (upd_rail_put _ _ _ _ Hr).
    erewrite rail_stats_update_put;
      [| eapply lookup_put_rail_eq, Hr | rewrite stats_update_set_millivolts; exact Hst ].
    simpl. rewrite put_rail_put_rail. reflexivity. }
  repeat split; try apply Hbody.
Qed.

Lemma dfll_mode_ramp_is_direct_witness :
  dvfs_rail_set_voltage 0 0 1150 w_dfll
  = Ok (put_rail 0
          (set_stats
             {| time_at_mv := <[1%nat := 5]> (repeat 0 101); last_update := 5;
                last_index := 29; off := false; bin_uv := 12500 |}
             (set_new_millivolts 1150
                (set_millivolts 1150
                   (ex_rail "vdd-cpu" (Some 0%nat) 800 true false None 0 0 [] [] []))))
          w_dfll, 0).
Proof.
  refine (proj1 (proj2 (dfll_mode_ramp_is_direct (fun _ _ => Fault) 0 0 1150 w_dfll
            _ 0%nat _ _ _ _ _))); reflexivity.
Defined.

(** Before the regulator is bound the ramp engine answers in its first
    test, whatever the mode of the rail: 0 when the target is the current
    voltage and [-EINVAL] otherwise, with nothing changed. *)
Lemma ramp_without_regulator
    (update : nat -> world -> result (world * Z)) (r : nat) (mvolts : Z)
    (w : world) (rail : dvfs_rail) :
  rails w !! r = Some rail -> reg rail = None ->
  dvfs_rail_set_voltage_body update r mvolts w
  = Ok (w, if mvolts =? millivolts rail then 0 else - EINVAL).
Proof.
  intros Hr Hreg. unfold dvfs_rail_set_voltage_body.
  rewrite (get_rail_lookup _ _ _ Hr). cbn [rbind]. rewrite Hreg.
  destruct (mvolts =? millivolts rail); reflexivity.
Qed.

(** [dvfs_rail_update] does not call the ramp engine for such a rail: it
    returns 0 at its own [!rail->reg] test. *)
Lemma resolve_without_regulator (fuel r : nat) (w : world) (rail : dvfs_rail) :
  rails w !! r = Some rail -> reg rail = None ->
  dvfs_rail_update (S fuel) r w = Ok (w, 0).
Proof.
  intros Hr Hreg. cbn [dvfs_rail_update]. unfold dvfs_rail_update_body.
  rewrite (get_rail_lookup _ _ _ Hr). cbn [rbind].
  destruct (disabled rail); [reflexivity|]. destruct (suspended rail); [reflexivity|].
  unfold has_reg. rewrite Hreg. reflexivity.
Qed.

(** ** Ramping a rail that has no dependents *)

Section ramp_alone.
Context (update : nat -> world -> result (world * Z)).
Context (r : nat) (w0 : world) (Hr : (r < length (rails w0))%nat).
Context (x : dvfs_rail) (h : nat).
Context (Hto : relationships_to x = []) (Hreg : reg x = Some h).

Lemma set_voltage_reg_at_rail l v :
  dvfs_rail_set_voltage_reg r v (at_rail r x l w0)
  = Ok (at_rail r x (l ++ [write_of w0 l r h x v]) w0, rw_ret (write_of w0 l r h x v)).
Proof using Hr Hreg.
  unfold dvfs_rail_set_voltage_reg. rewrite get_rail_at_rail by exact Hr.
  simpl. rewrite Hreg. reflexivity.
Qed.

Lemma steps_alone_ok l mvolts stp offset jmp n st :
  let new := next_millivolts x mvolts stp offset jmp in
  rw_ret (write_of w0 l r h x new) = 0 ->
  dvfs_rail_stats_update (DVFS_RAIL_STATS_TOP_BIN (hdr w0)) x new (ktime w0) = Ok st ->
  set_voltage_steps update r mvolts stp offset jmp (S n) (at_rail r x l w0)
  = set_voltage_steps update r mvolts stp offset jmp n
      (at_rail r (set_stats st (set_millivolts new (set_new_millivolts new x)))
         (l ++ [write_of w0 l r h x new]) w0).
Proof using Hr Hreg Hto.
  intros new Hret Hst. cbn [set_voltage_steps].
  rewrite get_rail_at_rail by exact Hr. cbn [rbind].
  fold (next_millivolts x mvolts stp offset jmp). fold new.
  rewrite upd_rail_at_rail by exact Hr.
  rewrite Hto. cbn [update_dependents rbind Z.eqb negb].
  rewrite get_rail_at_rail by exact Hr. cbn [rbind].
  unfold dvfs_rail_set_voltage_reg. rewrite get_rail_at_rail by exact Hr.
  cbn [rbind]. change (reg (set_new_millivolts new x)) with (reg x).
  rewrite Hreg. cbn [of_option rbind].
  change (new_millivolts (set_new_millivolts new x)) with new.
  change (regulator_set_voltage (at_rail r (set_new_millivolts new x) l w0))
    with (regulator_set_voltage w0).
  change (reg_log (at_rail r (set_new_millivolts new x) l w0)) with l.
  change (max_millivolts (set_new_millivolts new x)) with (max_millivolts x).
  unfold write_of in Hret. cbn [rw_ret] in Hret.
  rewrite Hret. cbn [Z.eqb negb].
  rewrite set_reg_log_at_rail. rewrite upd_rail_at_rail by exact Hr.
  rewrite get_rail_at_rail by exact Hr. cbn [rbind].
  unfold rail_stats_update. rewrite get_rail_at_rail by exact Hr. cbn [rbind].
  change (dvfs_rail_stats_update _ _ _ _)
    with (dvfs_rail_stats_update (DVFS_RAIL_STATS_TOP_BIN (hdr w0)) x new (ktime w0)).
  rewrite Hst. cbn [rbind]. rewrite upd_rail_at_rail by exact Hr.
  change (relationships_to _) with (relationships_to x). rewrite Hto.
  cbn [update_dependents rbind Z.eqb negb].
  unfold write_of. rewrite Hret. reflexivity.
Qed.
End ramp_alone.

(** C3: a rail at 800 mV with a bound regulator, a 50 mV step up and no
    dependents, ramped to 1000 mV in the stepping mode (not DFLL, not
    disabled, not switched off under in-band power management, the regulator
    accepting the requests), makes exactly the four regulator writes 850,
    900, 950 and 1000 mV, in this order, returns 0 and ends at 1000 mV with
    its recursion guard clear. *)
Theorem ramp_800_to_1000_in_four_writes
    (fuel r : nat) (w : world) (rail : dvfs_rail) (h : nat) :
  rails w !! r = Some rail ->
  reg rail = Some h ->
  millivolts rail = 800 ->
  step_up rail = 50 ->
  relationships_to rail = [] ->
  dfll_mode rail = false ->
  disabled rail = false ->
  in_band_pm rail && off (stats rail) = false ->
  0 <= min_millivolts rail ->
  stats_ready (DVFS_RAIL_STATS_TOP_BIN (hdr w)) (stats rail) ->
  (forall l v, regulator_set_voltage w l h v (int_mul (max_millivolts rail) 1000) = 0) ->
  exists w' rail',
    dvfs_rail_set_voltage fuel r 1000 w = Ok (w', 0) /\
    reg_log w'
    = reg_log w ++
        map (fun uV => {| rw_rail := r; rw_reg := h; rw_min_uV := uV;
                          rw_max_uV := int_mul (max_millivolts rail) 1000;
                          rw_ret := 0 |})
            [850000; 900000; 950000; 1000000] /\
    rails w' = <[r := rail']> (rails w) /\
    millivolts rail' = 1000 /\
    resolving_to rail' = false.
Proof.
  intros Hr Hreg Hmv Hup Hto Hdfll Hdis Hoff Hmin Hst Horacle.
  assert (Hlt : (r < length (rails w))%nat) by (eapply lookup_lt_Some, Hr).
  unfold dvfs_rail_set_voltage, dvfs_rail_set_voltage_body.
  rewrite (get_rail_lookup _ _ _ Hr). cbn [rbind].
  rewrite Hreg, Hdfll, Hdis, Hmv, Hup, Hoff.
  change (1000 >? 800) with true. cbv iota.
  change ((1000 =? 0) || (800 =? 0)) with false. rewrite andb_false_r.
  cbn [orb]. change (DIV_ROUND_UP (int_abs (int_sub 1000 800)) 50) with (@Ok Z 4).
  cbn [rbind]. change (Z.to_nat 4) with 4%nat.
  rewrite (upd_rail_to_at_rail _ _ _ _ Hr).
  set (x0 := set_resolving_to true rail).
  assert (Hnext : forall x, 1000 - 200 <= millivolts x < 1000 ->
            next_millivolts x 1000 50 50 false
            = if 1000 - millivolts x >? 50 then millivolts x + 50 else 1000).
  { intros x Hx. unfold next_millivolts, int_abs, int_sub, int_add, int_neg.
    rewrite (wrap_int_small (1000 - _)) by (unfold INT_MIN, INT_MAX; lia).
    destruct (Z.ltb_spec (1000 - millivolts x) 0); [lia|].
    cbn [negb andb]. destruct (_ >? 50); [|reflexivity].
    apply wrap_int_small. unfold INT_MIN, INT_MAX; lia. }
  (* first write: 850 mV *)
  destruct (stats_update_ready (DVFS_RAIL_STATS_TOP_BIN (hdr w)) x0 850 (ktime w))
    as (st1 & Hst1 & Hrdy1); [exact Hst | cbn; lia |].
  rewrite (steps_alone_ok _ r w Hlt x0 h Hto Hreg _ 1000 50 50 false _ st1);
    [| rewrite Hnext by (cbn; lia); cbn; rewrite Hmv; apply Horacle
     | rewrite Hnext by (cbn; lia); cbn; rewrite Hmv; exact Hst1 ].
  rewrite Hnext by (cbn; lia). cbn [x0 millivolts set_resolving_to]. rewrite Hmv.
  change (if 1000 - 800 >? 50 then 800 + 50 else 1000) with 850.
  set (x1 := set_stats st1 _).
  (* second write: 900 mV *)
  destruct (stats_update_ready (DVFS_RAIL_STATS_TOP_BIN (hdr w)) x1 900 (ktime w))
    as (st2 & Hst2 & Hrdy2); [exact Hrdy1 | cbn; lia |].
  rewrite (steps_alone_ok _ r w Hlt x1 h Hto Hreg _ 1000 50 50 false _ st2);
    [| rewrite Hnext by (cbn; lia); cbn; apply Horacle
     | rewrite Hnext by (cbn; lia); cbn; exact Hst2 ].
  rewrite Hnext by (cbn; lia). cbn [x1 millivolts set_stats set_millivolts].
  change (if 1000 - 850 >? 50 then 850 + 50 else 1000) with 900.
  set (x2 := set_stats st2 _).
  (* third write: 950 mV *)
  destruct (stats_update_ready (DVFS_RAIL_STATS_TOP_BIN (hdr w)) x2 950 (ktime w))
    as (st3 & Hst3 & Hrdy3); [exact Hrdy2 | cbn; lia |].
  rewrite (steps_alone_ok _ r w Hlt x2 h Hto Hreg _ 1000 50 50 false _ st3);
    [| rewrite Hnext by (cbn; lia); cbn; apply Horacle
     | rewrite Hnext by (cbn; lia); cbn; exact Hst3 ].
  rewrite Hnext by (cbn; lia). cbn [x2 millivolts set_stats set_millivolts].
  change (if 1000 - 900 >? 50 then 900 + 50 else 1000) with 950.
  set (x3 := set_stats st3 _).
  (* fourth write: 1000 mV *)
  destruct (stats_update_ready (DVFS_RAIL_STATS_TOP_BIN (hdr w)) x3 1000 (ktime w))
    as (st4 & Hst4 & Hrdy4); [exact Hrdy3 | cbn; lia |].
  rewrite (steps_alone_ok _ r w Hlt x3 h Hto Hreg _ 1000 50 50 false _ st4);
    [| rewrite Hnext by (cbn; lia); cbn; apply Horacle
     | rewrite Hnext by (cbn; lia); cbn; exact Hst4 ].
  rewrite Hnext by (cbn; lia). cbn [x3 millivolts set_stats set_millivolts].
  change (if 1000 - 950 >? 50 then 950 + 50 else 1000) with 1000.
  set (x4 := set_stats st4 _).
  cbn [set_voltage_steps rbind]. rewrite get_rail_at_rail by exact Hlt.
  cbn [rbind Z.eqb negb]. rewrite upd_rail_at_rail by exact Hlt.
  eexists _, (set_resolving_to false x4).
  split; [reflexivity|]. split.
  { cbn [reg_log at_rail set_reg_log]. rewrite <- !app_assoc. f_equal.
    unfold write_of. cbn [app map]. rewrite !Horacle. reflexivity. }
  repeat split.
Qed.

Lemma ramp_800_to_1000_in_four_writes_witness :
  exists w' rail',
    dvfs_rail_set_voltage 0 0 1000 w_ramp = Ok (w', 0) /\
    reg_log w'
    = reg_log w_ramp ++
        map (fun uV => {| rw_rail := 0; rw_reg := 7; rw_min_uV := uV;
                          rw_max_uV := int_mul 1200 1000; rw_ret := 0 |})
            [850000; 900000; 950000; 1000000] /\
    rails w' = <[0%nat := rail']> (rails w_ramp) /\
    millivolts rail' = 1000 /\
    resolving_to rail' = false.
Proof.
  apply (ramp_800_to_1000_in_four_writes 0 0 w_ramp
           (ex_rail "vdd-core" (Some 7%nat) 800 false false None 0 0 [] [] []) 7);
    try reflexivity.
  - simpl. lia.
  - unfold stats_ready. simpl. lia.
Defined.

(** ** A refused write *)

Lemma track_failed (r : nat) (pre : list reg_write) (e : reg_write) (acc : option Z) :
  rw_ret e <> 0 -> track r (pre ++ [e]) acc = track r pre acc.
Proof.
  intros He. rewrite track_app. cbn. destruct (Z.eqb_spec (rw_ret e) 0); [contradiction|].
  rewrite andb_false_r. reflexivity.
Qed.

(** C8: [dvfs_rail_set_voltage] never leaves the recursion guard of its rail
    set: a guard that was clear on entry is clear on every return.  On the
    stepping path the guard is clear on return in any case, the rail's voltage
    is the last value its regulator accepted during the ramp (its voltage on
    entry if none was), and a refused write is the last entry of the log: the
    ramp stops there, returns the regulator's error code, and the voltage is
    the last value accepted before it. *)
Theorem ramp_stops_at_refused_write
    (fuel r : nat) (mvolts : Z) (w w' : world) (ret : Z) (x : dvfs_rail) :
  rails w !! r = Some x ->
  dvfs_rail_set_voltage fuel r mvolts w = Ok (w', ret) ->
  exists x', rails w' !! r = Some x' /\
    (resolving_to x = false -> resolving_to x' = false) /\
    (has_reg x = true -> dfll_mode x = false -> disabled x = false ->
     resolving_to x' = false /\
     exists suf, reg_log w' = reg_log w ++ suf /\
       agrees (track r suf None) (millivolts x) (millivolts x') /\
       forall pre e post, suf = pre ++ e :: post -> rw_rail e = r -> rw_ret e <> 0 ->
         post = [] /\ ret = rw_ret e /\
         agrees (track r pre None) (millivolts x) (millivolts x')).
Proof.
  intros Hx Hrun. unfold dvfs_rail_set_voltage in Hrun.
  destruct (has_reg x) eqn:Hreg; [destruct (dfll_mode x) eqn:Hdfll;
                                  [|destruct (disabled x) eqn:Hdis]|].
  4:{ (* no regulator: the world is returned as it is *)
      unfold dvfs_rail_set_voltage_body in Hrun. rewrite (get_rail_lookup _ _ _ Hx) in Hrun.
      cbn [rbind] in Hrun. unfold has_reg in Hreg. destruct (reg x); [discriminate|].
      exists x. destruct (_ =? _); injection Hrun as <- <-;
        (split; [exact Hx|]; split; [auto | discriminate]). }
  3:{ (* the stepping path *)
      unfold has_reg in Hreg. destruct (reg x) as [h|] eqn:Hh; [|discriminate].
      pose proof (set_voltage_body_stepping true _ _ r mvolts w x h
                    (update_partial fuel _) Hx Hh Hdfll Hdis (le_n _)) as Hpost.
      rewrite Hrun in Hpost. cbn in Hpost.
      destruct Hpost as (w2 & ret0 & x2 & (F & suf & Hlog & Hown & Htrack) & Hx2 & -> & ->).
      exists (set_resolving_to false x2).
      split; [apply lookup_upd_rail_eq, Hx2|]. split; [reflexivity|].
      intros _ _ _. split; [reflexivity|]. exists suf. split; [exact Hlog|].
      assert (Hv : forall acc, agrees acc (millivolts x) (millivolts x) ->
                   agrees (track r suf acc) (millivolts x) (millivolts x2)).
      { intros acc Hacc.
        apply (Htrack _ x2 acc (millivolts x) (lookup_upd_rail_eq _ _ _ _ Hx) Hx2 Hacc). }
      split; [apply Hv; reflexivity|].
      intros pre e post -> He Hret.
      destruct (own_ok_split _ _ _ _ _ Hown He Hret) as (-> & ->).
      split; [reflexivity|]. destruct (Z.eqb_spec (rw_ret e) 0); [contradiction|].
      split; [reflexivity|]. rewrite <- (track_failed r pre e None Hret).
      apply Hv. reflexivity. }
  2:{ (* disabled: nothing is done *)
      unfold dvfs_rail_set_voltage_body in Hrun. rewrite (get_rail_lookup _ _ _ Hx) in Hrun.
      cbn [rbind] in Hrun. unfold has_reg in Hreg. destruct (reg x); [|discriminate].
      rewrite Hdfll, Hdis in Hrun. injection Hrun as <- <-.
      exists x. split; [exact Hx|]. split; [auto | discriminate]. }
  (* DFLL mode: the stores keep the guard *)
  unfold dvfs_rail_set_voltage_body in Hrun. rewrite (get_rail_lookup _ _ _ Hx) in Hrun.
  cbn [rbind] in Hrun. unfold has_reg in Hreg. destruct (reg x); [|discriminate].
  rewrite Hdfll in Hrun. apply rbind_Ok in Hrun as (w2 & Hst & Hrun).
  injection Hrun as <- <-. destruct (rail_stats_update_inv _ _ _ _ Hst) as (st & ->).
  eexists. split.
  { apply lookup_upd_rail_eq. apply lookup_upd_rail_eq. exact Hx. }
  split; [auto | discriminate].
Qed.

Lemma ramp_stops_at_refused_write_witness :
  let w' := world_after w_refuse (dvfs_rail_set_voltage 0 0 1000 w_refuse) in
  let x := ex_rail "vdd-core" (Some 7%nat) 800 false false None 0 0 [] [] [] in
  exists x', rails w' !! 0%nat = Some x' /\
    (resolving_to x = false -> resolving_to x' = false) /\
    (has_reg x = true -> dfll_mode x = false -> disabled x = false ->
     resolving_to x' = false /\
     exists suf, reg_log w' = reg_log w_refuse ++ suf /\
       agrees (track 0 suf None) (millivolts x) (millivolts x') /\
       forall pre e post, suf = pre ++ e :: post -> rw_rail e = 0%nat -> rw_ret e <> 0 ->
         post = [] /\ -5 = rw_ret e /\
         agrees (track 0 pre None) (millivolts x) (millivolts x')).
Proof.
  intros w' x.
  apply (ramp_stops_at_refused_write 0 0 1000 w_refuse w' (-5) x);
    [reflexivity | vm_compute; reflexivity].
Defined.

(** * The resolver *)

Lemma max_cur_millivolts_idle (w : world) (ds : list nat) :
  Forall (fun d => exists c, clocks w !! d = Some c /\ cur_millivolts c = 0) ds ->
  max_cur_millivolts w ds 0 = Ok 0.
Proof.
  induction 1 as [|d ds (c & Hc & Hz) _ IH]; [reflexivity|].
  cbn [max_cur_millivolts]. unfold get_dvfs. rewrite Hc. cbn [of_option rbind].
  rewrite Hz. exact IH.
Qed.

(** C10: on a rail all of whose clocks ask for 0 mV, which may jump to zero
    and is not under in-band power management, the resolver settles on 0 mV
    without calling [dvfs_rail_apply_limits] and enters its retry loop with
    that target, whatever the rail minimum and the thermal floor are.  When
    the rail has no relationships and its regulator accepts the request, it
    is written to 0 uV in one step and ends at 0 mV. *)
Theorem zero_demand_skips_limits
    (fuel r : nat) (w : world) (rail : dvfs_rail) :
  rails w !! r = Some rail ->
  Forall (fun d => exists c, clocks w !! d = Some c /\ cur_millivolts c = 0)
         (dvfs_list rail) ->
  jmp_to_zero rail = true ->
  in_band_pm rail = false ->
  dvfs_rail_demand w rail = Ok (Some 0) /\
  (forall sv,
     disabled rail = false -> suspended rail = false -> has_reg rail = true ->
     resolving_to rail = false ->
     dvfs_rail_update_body sv r w
     = (let* steps := DIV_ROUND_UP (int_abs (int_sub 0 (millivolts rail))) (step rail) in
        dvfs_rail_update_retry sv r 0 (Z.to_nat (steps + 1)) 0 w)) /\
  (forall h st',
     disabled rail = false -> suspended rail = false -> reg rail = Some h ->
     resolving_to rail = false ->
     dfll_mode rail = false ->
     relationships_from rail = [] ->
     relationships_to rail = [] ->
     0 < millivolts rail ->
     0 < step rail ->
     millivolts rail + step rail <= INT_MAX ->
     regulator_set_voltage w (reg_log w) h 0 (int_mul (max_millivolts rail) 1000) = 0 ->
     dvfs_rail_stats_update (DVFS_RAIL_STATS_TOP_BIN (hdr w)) rail 0 (ktime w) = Ok st' ->
     dvfs_rail_update (S fuel) r w
     = Ok (at_rail r (set_stats st' (set_millivolts 0 (set_new_millivolts 0 rail)))
             (reg_log w ++ [write_of w (reg_log w) r h rail 0]) w, 0)).
Proof.
  intros Hr Hidle Hjmp Hpm.
  assert (Hlt : (r < length (rails w))%nat) by (eapply lookup_lt_Some, Hr).
  assert (Hdemand : dvfs_rail_demand w rail = Ok (Some 0)).
  { unfold dvfs_rail_demand. rewrite (max_cur_millivolts_idle _ _ Hidle).
    cbn [rbind Z.eqb negb]. rewrite Hpm, Hjmp. reflexivity. }
  assert (Hbody : forall sv,
     disabled rail = false -> suspended rail = false -> has_reg rail = true ->
     resolving_to rail = false ->
     dvfs_rail_update_body sv r w
     = (let* steps := DIV_ROUND_UP (int_abs (int_sub 0 (millivolts rail))) (step rail) in
        dvfs_rail_update_retry sv r 0 (Z.to_nat (steps + 1)) 0 w)).
  { intros sv Hdis Hsus Hreg Hres. unfold dvfs_rail_update_body.
    rewrite (get_rail_lookup _ _ _ Hr). cbn [rbind].
    rewrite Hdis, Hsus, Hreg, Hres. cbn [negb].
    rewrite Hdemand. reflexivity. }
  split; [exact Hdemand|]. split; [exact Hbody|].
  intros h st' Hdis Hsus Hreg Hres Hdfll Hfrom Hto Hmv Hstep Hmax Horacle Hst.
  rewrite update_unfold, Hbody by (unfold has_reg; rewrite ?Hreg; auto).
  assert (Hsteps : exists k, DIV_ROUND_UP (int_abs (int_sub 0 (millivolts rail))) (step rail)
                             = Ok k /\ 1 <= k).
  { unfold DIV_ROUND_UP, int_abs, int_sub, int_neg, int_add, int_div.
    unfold INT_MAX in Hmax.
    rewrite (wrap_int_small (0 - _)) by (unfold INT_MIN, INT_MAX; lia).
    destruct (Z.ltb_spec (0 - millivolts rail) 0); [|lia].
    rewrite (wrap_int_small (- _)) by (unfold INT_MIN, INT_MAX; lia).
    rewrite (wrap_int_small (_ + step rail)) by (unfold INT_MIN, INT_MAX; lia).
    rewrite (wrap_int_small (_ - 1)) by (unfold INT_MIN, INT_MAX; lia).
    destruct (Z.eqb_spec (step rail) 0); [lia|].
    destruct (Z.eqb_spec (step rail) (-1)); [lia|]. rewrite andb_false_r.
    eexists; split; [reflexivity|].
    rewrite Z.quot_div_nonneg by lia. apply Z.div_le_lower_bound; lia. }
  destruct Hsteps as (k & -> & Hk). cbn [rbind].
  destruct (Z.to_nat (k + 1)) as [|[|n]] eqn:Hn; [lia|lia|].
  (* first pass: the demand differs from the current voltage, so ramp *)
  cbn [dvfs_rail_update_retry].
  rewrite (upd_rail_to_at_rail _ _ _ _ Hr).
  rewrite get_rail_at_rail by exact Hlt. cbn [rbind].
  change (relationships_from (set_new_millivolts 0 rail)) with (relationships_from rail).
  rewrite Hfrom. cbn [solve_relationships_from rbind].
  rewrite get_rail_at_rail by exact Hlt. cbn [rbind].
  change (new_millivolts (set_new_millivolts 0 rail)) with 0.
  change (millivolts (set_new_millivolts 0 rail)) with (millivolts rail).
  destruct (Z.eqb_spec 0 (millivolts rail)); [lia|].
  unfold dvfs_rail_set_voltage, dvfs_rail_set_voltage_body at 1.
  rewrite get_rail_at_rail by exact Hlt. cbn [rbind].
  change (reg (set_new_millivolts 0 rail)) with (reg rail). rewrite Hreg.
  change (dfll_mode (set_new_millivolts 0 rail)) with (dfll_mode rail). rewrite Hdfll.
  change (disabled (set_new_millivolts 0 rail)) with (disabled rail). rewrite Hdis.
  change (jmp_to_zero (set_new_millivolts 0 rail)) with (jmp_to_zero rail). rewrite Hjmp.
  cbn [Z.eqb orb andb rbind]. change (Z.to_nat 1) with 1%nat.
  rewrite upd_rail_at_rail by exact Hlt.
  set (x1 := set_resolving_to true (set_new_millivolts 0 rail)).
  rewrite (steps_alone_ok _ r w Hlt x1 h Hto Hreg _ 0 _ _ true 0 st');
    [| exact Horacle | exact Hst].
  change (next_millivolts x1 0 _ _ true) with 0.
  cbn [set_voltage_steps rbind]. rewrite get_rail_at_rail by exact Hlt.
  cbn [rbind millivolts set_stats set_millivolts Z.eqb negb].
  rewrite upd_rail_at_rail by exact Hlt.
  (* second pass: the rail is at 0 mV, leave *)
  cbn [dvfs_rail_update_retry].
  rewrite upd_rail_at_rail by exact Hlt. rewrite get_rail_at_rail by exact Hlt.
  cbn [rbind relationships_from set_new_millivolts set_resolving_to set_stats
       set_millivolts x1].
  rewrite Hfrom. cbn [solve_relationships_from rbind].
  rewrite get_rail_at_rail by exact Hlt.
  cbn [rbind new_millivolts millivolts Z.eqb].
  do 2 f_equal. unfold at_rail, write_of. f_equal.
  f_equal. destruct rail; cbn in *; subst; reflexivity.
Qed.

(** At [w_idle] the rail minimum is 800 mV and a 950 mV thermal floor is in
    force; the rail goes from 1000 mV to 0 mV in one write. *)
Lemma zero_demand_skips_limits_witness :
  let rail := ex_rail "vdd-gpu" (Some 3%nat) 1000 false true
                (Some [ {| temperature := 20; mv := 950 |} ]) 1 0 [0%nat] [] [] in
  let st' := {| time_at_mv := <[1%nat := 5]> (repeat 0 101); last_update := 5;
                last_index := 0; off := false; bin_uv := 12500 |} in
  dvfs_rail_demand w_idle rail = Ok (Some 0) /\
  dvfs_rail_update 1 0 w_idle
  = Ok (at_rail 0 (set_stats st' (set_millivolts 0 (set_new_millivolts 0 rail)))
          (reg_log w_idle ++ [write_of w_idle (reg_log w_idle) 0 3 rail 0]) w_idle, 0).
Proof.
  intros rail st'.
  destruct (zero_demand_skips_limits 0 0 w_idle rail) as (Hdemand & _ & Hrun);
    try reflexivity.
  - repeat constructor. exists (ex_dvfs 0 0 0 0 [800; 900; 1000] None 0 0).
    split; reflexivity.
  - split; [exact Hdemand|]. apply (Hrun 3%nat st'); try reflexivity.
    unfold INT_MAX. simpl. lia.
Defined.

(** ** The limits are computed and then dropped *)

Lemma apply_limits_without_tables (rail : dvfs_rail) (mvolts : Z) :
  therm_floors rail = None ->
  therm_caps rail = None ->
  dvfs_rail_apply_limits rail mvolts
  = Ok (if negb (override_millivolts rail =? 0) then override_millivolts rail else mvolts).
Proof. intros Hf Hc. unfold dvfs_rail_apply_limits. rewrite Hf, Hc. reflexivity. Qed.

(** C1 (code defect): the rail is limited to 800..1200 mV, has no thermal
    tables and no relationships, stands at 1000 mV, and its clock asks for
    700 mV.  [dvfs_rail_update] ramps it to 700 mV, six writes down to
    700000 uV, where the clamp of the demand into the rail limits is 800 mV. *)
Theorem resolve_ramps_below_rail_minimum :
  observe 0 (dvfs_rail_update 1 0 w_low_demand)
  = Some (0, Some 700, [950000; 900000; 850000; 800000; 750000; 700000]) /\
  observe 0 (__tegra_dvfs_set_rate 1 0 100 w_low_demand)
  = Some (0, Some 700, [950000; 900000; 850000; 800000; 750000; 700000]) /\
  clamp_val 700 800 1200 = 800.
Proof. repeat split; vm_compute; reflexivity. Qed.

(** C2 (code defect): the clock asks for 850 mV and the core rail stands at
    850 mV; the thermal floor index moves from the 900 mV entry to the 950 mV
    entry.  The resolve run by [tegra_dvfs_core_update_thermal_index] leaves
    the rail at 850 mV and writes nothing to the regulator. *)
Theorem thermal_floor_950_is_not_applied :
  match tegra_dvfs_core_update_thermal_index 1 TEGRA_DVFS_CORE_THERMAL_FLOOR 0 w_floor with
  | Ok (w', ret) =>
      ret = 0 /\ reg_log w' = [] /\
      exists rail floors l,
        rails w' !! 0%nat = Some rail /\ therm_floors rail = Some floors /\
        array_get floors (therm_floor_idx rail) = Ok l /\ mv l = 950 /\
        millivolts rail = 850
  | _ => False
  end.
Proof.
  vm_compute. repeat split. do 3 eexists. repeat split.
Qed.

(** ** Termination *)

Lemma update_retry_passes (sv : nat -> Z -> world -> result (world * Z)) (r : nat)
    (mvolts : Z) (k : nat) (ret : Z) (w w' : world) (ret' : Z) (passes : nat) :
  dvfs_rail_update_retry sv r mvolts k ret w = Ok (w', (ret', passes)) ->
  (passes <= k)%nat.
Proof.
  revert ret w w' ret' passes. induction k as [|k IH]; intros ret w w' ret' passes H;
    cbn [dvfs_rail_update_retry] in H.
  { injection H as _ _ <-. lia. }
  apply rbind_Ok in H as (x1 & _ & H). apply rbind_Ok in H as (w2 & _ & H).
  apply rbind_Ok in H as (x2 & _ & H).
  destruct (_ =? _); [injection H as _ _ <-; lia|].
  apply rbind_Ok in H as ([w3 ret3] & _ & H).
  apply rbind_Ok in H as ([w4 [ret4 p]] & Hrec & H).
  injection H as _ _ <-. apply IH in Hrec. lia.
Qed.

(** C4: with more fuel than there are rails, [dvfs_rail_update] returns (a
    world or a fault, never out of fuel, and the same with any larger fuel),
    whatever the relationships and their solvers are; on a rail whose
    recursion guard is set it returns at once, leaving the world as it is;
    and its retry loop makes at most [ceil(|demand - millivolts| / step) + 1]
    passes. *)
Theorem resolve_terminates (fuel r : nat) (w : world) :
  (length (rails w) < fuel)%nat ->
  dvfs_rail_update fuel r w <> OutOfFuel /\
  (forall fuel', (fuel <= fuel')%nat ->
     dvfs_rail_update fuel' r w = dvfs_rail_update fuel r w) /\
  (forall rail, rails w !! r = Some rail -> resolving_to rail = true ->
     dvfs_rail_update fuel r w = Ok (w, 0)) /\
  (forall rail demand w' ret passes,
     rails w !! r = Some rail -> 0 < step rail ->
     dvfs_rail_demand w rail = Ok (Some demand) ->
     dvfs_rail_update_body (dvfs_rail_set_voltage (pred fuel)) r w
     = Ok (w', (ret, passes)) ->
     Z.of_nat passes <= ceil_div (Z.abs (demand - millivolts rail)) (step rail) + 1).
Proof.
  intros Hfuel. destruct fuel as [|fuel]; [lia|].
  assert (Hends : dvfs_rail_update (S fuel) r w <> OutOfFuel).
  { pose proof (free_le_length w) as Hfree.
    pose proof (upd_spec_le false (free w) fuel _ ltac:(lia) (update_total fuel) r w
                  ltac:(lia)) as Hrun.
    intros Hoof. rewrite Hoof in Hrun. discriminate Hrun. }
  split; [exact Hends|]. split; [|split].
  - intros fuel' Hle. apply update_fuel_irrelevant; assumption.
  - intros rail Hr Hflag. rewrite update_unfold. unfold dvfs_rail_update_body.
    rewrite (get_rail_lookup _ _ _ Hr). cbn [rbind]. rewrite Hflag.
    destruct (disabled rail), (suspended rail), (negb (has_reg rail)); reflexivity.
  - intros rail demand w' ret passes Hr Hstep Hdemand Hrun. cbn [pred] in Hrun.
    unfold dvfs_rail_update_body in Hrun. rewrite (get_rail_lookup _ _ _ Hr) in Hrun.
    cbn [rbind] in Hrun.
    assert (Hceil : 0 <= ceil_div (Z.abs (demand - millivolts rail)) (step rail))
      by (apply Z.div_pos; lia).
    destruct (disabled rail); [injection Hrun as _ _ <-; lia|].
    destruct (suspended rail); [injection Hrun as _ _ <-; lia|].
    destruct (negb (has_reg rail)); [injection Hrun as _ _ <-; lia|].
    destruct (resolving_to rail); [injection Hrun as _ _ <-; lia|].
    rewrite Hdemand in Hrun. cbn [rbind] in Hrun.
    apply rbind_Ok in Hrun as (steps & Hsteps & Hrun).
    apply DIV_ROUND_UP_abs_le in Hsteps; [|exact Hstep].
    apply update_retry_passes in Hrun. lia.
Qed.

Lemma resolve_terminates_witness :
  dvfs_rail_update 3 0 w_cycle <> OutOfFuel /\
  (forall fuel', (3 <= fuel')%nat ->
     dvfs_rail_update fuel' 0 w_cycle = dvfs_rail_update 3 0 w_cycle) /\
  (forall rail, rails w_cycle !! 0%nat = Some rail -> resolving_to rail = true ->
     dvfs_rail_update 3 0 w_cycle = Ok (w_cycle, 0)) /\
  (forall rail demand w' ret passes,
     rails w_cycle !! 0%nat = Some rail -> 0 < step rail ->
     dvfs_rail_demand w_cycle rail = Ok (Some demand) ->
     dvfs_rail_update_body (dvfs_rail_set_voltage 2) 0 w_cycle = Ok (w', (ret, passes)) ->
     Z.of_nat passes <= ceil_div (Z.abs (demand - millivolts rail)) (step rail) + 1).
Proof.
  apply (resolve_terminates 3 0 w_cycle). simpl. lia.
Defined.

(** * Clock tables *)

Lemma use_alt_freqs_never_applies (fuel : nat) (c : option nat) (use_alt_freq : bool)
    (w : world) (d : nat) (x : dvfs) :
  tegra_clk_to_dvfs w c = Ok (Some d) ->
  clocks w !! d = Some x ->
  tegra_dvfs_use_alt_freqs_on_clk fuel c use_alt_freq w = Ok (w, - ENOENT).
Proof.
  intros Hd Hx. unfold tegra_dvfs_use_alt_freqs_on_clk. rewrite Hd. cbn [rbind].
  unfold get_dvfs. rewrite Hx. reflexivity.
Qed.

(** C5 (code defect): the clock has an alternate frequency table that is not
    in use; asking [tegra_dvfs_use_alt_freqs_on_clk] to switch to it returns
    [-ENOENT] and changes nothing: the table in use is still the main one. *)
Theorem alt_table_swap_is_not_applied :
  tegra_clk_to_dvfs w_alt (Some 0%nat) = Ok (Some 0%nat) /\
  (exists x, clocks w_alt !! 0%nat = Some x /\
             alt_freqs x = Some [150; 250; 350] /\ use_alt_freqs x = false) /\
  tegra_dvfs_use_alt_freqs_on_clk 2 (Some 0%nat) true w_alt = Ok (w_alt, - ENOENT).
Proof.
  split; [reflexivity|]. split.
  - eexists. repeat split.
  - apply (use_alt_freqs_never_applies 2 (Some 0%nat) true w_alt 0 _ eq_refl eq_refl).
Qed.

(** C9 (as amended): when the rate that is looked up, which is the requested
    rate or, on entry to the DFLL range, [use_dfll_rate_min], is above the
    last entry of the frequency table in use, [__tegra_dvfs_set_rate] returns
    [-EINVAL] and the world is unchanged. *)
Theorem set_rate_too_high_changes_nothing
    (fuel d : nat) (rate : Z) (w : world) (x : dvfs) (fr mvs : list Z) (top : Z) :
  clocks w !! d = Some x ->
  dvfs_get_freqs x = Some fr ->
  dvfs_get_millivolts w x rate = Some mvs ->
  array_get fr (int_sub (num_freqs x) 1) = Ok top ->
  top < (if tegra_dvfs_is_dfll_range_entry (hdr w) (rails w) x rate
         then use_dfll_rate_min x else rate) ->
  __tegra_dvfs_set_rate fuel d rate w = Ok (w, - EINVAL).
Proof.
  intros Hx Hfr Hmv Htop Hrate. unfold __tegra_dvfs_set_rate, get_dvfs.
  rewrite Hx. cbn [of_option rbind]. rewrite Hfr, Hmv, Htop. cbn [rbind].
  destruct (Z.gtb_spec
              (if tegra_dvfs_is_dfll_range_entry (hdr w) (rails w) x rate
               then use_dfll_rate_min x else rate) top); [reflexivity | lia].
Qed.

Lemma set_rate_too_high_changes_nothing_witness :
  __tegra_dvfs_set_rate 2 0 1000 w_plain_clock = Ok (w_plain_clock, - EINVAL).
Proof.
  apply (set_rate_too_high_changes_nothing 2 0 1000 w_plain_clock
           (ex_dvfs 0 0 100 800 [800; 900; 1000] None 0 0)
           [100; 200; 300] [800; 900; 1000] 300); reflexivity.
Defined.

(** C9, as stated, fails on entry to the DFLL range.  The clock of
    [w_range_entry] runs at 100 Hz, below the 200 Hz at which its DFLL range
    starts; its frequency table ends at 300 Hz and 1000 Hz is requested.  The
    rate is in the range, so the DFLL voltage table is looked up, and the
    request is an entry to the range, so the rate is replaced by 200 Hz: the
    call returns 0, and the clock's rate (100 to 200 Hz), its demand (800 to
    910 mV) and the rail voltage (800 to 910 mV) change. *)
Lemma set_rate_range_entry_above_table_max :
  ~ (forall (fuel d : nat) (rate : Z) (w : world) (x : dvfs) (fr mvs : list Z) (top : Z),
       clocks w !! d = Some x ->
       dvfs_get_freqs x = Some fr ->
       dvfs_get_millivolts w x rate = Some mvs ->
       array_get fr (int_sub (num_freqs x) 1) = Ok top ->
       top < rate ->
       exists e, e < 0 /\ __tegra_dvfs_set_rate fuel d rate w = Ok (w, e)).
Proof.
  intros H.
  destruct (H 2%nat 0%nat 1000 w_range_entry ex_range_dvfs [100; 200; 300]
              [810; 910; 1010] 300 eq_refl eq_refl eq_refl eq_refl eq_refl)
    as (e & He & Hrun).
  vm_compute in Hrun. injection Hrun as _ <-. lia.
Qed.

(** What the call does there: it returns 0 and leaves the clock at 200 Hz
    asking for 910 mV and the rail at 910 mV, after three writes. *)
Lemma set_rate_range_entry_run :
  match __tegra_dvfs_set_rate 2 0 1000 w_range_entry with
  | Ok (w', ret) =>
      ret = 0 /\
      (cur_rate <$> clocks w' !! 0%nat) = Some 200 /\
      (cur_millivolts <$> clocks w' !! 0%nat) = Some 910 /\
      (millivolts <$> rails w' !! 0%nat) = Some 910 /\
      map rw_min_uV (reg_log w') = [850000; 900000; 910000]
  | _ => False
  end.
Proof. vm_compute. repeat split. Qed.

(** * Suspend and resume *)









Lemma set_voltage_total (fuel r : nat) (mvolts : Z) (w : world) (x : dvfs_rail) :
  (length (rails w) < fuel)%nat ->
  rails w !! r = Some x -> resolving_to x = false ->
  res_spec false None w (dvfs_rail_set_voltage fuel r mvolts w).
Proof.
  intros Hfuel Hx Hflag. destruct fuel as [|fuel]; [lia|].
  apply (set_voltage_body_spec false fuel _ r (update_total fuel) mvolts w x Hx Hflag).
  pose proof (free_le_length w). lia.
Qed.






Lemma resume_update_post (fuel : nat) (rs : list nat) (w : world) :
  (length (rails w) < fuel)%nat ->
  match resume_update fuel rs w with
  | Ok w' => frame None w w'
  | Fault => True
  | OutOfFuel => False
  end.
Proof.
  intros Hfuel. destruct fuel as [|fuel]; [lia|].
  revert w Hfuel. induction rs as [|r rs IH]; intros w Hfuel; cbn [resume_update].
  { apply frame_refl. }
  pose proof (update_total fuel r w ltac:(pose proof (free_le_length w); lia)) as Hrun.
  destruct (dvfs_rail_update (S fuel) r w) as [[w1 ret]| |]; cbn [rbind];
    [|exact I|discriminate Hrun].
  cbn in Hrun. specialize (IH w1 ltac:(rewrite (frame_length _ _ _ Hrun); exact Hfuel)).
  destruct (resume_update (S fuel) rs w1); [|exact I|exact IH].
  eapply frame_trans; eassumption.
Qed.

Lemma frame_not_suspended (e : option nat) (w w' : world) :
  frame e w w' -> Forall (fun x => suspended x = false) (rails w) ->
  Forall (fun x => suspended x = false) (rails w').
Proof.
  intros F Hs. apply Forall_lookup. intros i x' Hx'.
  destruct (frame_lookup_back _ _ _ _ _ F Hx') as (x & Hx & (K & _) & _).
  rewrite K. exact (proj1 (Forall_lookup _ _) Hs i x Hx).
Qed.

(** [tegra_dvfs_resume]: no rail is left suspended. *)
Lemma resume_post (fuel : nat) (w : world) :
  (length (rails w) < fuel)%nat ->
  match tegra_dvfs_resume fuel w with
  | Ok w' => Forall (fun x => suspended x = false) (rails w')
  | Fault => True
  | OutOfFuel => False
  end.
Proof.
  intros Hfuel. unfold tegra_dvfs_resume.
  set (w1 := set_rails (map (set_suspended false) (rails w)) w).
  assert (Hlen : length (rails w1) = length (rails w)) by apply length_map.
  pose proof (resume_update_post fuel (seq 0 (length (rails w1))) w1
                ltac:(rewrite Hlen; exact Hfuel)) as Hrun.
  destruct (resume_update fuel _ w1) as [w'| |]; [|exact I|exact Hrun].
  eapply frame_not_suspended; [exact Hrun|].
  apply Forall_forall. intros x Hx. apply list_elem_of_In, in_map_iff in Hx.
  destruct Hx as (y & <- & _). reflexivity.
Qed.

Lemma quiescent_guards_clear (w : world) : quiescent w <-> guards_clear w.
Proof.
  unfold quiescent, guards_clear. rewrite forallb_forall, Forall_forall.
  split; intros H x Hx.
  - apply list_elem_of_In, H in Hx. destruct (resolving_to x); [discriminate | reflexivity].
  - apply list_elem_of_In, H in Hx. rewrite Hx. reflexivity.
Qed.

(** ** What the rollback leaves alone *)














(** ** The loop and the rollback, unfolded *)





(** The rollback of [w_stuck]: the run returns [-EINVAL] with every flag
    clear; rail 0, which [dvfs_rail_update] leaves alone, is at the 1000 mV of
    its suspend level, and no regulator write was made after the ramp that
    brought it there. *)
Lemma suspend_stuck_run :
  match tegra_dvfs_suspend 4 w_stuck with
  | Ok (w', ret) =>
      ret = - EINVAL /\
      map suspended (rails w') = [false; false; false] /\
      map millivolts (rails w') = [1000; 1000; 1000] /\
      map rw_min_uV (reg_log w') = [850000; 900000; 950000; 1000000]
  | _ => False
  end.
Proof. vm_compute. repeat split. Qed.

(** In [w_chain], where rail 0 needs rail 1, the first pass suspends rail 1
    and the run ends with both rails suspended. *)
Lemma suspend_chain_source_first :
  match tegra_dvfs_suspend_one 3 w_chain with
  | Ok (w1, ret) => ret = 0 /\ map suspended (rails w1) = [false; true]
  | _ => False
  end /\
  match tegra_dvfs_suspend 3 w_chain with
  | Ok (w', ret) => ret = 0 /\ map suspended (rails w') = [true; true]
  | _ => False
  end.
Proof. vm_compute. repeat split. Qed.


(** * What the resolver leaves alone *)

Lemma settings_parked (x x' : dvfs_rail) :
  settings x' = settings x -> parked x' = parked x.
Proof.
  intros H. unfold parked, has_reg.
  pose proof (f_equal disabled H) as Hd. pose proof (f_equal suspended H) as Hs.
  pose proof (f_equal reg H) as Hr. cbn in Hd, Hs, Hr. rewrite Hd, Hs, Hr. reflexivity.
Qed.

Lemma steady_refl (w : world) : steady w w.
Proof.
  constructor; [reflexivity| |].
  - intros i x Hx. exists x. auto.
  - exists []. rewrite app_nil_r. auto.
Qed.

Lemma steady_lookup_back (w w' : world) (i : nat) (x' : dvfs_rail) :
  steady w w' -> rails w' !! i = Some x' ->
  exists x, rails w !! i = Some x /\ settings x' = settings x /\
            (parked x = true -> x' = x).
Proof.
  intros S Hx'. pose proof (lookup_lt_Some _ _ _ Hx') as Hlt.
  rewrite (steady_length _ _ S) in Hlt.
  destruct (lookup_lt_is_Some_2 _ _ Hlt) as [x Hx]. exists x. split; [exact Hx|].
  destruct (steady_rails _ _ S _ _ Hx) as (y & Hy & Hs & Hp).
  assert (y = x') by congruence. subst y. auto.
Qed.

Lemma steady_trans (w1 w2 w3 : world) : steady w1 w2 -> steady w2 w3 -> steady w1 w3.
Proof.
  intros S1 S2. constructor.
  - rewrite (steady_length _ _ S2). apply (steady_length _ _ S1).
  - intros i x Hx. destruct (steady_rails _ _ S1 _ _ Hx) as (x2 & Hx2 & Hs2 & Hp2).
    destruct (steady_rails _ _ S2 _ _ Hx2) as (x3 & Hx3 & Hs3 & Hp3).
    exists x3. split; [exact Hx3|]. split; [congruence|].
    intros Hp. rewrite Hp3; [apply Hp2, Hp|].
    rewrite (settings_parked _ _ Hs2). exact Hp.
  - destruct (steady_log _ _ S1) as (s1 & E1 & F1).
    destruct (steady_log _ _ S2) as (s2 & E2 & F2).
    exists (s1 ++ s2). split; [rewrite E2, E1, app_assoc; reflexivity|].
    apply Forall_app. split; [exact F1|].
    eapply Forall_impl; [exact F2|]. cbv beta. intros e (x2 & Hx2 & Hp & Hr & Hm).
    destruct (steady_lookup_back _ _ _ _ S1 Hx2) as (x & Hx & Hs & _).
    exists x. split; [exact Hx|].
    pose proof (settings_parked _ _ Hs) as Hpk.
    pose proof (f_equal reg Hs) as Hreg. pose proof (f_equal max_millivolts Hs) as Hmax.
    cbn in Hreg, Hmax. repeat split; congruence.
Qed.

Lemma steady_upd_rail (r : nat) (f : dvfs_rail -> dvfs_rail) (w : world) :
  (forall x, rails w !! r = Some x -> parked x = false /\ settings (f x) = settings x) ->
  steady w (upd_rail r f w).
Proof.
  intros Hf. constructor.
  - rewrite rails_upd_rail. apply length_alter.
  - intros i x Hx. destruct (decide (r = i)) as [<-|Hne].
    + exists (f x). split; [apply lookup_upd_rail_eq, Hx|].
      destruct (Hf _ Hx) as (Hp & Hs). split; [exact Hs|]. congruence.
    + exists x. rewrite lookup_upd_rail_ne by exact Hne. auto.
  - exists []. rewrite app_nil_r. auto.
Qed.

Lemma steady_live (w w' : world) (r : nat) (x : dvfs_rail) :
  steady w w' -> rails w !! r = Some x -> parked x = false ->
  exists x', rails w' !! r = Some x' /\ parked x' = false.
Proof.
  intros S Hx Hp. destruct (steady_rails _ _ S _ _ Hx) as (x' & Hx' & Hs & _).
  exists x'. split; [exact Hx'|]. rewrite (settings_parked _ _ Hs). exact Hp.
Qed.

Lemma set_voltage_reg_steady (r : nat) (mvolts : Z) (w w' : world) (ret : Z)
    (x : dvfs_rail) :
  rails w !! r = Some x -> parked x = false ->
  dvfs_rail_set_voltage_reg r mvolts w = Ok (w', ret) -> steady w w'.
Proof.
  intros Hx Hp H. unfold dvfs_rail_set_voltage_reg in H.
  rewrite (get_rail_lookup _ _ _ Hx) in H. cbn [rbind] in H.
  destruct (reg x) as [h|] eqn:Hreg; cbn [of_option rbind] in H; [|discriminate].
  injection H as <- <-. constructor; [reflexivity| |].
  - intros i y Hy. exists y. auto.
  - eexists. split; [reflexivity|]. constructor; [|constructor].
    exists x. cbn. auto.
Qed.

Lemma rail_stats_update_steady (r : nat) (mvolts : Z) (w w' : world) (x : dvfs_rail) :
  rails w !! r = Some x -> parked x = false ->
  rail_stats_update r mvolts w = Ok w' -> steady w w'.
Proof.
  intros Hx Hp H. unfold rail_stats_update in H.
  rewrite (get_rail_lookup _ _ _ Hx) in H. cbn [rbind] in H.
  apply rbind_Ok in H as (st & Hst & H). injection H as <-.
  apply steady_upd_rail. intros y Hy. assert (y = x) by congruence. subst y.
  split; [exact Hp|].
  assert (off st = off (stats x) /\ bin_uv st = bin_uv (stats x)) as (Ho & Hb).
  { unfold dvfs_rail_stats_update in Hst. apply rbind_Ok in Hst as (t & _ & Hst).
    destruct (off (stats x)) eqn:Hoff.
    - injection Hst as <-. cbn. auto.
    - destruct (_ >=? _).
      + apply rbind_Ok in Hst as (i & _ & Hst). injection Hst as <-. cbn. auto.
      + destruct (_ =? _); injection Hst as <-; cbn; auto. }
  unfold settings. cbn. rewrite Ho, Hb. reflexivity.
Qed.

Lemma update_dependents_steady (update : nat -> world -> result (world * Z))
    (ks : list nat) (w w' : world) (ret : Z) :
  upd_steady update -> update_dependents update ks w = Ok (w', ret) -> steady w w'.
Proof.
  intros Hu. revert w. induction ks as [|k ks IH]; intros w H; cbn [update_dependents] in H.
  - injection H as <- <-. apply steady_refl.
  - apply rbind_Ok in H as (rel & _ & H). apply rbind_Ok in H as ([w1 ret1] & Hrun & H).
    pose proof (Hu _ _ _ _ Hrun) as S1. destruct (ret1 =? 0).
    + eapply steady_trans; [exact S1|]. apply IH, H.
    + injection H as <- <-. exact S1.
Qed.

Lemma set_voltage_steps_steady (update : nat -> world -> result (world * Z)) (r : nat)
    (mvolts stp offset : Z) (jmp : bool) (n : nat) :
  upd_steady update ->
  forall (w w' : world) (ret : Z) (x : dvfs_rail),
    rails w !! r = Some x -> parked x = false ->
    set_voltage_steps update r mvolts stp offset jmp n w = Ok (w', ret) -> steady w w'.
Proof.
  intros Hu. induction n as [|n IH]; intros w w' ret x Hx Hp H; cbn [set_voltage_steps] in H.
  { injection H as <- <-. apply steady_refl. }
  rewrite (get_rail_lookup _ _ _ Hx) in H. cbn [rbind] in H.
  set (new := if negb jmp && _ then _ else _) in H.
  set (w1 := upd_rail r (set_new_millivolts new) w) in H.
  assert (S1 : steady w w1).
  { apply steady_upd_rail. intros y Hy. assert (y = x) by congruence. subst y. auto. }
  apply rbind_Ok in H as ([w2 ret2] & H2 & H).
  assert (S2 : steady w w2).
  { eapply steady_trans; [exact S1|]. eapply update_dependents_steady; eauto. }
  destruct (negb (ret2 =? 0)); [injection H as <- <-; exact S2|].
  destruct (steady_live _ _ _ _ S2 Hx Hp) as (x2 & Hx2 & Hp2).
  rewrite (get_rail_lookup _ _ _ Hx2) in H. cbn [rbind] in H.
  apply rbind_Ok in H as ([w3 ret3] & H3 & H).
  assert (S3 : steady w w3).
  { eapply steady_trans; [exact S2|]. eapply set_voltage_reg_steady; eauto. }
  destruct (negb (ret3 =? 0)); [injection H as <- <-; exact S3|].
  destruct (steady_live _ _ _ _ S3 Hx Hp) as (x3 & Hx3 & Hp3).
  set (w4 := upd_rail r (fun y => set_millivolts (new_millivolts y) y) w3) in H.
  assert (S4 : steady w w4).
  { eapply steady_trans; [exact S3|]. apply steady_upd_rail.
    intros y Hy. assert (y = x3) by congruence. subst y. auto. }
  destruct (steady_live _ _ _ _ S4 Hx Hp) as (x4 & Hx4 & Hp4).
  rewrite (get_rail_lookup _ _ _ Hx4) in H. cbn [rbind] in H.
  apply rbind_Ok in H as (w5 & H5 & H).
  assert (S5 : steady w w5).
  { eapply steady_trans; [exact S4|]. eapply rail_stats_update_steady; eauto. }
  apply rbind_Ok in H as ([w6 ret6] & H6 & H).
  assert (S6 : steady w w6).
  { eapply steady_trans; [exact S5|]. eapply update_dependents_steady; eauto. }
  destruct (negb (ret6 =? 0)); [injection H as <- <-; exact S6|].
  destruct (steady_live _ _ _ _ S6 Hx Hp) as (x6 & Hx6 & Hp6).
  eapply steady_trans; [exact S6|]. eapply IH; eauto.
Qed.

Lemma set_voltage_body_steady (update : nat -> world -> result (world * Z)) (r : nat)
    (mvolts : Z) (w w' : world) (ret : Z) (x : dvfs_rail) :
  upd_steady update -> rails w !! r = Some x -> parked x = false ->
  dvfs_rail_set_voltage_body update r mvolts w = Ok (w', ret) -> steady w w'.
Proof.
  intros Hu Hx Hp H. unfold dvfs_rail_set_voltage_body in H.
  rewrite (get_rail_lookup _ _ _ Hx) in H. cbn [rbind] in H.
  destruct (reg x) as [h|] eqn:Hreg.
  2:{ destruct (_ =? _); injection H as <- <-; apply steady_refl. }
  destruct (dfll_mode x).
  { apply rbind_Ok in H as (w2 & H2 & H). injection H as <- <-.
    set (w1 := upd_rail r _ w) in H2.
    assert (S1 : steady w w1).
    { apply steady_upd_rail. intros y Hy. assert (y = x) by congruence. subst y. auto. }
    destruct (steady_live _ _ _ _ S1 Hx Hp) as (x1 & Hx1 & Hp1).
    eapply steady_trans; [exact S1|]. eapply rail_stats_update_steady; eauto. }
  destruct (disabled x); [injection H as <- <-; apply steady_refl|].
  set (w1 := upd_rail r (set_resolving_to true) w) in H.
  assert (S1 : steady w w1).
  { apply steady_upd_rail. intros y Hy. assert (y = x) by congruence. subst y. auto. }
  destruct (steady_live _ _ _ _ S1 Hx Hp) as (x1 & Hx1 & Hp1).
  apply rbind_Ok in H as (steps & _ & H).
  apply rbind_Ok in H as ([w2 ret2] & H2 & H).
  assert (S2 : steady w w2).
  { eapply steady_trans; [exact S1|]. eapply set_voltage_steps_steady; eauto. }
  destruct (steady_live _ _ _ _ S2 Hx Hp) as (x2 & Hx2 & Hp2).
  rewrite (get_rail_lookup _ _ _ Hx2) in H. cbn [rbind] in H.
  injection H as <- _. eapply steady_trans; [exact S2|].
  apply steady_upd_rail. intros y Hy. assert (y = x2) by congruence. subst y. auto.
Qed.

Lemma solve_relationships_from_steady (r : nat) (ks : list nat) :
  forall (w w' : world) (x : dvfs_rail),
    rails w !! r = Some x -> parked x = false ->
    solve_relationships_from r ks w = Ok w' -> steady w w'.
Proof.
  induction ks as [|k ks IH]; intros w w' x Hx Hp H; cbn [solve_relationships_from] in H.
  { injection H as <-. apply steady_refl. }
  apply rbind_Ok in H as (rel & _ & H). apply rbind_Ok in H as (v & _ & H).
  set (w1 := upd_rail r (set_new_millivolts v) w) in H.
  assert (S1 : steady w w1).
  { apply steady_upd_rail. intros y Hy. assert (y = x) by congruence. subst y. auto. }
  destruct (steady_live _ _ _ _ S1 Hx Hp) as (x1 & Hx1 & Hp1).
  eapply steady_trans; [exact S1|]. eapply IH; eauto.
Qed.

Lemma update_retry_steady (sv : nat -> Z -> world -> result (world * Z)) (r : nat)
    (mvolts : Z) :
  (forall m w w' ret x, rails w !! r = Some x -> parked x = false ->
     sv r m w = Ok (w', ret) -> steady w w') ->
  forall (n : nat) (ret0 : Z) (w w' : world) (out : Z * nat) (x : dvfs_rail),
    rails w !! r = Some x -> parked x = false ->
    dvfs_rail_update_retry sv r mvolts n ret0 w = Ok (w', out) -> steady w w'.
Proof.
  intros Hsv. induction n as [|n IH]; intros ret0 w w' out x Hx Hp H;
    cbn [dvfs_rail_update_retry] in H.
  { injection H as <- _. apply steady_refl. }
  set (w1 := upd_rail r (set_new_millivolts mvolts) w) in H.
  assert (S1 : steady w w1).
  { apply steady_upd_rail. intros y Hy. assert (y = x) by congruence. subst y. auto. }
  destruct (steady_live _ _ _ _ S1 Hx Hp) as (x1 & Hx1 & Hp1).
  rewrite (get_rail_lookup _ _ _ Hx1) in H. cbn [rbind] in H.
  apply rbind_Ok in H as (w2 & H2 & H).
  assert (S2 : steady w w2).
  { eapply steady_trans; [exact S1|]. eapply solve_relationships_from_steady; eauto. }
  destruct (steady_live _ _ _ _ S2 Hx Hp) as (x2 & Hx2 & Hp2).
  rewrite (get_rail_lookup _ _ _ Hx2) in H. cbn [rbind] in H.
  destruct (_ =? _); [injection H as <- _; exact S2|].
  apply rbind_Ok in H as ([w3 ret3] & H3 & H).
  assert (S3 : steady w w3).
  { eapply steady_trans; [exact S2|]. eapply Hsv; eauto. }
  destruct (steady_live _ _ _ _ S3 Hx Hp) as (x3 & Hx3 & Hp3).
  apply rbind_Ok in H as ([w4 [ret4 passes]] & H4 & H). injection H as <- _.
  eapply steady_trans; [exact S3|]. eapply IH; eauto.
Qed.

Lemma update_body_steady (sv : nat -> Z -> world -> result (world * Z)) (r : nat)
    (w w' : world) (out : Z * nat) :
  (forall m w w' ret x, rails w !! r = Some x -> parked x = false ->
     sv r m w = Ok (w', ret) -> steady w w') ->
  dvfs_rail_update_body sv r w = Ok (w', out) -> steady w w'.
Proof.
  intros Hsv H. unfold dvfs_rail_update_body in H.
  apply rbind_Ok in H as (x & Hx%get_rail_Ok & H).
  destruct (disabled x) eqn:Hd; [injection H as <- _; apply steady_refl|].
  destruct (suspended x) eqn:Hs; [injection H as <- _; apply steady_refl|].
  destruct (has_reg x) eqn:Hr; cbn [negb] in H; [|injection H as <- _; apply steady_refl].
  destruct (resolving_to x); [injection H as <- _; apply steady_refl|].
  apply rbind_Ok in H as (demand & _ & H).
  destruct demand as [mvolts|]; [|injection H as <- _; apply steady_refl].
  apply rbind_Ok in H as (steps & _ & H).
  eapply update_retry_steady; eauto.
  unfold parked. rewrite Hd, Hs, Hr. reflexivity.
Qed.

Lemma update_steady (fuel : nat) : upd_steady (dvfs_rail_update fuel).
Proof.
  induction fuel as [|fuel IH]; intros r w w' ret H; [discriminate|].
  rewrite update_unfold in H. apply rbind_Ok in H as ([w1 [ret1 passes]] & Hb & H).
  injection H as <- _. eapply update_body_steady; [|exact Hb].
  intros m v v' ret' x Hx Hp Hsv. eapply set_voltage_body_steady; eauto.
Qed.

(** X1: a [dvfs_rail_update] that returns has changed, in any rail, nothing
    but the voltage, the requested voltage and the counters of the
    statistics: the settings of every rail and every recursion guard are as
    before.  A rail that is disabled, suspended or without a regulator is
    not changed at all, clocks and relationships are not changed, and every
    regulator write was made for a rail that is not parked, on that rail's
    own regulator, with the rail's maximum as the upper bound. *)
Theorem resolve_keeps_settings (fuel r : nat) (w w' : world) (ret : Z) :
  dvfs_rail_update fuel r w = Ok (w', ret) ->
  steady w w' /\ clocks w' = clocks w /\ rels w' = rels w /\
  forall i x, rails w !! i = Some x ->
    exists x', rails w' !! i = Some x' /\ resolving_to x' = resolving_to x.
Proof.
  intros Hrun. split; [eapply update_steady, Hrun|].
  pose proof (update_partial fuel (free w) r w (le_n _)) as F.
  rewrite Hrun in F. cbn in F.
  split; [apply (frame_clocks _ _ _ F)|]. split; [apply (frame_rels _ _ _ F)|].
  intros i x Hx. destruct (frame_rails _ _ _ F _ _ Hx) as (x' & Hx' & (_ & _ & K) & _).
  exists x'. auto.
Qed.

Lemma resolve_keeps_settings_witness :
  let w' := world_after w_parked (dvfs_rail_update 3 0 w_parked) in
  steady w_parked w' /\ clocks w' = clocks w_parked /\ rels w' = rels w_parked /\
  forall i x, rails w_parked !! i = Some x ->
    exists x', rails w' !! i = Some x' /\ resolving_to x' = resolving_to x.
Proof.
  intros w'. apply (resolve_keeps_settings 3 0 w_parked w' 0).
  vm_compute. reflexivity.
Defined.

(** * More on ramps *)

(** The stepping path of [dvfs_rail_set_voltage]: the rail keeps its flags,
    and a return of 0 means that it stands at the voltage asked for. *)
Lemma set_voltage_stepping_result
    (fuel r : nat) (mvolts : Z) (w w' : world) (ret : Z) (x : dvfs_rail) (h : nat) :
  rails w !! r = Some x -> reg x = Some h -> dfll_mode x = false -> disabled x = false ->
  dvfs_rail_set_voltage fuel r mvolts w = Ok (w', ret) ->
  exists x', rails w' !! r = Some x' /\ disabled x' = false /\
             suspended x' = suspended x /\ (ret = 0 -> millivolts x' = mvolts).
Proof.
  intros Hx Hreg Hdfll Hdis Hrun. unfold dvfs_rail_set_voltage in Hrun.
  pose proof (set_voltage_body_stepping true _ _ r mvolts w x h
                (update_partial fuel _) Hx Hreg Hdfll Hdis (le_n _)) as Hpost.
  rewrite Hrun in Hpost. cbn in Hpost.
  destruct Hpost as (w2 & ret0 & x2 & (F & _) & Hx2 & -> & Hret).
  destruct (frame_rails _ _ _ F r _ (lookup_upd_rail_eq _ _ _ _ Hx))
    as (y & Hy & (Ks & Kd & _) & _).
  assert (y = x2) by congruence. subst y. cbn in Ks, Kd.
  exists (set_resolving_to false x2). split; [apply lookup_upd_rail_eq, Hx2|].
  split; [cbn; congruence|]. split; [exact Ks|]. cbn. intros ->.
  destruct (Z.eqb_spec ret0 0) as [->|Hne]; cbn in Hret; [|congruence].
  destruct (Z.eqb_spec (millivolts x2) mvolts) as [E|_]; [exact E|].
  cbn in Hret. unfold EINVAL in Hret. discriminate.
Qed.

(** X2: when [dvfs_rail_set_voltage] returns 0 the rail stands at the
    voltage asked for, except on a disabled rail with a regulator outside
    DFLL mode, where it returns 0 without doing anything. *)
Theorem ramp_success_reaches_target
    (fuel r : nat) (mvolts : Z) (w w' : world) (x : dvfs_rail) :
  rails w !! r = Some x ->
  disabled x && negb (dfll_mode x) && has_reg x = false ->
  dvfs_rail_set_voltage fuel r mvolts w = Ok (w', 0) ->
  exists x', rails w' !! r = Some x' /\ millivolts x' = mvolts.
Proof.
  intros Hx Hmode Hrun. unfold dvfs_rail_set_voltage in Hrun.
  destruct (reg x) as [h|] eqn:Hreg.
  2:{ unfold dvfs_rail_set_voltage_body in Hrun.
      rewrite (get_rail_lookup _ _ _ Hx) in Hrun. cbn [rbind] in Hrun. rewrite Hreg in Hrun.
      destruct (Z.eqb_spec mvolts (millivolts x)) as [->|_]; [|discriminate].
      injection Hrun as <-. eauto. }
  destruct (dfll_mode x) eqn:Hdfll.
  { unfold dvfs_rail_set_voltage_body in Hrun.
    rewrite (get_rail_lookup _ _ _ Hx) in Hrun. cbn [rbind] in Hrun.
    rewrite Hreg, Hdfll in Hrun.
    apply rbind_Ok in Hrun as (w2 & H2 & Hrun). injection Hrun as <-.
    unfold rail_stats_update in H2.
    rewrite (get_rail_lookup _ _ _ (lookup_upd_rail_eq _ _ _ _ Hx)) in H2.
    cbn [rbind] in H2. apply rbind_Ok in H2 as (st & _ & H2). injection H2 as <-.
    eexists. split; [apply lookup_upd_rail_eq, lookup_upd_rail_eq, Hx|]. reflexivity. }
  assert (Hdis : disabled x = false).
  { unfold has_reg in Hmode. rewrite Hreg in Hmode. destruct (disabled x); [discriminate|].
    reflexivity. }
  destruct (set_voltage_stepping_result _ _ _ _ _ _ _ _ Hx Hreg Hdfll Hdis Hrun)
    as (x' & Hx' & _ & _ & Hreached).
  exists x'. split; [exact Hx'|]. apply Hreached. reflexivity.
Qed.

Lemma ramp_success_reaches_target_witness :
  let w' := world_after w_ramp (dvfs_rail_set_voltage 0 0 1000 w_ramp) in
  exists x', rails w' !! 0%nat = Some x' /\ millivolts x' = 1000.
Proof.
  intros w'.
  apply (ramp_success_reaches_target 0 0 1000 w_ramp w'
           (ex_rail "vdd-core" (Some 7%nat) 800 false false None 0 0 [] [] []));
    [reflexivity | reflexivity | vm_compute; reflexivity].
Defined.

(** ** Rails under DFLL control *)

Lemma quiet_refl (r : nat) (w : world) : quiet r w w.
Proof. repeat split. intros x Hx. exists x. auto. Qed.

Lemma quiet_trans (r : nat) (w1 w2 w3 : world) :
  quiet r w1 w2 -> quiet r w2 w3 -> quiet r w1 w3.
Proof.
  intros (L1 & C1 & O1 & R1) (L2 & C2 & O2 & R2). split; [congruence|].
  split; [congruence|]. split.
  - intros i Hi. rewrite O2, O1 by exact Hi. reflexivity.
  - intros x Hx. destruct (R1 _ Hx) as (x2 & Hx2 & Hd2 & Hr2).
    destruct (R2 _ Hx2) as (x3 & Hx3 & Hd3 & Hr3). exists x3. repeat split; congruence.
Qed.

Lemma quiet_upd_rail (r : nat) (f : dvfs_rail -> dvfs_rail) (w : world) :
  (forall x, dfll_mode (f x) = dfll_mode x /\ reg (f x) = reg x) ->
  quiet r w (upd_rail r f w).
Proof.
  intros Hf. split; [reflexivity|]. split; [reflexivity|]. split.
  - intros i Hi. apply lookup_upd_rail_ne. congruence.
  - intros x Hx. exists (f x). split; [apply lookup_upd_rail_eq, Hx|]. apply Hf.
Qed.

Lemma rail_stats_update_quiet (r : nat) (mvolts : Z) (w w' : world) :
  rail_stats_update r mvolts w = Ok w' -> quiet r w w'.
Proof.
  intros H. unfold rail_stats_update in H. apply rbind_Ok in H as (x & _ & H).
  apply rbind_Ok in H as (st & _ & H). injection H as <-.
  apply quiet_upd_rail. intros y. auto.
Qed.

Lemma solve_relationships_from_quiet (r : nat) (ks : list nat) (w w' : world) :
  solve_relationships_from r ks w = Ok w' -> quiet r w w'.
Proof.
  revert w. induction ks as [|k ks IH]; intros w H; cbn [solve_relationships_from] in H.
  { injection H as <-. apply quiet_refl. }
  apply rbind_Ok in H as (rel & _ & H). apply rbind_Ok in H as (v & _ & H).
  eapply quiet_trans; [|apply IH, H]. apply quiet_upd_rail. intros y. auto.
Qed.

(** On a rail in DFLL mode with a regulator the ramp is one assignment. *)
Lemma set_voltage_body_quiet (update : nat -> world -> result (world * Z)) (r : nat)
    (mvolts : Z) (w w' : world) (ret : Z) (x : dvfs_rail) :
  rails w !! r = Some x -> dfll_mode x = true -> has_reg x = true ->
  dvfs_rail_set_voltage_body update r mvolts w = Ok (w', ret) ->
  ret = 0 /\ quiet r w w'.
Proof.
  intros Hx Hdfll Hreg H. unfold dvfs_rail_set_voltage_body in H.
  rewrite (get_rail_lookup _ _ _ Hx) in H. cbn [rbind] in H.
  unfold has_reg in Hreg. destruct (reg x) as [h|]; [|discriminate].
  rewrite Hdfll in H. apply rbind_Ok in H as (w2 & H2 & H). injection H as <- <-.
  split; [reflexivity|]. eapply quiet_trans; [|eapply rail_stats_update_quiet, H2].
  apply quiet_upd_rail. intros y. auto.
Qed.

Lemma quiet_rail (r : nat) (w w' : world) (x : dvfs_rail) :
  quiet r w w' -> rails w !! r = Some x -> dfll_mode x = true -> has_reg x = true ->
  exists x', rails w' !! r = Some x' /\ dfll_mode x' = true /\ has_reg x' = true.
Proof.
  intros (_ & _ & _ & R) Hx Hd Hr. destruct (R _ Hx) as (x' & Hx' & Hd' & Hr').
  exists x'. split; [exact Hx'|]. split; [congruence|].
  unfold has_reg in *. rewrite Hr'. exact Hr.
Qed.

Lemma update_retry_quiet (update : nat -> world -> result (world * Z)) (r : nat)
    (mvolts : Z) :
  forall (n : nat) (w w' : world) (out : Z * nat) (x : dvfs_rail),
    rails w !! r = Some x -> dfll_mode x = true -> has_reg x = true ->
    dvfs_rail_update_retry (dvfs_rail_set_voltage_body update) r mvolts n 0 w
    = Ok (w', out) ->
    fst out = 0 /\ quiet r w w'.
Proof.
  induction n as [|n IH]; intros w w' out x Hx Hdfll Hreg H;
    cbn [dvfs_rail_update_retry] in H.
  { injection H as <- <-. split; [reflexivity|apply quiet_refl]. }
  set (w1 := upd_rail r (set_new_millivolts mvolts) w) in H.
  assert (Q1 : quiet r w w1) by (apply quiet_upd_rail; intros y; auto).
  apply rbind_Ok in H as (x1 & Hx1 & H). apply rbind_Ok in H as (w2 & H2 & H).
  assert (Q2 : quiet r w w2).
  { eapply quiet_trans; [exact Q1|]. eapply solve_relationships_from_quiet, H2. }
  destruct (quiet_rail _ _ _ _ Q2 Hx Hdfll Hreg) as (x2 & Hx2 & Hd2 & Hr2).
  rewrite (get_rail_lookup _ _ _ Hx2) in H. cbn [rbind] in H.
  destruct (_ =? _).
  { injection H as <- <-. split; [reflexivity|exact Q2]. }
  apply rbind_Ok in H as ([w3 ret3] & H3 & H).
  destruct (set_voltage_body_quiet _ _ _ _ _ _ _ Hx2 Hd2 Hr2 H3) as (-> & Q3).
  destruct (quiet_rail _ _ _ _ Q3 Hx2 Hd2 Hr2) as (x3 & Hx3 & Hd3 & Hr3).
  apply rbind_Ok in H as ([w4 [ret4 passes]] & H4 & H). injection H as <- <-.
  destruct (IH _ _ _ _ Hx3 Hd3 Hr3 H4) as (E & Q4).
  split; [exact E|].
  eapply quiet_trans; [exact Q2|]. eapply quiet_trans; [exact Q3|exact Q4].
Qed.

Lemma update_quiet (fuel r : nat) (w w' : world) (ret : Z) (x : dvfs_rail) :
  rails w !! r = Some x -> dfll_mode x = true ->
  dvfs_rail_update fuel r w = Ok (w', ret) ->
  ret = 0 /\ quiet r w w'.
Proof.
  intros Hx Hdfll H. destruct fuel as [|fuel]; [discriminate|].
  rewrite update_unfold in H. apply rbind_Ok in H as ([w1 [ret1 passes]] & Hb & H).
  injection H as <- <-. unfold dvfs_rail_update_body in Hb.
  rewrite (get_rail_lookup _ _ _ Hx) in Hb. cbn [rbind] in Hb.
  destruct (disabled x); [injection Hb as <- <- _; split; [reflexivity|apply quiet_refl]|].
  destruct (suspended x); [injection Hb as <- <- _; split; [reflexivity|apply quiet_refl]|].
  destruct (has_reg x) eqn:Hreg; cbn [negb] in Hb;
    [|injection Hb as <- <- _; split; [reflexivity|apply quiet_refl]].
  destruct (resolving_to x);
    [injection Hb as <- <- _; split; [reflexivity|apply quiet_refl]|].
  apply rbind_Ok in Hb as (demand & _ & Hb).
  destruct demand as [mvolts|];
    [|injection Hb as <- <- _; split; [reflexivity|apply quiet_refl]].
  apply rbind_Ok in Hb as (steps & _ & Hb).
  apply (update_retry_quiet _ _ _ _ _ _ _ _ Hx Hdfll Hreg Hb).
Qed.

(** X3: resolving a rail that is in DFLL mode returns 0, makes no regulator
    write and changes no other rail and no clock: the rails that depend on it
    are not resolved again. *)
Theorem dfll_rail_resolve_writes_nothing
    (fuel r : nat) (w w' : world) (ret : Z) (x : dvfs_rail) :
  rails w !! r = Some x -> dfll_mode x = true ->
  dvfs_rail_update fuel r w = Ok (w', ret) ->
  ret = 0 /\ reg_log w' = reg_log w /\ clocks w' = clocks w /\
  forall i, i <> r -> rails w' !! i = rails w !! i.
Proof.
  intros Hx Hdfll Hrun.
  destruct (update_quiet _ _ _ _ _ _ Hx Hdfll Hrun) as (E & L & C & O & _). auto.
Qed.

Lemma dfll_rail_resolve_writes_nothing_witness :
  let w' := world_after w_dfll_clock (dvfs_rail_update 1 0 w_dfll_clock) in
  0 = 0 /\ reg_log w' = reg_log w_dfll_clock /\ clocks w' = clocks w_dfll_clock /\
  forall i, i <> 0%nat -> rails w' !! i = rails w_dfll_clock !! i.
Proof.
  intros w'.
  apply (dfll_rail_resolve_writes_nothing 1 0 w_dfll_clock w' 0
           (ex_rail "vdd-cpu" (Some 0%nat) 800 true false None 0 0 [0%nat] [] [0%nat]));
    [reflexivity | reflexivity | vm_compute; reflexivity].
Defined.

(** * Clock look-up and tables *)

Lemma find_dvfs_Some (w : world) (c : option nat) (ds : list nat) (d : nat) :
  find_dvfs w c ds = Ok (Some d) ->
  In d ds /\ exists x, clocks w !! d = Some x /\ clk x = c.
Proof.
  induction ds as [|d0 ds IH]; cbn [find_dvfs]; intros H; [discriminate|].
  apply rbind_Ok in H as (x & Hx%of_option_Ok & H). unfold clk_is_match in H.
  destruct (bool_decide_reflect (c = clk x)) as [E|_].
  - injection H as <-. split; [left; reflexivity|]. eauto.
  - destruct (IH H) as (Hin & Hd). split; [right; exact Hin|exact Hd].
Qed.

Lemma find_dvfs_None (w : world) (c : option nat) (ds : list nat) :
  find_dvfs w c ds = Ok None ->
  Forall (fun d => exists x, clocks w !! d = Some x /\ clk x <> c) ds.
Proof.
  induction ds as [|d0 ds IH]; cbn [find_dvfs]; intros H; [constructor|].
  apply rbind_Ok in H as (x & Hx%of_option_Ok & H). unfold clk_is_match in H.
  destruct (bool_decide_reflect (c = clk x)) as [E|Hne]; [discriminate|].
  constructor; [|apply IH, H]. exists x. split; [exact Hx|congruence].
Qed.

Lemma find_dvfs_in_rails_Some (w : world) (c : option nat) (rs : list dvfs_rail) (d : nat) :
  find_dvfs_in_rails w c rs = Ok (Some d) ->
  exists rail, In rail rs /\ In d (dvfs_list rail) /\
    exists x, clocks w !! d = Some x /\ clk x = c.
Proof.
  induction rs as [|rail rs IH]; cbn [find_dvfs_in_rails]; intros H; [discriminate|].
  apply rbind_Ok in H as (o & Ho & H). destruct o as [d0|].
  - injection H as <-. destruct (find_dvfs_Some _ _ _ _ Ho) as (Hin & Hd).
    exists rail. split; [left; reflexivity|]. auto.
  - destruct (IH H) as (rail' & Hin & Hd). exists rail'. split; [right; exact Hin|exact Hd].
Qed.

Lemma find_dvfs_in_rails_None (w : world) (c : option nat) (rs : list dvfs_rail) :
  find_dvfs_in_rails w c rs = Ok None ->
  Forall (fun rail =>
            Forall (fun d => exists x, clocks w !! d = Some x /\ clk x <> c)
                   (dvfs_list rail)) rs.
Proof.
  induction rs as [|rail rs IH]; cbn [find_dvfs_in_rails]; intros H; [constructor|].
  apply rbind_Ok in H as (o & Ho & H). destruct o as [d0|]; [discriminate|].
  constructor; [apply find_dvfs_None, Ho|apply IH, H].
Qed.

(** The look-up reads the [clk] fields of the clocks and the clock lists of
    the rails, and nothing else. *)
Lemma find_dvfs_ext (w w' : world) (c : option nat) (ds : list nat) :
  (forall d, clk <$> clocks w' !! d = clk <$> clocks w !! d) ->
  find_dvfs w' c ds = find_dvfs w c ds.
Proof.
  intros Hclk. induction ds as [|d ds IH]; cbn [find_dvfs]; [reflexivity|].
  unfold get_dvfs. specialize (Hclk d).
  destruct (clocks w' !! d) as [x'|], (clocks w !! d) as [x|]; cbn in Hclk;
    try discriminate; cbn [of_option rbind]; [|reflexivity].
  injection Hclk as ->. rewrite IH. reflexivity.
Qed.

Lemma find_dvfs_in_rails_ext (w w' : world) (c : option nat) (rs rs' : list dvfs_rail) :
  (forall d, clk <$> clocks w' !! d = clk <$> clocks w !! d) ->
  Forall2 (fun a b => dvfs_list b = dvfs_list a) rs rs' ->
  find_dvfs_in_rails w' c rs' = find_dvfs_in_rails w c rs.
Proof.
  intros Hclk HF. induction HF as [|a b rs rs' Hab HF IH]; cbn [find_dvfs_in_rails];
    [reflexivity|].
  rewrite Hab, (find_dvfs_ext _ _ _ _ Hclk), IH. reflexivity.
Qed.

Lemma clk_to_dvfs_steady (w w' : world) (c : option nat) :
  steady w w' -> (forall d, clk <$> clocks w' !! d = clk <$> clocks w !! d) ->
  tegra_clk_to_dvfs w' c = tegra_clk_to_dvfs w c.
Proof.
  intros S Hclk. apply find_dvfs_in_rails_ext; [exact Hclk|].
  apply Forall2_same_length_lookup_2; [symmetry; apply (steady_length _ _ S)|].
  intros i a b Ha Hb. destruct (steady_rails _ _ S _ _ Ha) as (b' & Hb' & Hs & _).
  assert (b' = b) by congruence. subst b'.
  apply (f_equal dvfs_list) in Hs. exact Hs.
Qed.

Lemma clk_upd_dvfs (d : nat) (f : dvfs -> dvfs) (w : world) :
  (forall y, clk (f y) = clk y) ->
  forall d', clk <$> clocks (upd_dvfs d f w) !! d' = clk <$> clocks w !! d'.
Proof.
  intros Hf d'. unfold upd_dvfs. cbn. destruct (decide (d = d')) as [<-|Hne].
  - rewrite list_lookup_alter_eq. destruct (clocks w !! d); cbn; [|reflexivity].
    rewrite Hf. reflexivity.
  - rewrite list_lookup_alter_ne by exact Hne. reflexivity.
Qed.

(** What [__tegra_dvfs_set_rate] does: it returns an error and leaves the
    world alone, or records rate and demand and resolves the rail. *)
Lemma set_rate_outcome (fuel d : nat) (rate : Z) (w w' : world) (ret : Z) (x : dvfs) :
  clocks w !! d = Some x ->
  __tegra_dvfs_set_rate fuel d rate w = Ok (w', ret) ->
  (w' = w /\ (ret = - ENODEV \/ ret = - EINVAL)) \/
  exists m,
    dvfs_rail_update fuel (d_dvfs_rail x)
      (upd_dvfs d
         (fun y => set_cur_rate
                     (if tegra_dvfs_is_dfll_range_entry (hdr w) (rails w) x rate
                      then use_dfll_rate_min x else rate)
                     (set_cur_millivolts m y)) w)
    = Ok (w', ret).
Proof.
  intros Hx H. unfold __tegra_dvfs_set_rate, get_dvfs in H. rewrite Hx in H.
  cbn [of_option rbind] in H.
  destruct (dvfs_get_freqs x) as [fr|]; [|injection H as <- <-; left; auto].
  destruct (dvfs_get_millivolts w x rate) as [mvs|]; [|injection H as <- <-; left; auto].
  apply rbind_Ok in H as (top & _ & H).
  destruct (_ >? top); [injection H as <- <-; left; auto|].
  apply rbind_Ok in H as (volt & _ & H).
  destruct volt as [m|]; [|injection H as <- <-; left; auto].
  right. exists m. exact H.
Qed.

(** Before the driver has started the clock entry points pass through:
    nothing is recorded, no rate is known, and a rate is not rounded. *)
Lemma before_start_pass_through (fuel : nat) (c : option nat) (rate : Z) (w : world) :
  core_dvfs_started w = false ->
  tegra_dvfs_set_rate fuel c rate w = Ok (w, 0) /\
  tegra_dvfs_get_rate w c = Ok 0 /\
  tegra_dvfs_round_rate w c rate = Ok rate /\
  tegra_dvfs_get_maxrate w c = Ok 0.
Proof.
  intros Hst.
  unfold tegra_dvfs_set_rate, tegra_dvfs_get_rate, tegra_dvfs_round_rate,
    tegra_dvfs_get_maxrate.
  rewrite Hst. repeat split.
Qed.

(** X4: once the driver has started ([core_dvfs_started] set), after
    [tegra_dvfs_set_rate] on a registered clock either the call was rejected
    with [-ENODEV] or [-EINVAL] and nothing changed, or [tegra_dvfs_get_rate]
    returns the rate that was recorded: the rate asked for or, on entry to
    the DFLL range, [use_dfll_rate_min].  This holds whatever the rail update
    returned; no other clock is changed. *)
Theorem set_rate_then_get_rate
    (fuel : nat) (c : option nat) (rate : Z) (w w' : world) (ret : Z) (d : nat) (x : dvfs) :
  core_dvfs_started w = true ->
  tegra_clk_to_dvfs w c = Ok (Some d) ->
  clocks w !! d = Some x ->
  tegra_dvfs_set_rate fuel c rate w = Ok (w', ret) ->
  (w' = w /\ (ret = - ENODEV \/ ret = - EINVAL)) \/
  (tegra_dvfs_get_rate w' c
   = Ok (if tegra_dvfs_is_dfll_range_entry (hdr w) (rails w) x rate
         then use_dfll_rate_min x else rate) /\
   forall d', d' <> d -> clocks w' !! d' = clocks w !! d').
Proof.
  intros Hst Hd Hx H. unfold tegra_dvfs_set_rate in H. rewrite Hst, Hd in H.
  cbn [negb rbind] in H.
  destruct (set_rate_outcome _ _ _ _ _ _ _ Hx H) as [Hl|(m & Hrun)]; [left; exact Hl|].
  right. set (rate' := if tegra_dvfs_is_dfll_range_entry _ _ _ _ then _ else _) in *.
  set (w1 := upd_dvfs d _ w) in Hrun.
  pose proof (update_steady _ _ _ _ _ Hrun) as S.
  pose proof (update_partial fuel (free w1) (d_dvfs_rail x) w1 (le_n _)) as F.
  rewrite Hrun in F. cbn in F.
  assert (Hclk1 : forall d', clk <$> clocks w1 !! d' = clk <$> clocks w !! d')
    by (apply clk_upd_dvfs; reflexivity).
  assert (Hfind : tegra_clk_to_dvfs w' c = Ok (Some d)).
  { rewrite (clk_to_dvfs_steady w1 w' c S).
    - rewrite <- Hd. apply find_dvfs_in_rails_ext; [exact Hclk1|].
      apply Forall2_same_length_lookup_2; [reflexivity|]. intros i a b Ha Hb.
      cbn in Hb. congruence.
    - intros d'. rewrite (frame_clocks _ _ _ F). reflexivity. }
  split.
  - unfold tegra_dvfs_get_rate. rewrite (frame_started _ _ _ F). cbn. rewrite Hst, Hfind.
    cbn [negb rbind]. unfold get_dvfs. rewrite (frame_clocks _ _ _ F). cbn.
    rewrite list_lookup_alter_eq, Hx. reflexivity.
  - intros d' Hne. rewrite (frame_clocks _ _ _ F). cbn.
    apply list_lookup_alter_ne. congruence.
Qed.

Lemma set_rate_then_get_rate_witness :
  let w' := world_after w_range_entry
              (tegra_dvfs_set_rate 2 (Some 0%nat) 1000 w_range_entry) in
  (w' = w_range_entry /\ (0 = - ENODEV \/ 0 = - EINVAL)) \/
  (tegra_dvfs_get_rate w' (Some 0%nat) = Ok 200 /\
   forall d', d' <> 0%nat -> clocks w' !! d' = clocks w_range_entry !! d').
Proof.
  intros w'.
  apply (set_rate_then_get_rate 2 (Some 0%nat) 1000 w_range_entry w' 0 0
           ex_range_dvfs);
    [reflexivity | reflexivity | reflexivity | vm_compute; reflexivity].
Defined.

(** ** Prediction *)

Lemma predict_scan_freq_scan (fr : list Z) (num rate : Z) (n : nat) (i : Z) :
  predict_scan fr num rate n i = freq_scan fr num rate n i.
Proof.
  revert i. induction n as [|n IH]; intros i; cbn [predict_scan freq_scan]; [reflexivity|].
  destruct (i <? num); [|reflexivity].
  destruct (array_get fr i) as [f| |]; cbn [rbind]; try reflexivity.
  rewrite Z.gtb_ltb, Z.ltb_antisym. destruct (rate <=? f); cbn [negb]; [reflexivity|apply IH].
Qed.

Lemma array_get_Ok {A : Type} (a : list A) (i : Z) (v : A) :
  array_get a i = Ok v <-> 0 <= i /\ a !! Z.to_nat i = Some v.
Proof.
  unfold array_get. destruct (Z.ltb_spec i 0).
  - split; [discriminate|lia].
  - rewrite of_option_Ok. split; [auto|tauto].
Qed.

Lemma array_get_lt {A : Type} (a : list A) (i : Z) :
  0 <= i < Z.of_nat (length a) -> exists v, array_get a i = Ok v.
Proof.
  intros H. destruct (lookup_lt_is_Some_2 a (Z.to_nat i)) as [v Hv]; [lia|].
  exists v. apply array_get_Ok. split; [lia|exact Hv].
Qed.

Lemma int_add_small (a b : Z) : INT_MIN <= a + b <= INT_MAX -> int_add a b = a + b.
Proof. apply wrap_int_small. Qed.

Lemma int_sub_small (a b : Z) : INT_MIN <= a - b <= INT_MAX -> int_sub a b = a - b.
Proof. apply wrap_int_small. Qed.

(** Where the scan of [__tegra_dvfs_set_rate] stops when the table covers
    [num] entries: at the first entry that is not below [rate], or at [num]. *)
Lemma freq_scan_spec (fr : list Z) (num rate : Z) :
  num <= INT_MAX -> num <= Z.of_nat (length fr) ->
  forall (n : nat) (i : Z), 0 <= i <= num -> Z.of_nat n = num - i ->
    exists j, freq_scan fr num rate n i = Ok j /\ i <= j <= num /\
      (forall k f, i <= k < j -> fr !! Z.to_nat k = Some f -> f < rate) /\
      (j < num -> exists f, fr !! Z.to_nat j = Some f /\ rate <= f).
Proof.
  intros Hmax Hlen. induction n as [|n IH]; intros i Hi Hn; cbn [freq_scan].
  { exists i. split; [reflexivity|]. split; [lia|]. split; intros; lia. }
  destruct (Z.ltb_spec i num) as [Hlt|]; [|lia].
  destruct (array_get_lt fr i) as [f Hf]; [lia|]. rewrite Hf. cbn [rbind].
  apply array_get_Ok in Hf as (_ & Hf).
  destruct (Z.gtb_spec rate f) as [Hgt|Hle].
  - rewrite int_add_small by (unfold INT_MIN, INT_MAX in *; lia).
    destruct (IH (i + 1)) as (j & Hj & Hij & Hbelow & Hat); [lia|lia|].
    exists j. split; [exact Hj|]. split; [lia|]. split; [|exact Hat].
    intros k g Hk Hg. destruct (decide (k = i)) as [->|Hne].
    + assert (g = f) by congruence. lia.
    + apply (Hbelow k g); [lia|exact Hg].
  - exists i. split; [reflexivity|]. split; [lia|]. split; [intros; lia|].
    intros _. exists f. split; [exact Hf|lia].
Qed.

(** X5: once the driver has started ([core_dvfs_started] set),
    [tegra_dvfs_set_rate] records as the clock's demand the voltage
    [tegra_dvfs_predict_millivolts] predicts for the rate.  For a registered
    clock with a frequency table and a voltage table, a rate that is not 0,
    not above the last table entry and not an entry to the DFLL range, and
    the two header predicates choosing the same voltage table, the call
    rejects the rate when the predicted voltage is above the clock's
    [max_millivolts], and otherwise stores rate and prediction and resolves
    the rail. *)
Theorem set_rate_demand_is_predicted
    (dvfs_is_dfll_range : list dvfs_rail -> dvfs -> Z -> bool)
    (fuel : nat) (c : option nat) (rate : Z) (w : world) (d : nat) (x : dvfs)
    (fr mvs : list Z) (top v : Z) :
  core_dvfs_started w = true ->
  tegra_clk_to_dvfs w c = Ok (Some d) ->
  clocks w !! d = Some x ->
  dvfs_get_freqs x = Some fr ->
  dvfs_get_millivolts w x rate = Some mvs ->
  (if dvfs_is_dfll_range (rails w) x rate then dfll_millivolts x else d_millivolts x)
  = Some mvs ->
  tegra_dvfs_is_dfll_range_entry (hdr w) (rails w) x rate = false ->
  0 < num_freqs x <= INT_MAX ->
  array_get fr (int_sub (num_freqs x) 1) = Ok top ->
  0 < rate <= top ->
  tegra_dvfs_predict_millivolts dvfs_is_dfll_range w c rate = Ok v ->
  tegra_dvfs_set_rate fuel c rate w
  = if negb (d_max_millivolts x =? 0) && (v >? d_max_millivolts x)
    then Ok (w, - EINVAL)
    else dvfs_rail_update fuel (d_dvfs_rail x)
           (upd_dvfs d (fun y => set_cur_rate rate (set_cur_millivolts v y)) w).
Proof.
  intros Hst Hd Hx Hfr Hmv Htbl Hentry Hnum Htop Hrate Hpred.
  rewrite int_sub_small in Htop by (unfold INT_MIN, INT_MAX in *; lia).
  apply array_get_Ok in Htop as (_ & Htop).
  assert (Hlen : num_freqs x <= Z.of_nat (length fr)).
  { apply lookup_lt_Some in Htop. lia. }
  destruct (freq_scan_spec fr (num_freqs x) rate (proj2 Hnum) Hlen
              (Z.to_nat (num_freqs x)) 0) as (j & Hj & Hij & Hbelow & Hat); [lia|lia|].
  assert (Hjlt : j < num_freqs x).
  { destruct (Z.eq_dec j (num_freqs x)) as [->|]; [|lia].
    assert (top < rate) by (apply (Hbelow (num_freqs x - 1)); [lia|exact Htop]). lia. }
  unfold tegra_dvfs_predict_millivolts in Hpred. rewrite Hd in Hpred. cbn [rbind] in Hpred.
  destruct (Z.eqb_spec rate 0); [lia|].
  unfold get_dvfs in Hpred. rewrite Hx in Hpred. cbn [of_option rbind] in Hpred.
  rewrite Htbl in Hpred. unfold predict_millivolts in Hpred. rewrite Hfr in Hpred.
  rewrite predict_scan_freq_scan, Hj in Hpred. cbn [rbind] in Hpred.
  destruct (Z.eqb_spec j (num_freqs x)); [lia|].
  unfold tegra_dvfs_set_rate. rewrite Hst, Hd. cbn [negb rbind].
  unfold __tegra_dvfs_set_rate, get_dvfs. rewrite Hx. cbn [of_option rbind].
  rewrite Hfr, Hmv, Hentry.
  rewrite int_sub_small by (unfold INT_MIN, INT_MAX in *; lia).
  assert (Htop' : array_get fr (num_freqs x - 1) = Ok top)
    by (apply array_get_Ok; split; [lia|exact Htop]).
  rewrite Htop'. cbn [rbind].
  destruct (Z.gtb_spec rate top); [lia|].
  destruct (Z.eqb_spec rate 0); [lia|].
  rewrite Hj. cbn [rbind]. rewrite Hpred. cbn [rbind].
  destruct (negb (d_max_millivolts x =? 0) && (v >? d_max_millivolts x)); reflexivity.
Qed.

Lemma set_rate_demand_is_predicted_witness :
  let x := ex_dvfs 0 0 100 800 [800; 900; 1000] None 0 0 in
  tegra_dvfs_set_rate 2 (Some 0%nat) 200 w_plain_clock
  = if negb (d_max_millivolts x =? 0) && (900 >? d_max_millivolts x)
    then Ok (w_plain_clock, - EINVAL)
    else dvfs_rail_update 2 (d_dvfs_rail x)
           (upd_dvfs 0 (fun y => set_cur_rate 200 (set_cur_millivolts 900 y))
              w_plain_clock).
Proof.
  intros x.
  apply (set_rate_demand_is_predicted (fun _ => ex_dfll_range) 2 (Some 0%nat) 200
           w_plain_clock 0 x [100; 200; 300] [800; 900; 1000] 300 900);
    [reflexivity | reflexivity | reflexivity | reflexivity | reflexivity | reflexivity
    | reflexivity | unfold INT_MAX; simpl; lia | reflexivity | lia | reflexivity].
Defined.

(** ** Rounding *)

Lemma ascending_tail (a : Z) (fr : list Z) (n : nat) :
  ascending (a :: fr) (S n) = true -> ascending fr n = true.
Proof.
  destruct fr as [|b tl]; [destruct n; reflexivity|].
  destruct n as [|m]; [reflexivity|].
  change (ascending (a :: b :: tl) (S (S m)))
    with ((a <=? b) && ascending (b :: tl) (S m)).
  intros H. apply andb_prop in H as (_ & H). exact H.
Qed.

Lemma ascending_head (fr : list Z) :
  forall (n : nat) (a : Z) (j : nat) (b : Z),
    ascending (a :: fr) n = true -> (S j < n)%nat -> fr !! j = Some b -> a <= b.
Proof.
  induction fr as [|c tl IH]; intros n a j b Hasc Hj Hb; [discriminate|].
  destruct n as [|[|m]]; [lia|lia|].
  change (ascending (a :: c :: tl) (S (S m)))
    with ((a <=? c) && ascending (c :: tl) (S m)) in Hasc.
  apply andb_prop in Hasc as (Hac%Z.leb_le & Htl).
  destruct j as [|j]; cbn in Hb.
  - injection Hb as <-. exact Hac.
  - pose proof (IH (S m) c j b Htl ltac:(lia) Hb). lia.
Qed.

Lemma ascending_lookup (fr : list Z) :
  forall (n i j : nat) (a b : Z),
    ascending fr n = true -> (i <= j)%nat -> (j < n)%nat ->
    fr !! i = Some a -> fr !! j = Some b -> a <= b.
Proof.
  induction fr as [|c tl IH]; intros n i j a b Hasc Hij Hj Ha Hb; [discriminate|].
  destruct n as [|n]; [lia|].
  destruct i as [|i]; cbn in Ha.
  - injection Ha as <-. destruct j as [|j]; cbn in Hb.
    + injection Hb as <-. lia.
    + apply (ascending_head tl (S n) c j b Hasc); [lia|exact Hb].
  - destruct j as [|j]; [lia|]. cbn in Hb.
    apply (IH n i j a b); [apply (ascending_tail c), Hasc|lia|lia|exact Ha|exact Hb].
Qed.

(** What the loop of [tegra_dvfs_round_rate] returns: the first entry that is
    not below [rate] or, when there is none, the last one. *)
Lemma round_scan_spec (fr : list Z) (num rate : Z) :
  0 < num <= INT_MAX -> num <= Z.of_nat (length fr) ->
  forall (n : nat) (i : Z), 0 <= i <= num -> Z.of_nat n = num - i ->
    exists f, round_scan fr num rate n i = Ok f /\
      ((exists j, i <= j < num /\ fr !! Z.to_nat j = Some f /\ rate <= f /\
          forall k g, i <= k < j -> fr !! Z.to_nat k = Some g -> g < rate) \/
       ((forall k g, i <= k < num -> fr !! Z.to_nat k = Some g -> g < rate) /\
        fr !! Z.to_nat (num - 1) = Some f)).
Proof.
  intros Hnum Hlen. induction n as [|n IH]; intros i Hi Hn; cbn [round_scan].
  { assert (i = num) by lia. subst i.
    rewrite int_sub_small by (unfold INT_MIN, INT_MAX in *; lia).
    destruct (array_get_lt fr (num - 1)) as [f Hf]; [lia|]. exists f. split; [exact Hf|].
    right. split; [intros; lia|]. apply array_get_Ok in Hf as (_ & Hf). exact Hf. }
  destruct (Z.ltb_spec i num) as [Hlt|]; [|lia].
  destruct (array_get_lt fr i) as [f Hf]; [lia|]. rewrite Hf. cbn [rbind].
  apply array_get_Ok in Hf as (_ & Hf).
  destruct (Z.geb_spec f rate) as [Hge|Hlow].
  - exists f. split; [reflexivity|]. left. exists i. split; [lia|]. split; [exact Hf|].
    split; [lia|]. intros; lia.
  - rewrite int_add_small by (unfold INT_MIN, INT_MAX in *; lia).
    destruct (IH (i + 1)) as (f' & Hrun & Hcase); [lia|lia|].
    exists f'. split; [exact Hrun|].
    assert (Hext : forall hi k g, (forall k g, i + 1 <= k < hi -> fr !! Z.to_nat k = Some g ->
                                     g < rate) ->
                     i <= k < hi -> fr !! Z.to_nat k = Some g -> g < rate).
    { intros hi k g Hrest Hk Hg. destruct (decide (k = i)) as [->|Hne].
      - assert (g = f) by congruence. lia.
      - apply (Hrest k g); [lia|exact Hg]. }
    destruct Hcase as [(j & Hj & Hfj & Hr & Hbelow)|(Hall & Hlast)].
    + left. exists j. split; [lia|]. split; [exact Hfj|]. split; [exact Hr|].
      intros k g. apply (Hext j k g Hbelow).
    + right. split; [|exact Hlast]. intros k g. apply (Hext num k g Hall).
Qed.

(** X6: once the driver has started ([core_dvfs_started] set), on an
    ascending frequency table of a registered clock [tegra_dvfs_round_rate]
    returns the least table entry that is not below the rate, and the last
    entry, which is what [tegra_dvfs_get_maxrate] returns, when the rate is
    above all of them.  A rounded rate is never above the maximum, so it
    passes the range check of [tegra_dvfs_set_rate], and rounding it again
    returns it. *)
Theorem round_rate_is_least_entry
    (w : world) (c : option nat) (rate : Z) (d : nat) (x : dvfs) (fr : list Z) :
  core_dvfs_started w = true ->
  tegra_clk_to_dvfs w c = Ok (Some d) ->
  clocks w !! d = Some x ->
  dvfs_get_freqs x = Some fr ->
  0 < num_freqs x <= INT_MAX ->
  num_freqs x <= Z.of_nat (length fr) ->
  ascending fr (Z.to_nat (num_freqs x)) = true ->
  exists f top,
    tegra_dvfs_round_rate w c rate = Ok f /\
    tegra_dvfs_get_maxrate w c = Ok top /\
    (exists j, (j < Z.to_nat (num_freqs x))%nat /\ fr !! j = Some f) /\
    f <= top /\
    (rate <= top ->
     rate <= f /\
     forall j g, (j < Z.to_nat (num_freqs x))%nat -> fr !! j = Some g -> rate <= g ->
                 f <= g) /\
    (top < rate -> f = top) /\
    tegra_dvfs_round_rate w c f = Ok f.
Proof.
  intros Hst Hd Hx Hfr Hnum Hlen Hasc.
  assert (Hget : tegra_dvfs_get_freqs w c = Ok (0, Some (Some fr, num_freqs x))).
  { unfold tegra_dvfs_get_freqs, get_dvfs. rewrite Hst, Hd. cbn [negb rbind].
    rewrite Hx. cbn [of_option rbind]. rewrite Hfr. reflexivity. }
  assert (Hround : forall q, tegra_dvfs_round_rate w c q
                             = round_scan fr (num_freqs x) q (Z.to_nat (num_freqs x)) 0).
  { intros q. unfold tegra_dvfs_round_rate. rewrite Hst, Hget. reflexivity. }
  destruct (array_get_lt fr (num_freqs x - 1)) as [top Htop]; [lia|].
  assert (Hmax : tegra_dvfs_get_maxrate w c = Ok top).
  { unfold tegra_dvfs_get_maxrate. rewrite Hst, Hget. cbn.
    rewrite int_sub_small by (unfold INT_MIN, INT_MAX in *; lia). exact Htop. }
  apply array_get_Ok in Htop as (_ & Htop).
  set (n := Z.to_nat (num_freqs x)) in *.
  assert (Hsorted : forall i j a b, 0 <= i <= j -> j < num_freqs x ->
            fr !! Z.to_nat i = Some a -> fr !! Z.to_nat j = Some b -> a <= b).
  { intros i j a b Hij Hj. apply (ascending_lookup fr n); [exact Hasc|lia|lia]. }
  assert (Hidem : forall j f, 0 <= j < num_freqs x -> fr !! Z.to_nat j = Some f ->
            round_scan fr (num_freqs x) f n 0 = Ok f).
  { intros j f Hj Hf.
    destruct (round_scan_spec fr (num_freqs x) f Hnum Hlen n 0) as (f2 & Hrun & Hcase);
      [lia|lia|].
    rewrite Hrun. f_equal.
    destruct Hcase as [(j2 & Hj2 & Hf2 & Hge & Hbelow)|(Hall & _)].
    - destruct (Z.lt_ge_cases j j2) as [Hlt|Hge2].
      + pose proof (Hbelow j f ltac:(lia) Hf). lia.
      + pose proof (Hsorted j2 j f2 f ltac:(lia) ltac:(lia) Hf2 Hf). lia.
    - pose proof (Hall j f ltac:(lia) Hf). lia. }
  destruct (round_scan_spec fr (num_freqs x) rate Hnum Hlen n 0) as (f & Hrun & Hcase);
    [lia|lia|].
  exists f, top. rewrite !Hround. split; [exact Hrun|]. split; [exact Hmax|].
  destruct Hcase as [(j & Hj & Hfj & Hge & Hbelow)|(Hall & Hlast)].
  - assert (Hftop : f <= top) by (apply (Hsorted j (num_freqs x - 1)); [lia|lia|auto|auto]).
    split; [exists (Z.to_nat j); split; [lia|exact Hfj]|]. split; [exact Hftop|].
    split; [|split; [lia|apply (Hidem j), Hfj; lia]].
    intros _. split; [exact Hge|]. intros j' g Hj' Hg Hrg.
    destruct (Z.lt_ge_cases (Z.of_nat j') j) as [Hlt|Hge'].
    + pose proof (Hbelow (Z.of_nat j') g ltac:(lia)) as Hb. rewrite Nat2Z.id in Hb.
      specialize (Hb Hg). lia.
    + apply (Hsorted j (Z.of_nat j')); [lia|lia|exact Hfj|]. rewrite Nat2Z.id. exact Hg.
  - assert (f = top) by congruence. subst f.
    pose proof (Hall (num_freqs x - 1) top ltac:(lia) Htop) as Hlow.
    split; [exists (Z.to_nat (num_freqs x - 1)); split; [lia|exact Htop]|].
    split; [lia|]. split; [lia|]. split; [reflexivity|].
    apply (Hidem (num_freqs x - 1)); [lia|exact Htop].
Qed.

Lemma round_rate_is_least_entry_witness :
  exists f top,
    tegra_dvfs_round_rate w_plain_clock (Some 0%nat) 150 = Ok f /\
    tegra_dvfs_get_maxrate w_plain_clock (Some 0%nat) = Ok top /\
    (exists j, (j < 3)%nat /\ [100; 200; 300] !! j = Some f) /\
    f <= top /\
    (150 <= top ->
     150 <= f /\
     forall j g, (j < 3)%nat -> [100; 200; 300] !! j = Some g -> 150 <= g -> f <= g) /\
    (top < 150 -> f = top) /\
    tegra_dvfs_round_rate w_plain_clock (Some 0%nat) f = Ok f.
Proof.
  apply (round_rate_is_least_entry w_plain_clock (Some 0%nat) 150 0
           (ex_dvfs 0 0 100 800 [800; 900; 1000] None 0 0) [100; 200; 300]);
    try reflexivity; unfold INT_MAX; simpl; lia.
Defined.

(** ** Registration of a clock *)

Lemma cleanup_loop_spec (tbl : list Z) (freqs_mult : Z) :
  forall (n : nat) (i : Z) (fr fr' : list Z) (i' : Z),
    0 <= i -> i + Z.of_nat n <= INT_MAX ->
    cleanup_loop (Some tbl) freqs_mult n i fr = Ok (fr', i') ->
    i <= i' <= i + Z.of_nat n /\ length fr' = length fr /\
    (forall k, i <= k < i' -> exists m, tbl !! Z.to_nat k = Some m /\ m <> 0) /\
    (i' < i + Z.of_nat n -> tbl !! Z.to_nat i' = Some 0) /\
    (forall k : nat, Z.of_nat k < i \/ i' <= Z.of_nat k -> fr' !! k = fr !! k) /\
    (forall k, i <= k < i' -> 1 < k -> fr' !! Z.to_nat k = Some 0 ->
               fr' !! Z.to_nat (k - 1) = Some 0).
Proof.
  induction n as [|n IH]; intros i fr fr' i' Hi Hmax H; cbn [cleanup_loop] in H.
  { injection H as <- <-. split; [lia|]. split; [reflexivity|].
    split; [intros; lia|]. split; [lia|]. split; [reflexivity|intros; lia]. }
  cbn [of_option rbind] in H. apply rbind_Ok in H as (m & Hm & H).
  apply array_get_Ok in Hm as (_ & Hm).
  destruct (Z.eqb_spec m 0) as [->|Hm0].
  { injection H as <- <-. split; [lia|]. split; [reflexivity|].
    split; [intros; lia|]. split; [intros _; exact Hm|].
    split; [reflexivity|intros; lia]. }
  apply rbind_Ok in H as (fr1 & H1 & H). apply rbind_Ok in H as (f1 & Hf1 & H).
  apply rbind_Ok in H as (fr2 & H2 & H).
  apply array_get_Ok in Hf1 as (_ & Hf1).
  assert (E1 : length fr1 = length fr /\
               forall k : nat, k <> Z.to_nat i -> fr1 !! k = fr !! k).
  { destruct (negb (freqs_mult =? 0)).
    - apply rbind_Ok in H1 as (f & _ & H1). injection H1 as <-.
      split; [apply length_insert|]. intros k Hk. apply list_lookup_insert_ne. congruence.
    - injection H1 as <-. auto. }
  destruct E1 as (L1 & O1).
  assert (E2 : length fr2 = length fr1 /\
               (forall k : nat, k <> Z.to_nat i -> fr2 !! k = fr1 !! k) /\
               (1 < i -> fr2 !! Z.to_nat i = Some 0 -> fr1 !! Z.to_nat (i - 1) = Some 0)).
  { destruct (Z.eqb_spec f1 0) as [->|Hf0]; cbn [andb] in H2.
    - destruct (Z.gtb_spec i 1) as [Hi1|Hi1].
      + apply rbind_Ok in H2 as (p & Hp & H2). injection H2 as <-.
        rewrite int_sub_small in Hp by (unfold INT_MIN, INT_MAX in *; lia).
        apply array_get_Ok in Hp as (_ & Hp).
        split; [apply length_insert|].
        split; [intros k Hk; apply list_lookup_insert_ne; congruence|].
        intros _ Hz. rewrite list_lookup_insert_eq in Hz
          by (apply lookup_lt_Some in Hf1; exact Hf1).
        congruence.
      + injection H2 as <-. split; [reflexivity|]. split; [reflexivity|]. intros; lia.
    - injection H2 as <-. split; [reflexivity|]. split; [reflexivity|].
      intros _ Hz. congruence. }
  destruct E2 as (L2 & O2 & P2).
  rewrite int_add_small in H by (unfold INT_MIN, INT_MAX in *; lia).
  destruct (IH (i + 1) fr2 fr' i' ltac:(lia) ltac:(lia) H)
    as (Hrange & Hlen & Hnz & Hend & Hout & Hpad).
  split; [lia|]. split; [congruence|]. split.
  { intros k Hk. destruct (decide (k = i)) as [->|Hne]; [eauto|]. apply Hnz. lia. }
  split; [intros; apply Hend; lia|]. split.
  { intros k Hk. rewrite Hout by lia.
    rewrite O2, O1 by lia. reflexivity. }
  intros k Hk Hk1 Hz. destruct (decide (k = i)) as [->|Hne]; [|apply Hpad; [lia|lia|exact Hz]].
  rewrite Hout in Hz by lia. rewrite Hout by lia.
  rewrite O2 by lia. apply P2; assumption.
Qed.

(** Without a multiplier the loop leaves entries 0 and 1 as they are. *)
Lemma cleanup_loop_low (tbl : list Z) :
  forall (n : nat) (i : Z) (fr fr' : list Z) (i' : Z),
    cleanup_loop (Some tbl) 0 n i fr = Ok (fr', i') ->
    forall k : nat, (k <= 1)%nat -> fr' !! k = fr !! k.
Proof.
  induction n as [|n IH]; intros i fr fr' i' H k Hk; cbn [cleanup_loop] in H.
  { injection H as <- _. reflexivity. }
  cbn [of_option rbind] in H. apply rbind_Ok in H as (m & _ & H).
  destruct (m =? 0); [injection H as <- _; reflexivity|].
  change (negb (0 =? 0)) with false in H. cbn [rbind] in H.
  apply rbind_Ok in H as (f1 & _ & H). apply rbind_Ok in H as (fr2 & H2 & H).
  rewrite (IH _ _ _ _ H k Hk).
  destruct ((f1 =? 0) && (i >? 1)) eqn:Hpad; [|injection H2 as <-; reflexivity].
  apply andb_prop in Hpad as (_ & Hi%Z.gtb_lt).
  apply rbind_Ok in H2 as (p & _ & H2). injection H2 as <-.
  apply list_lookup_insert_ne. lia.
Qed.

(** X7: [cleanup_dvfs_table] sets [num_freqs] to the number of leading
    nonzero voltages, at most [MAX_DVFS_FREQS], and touches no frequency at
    or beyond it.  Below it, from entry 2 on, a frequency that is 0 after
    the clean-up follows an entry that is 0: once entry 1 is not 0 no later
    entry is.  Entry 1 itself is never padded. *)
Theorem cleanup_table_counts_and_pads
    (MAX_DVFS_FREQS freqs_mult : Z) (d d' : dvfs) (tbl : list Z) :
  0 < MAX_DVFS_FREQS <= INT_MAX ->
  d_millivolts d = Some tbl ->
  cleanup_dvfs_table MAX_DVFS_FREQS freqs_mult d = Ok d' ->
  0 <= num_freqs d' <= MAX_DVFS_FREQS /\
  (forall k, 0 <= k < num_freqs d' -> exists m, tbl !! Z.to_nat k = Some m /\ m <> 0) /\
  (num_freqs d' < MAX_DVFS_FREQS -> tbl !! Z.to_nat (num_freqs d') = Some 0) /\
  length (freqs d') = length (freqs d) /\
  (forall k : nat, num_freqs d' <= Z.of_nat k -> freqs d' !! k = freqs d !! k) /\
  (freqs_mult = 0 -> freqs d' !! 1%nat = freqs d !! 1%nat) /\
  (freqs d' !! 1%nat <> Some 0 ->
   forall k, 1 <= k < num_freqs d' -> freqs d' !! Z.to_nat k <> Some 0).
Proof.
  intros Hmax Htbl H. unfold cleanup_dvfs_table in H. rewrite Htbl in H.
  apply rbind_Ok in H as ([fr' i'] & Hloop & H). injection H as <-. cbn.
  assert (Hentry1 : freqs_mult = 0 -> fr' !! 1%nat = freqs d !! 1%nat).
  { intros ->. apply (cleanup_loop_low _ _ _ _ _ _ Hloop). lia. }
  assert (Hb : 0 + Z.of_nat (Z.to_nat MAX_DVFS_FREQS) <= INT_MAX) by lia.
  destruct (cleanup_loop_spec _ _ _ _ _ _ _ (Z.le_refl 0) Hb Hloop)
    as (Hrange & Hlen & Hnz & Hend & Hout & Hpad).
  split; [lia|]. split; [exact Hnz|]. split; [intros; apply Hend; lia|].
  split; [exact Hlen|]. split; [intros k Hk; apply Hout; right; exact Hk|].
  split; [exact Hentry1|].
  intros H1 k Hk.
  assert (Hind : forall j : nat, (1 <= j)%nat -> Z.of_nat j < i' ->
                   fr' !! j <> Some 0).
  { induction j as [|j IHj]; [lia|]. intros _ Hj.
    destruct j as [|j]; [exact H1|].
    intros Hz. apply IHj; [lia|lia|].
    pose proof (Hpad (Z.of_nat (S (S j))) ltac:(lia) ltac:(lia)) as Hp.
    rewrite Nat2Z.id in Hp. specialize (Hp Hz).
    replace (Z.to_nat (Z.of_nat (S (S j)) - 1)) with (S j) in Hp by lia. exact Hp. }
  apply Hind; lia.
Qed.

Lemma cleanup_table_counts_and_pads_witness :
  let d' := set_num_freqs 3 (set_freqs [100000; 200000; 200000; 0; 0] ex_board_dvfs) in
  0 <= num_freqs d' <= 5 /\
  (forall k, 0 <= k < num_freqs d' ->
             exists m, [800; 900; 1000; 0; 0] !! Z.to_nat k = Some m /\ m <> 0) /\
  (num_freqs d' < 5 -> [800; 900; 1000; 0; 0] !! Z.to_nat (num_freqs d') = Some 0) /\
  length (freqs d') = length (freqs ex_board_dvfs) /\
  (forall k : nat, num_freqs d' <= Z.of_nat k -> freqs d' !! k = freqs ex_board_dvfs !! k) /\
  (1000 = 0 -> freqs d' !! 1%nat = freqs ex_board_dvfs !! 1%nat) /\
  (freqs d' !! 1%nat <> Some 0 ->
   forall k, 1 <= k < num_freqs d' -> freqs d' !! Z.to_nat k <> Some 0).
Proof.
  intros d'.
  apply (cleanup_table_counts_and_pads 5 1000 ex_board_dvfs d' [800; 900; 1000; 0; 0]);
    [unfold INT_MAX; lia | reflexivity | reflexivity].
Defined.

Lemma find_dvfs_app (w : world) (c : option nat) (ds ds' : list nat) :
  find_dvfs w c (ds ++ ds')
  = rbind (find_dvfs w c ds)
      (fun o => match o with Some d => Ok (Some d) | None => find_dvfs w c ds' end).
Proof.
  induction ds as [|d ds IH]; cbn [app find_dvfs rbind]; [reflexivity|].
  destruct (get_dvfs w d) as [x| |]; cbn [rbind]; try reflexivity.
  destruct (clk_is_match c (clk x)); [reflexivity|exact IH].
Qed.

Lemma find_dvfs_same (w w' : world) (c : option nat) (ds : list nat) :
  Forall (fun d => clocks w' !! d = clocks w !! d) ds ->
  find_dvfs w' c ds = find_dvfs w c ds.
Proof.
  induction 1 as [|d ds Hd _ IH]; cbn [find_dvfs]; [reflexivity|].
  unfold get_dvfs. rewrite Hd, IH. reflexivity.
Qed.

(** A look-up that returned, whatever it found, met no dangling clock
    before it stopped; one that found nothing met none at all. *)
Lemma find_dvfs_None_valid (w : world) (c : option nat) (ds : list nat) :
  find_dvfs w c ds = Ok None -> Forall (fun d => (d < length (clocks w))%nat) ds.
Proof.
  intros H. eapply Forall_impl; [apply find_dvfs_None, H|].
  cbv beta. intros d (x & Hx & _). eapply lookup_lt_Some, Hx.
Qed.

Lemma find_dvfs_grown (w w1 : world) (y : dvfs) (c : option nat) (ds : list nat) :
  clocks w1 = clocks w ++ [y] ->
  Forall (fun d => (d < length (clocks w))%nat) ds ->
  find_dvfs w1 c ds = find_dvfs w c ds.
Proof.
  intros Hw1 Hv. apply find_dvfs_same. eapply Forall_impl; [exact Hv|].
  cbv beta. intros d Hd. rewrite Hw1. apply lookup_app_l, Hd.
Qed.

Lemma find_dvfs_new (w w1 : world) (y : dvfs) (c : option nat) :
  clocks w1 = clocks w ++ [y] ->
  find_dvfs w1 c [length (clocks w)]
  = Ok (if bool_decide (c = clk y) then Some (length (clocks w)) else None).
Proof.
  intros Hw1. cbn [find_dvfs]. unfold get_dvfs. rewrite Hw1.
  rewrite lookup_app_r by reflexivity. rewrite Nat.sub_diag. cbn.
  unfold clk_is_match. destruct (bool_decide (c = clk y)); reflexivity.
Qed.

Lemma find_dvfs_in_rails_found (w w1 : world) (y : dvfs) (rs : list dvfs_rail) :
  clocks w1 = clocks w ++ [y] ->
  find_dvfs_in_rails w (clk y) rs = Ok None ->
  forall r, (r < length rs)%nat ->
    find_dvfs_in_rails w1 (clk y)
      (alter (fun rail => set_dvfs_list (dvfs_list rail ++ [length (clocks w)]) rail) r rs)
    = Ok (Some (length (clocks w))).
Proof.
  intros Hw1. induction rs as [|rail rs IH]; cbn [find_dvfs_in_rails]; intros H r Hr;
    [cbn in Hr; lia|].
  apply rbind_Ok in H as (o & Ho & H). destruct o as [d0|]; [discriminate|].
  pose proof (find_dvfs_None_valid _ _ _ Ho) as Hv.
  destruct r as [|r]; cbn [alter list_alter find_dvfs_in_rails].
  - cbn [dvfs_list set_dvfs_list].
    rewrite find_dvfs_app, (find_dvfs_grown _ _ _ _ _ Hw1 Hv), Ho. cbn [rbind].
    rewrite (find_dvfs_new _ _ _ _ Hw1), bool_decide_eq_true_2 by reflexivity.
    reflexivity.
  - rewrite (find_dvfs_grown _ _ _ _ _ Hw1 Hv), Ho. cbn [rbind]. apply IH; [exact H|].
    cbn in Hr. lia.
Qed.

Lemma find_dvfs_in_rails_grown (w w1 : world) (y : dvfs) (c c' : option nat)
    (rs : list dvfs_rail) :
  clocks w1 = clocks w ++ [y] ->
  find_dvfs_in_rails w c rs = Ok None ->
  find_dvfs_in_rails w1 c' rs = find_dvfs_in_rails w c' rs.
Proof.
  intros Hw1. induction rs as [|rail rs IH]; cbn [find_dvfs_in_rails]; intros H;
    [reflexivity|].
  apply rbind_Ok in H as (o & Ho & H). destruct o as [d0|]; [discriminate|].
  rewrite (find_dvfs_grown _ _ _ _ _ Hw1 (find_dvfs_None_valid _ _ _ Ho)), (IH H).
  reflexivity.
Qed.

Lemma find_dvfs_in_rails_others (w w1 : world) (y : dvfs) (c' : option nat)
    (rs : list dvfs_rail) :
  clocks w1 = clocks w ++ [y] ->
  c' <> clk y -> find_dvfs_in_rails w (clk y) rs = Ok None ->
  forall r,
    find_dvfs_in_rails w1 c'
      (alter (fun rail => set_dvfs_list (dvfs_list rail ++ [length (clocks w)]) rail) r rs)
    = find_dvfs_in_rails w c' rs.
Proof.
  intros Hw1 Hne. induction rs as [|rail rs IH]; cbn [find_dvfs_in_rails]; intros H r.
  { destruct r; reflexivity. }
  apply rbind_Ok in H as (o & Ho & H). destruct o as [d0|]; [discriminate|].
  pose proof (find_dvfs_None_valid _ _ _ Ho) as Hv.
  destruct r as [|r]; cbn [alter list_alter find_dvfs_in_rails].
  - cbn [dvfs_list set_dvfs_list].
    rewrite find_dvfs_app, (find_dvfs_grown _ _ _ _ _ Hw1 Hv).
    destruct (find_dvfs w c' (dvfs_list rail)) as [[d1|]| |]; cbn [rbind]; try reflexivity.
    rewrite (find_dvfs_new _ _ _ _ Hw1), bool_decide_eq_false_2 by exact Hne.
    apply (find_dvfs_in_rails_grown _ _ _ _ _ _ Hw1 H).
  - rewrite (find_dvfs_grown _ _ _ _ _ Hw1 Hv), (IH H). reflexivity.
Qed.

(** X8: registering a clock with [tegra_setup_dvfs] returns 0 and makes the
    look-up of that clock find the new entry, carrying the clock and the
    cleaned table, when the look-up found nothing before; the look-up of any
    other clock gives what it gave before. *)
Theorem setup_dvfs_then_lookup
    (MAX_DVFS_FREQS freqs_mult : Z) (c : option nat) (x : dvfs) (w w' : world) (ret : Z) :
  tegra_clk_to_dvfs w c = Ok None ->
  tegra_setup_dvfs MAX_DVFS_FREQS freqs_mult c x w = Ok (w', ret) ->
  ret = 0 /\
  tegra_clk_to_dvfs w' c = Ok (Some (length (clocks w))) /\
  (exists x1, cleanup_dvfs_table MAX_DVFS_FREQS freqs_mult x = Ok x1 /\
              clocks w' = clocks w ++ [set_clk c x1]) /\
  forall c', c' <> c -> tegra_clk_to_dvfs w' c' = tegra_clk_to_dvfs w c'.
Proof.
  intros Hnone H. unfold tegra_setup_dvfs in H.
  apply rbind_Ok in H as (x1 & Hx1 & H). apply rbind_Ok in H as (rail & Hrail & H).
  injection H as <- <-. split; [reflexivity|].
  apply get_rail_Ok in Hrail. cbn in Hrail. apply lookup_lt_Some in Hrail.
  unfold tegra_clk_to_dvfs in *.
  set (W := upd_rail _ _ _).
  assert (HW : clocks W = clocks w ++ [set_clk c x1]) by reflexivity.
  split.
  { exact (find_dvfs_in_rails_found w W (set_clk c x1) (rails w) HW Hnone _ Hrail). }
  split; [exists x1; split; [exact Hx1|exact HW]|].
  intros c' Hne.
  exact (find_dvfs_in_rails_others w W (set_clk c x1) c' (rails w) HW Hne Hnone _).
Qed.

Lemma setup_dvfs_then_lookup_witness :
  let w' := world_after w_ramp (tegra_setup_dvfs 5 1000 (Some 4%nat) ex_board_dvfs w_ramp) in
  0 = 0 /\
  tegra_clk_to_dvfs w' (Some 4%nat) = Ok (Some 0%nat) /\
  (exists x1, cleanup_dvfs_table 5 1000 ex_board_dvfs = Ok x1 /\
              clocks w' = clocks w_ramp ++ [set_clk (Some 4%nat) x1]) /\
  forall c', c' <> Some 4%nat -> tegra_clk_to_dvfs w' c' = tegra_clk_to_dvfs w_ramp c'.
Proof.
  intros w'.
  apply (setup_dvfs_then_lookup 5 1000 (Some 4%nat) ex_board_dvfs w_ramp w' 0);
    [reflexivity | vm_compute; reflexivity].
Defined.

(** X9: [tegra_clk_to_dvfs] is sound and complete.  The entry it returns is
    on the clock list of a registered rail and carries the clock asked for; when
    it returns NULL no entry on any rail's list carries that clock. *)
Theorem clk_to_dvfs_sound_and_complete (w : world) (c : option nat) (o : option nat) :
  tegra_clk_to_dvfs w c = Ok o ->
  match o with
  | Some d => exists rail x, In rail (rails w) /\ In d (dvfs_list rail) /\
                             clocks w !! d = Some x /\ clk x = c
  | None => forall rail d, In rail (rails w) -> In d (dvfs_list rail) ->
                           exists x, clocks w !! d = Some x /\ clk x <> c
  end.
Proof.
  unfold tegra_clk_to_dvfs. intros H. destruct o as [d|].
  - destruct (find_dvfs_in_rails_Some _ _ _ _ H) as (rail & Hin & Hd & x & Hx & Hc).
    exists rail, x. auto.
  - intros rail d Hrail Hd. pose proof (find_dvfs_in_rails_None _ _ _ H) as HF.
    rewrite List.Forall_forall in HF. specialize (HF rail Hrail).
    rewrite List.Forall_forall in HF. exact (HF d Hd).
Qed.

Lemma clk_to_dvfs_sound_and_complete_witness :
  exists rail x, In rail (rails w_chain) /\ In 1%nat (dvfs_list rail) /\
                 clocks w_chain !! 1%nat = Some x /\ clk x = Some 1%nat.
Proof.
  apply (clk_to_dvfs_sound_and_complete w_chain (Some 1%nat) (Some 1%nat)). reflexivity.
Defined.

(** X10: [tegra_dvfs_dfll_mode_set] makes no regulator write.  For a clock
    that is not registered it returns [-EINVAL] and changes nothing;
    otherwise it returns 0, whatever the rate update returned, the clock's
    rail is in DFLL mode afterwards and no other rail has changed. *)
Theorem dfll_mode_set_writes_nothing
    (fuel : nat) (c : option nat) (rate : Z) (w w' : world) (ret : Z) :
  tegra_dvfs_dfll_mode_set fuel c rate w = Ok (w', ret) ->
  reg_log w' = reg_log w /\
  match tegra_clk_to_dvfs w c with
  | Ok (Some d) =>
      ret = 0 /\
      forall x, clocks w !! d = Some x ->
        (exists rail', rails w' !! d_dvfs_rail x = Some rail' /\ dfll_mode rail' = true) /\
        forall i, i <> d_dvfs_rail x -> rails w' !! i = rails w !! i
  | _ => ret = - EINVAL /\ w' = w
  end.
Proof.
  intros H. unfold tegra_dvfs_dfll_mode_set in H.
  apply rbind_Ok in H as (o & Ho & H). rewrite Ho.
  destruct o as [d|]; [|injection H as <- <-; auto].
  apply rbind_Ok in H as (x & Hx%of_option_Ok & H).
  apply rbind_Ok in H as (rail & Hrail%get_rail_Ok & H).
  destruct (dfll_mode rail) eqn:Hdfll.
  { injection H as <- <-. split; [reflexivity|]. split; [reflexivity|].
    intros y Hy. assert (y = x) by congruence. subst y. split; [eauto|]. reflexivity. }
  apply rbind_Ok in H as ([w2 ret2] & Hrun & H). injection H as <- <-.
  set (R := d_dvfs_rail x) in *.
  set (w1 := upd_rail R (set_dfll_mode true) w) in Hrun.
  assert (Hx1 : clocks w1 !! d = Some x) by exact Hx.
  assert (HR1 : rails w1 !! R = Some (set_dfll_mode true rail))
    by (apply lookup_upd_rail_eq, Hrail).
  assert (Hother : forall i, i <> R -> rails w1 !! i = rails w !! i)
    by (intros i Hi; apply lookup_upd_rail_ne; congruence).
  assert (Q : reg_log w2 = reg_log w1 /\
              (forall i, i <> R -> rails w2 !! i = rails w1 !! i) /\
              exists rail', rails w2 !! R = Some rail' /\ dfll_mode rail' = true).
  { destruct (set_rate_outcome _ _ _ _ _ _ _ Hx1 Hrun) as [(-> & _)|(m & Hupd)];
      [eauto|].
    set (w1' := upd_dvfs d _ w1) in Hupd.
    assert (HR1' : rails w1' !! R = Some (set_dfll_mode true rail)) by exact HR1.
    destruct (update_quiet _ _ _ _ _ _ HR1' eq_refl Hupd) as (_ & L & _ & O & K).
    split; [exact L|]. split; [exact O|].
    destruct (K _ HR1') as (rail' & Hrail' & Hd' & _). exists rail'. auto. }
  destruct Q as (L & O & K). split; [exact L|]. split; [reflexivity|].
  intros y Hy. assert (y = x) by congruence. subst y. split; [exact K|].
  intros i Hi. rewrite O by exact Hi. apply Hother, Hi.
Qed.

Lemma dfll_mode_set_writes_nothing_witness :
  let w' := world_after w_pll_clock
              (tegra_dvfs_dfll_mode_set 2 (Some 0%nat) 300 w_pll_clock) in
  reg_log w' = reg_log w_pll_clock /\
  match tegra_clk_to_dvfs w_pll_clock (Some 0%nat) with
  | Ok (Some d) =>
      0 = 0 /\
      forall x, clocks w_pll_clock !! d = Some x ->
        (exists rail', rails w' !! d_dvfs_rail x = Some rail' /\ dfll_mode rail' = true) /\
        forall i, i <> d_dvfs_rail x -> rails w' !! i = rails w_pll_clock !! i
  | _ => 0 = - EINVAL /\ w' = w_pll_clock
  end.
Proof.
  intros w'. apply (dfll_mode_set_writes_nothing 2 (Some 0%nat) 300 w_pll_clock w' 0).
  vm_compute. reflexivity.
Defined.



(** * Thermal tables *)

Lemma thermal_limits_scan_spec (limits : list dvfs_therm_limits) :
  forall (n : nat) (i j : Z),
    0 <= i -> i + Z.of_nat n < INT_MAX ->
    thermal_limits_scan limits n i = Ok (Some j) ->
    i <= j <= i + Z.of_nat n /\
    forall k, i <= k < j ->
      exists a b, limits !! Z.to_nat k = Some a /\ limits !! S (Z.to_nat k) = Some b /\
                  mv b <> 0 /\ temperature a < temperature b /\ mv b <= mv a.
Proof.
  induction n as [|n IH]; intros i j Hi Hmax H; cbn [thermal_limits_scan] in H.
  { injection H as <-. split; [lia|]. intros; lia. }
  rewrite int_add_small in H by (unfold INT_MIN, INT_MAX in *; lia).
  apply rbind_Ok in H as (nxt & Hnxt & H). apply array_get_Ok in Hnxt as (_ & Hnxt).
  replace (Z.to_nat (i + 1)) with (S (Z.to_nat i)) in Hnxt by lia.
  destruct (Z.eqb_spec (mv nxt) 0) as [Hz|Hnz].
  { injection H as <-. split; [lia|]. intros; lia. }
  apply rbind_Ok in H as (cur & Hcur & H). apply array_get_Ok in Hcur as (_ & Hcur).
  destruct (Z.geb_spec (temperature cur) (temperature nxt)) as [|Ht]; [discriminate|].
  destruct (Z.ltb_spec (mv cur) (mv nxt)) as [|Hm]; [discriminate|]. cbn [orb] in H.
  destruct (IH (i + 1) j ltac:(lia) ltac:(lia) H) as (Hj & Hchain).
  split; [lia|]. intros k Hk. destruct (decide (k = i)) as [->|Hne].
  - exists cur, nxt. repeat split; auto; lia.
  - apply Hchain. lia.
Qed.

(** A positive size returned by [get_thermal_limits_size] counts entries that
    are in order. *)
Lemma thermal_limits_size_valid (MAX_THERMAL_LIMITS : Z) (rail : dvfs_rail)
    (type : tegra_dvfs_core_thermal_type) (size : Z) :
  1 <= MAX_THERMAL_LIMITS <= INT_MAX ->
  get_thermal_limits_size MAX_THERMAL_LIMITS rail type = Ok size ->
  0 < size ->
  exists limits,
    match type with
    | TEGRA_DVFS_CORE_THERMAL_FLOOR => therm_floors rail
    | TEGRA_DVFS_CORE_THERMAL_CAP => therm_caps rail
    | TEGRA_DVFS_CORE_THERMAL_OTHER => None
    end = Some limits /\
    size <= MAX_THERMAL_LIMITS /\
    limits_valid limits (Z.to_nat size) (min_millivolts rail).
Proof.
  intros Hmax H Hpos. unfold get_thermal_limits_size in H.
  set (table := match type with
                | TEGRA_DVFS_CORE_THERMAL_FLOOR => therm_floors rail
                | TEGRA_DVFS_CORE_THERMAL_CAP => therm_caps rail
                | TEGRA_DVFS_CORE_THERMAL_OTHER => None
                end).
  assert (Hrun : match table with
                 | Some limits =>
                     rbind (array_get limits 0) (fun first =>
                       if mv first =? 0 then Ok (- EINVAL)
                       else rbind (thermal_limits_scan limits
                                     (Z.to_nat (MAX_THERMAL_LIMITS - 1)) 0)
                              (fun o => match o with
                                        | None => Ok (- EINVAL)
                                        | Some i =>
                                            rbind (array_get limits i) (fun last =>
                                              if mv last <? min_millivolts rail
                                              then Ok (- EINVAL)
                                              else Ok (int_add i 1))
                                        end)) = Ok size
                 | None => False
                 end).
  { subst table. destruct type; cbn [of_option rbind] in H.
    - destruct (therm_floors rail); [exact H|discriminate].
    - destruct (therm_caps rail); [exact H|discriminate].
    - injection H as <-. unfold EINVAL in Hpos. lia. }
  clear H. destruct table as [limits|]; [|contradiction]. exists limits.
  split; [reflexivity|].
  apply rbind_Ok in Hrun as (first & Hfirst & H). apply array_get_Ok in Hfirst as (_ & Hfirst).
  destruct (Z.eqb_spec (mv first) 0) as [|Hnz];
    [injection H as <-; unfold EINVAL in Hpos; lia|].
  apply rbind_Ok in H as (o & Hscan & H).
  destruct o as [j|]; [|injection H as <-; unfold EINVAL in Hpos; lia].
  apply rbind_Ok in H as (last & Hlast & H). apply array_get_Ok in Hlast as (_ & Hlast).
  destruct (Z.ltb_spec (mv last) (min_millivolts rail)) as [|Hlo];
    [injection H as <-; unfold EINVAL in Hpos; lia|].
  injection H as <-.
  assert (Hbound : 0 + Z.of_nat (Z.to_nat (MAX_THERMAL_LIMITS - 1)) < INT_MAX) by lia.
  destruct (thermal_limits_scan_spec _ _ _ _ (Z.le_refl 0) Hbound Hscan) as (Hj & Hchain).
  rewrite int_add_small by (unfold INT_MIN, INT_MAX in *; lia).
  split; [lia|].
  replace (Z.to_nat (j + 1)) with (S (Z.to_nat j)) by lia.
  split; [split; [lia|apply lookup_lt_Some in Hlast; lia]|].
  split; [|split].
  - intros k a Hk Ha. destruct k as [|k].
    + change (Z.to_nat 0) with 0%nat in Hfirst. assert (a = first) by congruence. subst a. exact Hnz.
    + destruct (Hchain (Z.of_nat k) ltac:(lia)) as (a0 & b & _ & Hb & Hbnz & _).
      rewrite Nat2Z.id in Hb. assert (a = b) by congruence. subst a. exact Hbnz.
  - intros k a b Hk Ha Hb.
    destruct (Hchain (Z.of_nat k) ltac:(lia)) as (a0 & b0 & Ha0 & Hb0 & _ & Ht & Hm).
    rewrite Nat2Z.id in Ha0, Hb0. assert (a0 = a) by congruence.
    assert (b0 = b) by congruence. subst a0 b0. auto.
  - intros a Ha. replace (S (Z.to_nat j) - 1)%nat with (Z.to_nat j) in Ha by lia.
    assert (a = last) by congruence. subst a. lia.
Qed.

(** In a table that is in order every voltage lies between the last and the
    first one. *)
Lemma limits_valid_bounds (limits : list dvfs_therm_limits) (size : nat) (lo : Z) :
  limits_valid limits size lo ->
  forall k a first, (k < size)%nat -> limits !! k = Some a -> limits !! 0%nat = Some first ->
    lo <= mv a <= mv first.
Proof.
  intros (Hsize & _ & Hord & Hlast) k a first Hk Ha Hfirst. split.
  - remember (size - 1 - k)%nat as gap eqn:Hgap. revert k a Hk Ha Hgap.
    induction gap as [|gap IH]; intros k a Hk Ha Hgap.
    + apply Hlast. replace (size - 1)%nat with k by lia. exact Ha.
    + destruct (lookup_lt_is_Some_2 limits (S k)) as [b Hb]; [lia|].
      destruct (Hord k a b ltac:(lia) Ha Hb) as (_ & Hm).
      pose proof (IH (S k) b ltac:(lia) Hb ltac:(lia)). lia.
  - revert a Hk Ha. induction k as [|k IH]; intros a Hk Ha.
    + assert (a = first) by congruence. subst a. lia.
    + destruct (lookup_lt_is_Some_2 limits k) as [p Hp]; [lia|].
      destruct (Hord k p a Hk Hp Ha) as (_ & Hm).
      pose proof (IH p ltac:(lia) Hp). lia.
Qed.

(** What [tegra_dvfs_init_therm_limits] leaves in a rail. *)
Lemma init_therm_limits_post (MAX_THERMAL_LIMITS : Z) (rail rail' : dvfs_rail) :
  1 <= MAX_THERMAL_LIMITS <= INT_MAX ->
  tegra_dvfs_init_therm_limits MAX_THERMAL_LIMITS rail = Ok rail' ->
  settings (set_therm_floors None (set_therm_floors_size 0 (set_therm_floor_idx 0
             (set_therm_caps None (set_therm_caps_size 0 (set_therm_cap_idx 0 rail'))))))
  = settings (set_therm_floors None (set_therm_floors_size 0 (set_therm_floor_idx 0
                (set_therm_caps None (set_therm_caps_size 0 (set_therm_cap_idx 0 rail)))))) /\
  match therm_floors rail' with
  | None => therm_floors_size rail' = 0
  | Some floors =>
      therm_floors rail = Some floors /\
      0 < therm_floors_size rail' <= MAX_THERMAL_LIMITS /\
      therm_floor_idx rail' = 0 /\
      limits_valid floors (Z.to_nat (therm_floors_size rail')) (min_millivolts rail) /\
      forall first, floors !! 0%nat = Some first -> mv first <= nominal_millivolts rail
  end /\
  match therm_caps rail' with
  | None => therm_caps_size rail' = 0
  | Some caps =>
      therm_caps rail = Some caps /\
      0 < therm_caps_size rail' <= MAX_THERMAL_LIMITS /\
      therm_cap_idx rail' = therm_caps_size rail' /\
      limits_valid caps (Z.to_nat (therm_caps_size rail')) (min_millivolts rail)
  end.
Proof.
  intros Hmax H. unfold tegra_dvfs_init_therm_limits in H.
  apply rbind_Ok in H as (fsize & Hfsize & H). apply rbind_Ok in H as (invalid & Hinv & H).
  apply rbind_Ok in H as (csize & Hcsize & H). injection H as <-.
  assert (Hfloors :
    let rail1 := if invalid
                 then set_therm_floors_size 0 (set_therm_floors None rail)
                 else set_therm_floor_idx 0 (set_therm_floors_size fsize rail) in
    match therm_floors rail1 with
    | None => therm_floors_size rail1 = 0
    | Some floors =>
        therm_floors rail = Some floors /\
        0 < therm_floors_size rail1 <= MAX_THERMAL_LIMITS /\
        therm_floor_idx rail1 = 0 /\
        limits_valid floors (Z.to_nat (therm_floors_size rail1)) (min_millivolts rail) /\
        forall first, floors !! 0%nat = Some first -> mv first <= nominal_millivolts rail
    end).
  { destruct (Z.leb_spec fsize 0) as [|Hpos].
    - injection Hinv as <-. reflexivity.
    - apply rbind_Ok in Hinv as (floors & Hfl%of_option_Ok & Hinv).
      apply rbind_Ok in Hinv as (first & Hfirst & Hinv). injection Hinv as <-.
      apply array_get_Ok in Hfirst as (_ & Hfirst).
      destruct (Z.gtb_spec (mv first) (nominal_millivolts rail)) as [|Hnom];
        [reflexivity|].
      cbn. rewrite Hfl.
      destruct (thermal_limits_size_valid _ _ _ _ Hmax Hfsize Hpos)
        as (limits & Htbl & Hle & Hvalid).
      cbn in Htbl. assert (limits = floors) by congruence. subst limits.
      split; [reflexivity|]. split; [lia|]. split; [reflexivity|]. split; [exact Hvalid|].
      intros a Ha. change (Z.to_nat 0) with 0%nat in Hfirst. assert (a = first) by congruence. subst a. lia. }
  set (rail1 := if invalid then _ else _) in *.
  assert (Hmin : min_millivolts rail1 = min_millivolts rail)
    by (subst rail1; destruct invalid; reflexivity).
  assert (Hcaps1 : therm_caps rail1 = therm_caps rail)
    by (subst rail1; destruct invalid; reflexivity).
  split; [|split].
  - subst rail1. destruct invalid, (csize <=? 0); reflexivity.
  - destruct (csize <=? 0); exact Hfloors.
  - destruct (Z.leb_spec csize 0) as [|Hpos]; [reflexivity|].
    cbn. rewrite Hcaps1.
    destruct (thermal_limits_size_valid _ _ _ _ Hmax Hcsize Hpos)
      as (limits & Htbl & Hle & Hvalid).
    cbn in Htbl. rewrite Hcaps1 in Htbl. rewrite Htbl. rewrite Hmin in Hvalid.
    split; [reflexivity|]. split; [lia|]. split; [reflexivity|exact Hvalid].
Qed.

(** X11: the thermal tables [tegra_dvfs_init_therm_limits] keeps are in
    order.  A table it keeps is the one the rail came with, its size counts
    at most [MAX_THERMAL_LIMITS] entries whose voltages are not 0 and do not
    rise while the temperatures rise strictly, and every one of these
    voltages is at or above the rail minimum; every floor is at most the
    nominal voltage.  The floor index is 0 and the cap index is the number of
    caps.  A table that fails a check is dropped with size 0. *)
Theorem init_therm_limits_keeps_ordered_tables
    (MAX_THERMAL_LIMITS : Z) (rail rail' : dvfs_rail) :
  1 <= MAX_THERMAL_LIMITS <= INT_MAX ->
  tegra_dvfs_init_therm_limits MAX_THERMAL_LIMITS rail = Ok rail' ->
  match therm_floors rail' with
  | None => therm_floors_size rail' = 0
  | Some floors =>
      therm_floors rail = Some floors /\
      0 < therm_floors_size rail' <= MAX_THERMAL_LIMITS /\
      therm_floor_idx rail' = 0 /\
      limits_valid floors (Z.to_nat (therm_floors_size rail')) (min_millivolts rail) /\
      forall k a, (k < Z.to_nat (therm_floors_size rail'))%nat -> floors !! k = Some a ->
                  min_millivolts rail <= mv a <= nominal_millivolts rail
  end /\
  match therm_caps rail' with
  | None => therm_caps_size rail' = 0
  | Some caps =>
      therm_caps rail = Some caps /\
      0 < therm_caps_size rail' <= MAX_THERMAL_LIMITS /\
      therm_cap_idx rail' = therm_caps_size rail' /\
      limits_valid caps (Z.to_nat (therm_caps_size rail')) (min_millivolts rail) /\
      forall k a, (k < Z.to_nat (therm_caps_size rail'))%nat -> caps !! k = Some a ->
                  min_millivolts rail <= mv a
  end.
Proof.
  intros Hmax H. destruct (init_therm_limits_post _ _ _ Hmax H) as (_ & Hfl & Hcp). split.
  - destruct (therm_floors rail') as [floors|]; [|exact Hfl].
    destruct Hfl as (Hsame & Hsize & Hidx & Hvalid & Hnom).
    repeat (split; [assumption|]). intros k a Hk Ha.
    destruct (lookup_lt_is_Some_2 floors 0) as [first Hfirst];
      [destruct Hvalid as ((? & ?) & _); lia|].
    pose proof (limits_valid_bounds _ _ _ Hvalid k a first Hk Ha Hfirst).
    pose proof (Hnom first Hfirst). lia.
  - destruct (therm_caps rail') as [caps|]; [|exact Hcp].
    destruct Hcp as (Hsame & Hsize & Hidx & Hvalid).
    repeat (split; [assumption|]). intros k a Hk Ha.
    destruct (lookup_lt_is_Some_2 caps 0) as [first Hfirst];
      [destruct Hvalid as ((? & ?) & _); lia|].
    pose proof (limits_valid_bounds _ _ _ Hvalid k a first Hk Ha Hfirst). lia.
Qed.

Lemma init_therm_limits_keeps_ordered_tables_witness :
  let floors := [ {| temperature := -10; mv := 950 |}; {| temperature := 20; mv := 900 |};
                  {| temperature := 50; mv := 850 |}; {| temperature := 0; mv := 0 |} ] in
  let caps := [ {| temperature := 70; mv := 1150 |}; {| temperature := 90; mv := 1100 |};
                {| temperature := 0; mv := 0 |}; {| temperature := 0; mv := 0 |} ] in
  let rail' := set_therm_cap_idx 2 (set_therm_caps_size 2
                 (set_therm_floor_idx 0 (set_therm_floors_size 3 ex_thermal_rail))) in
  match therm_floors rail' with
  | None => therm_floors_size rail' = 0
  | Some floors =>
      therm_floors ex_thermal_rail = Some floors /\
      0 < therm_floors_size rail' <= 4 /\
      therm_floor_idx rail' = 0 /\
      limits_valid floors (Z.to_nat (therm_floors_size rail'))
        (min_millivolts ex_thermal_rail) /\
      forall k a, (k < Z.to_nat (therm_floors_size rail'))%nat -> floors !! k = Some a ->
                  min_millivolts ex_thermal_rail <= mv a
                  <= nominal_millivolts ex_thermal_rail
  end /\
  match therm_caps rail' with
  | None => therm_caps_size rail' = 0
  | Some caps =>
      therm_caps ex_thermal_rail = Some caps /\
      0 < therm_caps_size rail' <= 4 /\
      therm_cap_idx rail' = therm_caps_size rail' /\
      limits_valid caps (Z.to_nat (therm_caps_size rail')) (min_millivolts ex_thermal_rail) /\
      forall k a, (k < Z.to_nat (therm_caps_size rail'))%nat -> caps !! k = Some a ->
                  min_millivolts ex_thermal_rail <= mv a
  end.
Proof.
  intros floors caps rail'.
  apply (init_therm_limits_keeps_ordered_tables 4 ex_thermal_rail rail');
    [unfold INT_MAX; lia | reflexivity].
Defined.

(** X12: after [tegra_dvfs_init_therm_limits], [dvfs_rail_apply_limits]
    reads inside the tables and returns, and it does so for every floor index
    that is not negative and every cap index up to the number of caps; what
    it returns is the override if one is set and the voltage it was given
    otherwise. *)
Theorem apply_limits_after_init_never_faults
    (MAX_THERMAL_LIMITS : Z) (rail rail' : dvfs_rail) (floor_idx cap_idx mvolts : Z) :
  1 <= MAX_THERMAL_LIMITS <= INT_MAX ->
  tegra_dvfs_init_therm_limits MAX_THERMAL_LIMITS rail = Ok rail' ->
  0 <= floor_idx -> cap_idx <= therm_caps_size rail' ->
  dvfs_rail_apply_limits (set_therm_cap_idx cap_idx (set_therm_floor_idx floor_idx rail'))
    mvolts
  = Ok (if negb (override_millivolts rail =? 0) then override_millivolts rail else mvolts).
Proof.
  intros Hmax H Hfi Hci. destruct (init_therm_limits_post _ _ _ Hmax H) as (Hset & Hfl & Hcp).
  apply (f_equal override_millivolts) in Hset. cbn in Hset.
  unfold dvfs_rail_apply_limits. cbn [therm_floors therm_floor_idx therm_floors_size
    therm_caps therm_cap_idx therm_caps_size set_therm_cap_idx set_therm_floor_idx
    min_millivolts max_millivolts override_millivolts].
  assert (Hmin : exists lo,
            match therm_floors rail' with
            | Some floors =>
                if floor_idx <? therm_floors_size rail'
                then rbind (array_get floors floor_idx) (fun l => Ok (mv l))
                else Ok (min_millivolts rail')
            | None => Ok (min_millivolts rail')
            end = Ok lo).
  { destruct (therm_floors rail') as [floors|]; [|eauto].
    destruct Hfl as (_ & Hsize & _ & ((_ & Hlen) & _) & _).
    destruct (Z.ltb_spec floor_idx (therm_floors_size rail')); [|eauto].
    destruct (array_get_lt floors floor_idx) as [l Hl]; [lia|]. rewrite Hl. cbn. eauto. }
  destruct Hmin as (lo & ->). cbn [rbind].
  assert (Hcap : exists hi,
            match therm_caps rail' with
            | Some caps =>
                if cap_idx >? 0
                then rbind (array_get caps (cap_idx - 1)) (fun l => Ok (mv l))
                else Ok (max_millivolts rail')
            | None => Ok (max_millivolts rail')
            end = Ok hi).
  { destruct (therm_caps rail') as [caps|]; [|eauto].
    destruct Hcp as (_ & Hsize & _ & ((_ & Hlen) & _)).
    destruct (Z.gtb_spec cap_idx 0); [|eauto].
    destruct (array_get_lt caps (cap_idx - 1)) as [l Hl]; [lia|]. rewrite Hl. cbn. eauto. }
  destruct Hcap as (hi & ->). cbn [rbind]. rewrite Hset. reflexivity.
Qed.

Lemma apply_limits_after_init_never_faults_witness :
  let rail' := set_therm_cap_idx 2 (set_therm_caps_size 2
                 (set_therm_floor_idx 0 (set_therm_floors_size 3 ex_thermal_rail))) in
  dvfs_rail_apply_limits (set_therm_cap_idx 1 (set_therm_floor_idx 2 rail')) 870
  = Ok (if negb (override_millivolts ex_thermal_rail =? 0)
        then override_millivolts ex_thermal_rail else 870).
Proof.
  intros rail'.
  apply (apply_limits_after_init_never_faults 4 ex_thermal_rail rail' 2 1 870);
    [unfold INT_MAX; lia | reflexivity | lia | simpl; lia].
Defined.

(** X13: after [tegra_dvfs_core_update_thermal_index] on a ready core rail
    [tegra_dvfs_core_get_thermal_index] returns the index that was set,
    whatever the rail update did; the other index and the table sizes are as
    before. *)
Theorem thermal_index_round_trip
    (fuel : nat) (type : tegra_dvfs_core_thermal_type) (new_idx : Z) (w w' : world)
    (ret : Z) (r : nat) (rail : dvfs_rail) :
  tegra_core_rail w = Some r -> rails w !! r = Some rail -> is_ready rail = true ->
  type <> TEGRA_DVFS_CORE_THERMAL_OTHER ->
  0 <= new_idx <= INT_MAX ->
  INT_MIN <= therm_floor_idx rail <= INT_MAX ->
  INT_MIN <= therm_cap_idx rail <= INT_MAX ->
  tegra_dvfs_core_update_thermal_index fuel type new_idx w = Ok (w', ret) ->
  ret = 0 /\
  tegra_dvfs_core_get_thermal_index w' type = Ok new_idx /\
  (forall type', type' <> type ->
     tegra_dvfs_core_get_thermal_index w' type' = tegra_dvfs_core_get_thermal_index w type') /\
  forall type',
    tegra_dvfs_core_count_thermal_states w' type'
    = tegra_dvfs_core_count_thermal_states w type'.
Proof.
  intros Hcore Hrail Hready Htype Hidx Hfi Hci H.
  assert (Hulong : forall idx, INT_MIN <= idx <= INT_MAX -> to_ulong idx = new_idx ->
                     idx = new_idx).
  { intros idx Hr E. unfold to_ulong, INT_MIN, INT_MAX in *.
    destruct (Z.lt_ge_cases idx 0).
    - rewrite <- (Z.mod_unique idx 18446744073709551616 (-1) (idx + 18446744073709551616))
        in E; lia.
    - rewrite Z.mod_small in E; lia. }
  assert (Hget : forall (v : world) (x : dvfs_rail) type',
            tegra_core_rail v = Some r -> rails v !! r = Some x -> is_ready x = true ->
            tegra_dvfs_core_get_thermal_index v type'
            = match type' with
              | TEGRA_DVFS_CORE_THERMAL_FLOOR => Ok (therm_floor_idx x)
              | TEGRA_DVFS_CORE_THERMAL_CAP => Ok (therm_cap_idx x)
              | TEGRA_DVFS_CORE_THERMAL_OTHER => Ok (- EINVAL)
              end /\
            tegra_dvfs_core_count_thermal_states v type'
            = match type' with
              | TEGRA_DVFS_CORE_THERMAL_FLOOR => Ok (therm_floors_size x)
              | TEGRA_DVFS_CORE_THERMAL_CAP => Ok (therm_caps_size x)
              | TEGRA_DVFS_CORE_THERMAL_OTHER => Ok (- EINVAL)
              end).
  { intros v x type' Hc Hx Hr.
    unfold tegra_dvfs_core_get_thermal_index, tegra_dvfs_core_count_thermal_states.
    rewrite Hc, (get_rail_lookup _ _ _ Hx). cbn [rbind]. rewrite Hr. auto. }
  (* a rail update after the store of the index *)
  assert (Hafter : forall (f : dvfs_rail -> dvfs_rail) w2 ret2,
            is_ready (f rail) = true ->
            dvfs_rail_update fuel r (upd_rail r f w) = Ok (w2, ret2) ->
            exists x2, tegra_core_rail w2 = Some r /\ rails w2 !! r = Some x2 /\
                       is_ready x2 = true /\ settings x2 = settings (f rail)).
  { intros f w2 ret2 Hr Hrun.
    pose proof (update_steady _ _ _ _ _ Hrun) as S.
    pose proof (update_partial fuel (free (upd_rail r f w)) r (upd_rail r f w) (le_n _)) as F.
    rewrite Hrun in F. cbn in F.
    destruct (steady_rails _ _ S r _ (lookup_upd_rail_eq _ f _ _ Hrail))
      as (x2 & Hx2 & Hs & _).
    exists x2. split; [rewrite (frame_core _ _ _ F); exact Hcore|]. split; [exact Hx2|].
    split; [|exact Hs]. apply (f_equal is_ready) in Hs. cbn in Hs. congruence. }
  unfold tegra_dvfs_core_update_thermal_index in H.
  rewrite Hcore, (get_rail_lookup _ _ _ Hrail) in H. cbn [rbind] in H.
  rewrite Hready in H. cbn [negb] in H.
  destruct type; [| |contradiction].
  - destruct (Z.eqb_spec (to_ulong (therm_floor_idx rail)) new_idx) as [E|_].
    + injection H as <- <-. apply Hulong in E; [|exact Hfi].
      split; [reflexivity|]. split.
      * rewrite (proj1 (Hget w rail _ Hcore Hrail Hready)). congruence.
      * split; reflexivity.
    + apply rbind_Ok in H as ([w2 ret2] & Hrun & H). injection H as <- <-.
      destruct (Hafter (set_therm_floor_idx (wrap_int new_idx)) _ _ Hready Hrun)
        as (x2 & Hc2 & Hx2 & Hr2 & Hs).
      split; [reflexivity|]. split; [|split].
      * rewrite (proj1 (Hget w2 x2 _ Hc2 Hx2 Hr2)).
        apply (f_equal therm_floor_idx) in Hs. cbn in Hs. rewrite Hs.
        rewrite wrap_int_small by (unfold INT_MIN; lia). reflexivity.
      * intros type' Hne. rewrite (proj1 (Hget w2 x2 _ Hc2 Hx2 Hr2)).
        rewrite (proj1 (Hget w rail _ Hcore Hrail Hready)).
        destruct type'; [contradiction| |reflexivity].
        apply (f_equal therm_cap_idx) in Hs. cbn in Hs. congruence.
      * intros type'. rewrite (proj2 (Hget w2 x2 _ Hc2 Hx2 Hr2)).
        rewrite (proj2 (Hget w rail _ Hcore Hrail Hready)).
        pose proof (f_equal therm_floors_size Hs) as E1.
        pose proof (f_equal therm_caps_size Hs) as E2. cbn in E1, E2.
        destruct type'; congruence.
  - destruct (Z.eqb_spec (to_ulong (therm_cap_idx rail)) new_idx) as [E|_].
    + injection H as <- <-. apply Hulong in E; [|exact Hci].
      split; [reflexivity|]. split.
      * rewrite (proj1 (Hget w rail _ Hcore Hrail Hready)). congruence.
      * split; reflexivity.
    + apply rbind_Ok in H as ([w2 ret2] & Hrun & H). injection H as <- <-.
      destruct (Hafter (set_therm_cap_idx (wrap_int new_idx)) _ _ Hready Hrun)
        as (x2 & Hc2 & Hx2 & Hr2 & Hs).
      split; [reflexivity|]. split; [|split].
      * rewrite (proj1 (Hget w2 x2 _ Hc2 Hx2 Hr2)).
        apply (f_equal therm_cap_idx) in Hs. cbn in Hs. rewrite Hs.
        rewrite wrap_int_small by (unfold INT_MIN; lia). reflexivity.
      * intros type' Hne. rewrite (proj1 (Hget w2 x2 _ Hc2 Hx2 Hr2)).
        rewrite (proj1 (Hget w rail _ Hcore Hrail Hready)).
        destruct type'; [|contradiction|reflexivity].
        apply (f_equal therm_floor_idx) in Hs. cbn in Hs. congruence.
      * intros type'. rewrite (proj2 (Hget w2 x2 _ Hc2 Hx2 Hr2)).
        rewrite (proj2 (Hget w rail _ Hcore Hrail Hready)).
        pose proof (f_equal therm_floors_size Hs) as E1.
        pose proof (f_equal therm_caps_size Hs) as E2. cbn in E1, E2.
        destruct type'; congruence.
Qed.

Lemma thermal_index_round_trip_witness :
  let w' := world_after w_floor
              (tegra_dvfs_core_update_thermal_index 2 TEGRA_DVFS_CORE_THERMAL_FLOOR 0
                 w_floor) in
  0 = 0 /\
  tegra_dvfs_core_get_thermal_index w' TEGRA_DVFS_CORE_THERMAL_FLOOR = Ok 0 /\
  (forall type', type' <> TEGRA_DVFS_CORE_THERMAL_FLOOR ->
     tegra_dvfs_core_get_thermal_index w' type'
     = tegra_dvfs_core_get_thermal_index w_floor type') /\
  forall type',
    tegra_dvfs_core_count_thermal_states w' type'
    = tegra_dvfs_core_count_thermal_states w_floor type'.
Proof.
  intros w'.
  apply (thermal_index_round_trip 2 TEGRA_DVFS_CORE_THERMAL_FLOOR 0 w_floor w' 0 0
           (ex_rail "vdd-core" (Some 0%nat) 850 false false
              (Some [ {| temperature := 20; mv := 950 |};
                      {| temperature := 70; mv := 900 |} ]) 2 1 [0%nat] [] []));
    [reflexivity | reflexivity | reflexivity | discriminate | unfold INT_MAX; lia
    | unfold INT_MIN, INT_MAX; simpl; lia | unfold INT_MIN, INT_MAX; simpl; lia
    | vm_compute; reflexivity].
Defined.

(** * Rail statistics *)

Lemma foldr_add_insert (l : list Z) (i : nat) (t v : Z) :
  l !! i = Some t -> foldr Z.add 0 (<[i := v]> l) = foldr Z.add 0 l - t + v.
Proof.
  revert i. induction l as [|a l IH]; intros i H; [discriminate|].
  destruct i as [|i].
  - injection H as ->. change (<[0%nat := v]> (t :: l)) with (v :: l). cbn [foldr]. lia.
  - change (<[S i := v]> (a :: l)) with (a :: <[i := v]> l). cbn [foldr].
    rewrite (IH i H). lia.
Qed.

Lemma wrap_s64_mod (x : Z) :
  wrap_s64 x mod 18446744073709551616 = x mod 18446744073709551616.
Proof.
  unfold wrap_s64. rewrite Zminus_mod_idemp_l. f_equal. lia.
Qed.

(** X14: [dvfs_rail_stats_update] conserves time.  Whatever the voltage and
    the state of the rail, the total of the histogram grows by the time
    elapsed since the last update (in 64-bit arithmetic), the time of the
    last update becomes [now], and the table keeps its length, its bin width
    and its [off] flag. *)
Theorem stats_update_conserves_time (top : Z) (rail : dvfs_rail) (mvolts now : Z)
    (st' : rail_stats) :
  dvfs_rail_stats_update top rail mvolts now = Ok st' ->
  (total_time st' - total_time (stats rail)) mod 18446744073709551616
  = (now - last_update (stats rail)) mod 18446744073709551616 /\
  last_update st' = now /\
  length (time_at_mv st') = length (time_at_mv (stats rail)) /\
  bin_uv st' = bin_uv (stats rail) /\ off st' = off (stats rail).
Proof.
  intros H. unfold dvfs_rail_stats_update in H.
  apply rbind_Ok in H as (t & Ht & H). apply array_get_Ok in Ht as (_ & Ht).
  set (time' := <[Z.to_nat (last_index (stats rail)) :=
                    ktime_add t (ktime_sub now (last_update (stats rail)))]>
                  (time_at_mv (stats rail))) in H.
  assert (Hshape : time_at_mv st' = time' /\ last_update st' = now /\
                   bin_uv st' = bin_uv (stats rail) /\ off st' = off (stats rail)).
  { destruct (off (stats rail)) eqn:Hoff; [injection H as <-; cbn; auto|].
    destruct (_ >=? _).
    - apply rbind_Ok in H as (i & _ & H). injection H as <-. cbn. auto.
    - destruct (_ =? _); injection H as <-; cbn; auto. }
  destruct Hshape as (Htime & Hnow & Hbin & Hoff).
  split; [|split; [exact Hnow|split; [|auto]]].
  - unfold total_time. rewrite Htime. subst time'.
    rewrite (foldr_add_insert _ _ _ _ Ht).
    replace (foldr Z.add 0 (time_at_mv (stats rail)) - t
             + ktime_add t (ktime_sub now (last_update (stats rail)))
             - foldr Z.add 0 (time_at_mv (stats rail)))
      with (ktime_add t (ktime_sub now (last_update (stats rail))) - t) by lia.
    unfold ktime_add, ktime_sub.
    rewrite <- Zminus_mod_idemp_l, wrap_s64_mod, Zminus_mod_idemp_l.
    replace (t + wrap_s64 (now - last_update (stats rail)) - t)
      with (wrap_s64 (now - last_update (stats rail))) by lia.
    apply wrap_s64_mod.
  - rewrite Htime. apply length_insert.
Qed.

Lemma stats_update_conserves_time_witness :
  let rail := ex_rail "vdd-core" (Some 7%nat) 800 false false None 0 0 [] [] [] in
  let st' := {| time_at_mv := <[1%nat := 5]> (repeat 0 101); last_update := 5;
                last_index := 9; off := false; bin_uv := 12500 |} in
  (total_time st' - total_time (stats rail)) mod 18446744073709551616
  = (5 - last_update (stats rail)) mod 18446744073709551616 /\
  last_update st' = 5 /\
  length (time_at_mv st') = length (time_at_mv (stats rail)) /\
  bin_uv st' = bin_uv (stats rail) /\ off st' = off (stats rail).
Proof.
  intros rail st'. apply (stats_update_conserves_time 100 rail 900 5 st'). reflexivity.
Defined.

(** The bin of a voltage at or above the rail minimum lies in the table. *)
Lemma stats_bin_range (top : Z) (rail : dvfs_rail) (mvolts : Z) :
  0 <= top -> 0 < bin_uv (stats rail) <= 100000000 ->
  0 <= mvolts - min_millivolts rail <= 1000000 ->
  exists i, stats_bin top rail mvolts = Ok i /\ 0 <= i <= top.
Proof.
  intros Htop Hbin Hmv. unfold stats_bin, int_div.
  assert (H2b : int_mul 2 (bin_uv (stats rail)) = 2 * bin_uv (stats rail))
    by (apply wrap_int_small; unfold INT_MIN, INT_MAX; lia).
  rewrite H2b.
  destruct (Z.eqb_spec (2 * bin_uv (stats rail)) 0) as [?|_]; [lia|].
  destruct (Z.eqb_spec (2 * bin_uv (stats rail)) (-1)) as [?|_]; [lia|].
  rewrite andb_false_r. cbn [rbind]. eexists. split; [reflexivity|].
  split; [|lia]. apply Z.min_glb; [|lia].
  unfold int_sub, int_mul, int_add.
  rewrite (wrap_int_small (mvolts - _)) by (unfold INT_MIN, INT_MAX; lia).
  rewrite (wrap_int_small (2 * _)) by (unfold INT_MIN, INT_MAX; lia).
  rewrite (wrap_int_small (_ * 1000)) by (unfold INT_MIN, INT_MAX; lia).
  rewrite (wrap_int_small (_ + bin_uv _)) by (unfold INT_MIN, INT_MAX; lia).
  assert (Hq : 0 <= (2 * (mvolts - min_millivolts rail) * 1000 + bin_uv (stats rail))
                    ÷ (2 * bin_uv (stats rail))
               <= 2 * (mvolts - min_millivolts rail) * 1000 + bin_uv (stats rail)).
  { split; [apply Z.quot_pos; lia|].
    rewrite Z.quot_div_nonneg by lia.
    apply Z.div_le_upper_bound; [lia|]. nia. }
  rewrite wrap_int_small by (unfold INT_MIN, INT_MAX; lia). lia.
Qed.

(** X15: [dvfs_rail_stats_init] makes the statistics safe to update.  On a
    rail whose table has [DVFS_RAIL_STATS_TOP_BIN + 1] entries or more and
    whose bin width, after the default is filled in, is positive, it returns
    statistics with the bin index inside the table, the histogram untouched
    and the clock started at [now]; from then on no [dvfs_rail_stats_update]
    reads or writes outside the table, and each leaves the index inside it. *)
Theorem stats_init_makes_updates_safe
    (top DVFS_RAIL_STATS_BIN : Z) (rail : dvfs_rail) (mvolts now : Z) :
  0 <= top < Z.of_nat (length (time_at_mv (stats rail))) ->
  0 <= last_index (stats rail) < Z.of_nat (length (time_at_mv (stats rail))) ->
  0 < (if bin_uv (stats rail) =? 0 then DVFS_RAIL_STATS_BIN else bin_uv (stats rail))
    <= 100000000 ->
  mvolts - min_millivolts rail <= 1000000 ->
  exists st,
    dvfs_rail_stats_init top DVFS_RAIL_STATS_BIN rail mvolts now = Ok st /\
    stats_ready top st /\
    time_at_mv st = time_at_mv (stats rail) /\ last_update st = now /\
    forall mvolts' now', mvolts' - min_millivolts rail <= 1000000 ->
      exists st', dvfs_rail_stats_update top (set_stats st rail) mvolts' now' = Ok st' /\
                  stats_ready top st'.
Proof.
  intros Htop Hidx Hbin Hmv. unfold dvfs_rail_stats_init.
  set (bin := if bin_uv (stats rail) =? 0 then _ else _) in *.
  set (st1 := {| time_at_mv := time_at_mv (stats rail); last_update := now;
                 last_index := last_index (stats rail); off := off (stats rail);
                 bin_uv := bin |}).
  assert (Hst : exists st,
            (if mvolts >=? min_millivolts rail
             then rbind (stats_bin top (set_stats st1 rail) mvolts)
                    (fun i => Ok {| time_at_mv := time_at_mv (stats rail);
                                    last_update := now; last_index := i;
                                    off := off (stats rail); bin_uv := bin |})
             else Ok st1) = Ok st /\
            stats_ready top st /\ time_at_mv st = time_at_mv (stats rail) /\
            last_update st = now).
  { destruct (Z.geb_spec mvolts (min_millivolts rail)) as [Hge|Hlt].
    - destruct (stats_bin_range top (set_stats st1 rail) mvolts) as (i & Hi & Hr);
        [lia|exact Hbin|cbn; lia|].
      rewrite Hi. cbn [rbind]. eexists. split; [reflexivity|].
      unfold stats_ready. cbn. repeat split; lia.
    - exists st1. split; [reflexivity|]. unfold stats_ready. cbn. repeat split; lia. }
  destruct Hst as (st & Hrun & Hready & Htime & Hlast).
  exists st. split; [exact Hrun|]. split; [exact Hready|]. split; [exact Htime|].
  split; [exact Hlast|]. intros mvolts' now' Hmv'.
  apply (stats_update_ready top (set_stats st rail) mvolts' now'); [exact Hready|exact Hmv'].
Qed.

Lemma stats_init_makes_updates_safe_witness :
  exists st,
    dvfs_rail_stats_init 100 12500 ex_boot_rail 1000 5 = Ok st /\
    stats_ready 100 st /\
    time_at_mv st = time_at_mv (stats ex_boot_rail) /\ last_update st = 5 /\
    forall mvolts' now', mvolts' - min_millivolts ex_boot_rail <= 1000000 ->
      exists st', dvfs_rail_stats_update 100 (set_stats st ex_boot_rail) mvolts' now'
                  = Ok st' /\
                  stats_ready 100 st'.
Proof.
  apply (stats_init_makes_updates_safe 100 12500 ex_boot_rail 1000 5);
    simpl; lia.
Defined.

(** * Registration *)

Lemma rail_by_name_app (name : string) (rs rs' : list dvfs_rail) (i : nat) :
  rail_by_name name (rs ++ rs') i
  = match rail_by_name name rs i with
    | Some k => Some k
    | None => rail_by_name name rs' (i + length rs)
    end.
Proof.
  revert i. induction rs as [|x rs IH]; intros i; cbn [app rail_by_name length].
  - rewrite Nat.add_0_r. reflexivity.
  - destruct (String.eqb (reg_id x) name); [reflexivity|].
    rewrite IH. replace (S i + length rs)%nat with (i + S (length rs))%nat by lia.
    reflexivity.
Qed.

Lemma rail_by_name_init (name : string) (rs : list dvfs_rail) (i : nat) :
  rail_by_name name (map init_rail rs) i = rail_by_name name rs i.
Proof.
  revert i. induction rs as [|x rs IH]; intros i; cbn [map rail_by_name]; [reflexivity|].
  rewrite IH. reflexivity.
Qed.

Lemma rail_by_name_shift (name : string) (rs : list dvfs_rail) (i : nat) :
  rail_by_name name rs i = (fun k => (i + k)%nat) <$> rail_by_name name rs 0.
Proof.
  revert i. induction rs as [|x rs IH]; intros i; cbn [rail_by_name]; [reflexivity|].
  destruct (String.eqb (reg_id x) name); [cbn; f_equal; lia|].
  rewrite (IH (S i)), (IH 1%nat). destruct (rail_by_name name rs 0); cbn; [f_equal; lia|].
  reflexivity.
Qed.

Lemma rail_by_name_Some (name : string) (rs : list dvfs_rail) (k : nat) :
  rail_by_name name rs 0 = Some k ->
  exists y, rs !! k = Some y /\ reg_id y = name /\
            forall j z, (j < k)%nat -> rs !! j = Some z -> reg_id z <> name.
Proof.
  revert k. induction rs as [|x rs IH]; intros k H; cbn [rail_by_name] in H; [discriminate|].
  destruct (String.eqb_spec (reg_id x) name) as [E|Hne].
  - injection H as <-. exists x. split; [reflexivity|]. split; [exact E|]. intros; lia.
  - rewrite rail_by_name_shift in H. destruct (rail_by_name name rs 0) as [k0|] eqn:Hk0;
      [|discriminate].
    cbn in H. injection H as <-. destruct (IH k0 eq_refl) as (y & Hy & Hn & Hfirst).
    exists y. split; [exact Hy|]. split; [exact Hn|].
    intros j z Hj Hz. destruct j as [|j]; cbn in Hz; [congruence|].
    apply (Hfirst j z); [lia|exact Hz].
Qed.

Lemma rail_by_name_In (name : string) (rs : list dvfs_rail) :
  (exists x, In x rs /\ reg_id x = name) -> exists k, rail_by_name name rs 0 = Some k.
Proof.
  induction rs as [|x rs IH]; intros (y & Hin & Hy); [destruct Hin|]. cbn [rail_by_name].
  destruct (String.eqb_spec (reg_id x) name) as [E|Hne]; [eauto|].
  destruct Hin as [->|Hin]; [contradiction|].
  destruct IH as (k & Hk); [eauto|]. rewrite rail_by_name_shift, Hk. cbn. eauto.
Qed.

Lemma named_dec (name : string) (rs : list dvfs_rail) :
  (exists x, In x rs /\ reg_id x = name) \/ (forall x, In x rs -> reg_id x <> name).
Proof.
  induction rs as [|x rs IH]; [right; intros y []|].
  destruct (String.eqb_spec (reg_id x) name) as [E|Hne]; [left; exists x; cbn; auto|].
  destruct IH as [(y & Hin & Hy)|Hno]; [left; exists y; cbn; auto|].
  right. intros y [<-|Hin]; [exact Hne|apply Hno, Hin].
Qed.

(** What [tegra_dvfs_init_rails] does to the world and to [tegra_cpu_rail]. *)
Lemma init_rails_run (rs : list dvfs_rail) :
  forall (cpu : option nat) (w w' : world) (cpu' : option nat) (ret : Z),
    tegra_dvfs_init_rails rs cpu w = (w', cpu', ret) ->
    ret = 0 /\ rails w' = rails w ++ map init_rail rs /\
    clocks w' = clocks w /\ rels w' = rels w /\ reg_log w' = reg_log w /\
    ((forall x, In x rs -> reg_id x <> "vdd-core"%string) ->
     tegra_core_rail w' = tegra_core_rail w) /\
    ((exists x, In x rs /\ reg_id x = "vdd-core"%string) ->
     exists k y, tegra_core_rail w' = Some k /\ (length (rails w) <= k)%nat /\
                 rails w' !! k = Some y /\ reg_id y = "vdd-core"%string) /\
    ((forall x, In x rs -> reg_id x <> "vdd-cpu"%string) -> cpu' = cpu) /\
    ((exists x, In x rs /\ reg_id x = "vdd-cpu"%string) ->
     exists k y, cpu' = Some k /\ (length (rails w) <= k)%nat /\
                 rails w' !! k = Some y /\ reg_id y = "vdd-cpu"%string).
Proof.
  induction rs as [|x rs IH]; intros cpu w w' cpu' ret H; cbn [tegra_dvfs_init_rails] in H.
  { injection H as <- <- <-. rewrite app_nil_r.
    repeat split; try reflexivity; intros (y & [] & _). }
  set (w1 := set_rails (rails w ++ [init_rail x]) w) in H.
  assert (Hnew : forall v, rails v = rails w1 ++ map init_rail rs ->
                   rails v !! length (rails w) = Some (init_rail x)).
  { intros v ->. cbn. rewrite <- app_assoc. rewrite lookup_app_r by reflexivity.
    rewrite Nat.sub_diag. reflexivity. }
  assert (Hlen1 : length (rails w1) = S (length (rails w)))
    by (cbn; rewrite length_app; cbn; lia).
  assert (Hlater : forall (P : option nat -> Prop) (name : string),
            (exists k y, P (Some k) /\ (length (rails w1) <= k)%nat /\
                         rails w' !! k = Some y /\ reg_id y = name) ->
            exists k y, P (Some k) /\ (length (rails w) <= k)%nat /\
                        rails w' !! k = Some y /\ reg_id y = name).
  { intros P name (k & z & Hk & Hge & Hz & Hn). exists k, z.
    rewrite Hlen1 in Hge. repeat split; auto; lia. }
  assert (Htail : forall name, (forall y, In y (x :: rs) -> reg_id y <> name) ->
                    forall y, In y rs -> reg_id y <> name)
    by (intros name Hno y Hy; apply Hno; right; exact Hy).
  destruct (String.eqb_spec "vdd-cpu" (reg_id x)) as [Ecpu|Hcpu];
    [|destruct (String.eqb_spec "vdd-core" (reg_id x)) as [Ecore|Hcore]].
  - destruct (IH _ _ _ _ _ H) as (-> & Hr & Hc & Hl & Hg & Hk0 & Hk1 & Hp0 & Hp1).
    split; [reflexivity|]. split; [rewrite Hr; cbn; rewrite <- app_assoc; reflexivity|].
    split; [exact Hc|]. split; [exact Hl|]. split; [exact Hg|].
    split; [intros Hno; apply Hk0, Htail, Hno|]. split.
    { intros (y & [->|Hin] & Hy); [rewrite <- Ecpu in Hy; discriminate|].
      apply (Hlater (fun o => tegra_core_rail w' = o)), Hk1. eauto. }
    split; [intros Hno; exfalso; apply (Hno x); [left; reflexivity|auto]|].
    intros _. destruct (named_dec "vdd-cpu" rs) as [Hsome|Hnone].
    + apply (Hlater (fun o => cpu' = o)), Hp1, Hsome.
    + exists (length (rails w)), (init_rail x). split; [apply Hp0, Hnone|].
      split; [lia|]. split; [apply Hnew, Hr|]. symmetry. exact Ecpu.
  - destruct (IH _ _ _ _ _ H) as (-> & Hr & Hc & Hl & Hg & Hk0 & Hk1 & Hp0 & Hp1).
    split; [reflexivity|]. split; [rewrite Hr; cbn; rewrite <- app_assoc; reflexivity|].
    split; [exact Hc|]. split; [exact Hl|]. split; [exact Hg|].
    split; [intros Hno; exfalso; apply (Hno x); [left; reflexivity|auto]|].
    split.
    { intros _. destruct (named_dec "vdd-core" rs) as [Hsome|Hnone].
      + apply (Hlater (fun o => tegra_core_rail w' = o)), Hk1, Hsome.
      + exists (length (rails w)), (init_rail x). split; [apply Hk0, Hnone|].
        split; [lia|]. split; [apply Hnew, Hr|]. symmetry. exact Ecore. }
    split; [intros Hno; apply Hp0, Htail, Hno|].
    intros (y & [->|Hin] & Hy); [congruence|].
    apply (Hlater (fun o => cpu' = o)), Hp1. eauto.
  - destruct (IH _ _ _ _ _ H) as (-> & Hr & Hc & Hl & Hg & Hk0 & Hk1 & Hp0 & Hp1).
    split; [reflexivity|]. split; [rewrite Hr; cbn; rewrite <- app_assoc; reflexivity|].
    split; [exact Hc|]. split; [exact Hl|]. split; [exact Hg|].
    split; [intros Hno; apply Hk0, Htail, Hno|]. split.
    { intros (y & [->|Hin] & Hy); [congruence|].
      apply (Hlater (fun o => tegra_core_rail w' = o)), Hk1. eauto. }
    split; [intros Hno; apply Hp0, Htail, Hno|].
    intros (y & [->|Hin] & Hy); [congruence|].
    apply (Hlater (fun o => cpu' = o)), Hp1. eauto.
Qed.

Lemma init_rail_levels (x : dvfs_rail) :
  let y := init_rail x in
  millivolts y = nominal_millivolts y /\ new_millivolts y = nominal_millivolts y /\
  tegra_dvfs_rail_get_suspend_level y <= nominal_millivolts y /\
  tegra_dvfs_rail_get_disable_level y <= nominal_millivolts y /\
  dvfs_list y = [] /\ relationships_from y = [] /\ relationships_to y = [] /\
  (max_millivolts y <> 0 -> step y <> 0 /\ step_up y <> 0).
Proof.
  cbn zeta. split; [reflexivity|]. split; [reflexivity|].
  unfold tegra_dvfs_rail_get_suspend_level, tegra_dvfs_rail_get_disable_level.
  cbn [init_rail suspend_millivolts disable_millivolts nominal_millivolts dvfs_list
       relationships_from relationships_to max_millivolts step step_up].
  split; [|split].
  - destruct (Z.gtb_spec (suspend_millivolts x) (nominal_millivolts x));
      destruct (_ =? 0); cbn [negb]; lia.
  - destruct (Z.gtb_spec (disable_millivolts x) (nominal_millivolts x));
      destruct (_ =? 0); cbn [negb]; lia.
  - split; [reflexivity|]. split; [reflexivity|]. split; [reflexivity|].
    intros Hmax. destruct (Z.eqb_spec (step x) 0) as [E|Hne].
    + split; [exact Hmax|]. destruct (Z.eqb_spec (step_up x) 0); assumption.
    + split; [exact Hne|]. destruct (Z.eqb_spec (step_up x) 0); assumption.
Qed.

(** X16: [tegra_dvfs_init_rails] returns 0 and appends the rails in the order
    given.  Each stands at its nominal voltage with empty lists, its suspend
    and disable levels are at most nominal, and its steps are not 0 unless
    its maximum is.  Every rail handed in is found by
    [tegra_dvfs_get_rail_by_name], which returns the first rail registered
    under the name, and a rail named "vdd-core" leaves [tegra_core_rail]
    pointing at a rail of that name. *)
Theorem init_rails_registers
    (rs : list dvfs_rail) (cpu : option nat) (w w' : world) (cpu' : option nat) (ret : Z) :
  tegra_dvfs_init_rails rs cpu w = (w', cpu', ret) ->
  ret = 0 /\ rails w' = rails w ++ map init_rail rs /\
  (forall y, In y (map init_rail rs) ->
     millivolts y = nominal_millivolts y /\ new_millivolts y = nominal_millivolts y /\
     tegra_dvfs_rail_get_suspend_level y <= nominal_millivolts y /\
     tegra_dvfs_rail_get_disable_level y <= nominal_millivolts y /\
     dvfs_list y = [] /\ relationships_from y = [] /\ relationships_to y = [] /\
     (max_millivolts y <> 0 -> step y <> 0 /\ step_up y <> 0)) /\
  (forall j x, rs !! j = Some x ->
     exists k y, tegra_dvfs_get_rail_by_name w' (reg_id x) = Some k /\
                 (k <= length (rails w) + j)%nat /\
                 rails w' !! k = Some y /\ reg_id y = reg_id x) /\
  ((exists x, In x rs /\ reg_id x = "vdd-core"%string) ->
   exists k y, tegra_core_rail w' = Some k /\ rails w' !! k = Some y /\
               reg_id y = "vdd-core"%string).
Proof.
  intros H. destruct (init_rails_run _ _ _ _ _ _ H)
    as (Hret & Hr & _ & _ & _ & _ & Hcore & _ & _).
  split; [exact Hret|]. split; [exact Hr|]. split; [|split].
  - intros y Hy. apply in_map_iff in Hy as (x & <- & _). apply init_rail_levels.
  - intros j x Hx. unfold tegra_dvfs_get_rail_by_name. rewrite Hr, rail_by_name_app.
    destruct (rail_by_name (reg_id x) (rails w) 0) as [k|] eqn:Hold.
    + destruct (rail_by_name_Some _ _ _ Hold) as (y & Hy & Hn & _).
      exists k, y. split; [reflexivity|]. pose proof (lookup_lt_Some _ _ _ Hy).
      split; [lia|]. split; [apply lookup_app_l_Some, Hy|exact Hn].
    + rewrite rail_by_name_init, rail_by_name_shift.
      destruct (rail_by_name_In (reg_id x) rs) as (k0 & Hk0).
      { exists x. split; [|reflexivity].
        apply list_elem_of_In. eapply list_elem_of_lookup_2, Hx. }
      rewrite Hk0. cbn.
      destruct (rail_by_name_Some _ _ _ Hk0) as (y & Hy & Hn & Hfirst).
      exists (length (rails w) + k0)%nat, (init_rail y). split; [reflexivity|].
      split.
      { destruct (Nat.le_gt_cases k0 j) as [|Hlt]; [lia|].
        exfalso. apply (Hfirst j x Hlt Hx). reflexivity. }
      split; [|exact Hn].
      rewrite lookup_app_r by lia.
      replace (length (rails w) + k0 - length (rails w))%nat with k0 by lia.
      rewrite list_lookup_fmap, Hy. reflexivity.
  - intros Hsome. destruct (Hcore Hsome) as (k & y & Hk & _ & Hy & Hn). eauto.
Qed.

Lemma init_rails_registers_witness :
  let res := tegra_dvfs_init_rails ex_board_rails None w_empty in
  let w' := fst (fst res) in
  snd res = 0 /\ rails w' = rails w_empty ++ map init_rail ex_board_rails /\
  (forall y, In y (map init_rail ex_board_rails) ->
     millivolts y = nominal_millivolts y /\ new_millivolts y = nominal_millivolts y /\
     tegra_dvfs_rail_get_suspend_level y <= nominal_millivolts y /\
     tegra_dvfs_rail_get_disable_level y <= nominal_millivolts y /\
     dvfs_list y = [] /\ relationships_from y = [] /\ relationships_to y = [] /\
     (max_millivolts y <> 0 -> step y <> 0 /\ step_up y <> 0)) /\
  (forall j x, ex_board_rails !! j = Some x ->
     exists k y, tegra_dvfs_get_rail_by_name w' (reg_id x) = Some k /\
                 (k <= length (rails w_empty) + j)%nat /\
                 rails w' !! k = Some y /\ reg_id y = reg_id x) /\
  ((exists x, In x ex_board_rails /\ reg_id x = "vdd-core"%string) ->
   exists k y, tegra_core_rail w' = Some k /\ rails w' !! k = Some y /\
               reg_id y = "vdd-core"%string).
Proof.
  intros res w'.
  apply (init_rails_registers ex_board_rails None w_empty w' (snd (fst res)) (snd res)).
  reflexivity.
Defined.

(** ** Relationships *)

Lemma add_relationships_run (es : list dvfs_relationship) :
  forall (w w' : world),
    tegra_dvfs_add_relationships es w = Ok w' ->
    rels w' = rels w ++ es /\ clocks w' = clocks w /\ reg_log w' = reg_log w /\
    length (rails w') = length (rails w) /\
    forall i x, rails w !! i = Some x ->
      rails w' !! i
      = Some (set_relationships_to
                (relationships_to x ++ edge_ids from i (length (rels w)) es)
                (set_relationships_from
                   (relationships_from x ++ edge_ids to i (length (rels w)) es) x)).
Proof.
  induction es as [|rel es IH]; intros w w' H; cbn [tegra_dvfs_add_relationships] in H.
  { injection H as <-. rewrite app_nil_r. repeat split.
    intros i x Hx. rewrite Hx. cbn [edge_ids]. rewrite !app_nil_r.
    destruct x; reflexivity. }
  apply rbind_Ok in H as (tr & _ & H). apply rbind_Ok in H as (fr & _ & H).
  set (k := length (rels w)) in *.
  set (f1 := fun y => set_relationships_from (relationships_from y ++ [k]) y) in H.
  set (f2 := fun y => set_relationships_to (relationships_to y ++ [k]) y) in H.
  set (W := upd_rail (from rel) f2 (upd_rail (to rel) f1 (set_rels (rels w ++ [rel]) w)))
    in H.
  assert (HWk : length (rels W) = S k) by (cbn; rewrite length_app; cbn; lia).
  assert (HWr : rails W = alter f2 (from rel) (alter f1 (to rel) (rails w)))
    by reflexivity.
  assert (HWe : rels W = rels w ++ [rel]) by reflexivity.
  destruct (IH W w' H) as (Hrels & Hclocks & Hlog & Hlen & Hrails).
  rewrite HWk in Hrails.
  split; [rewrite Hrels, HWe, <- app_assoc; reflexivity|].
  split; [exact Hclocks|]. split; [exact Hlog|].
  split; [rewrite Hlen, HWr, !length_alter; reflexivity|].
  intros i x Hx.
  set (x1 := if Nat.eqb (to rel) i then f1 x else x).
  set (x2 := if Nat.eqb (from rel) i then f2 x1 else x1).
  assert (Hx2 : rails W !! i = Some x2).
  { rewrite HWr.
    assert (Hx1 : alter f1 (to rel) (rails w) !! i = Some x1).
    { subst x1. destruct (Nat.eqb_spec (to rel) i) as [->|Hne].
      - rewrite list_lookup_alter_eq, Hx. reflexivity.
      - rewrite list_lookup_alter_ne by exact Hne. exact Hx. }
    subst x2. destruct (Nat.eqb_spec (from rel) i) as [->|Hne].
    - rewrite list_lookup_alter_eq, Hx1. reflexivity.
    - rewrite list_lookup_alter_ne by exact Hne. exact Hx1. }
  rewrite (Hrails i x2 Hx2). f_equal.
  cbn [edge_ids]. subst x2 x1 f1 f2.
  destruct (Nat.eqb (to rel) i), (Nat.eqb (from rel) i); destruct x; cbn;
    rewrite <- ?app_assoc; reflexivity.
Qed.

(** X17: [tegra_dvfs_add_relationships] succeeds whenever both ends of every
    relationship are registered rails; loops and cycles are accepted.  Each
    relationship is appended to the list [relationships_from] of its [to]
    rail and to the list [relationships_to] of its [from] rail, in the order
    given and after the entries already there; nothing else changes. *)
Theorem add_relationships_links_both_ends (es : list dvfs_relationship) (w : world) :
  Forall (fun e => (from e < length (rails w))%nat /\ (to e < length (rails w))%nat) es ->
  exists w',
    tegra_dvfs_add_relationships es w = Ok w' /\
    rels w' = rels w ++ es /\ clocks w' = clocks w /\ reg_log w' = reg_log w /\
    length (rails w') = length (rails w) /\
    forall i x, rails w !! i = Some x ->
      rails w' !! i
      = Some (set_relationships_to
                (relationships_to x ++ edge_ids from i (length (rels w)) es)
                (set_relationships_from
                   (relationships_from x ++ edge_ids to i (length (rels w)) es) x)).
Proof.
  intros Hends.
  assert (Hrun : exists w', tegra_dvfs_add_relationships es w = Ok w').
  { revert w Hends. induction es as [|rel es IH]; intros w Hends;
      cbn [tegra_dvfs_add_relationships]; [eauto|].
    apply Forall_cons in Hends as ((Hfrom & Hto) & Hrest).
    unfold get_rail. cbn [rails set_rels upd_rail set_rails].
    destruct (lookup_lt_is_Some_2 (rails w) (to rel) Hto) as [tr ->]. cbn [of_option rbind].
    destruct (lookup_lt_is_Some_2 (alter
                (fun x => set_relationships_from
                            (relationships_from x ++ [length (rels w)]) x)
                (to rel) (rails w)) (from rel)) as [fr ->];
      [rewrite length_alter; exact Hfrom|].
    cbn [of_option rbind]. apply IH.
    eapply Forall_impl; [exact Hrest|]. cbv beta. intros e He. cbn.
    rewrite !length_alter. exact He. }
  destruct Hrun as (w' & Hrun). exists w'. split; [exact Hrun|].
  apply add_relationships_run, Hrun.
Qed.

Lemma add_relationships_links_both_ends_witness :
  let es := [ {| from := 0; to := 1; solved_at_nominal := false; solve := ex_follow |};
              {| from := 1; to := 0; solved_at_nominal := false; solve := ex_follow |};
              {| from := 1; to := 1; solved_at_nominal := true; solve := ex_follow |} ] in
  exists w',
    tegra_dvfs_add_relationships es w_cycle = Ok w' /\
    rels w' = rels w_cycle ++ es /\ clocks w' = clocks w_cycle /\
    reg_log w' = reg_log w_cycle /\
    length (rails w') = length (rails w_cycle) /\
    forall i x, rails w_cycle !! i = Some x ->
      rails w' !! i
      = Some (set_relationships_to
                (relationships_to x ++ edge_ids from i (length (rels w_cycle)) es)
                (set_relationships_from
                   (relationships_from x ++ edge_ids to i (length (rels w_cycle)) es) x)).
Proof.
  intros es. apply (add_relationships_links_both_ends es w_cycle).
  repeat constructor.
Defined.

(** * Rail switches *)

Lemma apply_limits_value (rail : dvfs_rail) (mvolts v : Z) :
  dvfs_rail_apply_limits rail mvolts = Ok v ->
  v = if negb (override_millivolts rail =? 0) then override_millivolts rail else mvolts.
Proof.
  unfold dvfs_rail_apply_limits. intros H.
  apply rbind_Ok in H as (lo & _ & H). apply rbind_Ok in H as (hi & _ & H).
  injection H as <-. reflexivity.
Qed.

(** X18: [tegra_dvfs_rail_disable] never lowers a rail to disable it.  On a
    rail in DFLL mode it only sets the flag.  Otherwise, with the disable
    level (or the override) below the rail's voltage nothing at all changes
    and the rail stays enabled; and whenever the rail ends up disabled it
    stands exactly at that level, which was not below its voltage. *)
Theorem rail_disable_only_at_level (fuel r : nat) (w w' : world) (x : dvfs_rail) :
  rails w !! r = Some x -> disabled x = false ->
  tegra_dvfs_rail_disable fuel (Some r) w = Ok w' ->
  let lvl := if negb (override_millivolts x =? 0) then override_millivolts x
             else tegra_dvfs_rail_get_disable_level x in
  exists x', rails w' !! r = Some x' /\
    (dfll_mode x = true -> w' = upd_rail r (set_disabled true) w) /\
    (dfll_mode x = false ->
     (lvl < millivolts x -> w' = w) /\
     (disabled x' = true -> millivolts x' = lvl /\ millivolts x <= lvl)).
Proof.
  intros Hx Hdis H lvl. unfold tegra_dvfs_rail_disable in H.
  rewrite (get_rail_lookup _ _ _ Hx) in H. cbn [rbind] in H. rewrite Hdis in H.
  unfold __tegra_dvfs_rail_disable in H.
  rewrite (get_rail_lookup _ _ _ Hx) in H. cbn [rbind] in H.
  destruct (dfll_mode x) eqn:Hdfll.
  { injection H as <-. exists (set_disabled true x).
    split; [apply lookup_upd_rail_eq, Hx|]. split; [reflexivity|discriminate]. }
  apply rbind_Ok in H as (v & Hv & H). apply apply_limits_value in Hv. fold lvl in Hv.
  subst v. destruct (Z.geb_spec lvl (millivolts x)) as [Hge|Hlt].
  2:{ cbn [rbind] in H. injection H as <-. exists x. split; [exact Hx|].
      split; [discriminate|]. intros _. split; [reflexivity|]. rewrite Hdis. discriminate. }
  apply rbind_Ok in H as ([w1 ret] & Hrun & H).
  assert (Hpost : exists x1, rails w1 !! r = Some x1 /\ disabled x1 = false /\
                             (ret = 0 -> millivolts x1 = lvl)).
  { destruct (reg x) as [h|] eqn:Hreg.
    - destruct (set_voltage_stepping_result _ _ _ _ _ _ _ _ Hx Hreg Hdfll Hdis Hrun)
        as (x1 & Hx1 & Hd1 & _ & Hreached). eauto.
    - unfold dvfs_rail_set_voltage, dvfs_rail_set_voltage_body in Hrun.
      rewrite (get_rail_lookup _ _ _ Hx) in Hrun. cbn [rbind] in Hrun.
      rewrite Hreg in Hrun. exists x.
      destruct (Z.eqb_spec lvl (millivolts x)) as [E|_]; injection Hrun as <- <-.
      + auto.
      + split; [exact Hx|]. split; [exact Hdis|]. unfold EINVAL. discriminate. }
  destruct Hpost as (x1 & Hx1 & Hd1 & Hreached).
  destruct (Z.eqb_spec ret 0) as [->|Hne]; cbn [negb] in H; injection H as <-.
  - exists (set_disabled true x1). split; [apply lookup_upd_rail_eq, Hx1|].
    split; [discriminate|]. intros _. split; [lia|]. intros _. cbn.
    split; [apply Hreached; reflexivity|lia].
  - exists x1. split; [exact Hx1|]. split; [discriminate|]. intros _. split; [lia|].
    rewrite Hd1. discriminate.
Qed.

Lemma rail_disable_only_at_level_witness :
  let w' := world_after w_disable
              (rbind (tegra_dvfs_rail_disable 1 (Some 0%nat) w_disable)
                 (fun v => Ok (v, 0))) in
  let lvl := if negb (override_millivolts ex_disable_rail =? 0)
             then override_millivolts ex_disable_rail
             else tegra_dvfs_rail_get_disable_level ex_disable_rail in
  exists x', rails w' !! 0%nat = Some x' /\
    (dfll_mode ex_disable_rail = true -> w' = upd_rail 0 (set_disabled true) w_disable) /\
    (dfll_mode ex_disable_rail = false ->
     (lvl < millivolts ex_disable_rail -> w' = w_disable) /\
     (disabled x' = true -> millivolts x' = lvl /\ millivolts ex_disable_rail <= lvl)).
Proof.
  intros w'.
  apply (rail_disable_only_at_level 1 0 w_disable w' ex_disable_rail);
    [reflexivity | reflexivity | vm_compute; reflexivity].
Defined.

(** ** Resume *)

Lemma resume_update_steady (fuel : nat) (rs : list nat) (w w' : world) :
  resume_update fuel rs w = Ok w' ->
  steady w w' /\ clocks w' = clocks w /\
  forall i x, rails w !! i = Some x ->
    exists x', rails w' !! i = Some x' /\ suspended x' = suspended x /\
               disabled x' = disabled x /\ resolving_to x' = resolving_to x.
Proof.
  revert w. induction rs as [|r rs IH]; intros w H; cbn [resume_update] in H.
  { injection H as <-. split; [apply steady_refl|]. split; [reflexivity|]. eauto. }
  apply rbind_Ok in H as ([w1 ret] & Hrun & H).
  pose proof (update_steady _ _ _ _ _ Hrun) as S1.
  pose proof (update_partial fuel (free w) r w (le_n _)) as F1.
  rewrite Hrun in F1. cbn in F1.
  destruct (IH _ H) as (S2 & C2 & K2).
  split; [eapply steady_trans; eassumption|].
  split; [rewrite C2; apply (frame_clocks _ _ _ F1)|].
  intros i x Hx. destruct (frame_rails _ _ _ F1 _ _ Hx) as (x1 & Hx1 & (Ks & Kd & Kr) & _).
  destruct (K2 _ _ Hx1) as (x' & Hx' & Ks' & Kd' & Kr').
  exists x'. split; [exact Hx'|]. repeat split; congruence.
Qed.

(** X19: [tegra_dvfs_resume] clears the [suspended] flag of every rail and
    changes no other setting, no clock and no recursion guard.  A rail that
    is disabled or has no regulator is otherwise untouched, and no regulator
    write is made for such a rail. *)
Theorem resume_spares_disabled_rails (fuel : nat) (w w' : world) :
  tegra_dvfs_resume fuel w = Ok w' ->
  clocks w' = clocks w /\
  (forall i x, rails w !! i = Some x ->
     exists x', rails w' !! i = Some x' /\ suspended x' = false /\
                settings x' = settings (set_suspended false x) /\
                resolving_to x' = resolving_to x /\
                (disabled x = true \/ has_reg x = false -> x' = set_suspended false x)) /\
  exists suffix, reg_log w' = reg_log w ++ suffix /\
    Forall (fun e => exists x, rails w !! rw_rail e = Some x /\ disabled x = false /\
                               reg x = Some (rw_reg e))
           suffix.
Proof.
  intros H. unfold tegra_dvfs_resume in H.
  set (w1 := set_rails (map (set_suspended false) (rails w)) w) in H.
  destruct (resume_update_steady _ _ _ _ H) as (S & C & K).
  assert (Hw1 : forall i x, rails w !! i = Some x ->
                  rails w1 !! i = Some (set_suspended false x)).
  { intros i x Hx. cbn. rewrite list_lookup_fmap, Hx. reflexivity. }
  split; [exact C|]. split.
  - intros i x Hx. specialize (Hw1 _ _ Hx).
    destruct (steady_rails _ _ S _ _ Hw1) as (x' & Hx' & Hs & Hp).
    destruct (K _ _ Hw1) as (y & Hy & Ks & _ & Kr).
    assert (y = x') by congruence. subst y.
    exists x'. split; [exact Hx'|]. split; [exact Ks|]. split; [exact Hs|].
    split; [exact Kr|]. intros Hpark. apply Hp. unfold parked, has_reg in *. cbn.
    destruct Hpark as [->| ->]; [reflexivity|apply orb_true_r].
  - destruct (steady_log _ _ S) as (suffix & Hlog & HF). exists suffix.
    split; [exact Hlog|]. eapply Forall_impl; [exact HF|]. cbv beta.
    intros e (x1 & Hx1 & Hp & Hr & _). cbn in Hx1. rewrite list_lookup_fmap in Hx1.
    destruct (rails w !! rw_rail e) as [x|]; [|discriminate]. cbn in Hx1.
    injection Hx1 as <-. exists x. split; [reflexivity|].
    unfold parked in Hp. cbn in Hp. destruct (disabled x); [discriminate|].
    split; [reflexivity|exact Hr].
Qed.

Lemma resume_spares_disabled_rails_witness :
  let w' := world_after w_asleep
              (rbind (tegra_dvfs_resume 3 w_asleep) (fun v => Ok (v, 0))) in
  clocks w' = clocks w_asleep /\
  (forall i x, rails w_asleep !! i = Some x ->
     exists x', rails w' !! i = Some x' /\ suspended x' = false /\
                settings x' = settings (set_suspended false x) /\
                resolving_to x' = resolving_to x /\
                (disabled x = true \/ has_reg x = false -> x' = set_suspended false x)) /\
  exists suffix, reg_log w' = reg_log w_asleep ++ suffix /\
    Forall (fun e => exists x, rails w_asleep !! rw_rail e = Some x /\ disabled x = false /\
                               reg x = Some (rw_reg e))
           suffix.
Proof.
  intros w'. apply (resume_spares_disabled_rails 3 w_asleep w').
  vm_compute. reflexivity.
Defined.

(** ** Suspend *)

(** What [dvfs_rail_set_voltage] leaves of a rail that is not disabled. *)
Lemma set_voltage_result
    (fuel r : nat) (mvolts : Z) (w w' : world) (ret : Z) (x : dvfs_rail) :
  rails w !! r = Some x -> disabled x = false ->
  dvfs_rail_set_voltage fuel r mvolts w = Ok (w', ret) ->
  exists x', rails w' !! r = Some x' /\ disabled x' = false /\
             suspended x' = suspended x /\ (ret = 0 -> millivolts x' = mvolts).
Proof.
  intros Hx Hdis Hrun.
  destruct (reg x) as [h|] eqn:Hreg; [destruct (dfll_mode x) eqn:Hdfll|].
  - unfold dvfs_rail_set_voltage, dvfs_rail_set_voltage_body in Hrun.
    rewrite (get_rail_lookup _ _ _ Hx) in Hrun. cbn [rbind] in Hrun.
    rewrite Hreg, Hdfll in Hrun.
    apply rbind_Ok in Hrun as (w2 & H2 & Hrun). injection Hrun as <- <-.
    unfold rail_stats_update in H2.
    rewrite (get_rail_lookup _ _ _ (lookup_upd_rail_eq _ _ _ _ Hx)) in H2.
    cbn [rbind] in H2. apply rbind_Ok in H2 as (st & _ & H2). injection H2 as <-.
    eexists. split; [apply lookup_upd_rail_eq, lookup_upd_rail_eq, Hx|]. cbn. auto.
  - apply (set_voltage_stepping_result _ _ _ _ _ _ _ _ Hx Hreg Hdfll Hdis Hrun).
  - unfold dvfs_rail_set_voltage, dvfs_rail_set_voltage_body in Hrun.
    rewrite (get_rail_lookup _ _ _ Hx) in Hrun. cbn [rbind] in Hrun.
    rewrite Hreg in Hrun. exists x.
    destruct (Z.eqb_spec mvolts (millivolts x)) as [E|_]; injection Hrun as <- <-.
    + auto.
    + split; [exact Hx|]. split; [exact Hdis|]. split; [reflexivity|].
      unfold EINVAL. discriminate.
Qed.

Lemma suspend_one_from_level (fuel : nat) (rs : list nat) (w w1 : world) :
  suspend_one_from fuel rs w = Ok (w1, 0) ->
  exists r x x1,
    In r rs /\ rails w !! r = Some x /\ suspended x = false /\ disabled x = false /\
    rails w1 !! r = Some x1 /\ suspended x1 = true /\
    millivolts x1
    = Z.max (if negb (override_millivolts x =? 0) then override_millivolts x
             else tegra_dvfs_rail_get_suspend_level x)
            (millivolts x).
Proof.
  induction rs as [|r rs IH]; cbn [suspend_one_from]; intros H.
  { injection H as _ E. unfold EINVAL in E. discriminate. }
  assert (Hrest : suspend_one_from fuel rs w = Ok (w1, 0) ->
                  exists r' x x1,
                    In r' (r :: rs) /\ rails w !! r' = Some x /\ suspended x = false /\
                    disabled x = false /\ rails w1 !! r' = Some x1 /\
                    suspended x1 = true /\
                    millivolts x1
                    = Z.max (if negb (override_millivolts x =? 0)
                             then override_millivolts x
                             else tegra_dvfs_rail_get_suspend_level x)
                            (millivolts x)).
  { intros Hr. destruct (IH Hr) as (r' & x & x1 & Hin & Hrest). exists r', x, x1.
    split; [right; exact Hin|exact Hrest]. }
  apply rbind_Ok in H as (x & Hx%get_rail_Ok & H).
  destruct (suspended x) eqn:Hs; [apply Hrest, H|].
  destruct (disabled x) eqn:Hd; [apply Hrest, H|].
  apply rbind_Ok in H as (ok & _ & H). destruct ok; cbn [negb] in H; [|apply Hrest, H].
  clear Hrest IH. unfold suspend_rail in H.
  apply rbind_Ok in H as (lvl & Hlvl%apply_limits_value & H).
  apply rbind_Ok in H as ([w' ret] & Hrun & H).
  destruct (Z.eqb_spec ret 0) as [->|Hne]; cbn [negb] in H;
    [|injection H as _ E; congruence].
  injection H as <-. exists r, x.
  destruct (Z.geb_spec lvl (millivolts x)) as [Hge|Hlt].
  - destruct (set_voltage_result _ _ _ _ _ _ _ Hx Hd Hrun) as (x' & Hx' & _ & _ & Hreached).
    exists (set_suspended true x'). split; [left; reflexivity|]. split; [exact Hx|].
    split; [exact Hs|]. split; [exact Hd|].
    split; [apply lookup_upd_rail_eq, Hx'|]. split; [reflexivity|]. cbn.
    rewrite Hreached by reflexivity. subst lvl. lia.
  - injection Hrun as <-. exists (set_suspended true x). split; [left; reflexivity|].
    split; [exact Hx|]. split; [exact Hs|]. split; [exact Hd|].
    split; [apply lookup_upd_rail_eq, Hx|]. split; [reflexivity|]. cbn. subst lvl. lia.
Qed.

(** X21: a pass of [tegra_dvfs_suspend_one] that returns 0 has suspended one
    rail that was neither suspended nor disabled, and leaves it at the higher
    of its voltage before the pass and its suspend level (the override, when
    one is set): a rail is never lowered to suspend it and never suspended
    below the level. *)
Theorem suspend_one_raises_to_level (fuel : nat) (w w1 : world) :
  tegra_dvfs_suspend_one fuel w = Ok (w1, 0) ->
  exists r x x1,
    rails w !! r = Some x /\ suspended x = false /\ disabled x = false /\
    rails w1 !! r = Some x1 /\ suspended x1 = true /\
    millivolts x1
    = Z.max (if negb (override_millivolts x =? 0) then override_millivolts x
             else tegra_dvfs_rail_get_suspend_level x)
            (millivolts x).
Proof.
  intros H. destruct (suspend_one_from_level _ _ _ _ H) as (r & x & x1 & _ & Hrest).
  exists r, x, x1. exact Hrest.
Qed.

Lemma suspend_one_raises_to_level_witness :
  let w1 := world_after w_chain (tegra_dvfs_suspend_one 3 w_chain) in
  exists r x x1,
    rails w_chain !! r = Some x /\ suspended x = false /\ disabled x = false /\
    rails w1 !! r = Some x1 /\ suspended x1 = true /\
    millivolts x1
    = Z.max (if negb (override_millivolts x =? 0) then override_millivolts x
             else tegra_dvfs_rail_get_suspend_level x)
            (millivolts x).
Proof.
  intros w1. apply (suspend_one_raises_to_level 3 w_chain w1). vm_compute. reflexivity.
Defined.

(** * The pace of a ramp *)

Lemma settle_app (r : nat) (s1 s2 : list reg_write) (cur : Z) :
  settle r (s1 ++ s2) cur = settle r s2 (settle r s1 cur).
Proof.
  revert cur. induction s1 as [|e s1 IH]; intros cur; cbn [app settle]; [reflexivity|].
  apply IH.
Qed.

Lemma paced_app (r : nat) (stp lo hi cur : Z) (s1 s2 : list reg_write) :
  paced r stp lo hi cur s1 -> paced r stp lo hi (settle r s1 cur) s2 ->
  paced r stp lo hi cur (s1 ++ s2).
Proof.
  revert cur. induction s1 as [|e s1 IH]; intros cur H1 H2; [exact H2|].
  cbn [app paced] in *. destruct H1 as (He & H1). split; [exact He|].
  apply IH; [exact H1|exact H2].
Qed.

Lemma paced_others (r : nat) (stp lo hi cur : Z) (suf : list reg_write) :
  Forall (fun e => rw_rail e <> r) suf ->
  paced r stp lo hi cur suf /\ settle r suf cur = cur.
Proof.
  intros HF. revert cur. induction HF as [|e suf He _ IH]; intros cur; [split; reflexivity|].
  cbn [paced settle]. apply Nat.eqb_neq in He as Hb. rewrite Hb. cbn [andb].
  destruct (IH cur) as (Hp & Hs). split; [|exact Hs]. split; [|exact Hp].
  intros E. contradiction.
Qed.

(** The dependents of a rail whose ramp is running leave it alone. *)
Lemma dependents_spare_ramping_rail
    (fuel : nat) (ks : list nat) (r : nat) (w w2 : world) (ret : Z) (x : dvfs_rail) :
  rails w !! r = Some x -> resolving_to x = true ->
  update_dependents (dvfs_rail_update fuel) ks w = Ok (w2, ret) ->
  rails w2 !! r = Some x /\
  exists suf, reg_log w2 = reg_log w ++ suf /\ Forall (fun e => rw_rail e <> r) suf.
Proof.
  intros Hx Hflag H.
  pose proof (update_dependents_spec true (free w) (dvfs_rail_update fuel) ks w
                (update_partial fuel _) (le_n _)) as F.
  rewrite H in F. cbn in F. split.
  - destruct (frame_rails _ _ _ F _ _ Hx) as (x' & Hx' & _ & Lsame).
    rewrite Hx'. f_equal. apply Lsame; [exact Hflag|discriminate].
  - destruct (frame_log _ _ _ F) as (suf & Hlog & HF). exists suf. split; [exact Hlog|].
    eapply Forall_impl; [exact HF|]. cbv beta. intros e [He|(y & Hy & Hf)]; [discriminate|].
    intros E. rewrite E in Hy. congruence.
Qed.

Lemma int_abs_small (a : Z) : - INT_MAX <= a <= INT_MAX -> int_abs a = Z.abs a.
Proof.
  intros H. unfold int_abs, int_neg. destruct (Z.ltb_spec a 0).
  - rewrite wrap_int_small by (unfold INT_MIN, INT_MAX in *; lia). lia.
  - lia.
Qed.

(** The voltage one pass of the step loop asks for lies between the rail's
    voltage and the target, at most one step away from the former. *)
Lemma next_step_bounds (mvolts stp mv : Z) (up : bool) :
  0 <= stp <= 2000000 -> 0 <= mv <= 2000000 -> 0 <= mvolts <= 2000000 ->
  (if up then mv <= mvolts else mvolts <= mv) ->
  let new := if negb false && (int_abs (int_sub mvolts mv) >? stp)
             then int_add mv (if up then stp else int_neg stp)
             else mvolts in
  Z.abs (new - mv) <= stp /\ Z.min mv mvolts <= new <= Z.max mv mvolts /\
  (if up then new <= mvolts else mvolts <= new).
Proof.
  intros Hstp Hmv Hmvolts Hdir. cbn [negb andb].
  rewrite int_sub_small by (unfold INT_MIN, INT_MAX; lia).
  rewrite int_abs_small by (unfold INT_MAX; lia).
  destruct (Z.gtb_spec (Z.abs (mvolts - mv)) stp) as [Hfar|Hnear].
  - destruct up.
    + rewrite int_add_small by (unfold INT_MIN, INT_MAX; lia). lia.
    + unfold int_neg. rewrite (wrap_int_small (- stp)) by (unfold INT_MIN, INT_MAX; lia).
      rewrite int_add_small by (unfold INT_MIN, INT_MAX; lia). lia.
  - destruct up; lia.
Qed.

Lemma set_voltage_steps_paced
    (fuel r : nat) (mvolts stp : Z) (up : bool) (lo hi : Z) :
  0 <= stp <= 2000000 -> 0 <= lo -> hi <= 2000000 -> lo <= mvolts <= hi ->
  forall (k : nat) (w w' : world) (ret : Z) (x : dvfs_rail),
    rails w !! r = Some x -> resolving_to x = true ->
    lo <= millivolts x <= hi ->
    (if up then millivolts x <= mvolts else mvolts <= millivolts x) ->
    set_voltage_steps (dvfs_rail_update fuel) r mvolts stp
      (if up then stp else int_neg stp) false k w = Ok (w', ret) ->
    exists suf, reg_log w' = reg_log w ++ suf /\
      paced r (stp * 1000) (lo * 1000) (hi * 1000) (millivolts x * 1000) suf.
Proof.
  intros Hstp Hlo Hhi Hmvolts.
  induction k as [|k IH]; intros w w' ret x Hx Hflag Hrange Hdir H;
    cbn [set_voltage_steps] in H.
  { injection H as <- _. exists []. rewrite app_nil_r. split; reflexivity. }
  rewrite (get_rail_lookup _ _ _ Hx) in H. cbn [rbind] in H.
  destruct (next_step_bounds mvolts stp (millivolts x) up Hstp ltac:(lia) ltac:(lia) Hdir)
    as (Hpace & Hbetween & Hdir').
  set (new := if negb false && _ then _ else _) in *.
  set (w1 := upd_rail r (set_new_millivolts new) w) in H.
  assert (Hx1 : rails w1 !! r = Some (set_new_millivolts new x))
    by (apply lookup_upd_rail_eq, Hx).
  apply rbind_Ok in H as ([w2 ret2] & Hd1 & H).
  destruct (dependents_spare_ramping_rail _ _ _ _ _ _ _ Hx1 Hflag Hd1)
    as (Hx2 & suf1 & Hlog1 & Hothers1).
  change (reg_log w1) with (reg_log w) in Hlog1.
  destruct (paced_others r (stp * 1000) (lo * 1000) (hi * 1000) (millivolts x * 1000)
              suf1 Hothers1) as (Hp1 & Hs1).
  destruct (ret2 =? 0); cbn [negb] in H.
  2:{ injection H as <- _. exists suf1. split; [exact Hlog1|exact Hp1]. }
  rewrite (get_rail_lookup _ _ _ Hx2) in H. cbn [rbind] in H.
  apply rbind_Ok in H as ([w3 ret3] & Hw & H).
  destruct (set_voltage_reg_inv _ _ _ _ _ Hw) as (y & en & _ & -> & Hen_rail & Hen_ret & Hen_uV).
  cbn [new_millivolts set_new_millivolts] in Hen_uV.
  assert (HuV : rw_min_uV en = new * 1000).
  { rewrite Hen_uV. apply wrap_int_small. unfold INT_MIN, INT_MAX. lia. }
  assert (Hown : rw_rail en = r ->
                 Z.abs (rw_min_uV en - millivolts x * 1000) <= stp * 1000 /\
                 lo * 1000 <= rw_min_uV en <= hi * 1000)
    by (intros _; rewrite HuV; lia).
  set (w3 := set_reg_log (reg_log w2 ++ [en]) w2) in H.
  assert (Hx3 : rails w3 !! r = Some (set_new_millivolts new x)) by exact Hx2.
  assert (Hlog3 : reg_log w3 = reg_log w ++ suf1 ++ [en])
    by (cbn; rewrite Hlog1, <- app_assoc; reflexivity).
  assert (Hp3 : paced r (stp * 1000) (lo * 1000) (hi * 1000) (millivolts x * 1000)
                  (suf1 ++ [en])).
  { apply paced_app; [exact Hp1|]. rewrite Hs1. cbn [paced]. auto. }
  destruct (Z.eqb_spec ret3 0) as [->|Hret3]; cbn [negb] in H.
  2:{ injection H as <- _. exists (suf1 ++ [en]). split; [exact Hlog3|exact Hp3]. }
  assert (Hs3 : settle r (suf1 ++ [en]) (millivolts x * 1000) = new * 1000).
  { rewrite settle_app, Hs1. cbn [settle]. rewrite Hen_rail, Nat.eqb_refl, Hen_ret.
    cbn. exact HuV. }
  set (w4 := upd_rail r (fun y => set_millivolts (new_millivolts y) y) w3) in H.
  assert (Hx4 : rails w4 !! r = Some (set_millivolts new (set_new_millivolts new x)))
    by exact (lookup_upd_rail_eq r (fun y => set_millivolts (new_millivolts y) y) w3 _ Hx3).
  rewrite (get_rail_lookup _ _ _ Hx4) in H. cbn [rbind] in H.
  apply rbind_Ok in H as (w5 & Hst & H).
  destruct (rail_stats_update_inv _ _ _ _ Hst) as (st & ->).
  set (w5 := upd_rail r (set_stats st) w4) in H.
  assert (Hx5 : rails w5 !! r
                = Some (set_stats st (set_millivolts new (set_new_millivolts new x))))
    by (apply lookup_upd_rail_eq, Hx4).
  apply rbind_Ok in H as ([w6 ret6] & Hd2 & H).
  destruct (dependents_spare_ramping_rail _ _ _ _ _ _ _ Hx5 Hflag Hd2)
    as (Hx6 & suf2 & Hlog2 & Hothers2).
  change (reg_log w5) with (reg_log w3) in Hlog2.
  destruct (paced_others r (stp * 1000) (lo * 1000) (hi * 1000) (new * 1000)
              suf2 Hothers2) as (Hp2 & Hs2).
  assert (Hlog6 : reg_log w6 = reg_log w ++ (suf1 ++ [en]) ++ suf2)
    by (rewrite Hlog2, Hlog3, <- !app_assoc; reflexivity).
  assert (Hp6 : paced r (stp * 1000) (lo * 1000) (hi * 1000) (millivolts x * 1000)
                  ((suf1 ++ [en]) ++ suf2)).
  { apply paced_app; [exact Hp3|]. rewrite Hs3. exact Hp2. }
  destruct (ret6 =? 0); cbn [negb] in H.
  2:{ injection H as <- _. eexists. split; [exact Hlog6|exact Hp6]. }
  destruct (IH _ _ _ _ Hx6 Hflag ltac:(cbn; lia) Hdir' H) as (suf3 & Hlog7 & Hp7).
  cbn [millivolts set_stats set_millivolts] in Hp7.
  exists (((suf1 ++ [en]) ++ suf2) ++ suf3).
  split; [rewrite Hlog7, Hlog6, <- !app_assoc; reflexivity|].
  apply paced_app; [exact Hp6|]. rewrite settle_app, Hs3, Hs2. exact Hp7.
Qed.

(** X22: a ramp is paced.  On the stepping path of [dvfs_rail_set_voltage],
    when the ramp is not a jump to or from zero, every regulator write made
    for the rail asks for a voltage between the rail's voltage on entry and
    the target, at most one step ([step_up] on the way up, [step] on the way
    down) away from the last voltage the regulator accepted for the rail,
    whatever the regulator answers and whatever the return code. *)
Theorem ramp_is_paced
    (fuel r : nat) (mvolts : Z) (w w' : world) (ret : Z) (x : dvfs_rail) (h : nat) :
  rails w !! r = Some x -> reg x = Some h -> dfll_mode x = false -> disabled x = false ->
  jmp_to_zero x && ((mvolts =? 0) || (millivolts x =? 0)) = false ->
  0 <= millivolts x <= 2000000 -> 0 <= mvolts <= 2000000 ->
  0 <= (if mvolts >? millivolts x then step_up x else step x) <= 2000000 ->
  dvfs_rail_set_voltage fuel r mvolts w = Ok (w', ret) ->
  exists suf, reg_log w' = reg_log w ++ suf /\
    paced r ((if mvolts >? millivolts x then step_up x else step x) * 1000)
      (Z.min (millivolts x) mvolts * 1000) (Z.max (millivolts x) mvolts * 1000)
      (millivolts x * 1000) suf.
Proof.
  intros Hx Hreg Hdfll Hdis Hjmp Hmv Hmvolts Hstp H.
  unfold dvfs_rail_set_voltage, dvfs_rail_set_voltage_body in H.
  rewrite (get_rail_lookup _ _ _ Hx) in H. cbn [rbind] in H.
  rewrite Hreg, Hdfll, Hdis, Hjmp in H.
  apply rbind_Ok in H as (steps & _ & H).
  apply rbind_Ok in H as ([w2 ret2] & Hrun & H).
  apply rbind_Ok in H as (x2 & _ & H). injection H as <- _.
  set (w1 := upd_rail r (set_resolving_to true) w) in Hrun.
  assert (Hx1 : rails w1 !! r = Some (set_resolving_to true x))
    by (apply lookup_upd_rail_eq, Hx).
  set (up := mvolts >? millivolts x) in *.
  assert (Hdir : if up then millivolts x <= mvolts else mvolts <= millivolts x).
  { subst up. destruct (Z.gtb_spec mvolts (millivolts x)); lia. }
  destruct (set_voltage_steps_paced fuel r mvolts (if up then step_up x else step x) up
              (Z.min (millivolts x) mvolts) (Z.max (millivolts x) mvolts)
              Hstp ltac:(lia) ltac:(lia) ltac:(lia)
              (Z.to_nat steps) w1 w2 ret2 _ Hx1 eq_refl ltac:(cbn; lia) Hdir Hrun)
    as (suf & Hlog & Hp).
  exists suf. split; [exact Hlog|exact Hp].
Qed.

Lemma ramp_is_paced_witness :
  let w' := world_after w_refuse (dvfs_rail_set_voltage 0 0 1000 w_refuse) in
  let x := ex_rail "vdd-core" (Some 7%nat) 800 false false None 0 0 [] [] [] in
  exists suf, reg_log w' = reg_log w_refuse ++ suf /\
    paced 0 ((if 1000 >? millivolts x then step_up x else step x) * 1000)
      (Z.min (millivolts x) 1000 * 1000) (Z.max (millivolts x) 1000 * 1000)
      (millivolts x * 1000) suf.
Proof.
  intros w' x.
  apply (ramp_is_paced 0 0 1000 w_refuse w' (-5) x 7);
    [reflexivity | reflexivity | reflexivity | reflexivity | reflexivity
    | simpl; lia | lia | simpl; lia | vm_compute; reflexivity].
Defined.

(** * The entry points return *)

Lemma update_returns (fuel r : nat) (w : world) :
  (length (rails w) < fuel)%nat -> dvfs_rail_update fuel r w <> OutOfFuel.
Proof.
  intros Hfuel. destruct fuel as [|fuel]; [lia|].
  pose proof (update_total fuel r w ltac:(pose proof (free_le_length w); lia)) as Hrun.
  destruct (dvfs_rail_update (S fuel) r w); [discriminate|discriminate|].
  cbn in Hrun. discriminate.
Qed.

Lemma find_dvfs_fuel (w : world) (c : option nat) (ds : list nat) :
  find_dvfs w c ds <> OutOfFuel.
Proof.
  induction ds as [|d ds IH]; cbn [find_dvfs]; [discriminate|].
  apply rbind_fuel; [apply of_option_fuel|]. intros x. destruct (clk_is_match _ _);
    [discriminate|exact IH].
Qed.

Lemma clk_to_dvfs_fuel (w : world) (c : option nat) : tegra_clk_to_dvfs w c <> OutOfFuel.
Proof.
  unfold tegra_clk_to_dvfs. induction (rails w) as [|rail rs IH];
    cbn [find_dvfs_in_rails]; [discriminate|].
  apply rbind_fuel; [apply find_dvfs_fuel|]. intros [d|]; [discriminate|exact IH].
Qed.

Lemma freq_scan_fuel (fr : list Z) (num rate : Z) (n : nat) (i : Z) :
  freq_scan fr num rate n i <> OutOfFuel.
Proof.
  revert i. induction n as [|n IH]; intros i; cbn [freq_scan]; [discriminate|].
  destruct (i <? num); [|discriminate].
  apply rbind_fuel; [apply array_get_fuel|]. intros f. destruct (rate >? f);
    [apply IH|discriminate].
Qed.

Lemma set_rate_returns (fuel d : nat) (rate : Z) (w : world) :
  (length (rails w) < fuel)%nat -> __tegra_dvfs_set_rate fuel d rate w <> OutOfFuel.
Proof.
  intros Hfuel. unfold __tegra_dvfs_set_rate.
  apply rbind_fuel; [apply of_option_fuel|]. intros x.
  destruct (dvfs_get_freqs x) as [fr|]; [|discriminate].
  destruct (dvfs_get_millivolts w x rate) as [mvs|]; [|discriminate].
  apply rbind_fuel; [apply array_get_fuel|]. intros top.
  destruct (_ >? top); [discriminate|].
  apply rbind_fuel.
  - destruct (_ =? 0); [discriminate|].
    apply rbind_fuel; [apply freq_scan_fuel|]. intros i.
    apply rbind_fuel; [apply array_get_fuel|]. intros m. destruct (_ && _); discriminate.
  - intros [m|]; [|discriminate]. apply update_returns. exact Hfuel.
Qed.

(** X23: the entry points return.  Started with no ramp in progress and more
    fuel than there are rails, none of [tegra_dvfs_set_rate],
    [tegra_dvfs_rail_disable], [tegra_dvfs_rail_enable],
    [tegra_dvfs_dfll_mode_set], [tegra_dvfs_core_update_thermal_index] and
    [tegra_dvfs_resume] runs out of fuel: the recursion between the resolver
    and the ramp engine that each of them enters is bounded by the number of
    rails, cyclic relationships included. *)
Theorem entry_points_return
    (fuel : nat) (w : world) (c rail : option nat) (rate new_idx : Z)
    (type : tegra_dvfs_core_thermal_type) :
  quiescent w ->
  (length (rails w) < fuel)%nat ->
  tegra_dvfs_set_rate fuel c rate w <> OutOfFuel /\
  tegra_dvfs_rail_disable fuel rail w <> OutOfFuel /\
  tegra_dvfs_rail_enable fuel rail w <> OutOfFuel /\
  tegra_dvfs_dfll_mode_set fuel c rate w <> OutOfFuel /\
  tegra_dvfs_core_update_thermal_index fuel type new_idx w <> OutOfFuel /\
  tegra_dvfs_resume fuel w <> OutOfFuel.
Proof.
  intros Hq Hfuel. apply quiescent_guards_clear in Hq.
  assert (Hupd : forall r f, dvfs_rail_update fuel r (upd_rail r f w) <> OutOfFuel).
  { intros r f. apply update_returns. rewrite rails_upd_rail, length_alter. exact Hfuel. }
  split; [|split; [|split; [|split; [|split]]]].
  - unfold tegra_dvfs_set_rate. destruct (negb _); [discriminate|].
    apply rbind_fuel; [apply clk_to_dvfs_fuel|]. intros [d|]; [|discriminate].
    apply set_rate_returns, Hfuel.
  - unfold tegra_dvfs_rail_disable. destruct rail as [r|]; [|discriminate].
    unfold get_rail. destruct (rails w !! r) as [x|] eqn:Hx; cbn [of_option rbind];
      [|discriminate].
    destruct (disabled x); [discriminate|]. unfold __tegra_dvfs_rail_disable.
    rewrite (get_rail_lookup _ _ _ Hx). cbn [rbind].
    destruct (dfll_mode x); [discriminate|].
    apply rbind_fuel; [apply apply_limits_fuel|]. intros lvl.
    apply rbind_fuel; [|intros [w1 ret]; destruct (negb _); discriminate].
    destruct (lvl >=? millivolts x); [|discriminate].
    pose proof (set_voltage_total fuel r lvl w x Hfuel Hx
                  (proj1 (Forall_lookup _ _) Hq r x Hx)) as Hrun.
    destruct (dvfs_rail_set_voltage fuel r lvl w); [discriminate|discriminate|].
    cbn in Hrun. discriminate.
  - unfold tegra_dvfs_rail_enable. destruct rail as [r|]; [|discriminate].
    apply rbind_fuel; [apply of_option_fuel|]. intros x.
    destruct (disabled x); [|discriminate]. unfold __tegra_dvfs_rail_enable.
    apply rbind_fuel; [apply Hupd|]. intros [w2 ret]. discriminate.
  - unfold tegra_dvfs_dfll_mode_set.
    apply rbind_fuel; [apply clk_to_dvfs_fuel|]. intros [d|]; [|discriminate].
    apply rbind_fuel; [apply of_option_fuel|]. intros x.
    apply rbind_fuel; [apply of_option_fuel|]. intros y.
    destruct (dfll_mode y); [discriminate|].
    apply rbind_fuel; [|intros [w2 ret]; discriminate].
    apply set_rate_returns. rewrite rails_upd_rail, length_alter. exact Hfuel.
  - unfold tegra_dvfs_core_update_thermal_index.
    destruct (tegra_core_rail w) as [r|]; [|discriminate].
    apply rbind_fuel; [apply of_option_fuel|]. intros x.
    destruct (negb _); [discriminate|].
    destruct type; [| |discriminate].
    + destruct (_ =? _); [discriminate|].
      apply rbind_fuel; [apply Hupd|]. intros [w2 ret]. discriminate.
    + destruct (_ =? _); [discriminate|].
      apply rbind_fuel; [apply Hupd|]. intros [w2 ret]. discriminate.
  - pose proof (resume_post fuel w Hfuel) as Hrun.
    destruct (tegra_dvfs_resume fuel w); [discriminate|discriminate|contradiction].
Qed.

Lemma entry_points_return_witness :
  tegra_dvfs_set_rate 3 (Some 0%nat) 300 w_cycle <> OutOfFuel /\
  tegra_dvfs_rail_disable 3 (Some 0%nat) w_cycle <> OutOfFuel /\
  tegra_dvfs_rail_enable 3 (Some 0%nat) w_cycle <> OutOfFuel /\
  tegra_dvfs_dfll_mode_set 3 (Some 0%nat) 300 w_cycle <> OutOfFuel /\
  tegra_dvfs_core_update_thermal_index 3 TEGRA_DVFS_CORE_THERMAL_CAP 1 w_cycle
  <> OutOfFuel /\
  tegra_dvfs_resume 3 w_cycle <> OutOfFuel.
Proof.
  apply (entry_points_return 3 w_cycle (Some 0%nat) (Some 0%nat) 300 1
           TEGRA_DVFS_CORE_THERMAL_CAP); [reflexivity | simpl; lia].
Defined.

(** * The resolver meets the demand *)

Lemma max_cur_millivolts_bound (w : world) (ds : list nat) :
  forall (acc m : Z),
    max_cur_millivolts w ds acc = Ok m ->
    acc <= m /\
    Forall (fun d => forall c, clocks w !! d = Some c -> cur_millivolts c <= m) ds.
Proof.
  induction ds as [|d ds IH]; intros acc m H; cbn [max_cur_millivolts] in H.
  { injection H as <-. split; [lia|constructor]. }
  apply rbind_Ok in H as (c & Hc%of_option_Ok & H). destruct (IH _ _ H) as (Hacc & Hrest).
  split; [lia|]. constructor; [|exact Hrest].
  intros c' Hc'. assert (c' = c) by congruence. subst c'. lia.
Qed.

(** The retry loop of [dvfs_rail_update] on a rail without incoming
    relationships: a return of 0 means that the rail stands at the demand. *)
Lemma update_retry_meets (fuel r : nat) (m : Z) :
  forall (n : nat) (ret0 : Z) (w w' : world) (ret : Z) (passes : nat) (x : dvfs_rail),
    rails w !! r = Some x -> parked x = false -> relationships_from x = [] ->
    (n = 0%nat -> ret0 = 0 -> millivolts x = m) ->
    dvfs_rail_update_retry (dvfs_rail_set_voltage fuel) r m n ret0 w
    = Ok (w', (ret, passes)) ->
    ret = 0 -> exists x', rails w' !! r = Some x' /\ millivolts x' = m.
Proof.
  induction n as [|n IH]; intros ret0 w w' ret passes x Hx Hp Hrel Hzero H Hret;
    cbn [dvfs_rail_update_retry] in H.
  { injection H as <- <- _. exists x. split; [exact Hx|]. apply Hzero; [reflexivity|exact Hret]. }
  set (w1 := upd_rail r (set_new_millivolts m) w) in H.
  assert (Hx1 : rails w1 !! r = Some (set_new_millivolts m x))
    by (apply lookup_upd_rail_eq, Hx).
  rewrite (get_rail_lookup _ _ _ Hx1) in H. cbn [rbind] in H.
  cbn [relationships_from set_new_millivolts] in H. rewrite Hrel in H.
  cbn [solve_relationships_from rbind] in H.
  rewrite (get_rail_lookup _ _ _ Hx1) in H. cbn [rbind] in H.
  cbn [new_millivolts millivolts set_new_millivolts] in H.
  destruct (Z.eqb_spec m (millivolts x)) as [E|Hne].
  { injection H as <- <- _. eexists. split; [exact Hx1|]. cbn. congruence. }
  apply rbind_Ok in H as ([w3 ret3] & Hsv & H).
  apply rbind_Ok in H as ([w4 [ret4 passes4]] & Hrest & H). injection H as <- <- _.
  assert (Hp1 : parked (set_new_millivolts m x) = false) by exact Hp.
  pose proof (set_voltage_body_steady _ _ _ _ _ _ _ (update_steady fuel) Hx1 Hp1 Hsv) as S.
  destruct (steady_rails _ _ S _ _ Hx1) as (x3 & Hx3 & Hs & _).
  assert (Hdis : disabled (set_new_millivolts m x) = false).
  { unfold parked in Hp. cbn. destruct (disabled x); [discriminate|reflexivity]. }
  destruct (set_voltage_result _ _ _ _ _ _ _ Hx1 Hdis Hsv) as (y & Hy & _ & _ & Hreached).
  assert (y = x3) by congruence. subst y.
  apply (IH ret3 w3 w4 ret4 passes4 x3 Hx3); [| |intros _; exact Hreached|exact Hrest|exact Hret].
  - rewrite (settings_parked _ _ Hs). exact Hp.
  - apply (f_equal relationships_from) in Hs. cbn in Hs. congruence.
Qed.

(** X24: the resolver meets the demand.  On a rail that is not parked, has
    no incoming relationships and is not ramping, a [dvfs_rail_update] that
    returns 0 leaves the rail at the voltage it settled on: the override if
    one is set, and otherwise the largest voltage any of its clocks asks
    for, so that no clock of the rail asks for more than the rail supplies. *)
Theorem resolve_success_meets_demand
    (fuel r : nat) (w w' : world) (x : dvfs_rail) (m : Z) :
  rails w !! r = Some x -> parked x = false -> resolving_to x = false ->
  relationships_from x = [] ->
  0 < step x <= 2000000 -> 0 <= millivolts x <= 2000000 -> 0 <= m <= 2000000 ->
  dvfs_rail_demand w x = Ok (Some m) ->
  dvfs_rail_update fuel r w = Ok (w', 0) ->
  exists x', rails w' !! r = Some x' /\ millivolts x' = m /\
    (override_millivolts x = 0 ->
     Forall (fun d => forall c, clocks w !! d = Some c -> cur_millivolts c <= millivolts x')
            (dvfs_list x)).
Proof.
  intros Hx Hp Hflag Hrel Hstep Hmv Hm Hdemand H.
  destruct fuel as [|fuel]; [discriminate|].
  rewrite update_unfold in H. apply rbind_Ok in H as ([w1 [ret1 passes]] & Hb & H).
  injection H as <- ->. unfold dvfs_rail_update_body in Hb.
  rewrite (get_rail_lookup _ _ _ Hx) in Hb. cbn [rbind] in Hb.
  unfold parked in Hp. apply orb_false_elim in Hp as (Hp & Hreg).
  apply orb_false_elim in Hp as (Hdis & Hsus).
  rewrite Hdis, Hsus, Hreg, Hflag, Hdemand in Hb. cbn [rbind] in Hb.
  apply rbind_Ok in Hb as (steps & Hsteps & Hb).
  assert (Hsteps0 : 0 <= steps).
  { unfold DIV_ROUND_UP, int_div in Hsteps.
    rewrite (int_sub_small m (millivolts x)) in Hsteps by (unfold INT_MIN, INT_MAX; lia).
    rewrite int_abs_small in Hsteps by (unfold INT_MAX; lia).
    rewrite int_add_small in Hsteps by (unfold INT_MIN, INT_MAX; lia).
    rewrite int_sub_small in Hsteps by (unfold INT_MIN, INT_MAX; lia).
    destruct (Z.eqb_spec (step x) 0); [lia|].
    destruct (_ && _); [discriminate|]. injection Hsteps as <-.
    apply Z.quot_pos; lia. }
  assert (Hpk : parked x = false) by (unfold parked; rewrite Hdis, Hsus, Hreg; reflexivity).
  destruct (update_retry_meets fuel r m (Z.to_nat (steps + 1)) 0 w w1 0 passes x
              Hx Hpk Hrel ltac:(lia) Hb eq_refl) as (x' & Hx' & Hreached).
  exists x'. split; [exact Hx'|]. split; [exact Hreached|].
  intros Hover. unfold dvfs_rail_demand in Hdemand.
  apply rbind_Ok in Hdemand as (mx & Hmax & Hdemand).
  destruct (max_cur_millivolts_bound _ _ _ _ Hmax) as (_ & Hall).
  assert (m = mx).
  { destruct (Z.eqb_spec mx 0) as [->|Hne]; cbn [negb] in Hdemand.
    - destruct (in_band_pm x); [discriminate|].
      destruct (jmp_to_zero x); cbn [negb] in Hdemand; [|discriminate].
      injection Hdemand as <-. reflexivity.
    - apply rbind_Ok in Hdemand as (v & Hv%apply_limits_value & Hdemand).
      injection Hdemand as <-. rewrite Hover in Hv. exact Hv. }
  subst mx. rewrite Hreached. exact Hall.
Qed.

Lemma resolve_success_meets_demand_witness :
  let w' := world_after w_plain_clock
              (dvfs_rail_update 2 0
                 (upd_dvfs 0 (fun y => set_cur_rate 200 (set_cur_millivolts 900 y))
                    w_plain_clock)) in
  let w := upd_dvfs 0 (fun y => set_cur_rate 200 (set_cur_millivolts 900 y))
             w_plain_clock in
  let x := ex_rail "vdd-cpu" (Some 0%nat) 800 false false None 0 0 [0%nat] [] [] in
  exists x', rails w' !! 0%nat = Some x' /\ millivolts x' = 900 /\
    (override_millivolts x = 0 ->
     Forall (fun d => forall c, clocks w !! d = Some c -> cur_millivolts c <= millivolts x')
            (dvfs_list x)).
Proof.
  intros w' w x.
  apply (resolve_success_meets_demand 2 0 w w' x 900);
    [reflexivity | reflexivity | reflexivity | reflexivity | simpl; lia | simpl; lia | lia
    | reflexivity | vm_compute; reflexivity].
Defined.

(** * Suspend levels *)

Lemma set_voltage_steady_awake
    (fuel r : nat) (mvolts : Z) (w w1 : world) (ret : Z) (x : dvfs_rail) :
  rails w !! r = Some x -> disabled x = false -> suspended x = false ->
  dvfs_rail_set_voltage fuel r mvolts w = Ok (w1, ret) -> steady w w1.
Proof.
  intros Hx Hdis Hsus Hrun. destruct (reg x) as [h|] eqn:Hreg.
  - eapply (set_voltage_body_steady _ _ _ _ _ _ _ (update_steady fuel) Hx); [|exact Hrun].
    unfold parked, has_reg. rewrite Hdis, Hsus, Hreg. reflexivity.
  - unfold dvfs_rail_set_voltage, dvfs_rail_set_voltage_body in Hrun.
    rewrite (get_rail_lookup _ _ _ Hx) in Hrun. cbn [rbind] in Hrun. rewrite Hreg in Hrun.
    destruct (_ =? _); injection Hrun as <- _; apply steady_refl.
Qed.

(** A pass of the suspend loop that succeeds: a ramp of the rail it picked,
    then the flag. *)
Lemma suspend_one_from_pass (fuel : nat) (rs : list nat) (w w1 : world) :
  suspend_one_from fuel rs w = Ok (w1, 0) ->
  exists r x w_sv x_sv,
    rails w !! r = Some x /\ suspended x = false /\ disabled x = false /\
    steady w w_sv /\ rails w_sv !! r = Some x_sv /\
    millivolts x_sv = Z.max (suspend_target x) (millivolts x) /\
    w1 = upd_rail r (set_suspended true) w_sv.
Proof.
  induction rs as [|r rs IH]; cbn [suspend_one_from]; intros H.
  { injection H as _ E. unfold EINVAL in E. discriminate. }
  apply rbind_Ok in H as (x & Hx%get_rail_Ok & H).
  destruct (suspended x) eqn:Hs; [apply IH, H|].
  destruct (disabled x) eqn:Hd; [apply IH, H|].
  apply rbind_Ok in H as (ok & _ & H). destruct ok; cbn [negb] in H; [|apply IH, H].
  clear IH. unfold suspend_rail in H.
  apply rbind_Ok in H as (lvl & Hlvl%apply_limits_value & H).
  fold (suspend_target x) in Hlvl. subst lvl.
  apply rbind_Ok in H as ([w' ret] & Hrun & H).
  destruct (Z.eqb_spec ret 0) as [->|Hne]; cbn [negb] in H;
    [|injection H as _ E; congruence].
  injection H as <-. exists r, x, w'.
  destruct (Z.geb_spec (suspend_target x) (millivolts x)) as [Hge|Hlt].
  - destruct (set_voltage_result _ _ _ _ _ _ _ Hx Hd Hrun) as (x' & Hx' & _ & _ & Hreached).
    exists x'. split; [exact Hx|]. split; [exact Hs|]. split; [exact Hd|].
    split; [apply (set_voltage_steady_awake _ _ _ _ _ _ _ Hx Hd Hs Hrun)|].
    split; [exact Hx'|]. split; [|reflexivity]. rewrite Hreached by reflexivity. lia.
  - injection Hrun as <-. exists x. split; [exact Hx|]. split; [exact Hs|].
    split; [exact Hd|]. split; [apply steady_refl|]. split; [exact Hx|].
    split; [lia|reflexivity].
Qed.

Lemma settings_suspend_target (x y : dvfs_rail) :
  settings (set_suspended false y) = settings (set_suspended false x) ->
  suspend_target y = suspend_target x /\ disabled y = disabled x.
Proof.
  intros H. unfold suspend_target, tegra_dvfs_rail_get_suspend_level.
  pose proof (f_equal override_millivolts H) as Ho.
  pose proof (f_equal suspend_millivolts H) as Hsm.
  pose proof (f_equal nominal_millivolts H) as Hn.
  pose proof (f_equal disabled H) as Hd. cbn in Ho, Hsm, Hn, Hd.
  rewrite Ho, Hsm, Hn. auto.
Qed.

Lemma suspending_refl (w : world) : suspending w w.
Proof.
  intros i x Hx. exists x. split; [exact Hx|]. split; [reflexivity|]. split; [auto|].
  intros Ha Hb. congruence.
Qed.

Lemma suspending_pass (fuel : nat) (w0 w w1 : world) :
  suspending w0 w -> tegra_dvfs_suspend_one fuel w = Ok (w1, 0) -> suspending w0 w1.
Proof.
  intros Hrel H.
  destruct (suspend_one_from_pass _ _ _ _ H)
    as (r & xr & w_sv & x_sv & Hxr & Hsr & Hdr & S & Hx_sv & Hmv & ->).
  intros i x Hx. destruct (Hrel i x Hx) as (y & Hy & Hset & Hsame & Hlvl).
  destruct (steady_rails _ _ S _ _ Hy) as (y_sv & Hy_sv & Hs & Hp).
  assert (Hset_sv : settings (set_suspended false y_sv) = settings (set_suspended false x)).
  { rewrite <- Hset. change (settings (set_suspended false y_sv))
      with (set_suspended false (settings y_sv)).
    rewrite Hs. reflexivity. }
  destruct (decide (r = i)) as [<-|Hne].
  - assert (y = xr) by congruence. subst y.
    assert (y_sv = x_sv) by congruence. subst y_sv.
    exists (set_suspended true x_sv). split; [apply lookup_upd_rail_eq, Hx_sv|].
    split; [exact Hset_sv|]. split.
    + intros Hpark. rewrite (Hsame Hpark) in Hsr, Hdr. destruct Hpark; congruence.
    + intros _ _. cbn. rewrite Hmv.
      destruct (settings_suspend_target _ _ Hset) as (Htarget & _). lia.
  - exists y_sv. split; [rewrite lookup_upd_rail_ne by exact Hne; exact Hy_sv|].
    split; [exact Hset_sv|]. split.
    + intros Hpark. rewrite <- (Hsame Hpark). apply Hp. rewrite (Hsame Hpark).
      unfold parked. destruct Hpark as [-> | ->]; [|reflexivity].
      destruct (disabled x); reflexivity.
    + intros Hawake Hsusp.
      assert (Hsy : suspended y = true).
      { apply (f_equal suspended) in Hs. cbn in Hs. congruence. }
      rewrite Hp; [apply Hlvl; assumption|].
      unfold parked. rewrite Hsy. destruct (disabled y); reflexivity.
Qed.

Lemma suspend_loop_levels (fuel : nat) (w0 : world) :
  forall (n : nat) (w w' : world),
    suspending w0 w -> suspend_loop fuel n w = Ok (w', 0) ->
    suspending w0 w' /\ tegra_dvfs_all_rails_suspended w' = true.
Proof.
  induction n as [|n IH]; intros w w' Hrel H; cbn [suspend_loop] in H.
  - destruct (tegra_dvfs_all_rails_suspended w) eqn:Hall; [|discriminate].
    injection H as <-. auto.
  - destruct (tegra_dvfs_all_rails_suspended w) eqn:Hall.
    { injection H as <-. auto. }
    apply rbind_Ok in H as ([w1 ret] & Hone & H).
    destruct (Z.eqb_spec ret 0) as [->|Hne]; cbn [negb] in H;
      [|injection H as _ E; congruence].
    apply (IH w1 w'); [|exact H]. eapply suspending_pass; eassumption.
Qed.

(** X25: after [tegra_dvfs_suspend] has returned 0, every rail that was
    neither suspended nor disabled is suspended and stands at or above its
    suspend level (its override, when one is set), whatever was ramped after
    it in the same run; it has changed in nothing but that flag and its
    run-time state.  A rail that was suspended or disabled before is exactly
    as it was. *)
Theorem suspend_leaves_rails_at_level (fuel : nat) (w w' : world) :
  tegra_dvfs_suspend fuel w = Ok (w', 0) ->
  forall i x, rails w !! i = Some x ->
    exists x', rails w' !! i = Some x' /\
      settings (set_suspended false x') = settings (set_suspended false x) /\
      (suspended x = true \/ disabled x = true -> x' = x) /\
      (suspended x = false -> disabled x = false ->
       suspended x' = true /\ suspend_target x <= millivolts x').
Proof.
  intros H i x Hx. unfold tegra_dvfs_suspend in H.
  apply rbind_Ok in H as ([w1 ret] & Hloop & H).
  destruct (Z.eqb_spec ret 0) as [->|Hne]; cbn [negb] in H.
  2:{ apply rbind_Ok in H as (w2 & _ & H). injection H as _ E. congruence. }
  injection H as <-.
  destruct (suspend_loop_levels fuel w fuel w w1 (suspending_refl w) Hloop) as (Hrel & Hall).
  destruct (Hrel i x Hx) as (x' & Hx' & Hset & Hsame & Hlvl).
  exists x'. split; [exact Hx'|]. split; [exact Hset|]. split; [exact Hsame|].
  intros Hs Hd.
  assert (Hsusp : suspended x' = true).
  { unfold tegra_dvfs_all_rails_suspended in Hall. rewrite forallb_forall in Hall.
    specialize (Hall x' ltac:(apply list_elem_of_In; eapply list_elem_of_lookup_2, Hx')).
    destruct (settings_suspend_target _ _ Hset) as (_ & Hdis).
    rewrite Hdis, Hd, orb_false_r in Hall. exact Hall. }
  split; [exact Hsusp|]. apply Hlvl; assumption.
Qed.

Lemma suspend_leaves_rails_at_level_witness :
  let w' := world_after w_chain (tegra_dvfs_suspend 3 w_chain) in
  match rails w_chain !! 0%nat with
  | Some x =>
      exists x', rails w' !! 0%nat = Some x' /\
        settings (set_suspended false x') = settings (set_suspended false x) /\
        (suspended x = true \/ disabled x = true -> x' = x) /\
        (suspended x = false -> disabled x = false ->
         suspended x' = true /\ suspend_target x <= millivolts x')
  | None => False
  end.
Proof.
  intros w'.
  assert (Hrun : tegra_dvfs_suspend 3 w_chain = Ok (w', 0)) by (vm_compute; reflexivity).
  generalize (suspend_leaves_rails_at_level 3 w_chain w' Hrun 0%nat).
  destruct (rails w_chain !! 0%nat) as [x|] eqn:E.
  - intros H. exact (H x eq_refl).
  - vm_compute in E. discriminate E.
Defined.
